(* ===== verification/_CoqProject ===== *)
-Q . S2P
Prelude.v
Digits.v
Files.v
Obj.v
Bus.v
Cpu.v
Instr.v
Lockstep.v
Decode.v
CpuFacts.v
CpuSpec.v
CpuRegs.v
Mem.v
CpuMem.v
CpuPlaces.v
Load.v
Listing.v
CpuProps.v
Programs.v
MemProps.v
ToolProps.v
Heap.v
LoadHeap.v
Disk.v
DiskProps.v
DataBus.v
Transfer.v
TransferFacts.v
TransferRuns.v
TransferProps.v
Threads.v
ThreadsProps.v
Sockets.v
DataSocket.v
DataSocketFacts.v
SocketProps.v
Startup.v
Trace.v
Shutdown.v
EndProps.v
PriorityBus.v
Arbiter.v
StartProps.v
PriorityFacts.v
PrioritySpec.v
ArbiterFacts.v
Handshake.v
PriorityProps.v
AtticOpcodes.v
AtticMemory.v
AtticAddressing.v
AtticInstr.v
AtticMachine.v
AtticLoad.v
AtticDisk.v
AtticHeap.v
HeapProps.v
AtticFacts.v
AtticSafe.v
AtticRegs.v
AtticTty.v
AtticPlaces.v
Agree.v
AtticDrive.v
AtticDump.v
DumpProps.v
AtticObj.v
AtticMain.v
AtticMainFacts.v
MainProps.v
AtticAsm.v
AtticAsmFacts.v
AsmProps.v
AgreeProps.v
AtticProps.v
SampleProps.v
