(* ===== verification/Prelude.v ===== *)
(** * xmachine: a verification development

    The repository emulates a PDP-11 twice.  The program under [src/src] is made
    of processes: a processor, a memory and a disk, joined by a Unibus that is
    emulated with datagram sockets.  Every device has a main thread and two bus
    threads (the priority bus, which decides who is bus master, and the data bus,
    which carries the transfers); one more thread is the arbiter.  The program
    under [attic/src], retired, is one process with one memory array, whose words
    are the registers, the terminal and the disk controller too.  This library
    models the C code of the parts and proves what they do.

    ** How the parts of the multi-process machine interact

    [cpu/cpu.c] runs instructions.  Its operands are in registers, which have
    bus addresses of their own, or on the bus: [fetch_data], [store_data] and
    [store_data_b] call [read_data_in], [write_data_out] and [write_data_out_b]
    of [libunibus/device_bus_mgr.c].  Such a call leaves a request for the data
    bus thread ([libunibus/data_bus.c]), which sends a datagram to the memory;
    there the data bus thread leaves it for the main thread ([mem/mem.c]), whose
    answer travels back.  The memory is filled at the start by [libload/load.c].
    The disk ([disk/disk.c]) is written to be served the same way.

    Before a transfer a device may ask for the bus: [req_bus_master] raises a
    flag that its priority bus thread ([libunibus/priority_bus.c]) turns into a
    request; requests run along the chain of devices to the arbiter
    ([libunibus/bus_arb.c]), grants run back and are taken by the first device
    that waits for one.

    A device starts in its [main]: the command line, [init_bus], and then
    [connect_cpu_bus] or [connect_device_bus], which create the two bus threads
    and wait for each of them.  It ends in [cleanup] or in its signal handler.

    ** Files

    - [Prelude]: octal literals, C's integer types as ranges of [Z] with their
      conversions [u8], [u16], [u32], bit lemmas, and the monad [M]: a C function
      on a state [S] returns [Done a s], is [Blocked] (waits for ever) or is a
      [Fault] (undefined behaviour: an access outside an array, a NULL pointer).
      [hoare] and [stable] are the triples the component lemmas are stated with,
      [stable_walk] and the hint databases discharge the common cases.
    - [Digits], [Files]: the numbers and characters that the programs print and
      read, and files read with [fread] and [fseek].
    - [Bus]: the types of [libunibus/bus_state.h] and the interface between
      devices, the classes [MasterBus] (the three transfers) and [MasterBusOk]
      (what a client may rely on).
    - [Cpu], [Instr]: [cpu/cpu.c], over any [MasterBus].  [Cpu] has the record,
      the register file, the addressing modes and the flag helpers; [Instr] one
      definition per handler, the four masked switches of [exec_instruction]
      ([decode] and [dispatch]), [execute_once] and the loop of [execute].
    - [Decode]: the words of every instruction as intervals.
    - [CpuFacts], [CpuSpec], [CpuRegs], [CpuMem]: the component lemmas.
      [CpuFacts]: every operation keeps the record in the ranges of its C types.
      [CpuSpec]: the specification, a table of operand instructions with one
      executor, and the refinement of every handler to its row.  [CpuRegs]:
      closed forms on register operands and the frame of the status word.
      [CpuMem]: the processor joined with the memory device.  [CpuPlaces]: the
      operands of word instructions as places, registers or low words.
    - [Lockstep]: a relation between two buses that every call keeps ([BusSim])
      is kept by every instruction and by [execute].
    - [Mem], [Load]: [mem/mem.c], which is an instance of [MasterBus] and
      [MasterBusOk], and [libload/load.c].  [Listing], [Obj]:
      [utilities/loader.c] and [libobj/obj.c].  [Heap], [LoadHeap]: blocks,
      [malloc] and [free], and on them the reader of a.out files, [aout_free] and
      the listing tool.
    - [Disk], [DiskProps]: [disk/disk.c].
    - [DataBus], [Transfer], [TransferFacts], [TransferRuns]:
      [libunibus/data_bus.c] and the transfer half of
      [libunibus/device_bus_mgr.c]: the code of the threads cut where another
      thread can come in between, and its interleavings.  [Threads]: the bus of
      the processor's program as the four threads, a scheduler choosing their
      steps, an instance of [MasterBus] that [Lockstep] relates to the memory
      device.
    - [Sockets]: a process with its descriptor table and the datagram sockets it
      reaches, over any type of datagram ([Datagram]).  [DataSocket],
      [DataSocketFacts]: the sockets of [libunibus/data_bus.c], whose two sides
      are instances of one interface ([Side]).  [Startup]: [init_bus], the
      creation of the threads and the waits of [device_bus_mgr.c],
      [libunibus/util.c], [libunibus/debug.c] and the three [main]s up to their
      loops.  [Trace]: what the processor prints for every instruction.
      [Shutdown]: [cleanup], [cleanup_bus] with its joins and the signal handlers,
      and the loop of [execute] with that text.
    - [PriorityBus] and [Arbiter]: [libunibus/priority_bus.c] with the
      mastership calls, and [libunibus/bus_arb.c].  [PrioritySpec] and
      [ArbiterFacts]: the same without sockets, and the refinements;
      [PriorityFacts]: the lemmas on descriptors they share.  [Handshake]: the
      arbiter and one device as two processes with two queues.
    - [AtticMemory]: [attic/src/memory.c] with the handlers that run when a
      device's word is accessed.  [AtticOpcodes], [AtticAddressing], [AtticInstr]:
      [attic/src/include/opcodes.h] and [attic/src/handlers.c].  [AtticMachine]: [attic/src/tty.c] and the loop of
      [attic/src/machine.c].  [AtticLoad]: [attic/src/objreader.c] and the loader
      of [attic/src/machine.c].  [AtticDisk]: [attic/src/disk.c].  [AtticHeap]: the
      blocks of the program, their allocation and release.
    - [AtticFacts], [AtticSafe], [AtticRegs]: closed forms of the accesses and
      handlers; the invariant of every instruction and round ([partial], a triple
      that allows an access outside the array); instructions on registers, in
      terms of the rows of [CpuSpec].  [AtticTty], [AtticDrive], [AtticObj]: the
      protocols of a program with the terminal and of a driver with the disk,
      and the format of object files.  [AtticPlaces], [Agree]: the places of
      [CpuPlaces] in the retired emulator, and the relation between the two
      emulators that portable instructions keep.
    - [AtticDump]: [dump_state] and the single-step mode of
      [attic/src/machine.c].  [AtticMain], [AtticMainFacts]: its [main], the
      machine and the disk as two threads on one memory, the SIGINT handler
      ([sure] is a triple for code that always returns).  [AtticAsm],
      [AtticAsmFacts]: [attic/src/asm.c].
    - [CpuProps], [Programs], [MemProps], [ToolProps], [DiskProps],
      [TransferProps], [SocketProps], [StartProps], [EndProps], [PriorityProps],
      [ThreadsProps], [HeapProps], [AgreeProps], [DumpProps], [MainProps],
      [AsmProps], [AtticProps]: the properties C1 to C40, those with
      hypotheses with a witness at a concrete input, and further theorems on the
      same definitions; [SampleProps]: a sample program from its text to its
      output.

    ** What the properties show

    - C1 to C9, the processor: on any bus its code never dereferences NULL and
      keeps every field in range; how its process ends, by a HALT and by a
      signal, and all it prints; its program on the four threads of the data bus is its program on
      the memory device, under every scheduler in one direction and under a
      stated one in the other; decoding inverts encoding; branches take the
      documented condition; the operand instructions refine the table; which bits
      of the status word change.  On the memory: JSR and RTS as the code has them, for
      every value of SP.
    - C10 to C13, memory and loader: the request handler refines an abstract byte
      array, the bounds of the array, parsing inverts encoding, and the boot from
      the two command lines to the first instruction.
    - C14 to C16, the disk: safety, the flag it never sets, the round trip of a
      sector through the image.
    - C17 to C20, the transfer: on the intended schedule four interleaved threads
      implement one atomic memory and complete; the sockets implement the queues
      between them; a schedule that loses a wakeup.
    - C21 to C23, start and sockets: the outcomes of a start, in every
      interleaving of its three threads, and exactly when it hangs; the life of a device's socket; the
      neighbour that is not there.
    - C24 to C27, mastership: the bus thread and the arbiter refine two machines
      without sockets; together they hand the bus over and take it back, if the
      arbiter addresses the device, in exactly the orders that contain a plan; with
      the address it has, it reaches nobody.
    - C28 and C29, the two emulators: their branches agree, with the stated
      exception; a program that keeps to the instructions and operands both
      carry out alike, assembled, loaded and run in both, ends with the same
      registers and memory.
    - C30 to C33, C36 and C39, the retired emulator: its terminal echoes; a driver
      writes a sector and reads it back through its disk; machine, disk and
      interrupts in any order keep all types; which ways of starting the program
      let it end; its object reader places a text block; its dump changes what it
      shows.
    - C34 and C35, the heap: the listing tool frees what it allocates on every
      path; so does the retired emulator, if its allocations succeed.
    - C37, C38, C40, the tools: what is assembled is what the emulator loads; which
      sources the assembler gets through; the object-file reader finds the text
      blocks.  C36 and C40 are about the blocks as the code takes them, and say what
      becomes of blocks as [notes/obj.md] describes them.

    ** Conventions and bounds

    A [uint16_t] is a [Z] in [0, 65536); the conversions at assignments are
    written out.  A memory array is a [gmap] with exactly the indices 0 to 65534.
    The loop of [execute] takes fuel, one unit per instruction: [None] is "still
    running", [Programs.execute_fuel_monotone] shows that more fuel does not
    change a result, and [Programs.countdown_halts] states the fuel a program needs.  [run_machine] and
    [exec_disk] of the retired emulator take fuel in the same way; its disk
    properties are about single rounds, any number of them from three on between
    two accesses of the driver.  The object reader's loop has one more round than
    the file has bytes, which C36 shows to be enough; the assembler's loop one
    more than its source has characters (C38); [Obj.read] takes its rounds as an
    argument and C40 says how many are needed, or that none are enough; the dumps
    have 1024 rows, all of [MEMWORDS].  The handlers of the
    retired memory run further accesses, nested three deep at most;
    [AtticFacts.nesting_enough] shows that they nest once.  The threads of the
    data bus have no fuel: their runs are the relation [reachable]; those of the
    start are [start_reach], those of the retired program lists of turns.  A result of
    [read(2)] is a stream of short reads and errors; memory allocation can fail.

    ** Outside the model

    Progress output of the bus ([dbg_bus] is in [Startup]), usage texts and
    [CPU_P]; sleeping; terminal modes; which addresses [malloc] returns.  The fields
    of [bus_state] that [init_bus] does not set are NULL and 0 here ([cpu_boot],
    [init_bus]).  Sockets are modelled up to permissions and full queues.  In the
    relation of the data bus's threads a datagram that is sent arrives, as C19 says
    it does between devices that run.  Spurious wake-ups, and signals that the
    kernel gives to a bus thread, are left out; the handler of the processor runs
    between two instructions.  [disk/disk.c] switches on a request it never fills,
    which is an argument here.  The retired disk's thread and processor interleave
    by whole rounds and accesses, and the disk registers its handlers before the
    first round.  In [AtticMain] the disk's thread takes its first turn behind the
    loading of the program, in [machine.c] it is started before; only a file that
    writes RXCS could tell.  Not modelled: [tty/tty.c], whose code is commented out;
    the sample programs, except the one of [SampleProps]. *)
From Stdlib Require Export ZArith Lia Bool List.
From stdpp Require Export base tactics option list numbers gmap relations.

#[global] Open Scope Z_scope.

(** ** Octal literals *)

(** Reads the decimal digits of [n] as octal digits: the sources write all
    their constants in octal. *)
Fixpoint octal_digits (k : nat) (n : Z) : Z :=
  match k with
  | O => 0
  | S k' => if n =? 0 then 0 else n mod 10 + 8 * octal_digits k' (n / 10)
  end.

Definition octal (n : Z) : Z := octal_digits 12 n.

Declare Scope xm_scope.
Delimit Scope xm_scope with xm.
#[global] Open Scope xm_scope.

Notation "'oct!' n" :=
  ltac:(let v := eval vm_compute in (octal n) in exact v)
  (at level 9, n at level 0, only parsing) : xm_scope.

(** ** Machine integers

    A C integer of type [uintN_t] is a [Z] of the range below; a conversion to
    the type is reduction modulo [2^N].  [i8] is the conversion of an unsigned
    value to [int8_t] (two's complement, as GCC defines it). *)
Abbreviation is_u8 x := (0 <= x < 256).
Abbreviation is_u16 x := (0 <= x < 65536).
Abbreviation is_u32 x := (0 <= x < 4294967296).

Definition u8 (x : Z) : Z := x mod 256.
Definition u16 (x : Z) : Z := x mod 65536.
Definition u32 (x : Z) : Z := x mod 4294967296.
Definition i8 (x : Z) : Z := (x + 128) mod 256 - 128.

(** The C truth value of a comparison and the C test of a value. *)
Definition truth (x : Z) : bool := negb (x =? 0).

(** ** Outcomes of C code

    A step of a thread returns, waits forever ([Blocked]: a condition variable
    nobody will signal), or runs into undefined behaviour ([Fault]: a NULL
    pointer, an index outside an array). *)
Inductive outcome (S A : Type) : Type :=
| Done (a : A) (s : S)
| Blocked
| Fault.
Arguments Done {S A} a s.
Arguments Blocked {S A}.
Arguments Fault {S A}.

Definition M (S A : Type) : Type := S -> outcome S A.

#[export] Instance M_ret {S} : MRet (M S) := fun A a s => Done a s.
#[export] Instance M_bind {S} : MBind (M S) := fun A B f m s =>
  match m s with
  | Done a s' => f a s'
  | Blocked => Blocked
  | Fault => Fault
  end.

Definition gets {S A} (f : S -> A) : M S A := fun s => Done (f s) s.
Definition modify {S} (f : S -> S) : M S unit := fun s => Done tt (f s).
Definition block {S A} : M S A := fun _ => Blocked.
Definition fault {S A} : M S A := fun _ => Fault.

(** Dereference of a possibly absent object. *)
Definition the {S A} (o : option A) : M S A :=
  match o with Some a => mret a | None => fault end.

Definition when {S} (b : bool) (m : M S unit) : M S unit :=
  if b then m else mret tt.

(** A C [switch] whose cases all end in [break]. *)
Fixpoint switch {A} (x : Z) (cases : list (Z * A)) (default : A) : A :=
  match cases with
  | [] => default
  | (k, a) :: rest => if x =? k then a else switch x rest default
  end.

(** ** Arrays: a finite map whose domain is exactly the valid indices *)
Fixpoint array_from (i : Z) (n : nat) (f : Z -> Z) : gmap Z Z :=
  match n with
  | O => ∅
  | S n' => <[i := f i]> (array_from (i + 1) n' f)
  end.

Definition array (n : nat) (f : Z -> Z) : gmap Z Z := array_from 0 n f.

(** ** Lemmas on machine integers *)

(** Linear arithmetic with division and remainder by constants. *)
Ltac mod_lia :=
  unfold u8, u16, u32, i8 in *; Z.to_euclidean_division_equations; lia.

Lemma u8_range x : is_u8 (u8 x).
Proof. apply Z.mod_pos_bound; lia. Qed.

Lemma u16_range x : is_u16 (u16 x).
Proof. apply Z.mod_pos_bound; lia. Qed.

Lemma u32_range x : is_u32 (u32 x).
Proof. apply Z.mod_pos_bound; lia. Qed.

Lemma i8_range x : -128 <= i8 x < 128.
Proof. unfold i8. pose proof (Z.mod_pos_bound (x + 128) 256). lia. Qed.

Lemma u8_id x : is_u8 x -> u8 x = x.
Proof. apply Z.mod_small. Qed.

Lemma u16_id x : is_u16 x -> u16 x = x.
Proof. apply Z.mod_small. Qed.

Lemma u32_id x : is_u32 x -> u32 x = x.
Proof. apply Z.mod_small. Qed.

Lemma u16_u16 x : u16 (u16 x) = u16 x.
Proof. apply u16_id, u16_range. Qed.

Lemma u8_u16 x : u8 (u16 x) = u8 x.
Proof. mod_lia. Qed.

Lemma u16_add_l a b : u16 (u16 a + b) = u16 (a + b).
Proof. mod_lia. Qed.

Lemma u16_add_r a b : u16 (a + u16 b) = u16 (a + b).
Proof. apply Zplus_mod_idemp_r. Qed.

Lemma u16_sub_r a b : u16 (a - u16 b) = u16 (a - b).
Proof. apply Zminus_mod_idemp_r. Qed.

Lemma land_le a b : 0 <= b -> 0 <= Z.land a b <= b.
Proof.
  intros Hb. split; [apply Z.land_nonneg; lia |].
  assert (H : b - Z.land b a = Z.ldiff b (Z.land b a)).
  { apply Z.sub_nocarry_ldiff, Z.bits_inj'. intros n Hn.
    rewrite Z.ldiff_spec, Z.land_spec, Z.bits_0.
    by destruct (Z.testbit b n), (Z.testbit a n). }
  assert (0 <= Z.ldiff b (Z.land b a)) by (apply Z.ldiff_nonneg; lia).
  rewrite Z.land_comm. lia.
Qed.

Lemma small_testbit x w n : 0 <= x < 2 ^ w -> 0 <= w <= n -> Z.testbit x n = false.
Proof.
  intros Hx Hn. destruct (decide (x = 0)) as [->|]; [apply Z.bits_0|].
  apply Z.bits_above_log2; [lia|].
  apply Z.lt_le_trans with w; [apply Z.log2_lt_pow2; lia | lia].
Qed.

Lemma testbit_small x w :
  0 <= w -> 0 <= x -> (forall n, w <= n -> Z.testbit x n = false) -> x < 2 ^ w.
Proof.
  intros Hw Hx H. destruct (decide (x = 0)) as [->|]; [apply Z.pow_pos_nonneg; lia|].
  apply Z.log2_lt_pow2; [lia|].
  destruct (Z.lt_ge_cases (Z.log2 x) w) as [|Hge]; [done|].
  specialize (H _ Hge). rewrite Z.bit_log2 in H by lia. done.
Qed.

Lemma lor_range w a b :
  0 <= w -> 0 <= a < 2 ^ w -> 0 <= b < 2 ^ w -> 0 <= Z.lor a b < 2 ^ w.
Proof.
  intros Hw Ha Hb. assert (0 <= Z.lor a b) by (apply Z.lor_nonneg; lia).
  split; [done|]. apply testbit_small; [done..|]. intros n Hn.
  rewrite Z.lor_spec, !(small_testbit _ w) by lia. done.
Qed.

Lemma lxor_range w a b :
  0 <= w -> 0 <= a < 2 ^ w -> 0 <= b < 2 ^ w -> 0 <= Z.lxor a b < 2 ^ w.
Proof.
  intros Hw Ha Hb. assert (0 <= Z.lxor a b) by (apply Z.lxor_nonneg; lia).
  split; [done|]. apply testbit_small; [done..|]. intros n Hn.
  rewrite Z.lxor_spec, !(small_testbit _ w) by lia. done.
Qed.

Lemma lor_ge a b : 0 <= a -> 0 <= b -> b <= Z.lor a b.
Proof.
  intros Ha Hb. pose proof (land_le b (Z.lor a b)) as H.
  assert (Z.land b (Z.lor a b) = b) as E.
  { apply Z.bits_inj'. intros n Hn. rewrite Z.land_spec, Z.lor_spec.
    by destruct (Z.testbit b n), (Z.testbit a n). }
  rewrite E in H. apply H, Z.lor_nonneg. lia.
Qed.

Lemma lor_u16 a b : is_u16 a -> is_u16 b -> is_u16 (Z.lor a b).
Proof. apply (lor_range 16). lia. Qed.

Lemma lxor_u16 a b : is_u16 a -> is_u16 b -> is_u16 (Z.lxor a b).
Proof. apply (lxor_range 16). lia. Qed.

Lemma land_u16 a b : is_u16 b -> is_u16 (Z.land a b).
Proof. intros. pose proof (land_le a b). lia. Qed.

Lemma land_u16_l a b : is_u16 a -> is_u16 (Z.land a b).
Proof. rewrite Z.land_comm. apply land_u16. Qed.

Lemma u8_land x : Z.land x 255 = u8 x.
Proof. apply (Z.land_ones x 8). lia. Qed.

Lemma u16_land x : Z.land x 65535 = u16 x.
Proof. apply (Z.land_ones x 16). lia. Qed.

Lemma u8_is_u16 x : is_u16 (u8 x).
Proof. pose proof (u8_range x). lia. Qed.

Lemma shiftr_u16 x n : 0 <= n -> is_u16 x -> is_u16 (Z.shiftr x n).
Proof.
  intros Hn Hx. rewrite Z.shiftr_div_pow2 by done.
  assert (0 < 2 ^ n) by (apply Z.pow_pos_nonneg; lia).
  split; [apply Z.div_pos; lia|].
  apply Z.le_lt_trans with x; [apply Z.div_le_upper_bound; nia | lia].
Qed.

(** A disjunction of disjoint bits is a sum. *)
Lemma lor_shiftl_add a b n :
  0 <= n -> 0 <= b < 2 ^ n -> Z.lor (Z.shiftl a n) b = a * 2 ^ n + b.
Proof.
  intros Hn Hb. assert (Hd : Z.land (Z.shiftl a n) b = 0).
  { apply Z.bits_inj'. intros i Hi. rewrite Z.land_spec, Z.bits_0.
    destruct (decide (i < n)).
    - by rewrite Z.shiftl_spec_low.
    - by rewrite (small_testbit b n), andb_false_r by lia. }
  rewrite <- Z.lxor_lor, <- Z.add_nocarry_lxor by done.
  rewrite Z.shiftl_mul_pow2 by lia. lia.
Qed.

Lemma shiftl_1 a : Z.shiftl a 1 = 2 * a.
Proof. rewrite Z.shiftl_mul_pow2 by lia. lia. Qed.

Lemma shiftr_1 a : Z.shiftr a 1 = a / 2.
Proof. by rewrite Z.shiftr_div_pow2. Qed.

(** A single bit tested with [land] and cleared with [lxor]. *)
Lemma land_bit w n : 0 <= n -> Z.land w (2 ^ n) = if Z.testbit w n then 2 ^ n else 0.
Proof.
  intros Hn. apply Z.bits_inj'. intros i Hi. rewrite Z.land_spec, Z.pow2_bits_eqb by done.
  destruct (Z.eqb_spec n i) as [<-|].
  - rewrite andb_true_r. destruct (Z.testbit w n); [by rewrite Z.pow2_bits_true | by rewrite Z.bits_0].
  - rewrite andb_false_r. destruct (Z.testbit w n); [by rewrite Z.pow2_bits_false | by rewrite Z.bits_0].
Qed.

Lemma truth_land_bit w n : 0 <= n -> truth (Z.land w (2 ^ n)) = Z.testbit w n.
Proof.
  intros Hn. rewrite land_bit by done. unfold truth.
  assert (0 < 2 ^ n) by (apply Z.pow_pos_nonneg; lia).
  destruct (Z.testbit w n); [| done]. by destruct (Z.eqb_spec (2 ^ n) 0); [lia|].
Qed.

Lemma lxor_bit w n :
  0 <= n -> (if truth (Z.land w (2 ^ n)) then Z.lxor w (2 ^ n) else w) = Z.clearbit w n.
Proof.
  intros Hn. rewrite truth_land_bit by done. apply Z.bits_inj'. intros i Hi.
  rewrite Z.clearbit_eqb. destruct (Z.testbit w n) eqn:E.
  - rewrite Z.lxor_spec, Z.pow2_bits_eqb by done.
    destruct (Z.eqb_spec n i) as [<-|]; [by rewrite E |].
    by rewrite xorb_false_r, andb_true_r.
  - destruct (Z.eqb_spec n i) as [<-|]; [by rewrite E |]. by rewrite andb_true_r.
Qed.

Lemma u16_testbit x i : 0 <= i -> Z.testbit (u16 x) i = (i <? 16) && Z.testbit x i.
Proof.
  intros Hi. unfold u16. change 65536 with (2 ^ 16). destruct (Z.ltb_spec i 16).
  - by rewrite Z.mod_pow2_bits_low.
  - by rewrite Z.mod_pow2_bits_high by lia.
Qed.

Lemma u8_testbit x i : 0 <= i -> Z.testbit (u8 x) i = (i <? 8) && Z.testbit x i.
Proof.
  intros Hi. unfold u8. change 256 with (2 ^ 8). destruct (Z.ltb_spec i 8).
  - by rewrite Z.mod_pow2_bits_low.
  - by rewrite Z.mod_pow2_bits_high by lia.
Qed.

(** The sign bits of a byte and of a word. *)
Lemma sign_u8 x : truth (Z.land (u8 x) 128) = Z.testbit x 7.
Proof. rewrite (truth_land_bit _ 7) by done. by rewrite u8_testbit. Qed.

Lemma sign_u16 x : truth (Z.land (u16 x) 32768) = Z.testbit x 15.
Proof. rewrite (truth_land_bit _ 15) by done. by rewrite u16_testbit. Qed.

Create HintDb words.
#[export] Hint Resolve u8_range u16_range u32_range lor_u16 lxor_u16 land_u16
  land_u16_l u8_is_u16 shiftr_u16 : words.
#[export] Hint Extern 5 (_ <= _ < _) => lia : words.

Create Rewrite HintDb words_rw.
#[export] Hint Rewrite u8_land u16_land u16_u16 u8_u16 : words_rw.

(** Splits a two-byte word into its bytes and back. *)
Lemma word_bytes w :
  is_u16 w ->
  Z.lor (Z.land w 255) (Z.shiftl (Z.shiftr (Z.land w 65280) 8) 8) = w.
Proof.
  intros Hw. apply Z.bits_inj'. intros n Hn.
  rewrite Z.lor_spec, Z.land_spec.
  destruct (Z.lt_ge_cases n 8).
  - rewrite Z.shiftl_spec_low by done.
    assert (Z.testbit 255 n = true) as ->; [| by rewrite andb_true_r, orb_false_r].
    change 255 with (Z.ones 8). apply Z.ones_spec_low. lia.
  - rewrite Z.shiftl_spec, Z.shiftr_spec, Z.sub_add, Z.land_spec by lia.
    rewrite (small_testbit 255 8) by lia. rewrite andb_false_r.
    destruct (Z.lt_ge_cases n 16).
    + assert (Z.testbit 65280 n = true) as ->; [| by rewrite andb_true_r].
      change 65280 with (Z.shiftl (Z.ones 8) 8).
      rewrite Z.shiftl_spec by lia. apply Z.ones_spec_low. lia.
    + by rewrite (small_testbit w 16) by lia.
Qed.

Lemma high_byte x : is_u16 x -> Z.shiftr (Z.land x 65280) 8 = x / 256.
Proof.
  intros Hx. rewrite Z.shiftr_land, Z.shiftr_div_pow2 by done. change (Z.shiftr 65280 8) with 255.
  rewrite u8_land. change (2 ^ 8) with 256. apply u8_id. mod_lia.
Qed.

(** ** Arrays *)
Lemma array_from_lookup n f k i :
  array_from k n f !! i = if decide (k <= i < k + Z.of_nat n) then Some (f i) else None.
Proof.
  revert k. induction n as [|n IH]; intros k; cbn [array_from].
  - rewrite lookup_empty. case_decide; [lia | done].
  - destruct (decide (k = i)) as [->|].
    + rewrite lookup_insert_eq. case_decide; [done | lia].
    + rewrite lookup_insert_ne, IH by done. by repeat case_decide; try lia.
Qed.

Lemma array_lookup n f i :
  array n f !! i = if decide (0 <= i < Z.of_nat n) then Some (f i) else None.
Proof. apply array_from_lookup. Qed.

(** ** Equality of computations *)
Definition meq {S A} (m1 m2 : M S A) : Prop := forall s, m1 s = m2 s.
Infix "≈" := meq (at level 70) : xm_scope.

#[export] Instance meq_equiv {S A} : Equivalence (@meq S A).
Proof.
  split; [done | by intros ?? H s | intros m1 m2 m3 H1 H2 s; by rewrite H1].
Qed.

#[export] Instance meq_bind {S A B} :
  Proper (pointwise_relation A meq ==> meq ==> meq) (@mbind (M S) M_bind A B).
Proof.
  intros f g Hfg m1 m2 Hm s. unfold mbind, M_bind. rewrite Hm.
  destruct (m2 s); [apply Hfg | done | done].
Qed.

Lemma bind_assoc {S A B C} (m : M S A) (f : A -> M S B) (g : B -> M S C) :
  (m ≫= f) ≫= g ≈ m ≫= (fun a => f a ≫= g).
Proof. intros s. unfold mbind, M_bind. by destruct (m s). Qed.

Lemma bind_ret {S A B} (a : A) (f : A -> M S B) : mret a ≫= f ≈ f a.
Proof. done. Qed.

Lemma bind_done {S A B} (m : M S A) (f : A -> M S B) s a s' :
  m s = Done a s' -> (m ≫= f) s = f a s'.
Proof. intros E. unfold mbind, M_bind. by rewrite E. Qed.

Lemma bind_blocked {S A B} (m : M S A) (f : A -> M S B) s :
  m s = Blocked -> (m ≫= f) s = Blocked.
Proof. intros E. unfold mbind, M_bind. by rewrite E. Qed.

Lemma bind_fault {S A B} (m : M S A) (f : A -> M S B) s :
  m s = Fault -> (m ≫= f) s = Fault.
Proof. intros E. unfold mbind, M_bind. by rewrite E. Qed.

Lemma bind_inv {S A B} (m : M S A) (f : A -> M S B) s b s'' :
  (m ≫= f) s = Done b s'' -> exists a s', m s = Done a s' /\ f a s' = Done b s''.
Proof. unfold mbind, M_bind. destruct (m s) as [a s'| |]; [eauto | done | done]. Qed.

Lemma ret_bind {S A} (m : M S A) : m ≫= mret ≈ m.
Proof. intros s. unfold mbind, M_bind. by destruct (m s). Qed.

Lemma switch_not_in {A} x (cases : list (Z * A)) d :
  x ∉ cases.*1 -> switch x cases d = d.
Proof.
  induction cases as [|[k a] cases IH]; [done|]. rewrite fmap_cons. simpl.
  intros [Hk Hr]%not_elem_of_cons. simpl in Hk.
  destruct (Z.eqb_spec x k); [done | by apply IH].
Qed.

Lemma bind_ext {S A B} (m : M S A) (f g : A -> M S B) :
  (forall a, f a ≈ g a) -> m ≫= f ≈ m ≫= g.
Proof. intros H s. unfold mbind, M_bind. destruct (m s); [apply H | done | done]. Qed.

Lemma seq_ext {S A B} (m1 m2 : M S A) (f g : A -> M S B) :
  m1 ≈ m2 -> (forall a, f a ≈ g a) -> m1 ≫= f ≈ m2 ≫= g.
Proof.
  intros Hm H s. unfold mbind, M_bind. rewrite Hm. destruct (m2 s); [apply H | done | done].
Qed.

(** ** Partial correctness without faults

    [hoare P m Q]: from a state of [P], [m] never runs into undefined
    behaviour, and if it returns, value and state satisfy [Q]. *)
Definition hoare {S A} (P : S -> Prop) (m : M S A) (Q : A -> S -> Prop) : Prop :=
  forall s, P s -> match m s with Done a s' => Q a s' | Blocked => True | Fault => False end.

Lemma hoare_ret {S A} (P : S -> Prop) (a : A) (Q : A -> S -> Prop) :
  (forall s, P s -> Q a s) -> hoare P (mret a) Q.
Proof. done. Qed.

Lemma hoare_bind {S A B} P (m : M S A) (f : A -> M S B) R Q :
  hoare P m R -> (forall a, hoare (R a) (f a) Q) -> hoare P (m ≫= f) Q.
Proof.
  intros Hm Hf s HP. specialize (Hm s HP). unfold mbind, M_bind.
  destruct (m s) as [a s'| |]; [by apply Hf | done | done].
Qed.

Lemma hoare_gets {S A} P (f : S -> A) :
  hoare P (gets f) (fun a s => a = f s /\ P s).
Proof. done. Qed.

Lemma hoare_modify {S} P (f : S -> S) (Q : unit -> S -> Prop) :
  (forall s, P s -> Q tt (f s)) -> hoare P (modify f) Q.
Proof. done. Qed.

Lemma hoare_block {S A} P Q : hoare P (block : M S A) Q.
Proof. done. Qed.

Lemma hoare_weaken {S A} (P P' : S -> Prop) (m : M S A) (Q Q' : A -> S -> Prop) :
  hoare P' m Q' -> (forall s, P s -> P' s) -> (forall a s, Q' a s -> Q a s) ->
  hoare P m Q.
Proof.
  intros H HP HQ s Hs. specialize (H s (HP s Hs)).
  destruct (m s); [by apply HQ | done | done].
Qed.

Lemma hoare_if {S A} P (b : bool) (m1 m2 : M S A) Q :
  (b = true -> hoare P m1 Q) -> (b = false -> hoare P m2 Q) ->
  hoare P (if b then m1 else m2) Q.
Proof. destruct b; auto. Qed.

Lemma hoare_pure {S A} (P : S -> Prop) (phi : Prop) (m : M S A) Q :
  (phi -> hoare P m Q) -> hoare (fun s => phi /\ P s) m Q.
Proof. intros H s [Hphi Hs]. by apply H. Qed.

Lemma hoare_done {S A} P (m : M S A) Q s a s' :
  hoare P m Q -> P s -> m s = Done a s' -> Q a s'.
Proof. intros H Hs E. specialize (H s Hs). by rewrite E in H. Qed.

(** ** Computations that keep an invariant

    [stable P m phi]: from a state of the invariant [P], [m] runs into no
    undefined behaviour, and if it returns, the result satisfies [phi] and the
    state is again in [P]. *)
Definition stable {S A} (P : S -> Prop) (m : M S A) (phi : A -> Prop) : Prop :=
  hoare P m (fun a s => phi a /\ P s).

Lemma stable_bind {S A A'} (P : S -> Prop) (m : M S A) (f : A -> M S A') phi psi :
  stable P m phi -> (forall a, phi a -> stable P (f a) psi) -> stable P (m ≫= f) psi.
Proof.
  intros Hm Hf. eapply hoare_bind; [exact Hm|]. intros a. apply hoare_pure, Hf.
Qed.

Lemma stable_ret {S A} (P : S -> Prop) (a : A) (phi : A -> Prop) :
  phi a -> stable P (mret a) phi.
Proof. by intros Ha s Hs. Qed.

Lemma stable_weaken {S A} (P : S -> Prop) (m : M S A) (phi psi : A -> Prop) :
  stable P m phi -> (forall a, phi a -> psi a) -> stable P m psi.
Proof. intros H Himp. eapply hoare_weaken; [exact H | done | intros a s [Ha Hs]; auto]. Qed.

Lemma stable_gets {S A} (P : S -> Prop) (f : S -> A) (phi : A -> Prop) :
  (forall s, P s -> phi (f s)) -> stable P (gets f) phi.
Proof. intros H s Hs. split; [by apply H | done]. Qed.

Lemma stable_modify {S} (P : S -> Prop) (f : S -> S) :
  (forall s, P s -> P (f s)) -> stable P (modify f) (fun _ => True).
Proof. intros H s Hs. split; [done | by apply H]. Qed.

Lemma stable_if {S A} (P : S -> Prop) (b : bool) (m1 m2 : M S A) phi :
  (b = true -> stable P m1 phi) -> (b = false -> stable P m2 phi) ->
  stable P (if b then m1 else m2) phi.
Proof. destruct b; auto. Qed.

Lemma stable_switch {S A} (P : S -> Prop) x cases (d : M S A) phi :
  Forall (fun c => stable P c.2 phi) cases -> stable P d phi ->
  stable P (switch x cases d) phi.
Proof.
  intros Hc Hd. induction Hc as [|[k m] cases Hm Hc IH]; [done|]. simpl.
  by apply stable_if.
Qed.

Ltac head_of t := match t with ?f _ => head_of f | _ => t end.

(** Walks through a computation made of primitives whose [stable] lemmas are in
    the hint database [db]. *)
Ltac stable_walk solver :=
  lazymatch goal with
  | |- stable _ (_ ≫= _) _ =>
      eapply stable_bind; [stable_walk solver | cbv beta; intros ? ?; stable_walk solver]
  | |- stable _ (switch _ _ _) _ =>
      apply stable_switch; [stable_walk solver | stable_walk solver]
  | |- Forall _ (_ :: _) => apply Forall_cons_2; [cbn [snd]; stable_walk solver | stable_walk solver]
  | |- Forall _ [] => apply Forall_nil_2
  | |- stable _ (if _ then _ else _) _ => apply stable_if; intros _; stable_walk solver
  | |- stable _ (when _ _) _ => apply stable_if; intros _; stable_walk solver
  | |- stable _ (let _ := _ in _) _ => cbv zeta; stable_walk solver
  | |- _ => solver
  end.

(** Evaluates the closed conditions of the goal. *)
Ltac decide_closed :=
  repeat match goal with
  | |- context [if ?b then _ else _] =>
      let v := eval vm_compute in b in
      lazymatch v with true => change b with true | false => change b with false end; cbv iota
  end.
