(* ===== verification/Digits.v ===== *)
(** * Numbers as bytes and as text

    The bytes of a 16-bit word in a file, and the conversions of the C library the program uses: [printf] with [%o], [%u]
    and a field width filled with zeros, [strtoul] in base 10 and [sscanf] with
    [%ho] and [%hu], over texts that are lists of character codes. *)
From S2P Require Import Prelude.
From Stdlib Require Ascii String.
#[local] Open Scope Z_scope.

(** A [uint16_t] as [fwrite] lays it down on a little-endian machine. *)
Definition le16 (w : Z) : list Z := [w mod 256; w / 256].

Lemma le16_value w : is_u16 w -> w mod 256 + 256 * (w / 256) = w.
Proof. intros. mod_lia. Qed.

Lemma le16_bytes w : is_u16 w -> Forall (fun b => is_u8 b) (le16 w).
Proof. intros. repeat (apply Forall_cons_2; [mod_lia|]). apply Forall_nil_2. Qed.

(** The bytes of a list of words. *)
Lemma le16s_length ws : length (ws ≫= le16) = (2 * length ws)%nat.
Proof.
  induction ws as [|w ws IH]; [done|]. cbn [mbind list_bind length]. rewrite length_app.
  change (list_bind Z Z le16 ws) with (ws ≫= le16). cbn. lia.
Qed.

Lemma le16s_bytes ws : Forall (fun w => is_u16 w) ws -> Forall (fun b => is_u8 b) (ws ≫= le16).
Proof.
  induction 1 as [|w ws Hw Hws IH]; [apply Forall_nil_2|]. apply Forall_app. by split; [apply le16_bytes|].
Qed.

(** ** Characters *)

(** The character codes of a string literal. *)
Definition chars (s : String.string) : list Z :=
  map (fun c => Z.of_N (Ascii.N_of_ascii c)) (String.list_ascii_of_string s).

Definition zero_char : Z := 48.
Definition newline : Z := 10.
Definition space : Z := 32.

(** [isspace] in the C locale. *)
Definition is_space (c : Z) : bool := (c =? space) || ((9 <=? c) && (c <=? 13)).

(** ** Printing *)

(** The digits of [n] in front of [acc]; a digit more than the logarithm is
    enough. *)
Fixpoint digits (fuel : nat) (base n : Z) (acc : list Z) : list Z :=
  match fuel with
  | O => acc
  | S fuel' =>
      let acc := zero_char + n mod base :: acc in
      if n / base =? 0 then acc else digits fuel' base (n / base) acc
  end.

(** [%o] and [%u] *)
Definition show (base n : Z) : list Z := digits (S (Z.to_nat (Z.log2 n))) base n [].

(** [%0wo]: at least [w] characters. *)
Definition show_padded (w : nat) (base n : Z) : list Z :=
  replicate (w - length (show base n)) zero_char ++ show base n.

(** ** Reading *)
Definition digit_value (base c : Z) : option Z :=
  let d := c - zero_char in if (0 <=? d) && (d <? base) then Some d else None.

(** The number the digits at the front stand for, after [acc], and what follows. *)
Fixpoint read_digits (base acc : Z) (s : list Z) : Z * list Z :=
  match s with
  | [] => (acc, [])
  | c :: s' =>
      match digit_value base c with
      | Some d => read_digits base (acc * base + d) s'
      | None => (acc, s)
      end
  end.

Fixpoint skip_spaces (s : list Z) : list Z :=
  match s with
  | c :: s' => if is_space c then skip_spaces s' else s
  | [] => []
  end.

Definition ULONG_MAX : Z := 2 ^ 64 - 1.

(** The [unsigned long] in front of [s], if there is one: blanks, a sign, digits;
    too large a number is the largest one, a negative one wraps around. *)
Definition scan_unsigned (base : Z) (s : list Z) : option (Z * list Z) :=
  let s := skip_spaces s in
  let '(negative, s) :=
    match s with
    | 43 :: s' => (false, s')
    | 45 :: s' => (true, s')
    | _ => (false, s)
    end in
  match s with
  | c :: _ =>
      match digit_value base c with
      | None => None
      | Some _ =>
          let '(v, rest) := read_digits base 0 s in
          Some (if v >? ULONG_MAX then ULONG_MAX else if negative : bool then (- v) mod 2 ^ 64 else v, rest)
      end
  | [] => None
  end.

(** [strtoul(s, NULL, 10)]: 0 where there is no number. *)
Definition strtoul (s : list Z) : Z := from_option fst 0 (scan_unsigned 10 s).

(** [sscanf(s, "%ho", &v)] and [sscanf(s, "%hu", &v)]: [None] where the variable
    keeps its value. *)
Definition scan_u16 (base : Z) (s : list Z) : option Z := (fun r => u16 r.1) <$> scan_unsigned base s.

(** ** Reading back what was printed *)
Definition digit_of (base c : Z) : Prop := zero_char <= c < zero_char + base.

(** The text does not go on with a digit. *)
Definition no_digit (base : Z) (s : list Z) : Prop :=
  match s with c :: _ => digit_value base c = None | [] => True end.

Lemma digit_value_digit base c : digit_of base c -> digit_value base c = Some (c - zero_char).
Proof.
  intros [H1 H2]. unfold digit_value.
  by rewrite (proj2 (Z.leb_le _ _)), (proj2 (Z.ltb_lt _ _)) by lia.
Qed.

Lemma read_digits_app base s rest : forall acc,
  Forall (digit_of base) s -> read_digits base acc (s ++ rest) = read_digits base (read_digits base acc s).1 rest.
Proof.
  induction s as [|c s IH]; intros acc H; [done|]. apply Forall_cons_1 in H as [Hc H].
  cbn [app read_digits]. rewrite digit_value_digit by done. by apply IH.
Qed.

Lemma read_digits_stop base acc rest : no_digit base rest -> read_digits base acc rest = (acc, rest).
Proof. intros H. destruct rest as [|c rest]; [done|]. cbn [read_digits no_digit] in *. by rewrite H. Qed.

Section Base.
Context (base : Z) (Hb : 2 <= base).

Lemma digits_spec fuel : forall n acc,
  0 <= n < 2 ^ Z.of_nat fuel ->
  exists ds, digits fuel base n acc = ds ++ acc /\ Forall (digit_of base) ds /\
    (fuel <> O -> ds <> []) /\
    forall rest, read_digits base 0 (ds ++ rest) = read_digits base n rest.
Proof using Hb.
  induction fuel as [|fuel IH]; intros n acc Hn.
  - exists []. split_and!; [done..|]. intros rest. change (2 ^ Z.of_nat 0) with 1 in Hn.
    by replace n with 0 by lia.
  - cbn [digits]. pose proof (Z.div_mod n base) as Hdm.
    assert (Hd : digit_of base (zero_char + n mod base)).
    { pose proof (Z.mod_pos_bound n base). unfold digit_of. lia. }
    destruct (Z.eqb_spec (n / base) 0) as [E|E].
    + exists [zero_char + n mod base]. split_and!; [done | by apply Forall_singleton | done |].
      intros rest. cbn [app read_digits]. rewrite digit_value_digit by done. f_equal. lia.
    + assert (Hq : 0 <= n / base < 2 ^ Z.of_nat fuel).
      { rewrite Nat2Z.inj_succ, Z.pow_succ_r in Hn by lia. split; [apply Z.div_pos; lia|].
        apply Z.div_lt_upper_bound; nia. }
      destruct (IH (n / base) (zero_char + n mod base :: acc) Hq) as (ds & E1 & H1 & _ & H2).
      exists (ds ++ [zero_char + n mod base]). split_and!.
      * by rewrite E1, <- app_assoc.
      * apply Forall_app. by split; [|apply Forall_singleton].
      * by intros _ [_ ?]%app_nil.
      * intros rest. rewrite <- app_assoc. cbn [app]. rewrite H2. cbn [read_digits].
        rewrite digit_value_digit by done. f_equal. lia.
Qed.

Lemma show_spec n : 0 <= n ->
  Forall (digit_of base) (show base n) /\ show base n <> [] /\
  forall rest, read_digits base 0 (show base n ++ rest) = read_digits base n rest.
Proof using Hb.
  intros Hn. unfold show. destruct (digits_spec (S (Z.to_nat (Z.log2 n))) n []) as (ds & E & H1 & H2 & H3).
  - split; [done|]. rewrite Nat2Z.inj_succ, Z2Nat.id by apply Z.log2_nonneg.
    destruct (decide (n = 0)) as [->|]; [done|]. apply Z.log2_spec. lia.
  - rewrite app_nil_r in E. rewrite E. split_and!; [done | by apply H2 | done].
Qed.

Lemma show_padded_digits w n : 0 <= n -> Forall (digit_of base) (show_padded w base n).
Proof using Hb.
  intros Hn. apply Forall_app. split; [|by apply show_spec].
  apply Forall_forall. intros c [-> _]%elem_of_replicate. unfold digit_of. lia.
Qed.

Lemma show_padded_nonempty w n : 0 <= n -> show_padded w base n <> [].
Proof using Hb. intros Hn [_ E]%app_nil. by apply show_spec in E. Qed.

Lemma read_show_padded w n rest : 0 <= n -> no_digit base rest ->
  read_digits base 0 (show_padded w base n ++ rest) = (n, rest).
Proof using Hb.
  intros Hn Hr. unfold show_padded. rewrite <- app_assoc.
  assert (Z0 : forall k s, read_digits base 0 (replicate k zero_char ++ s) = read_digits base 0 s).
  { induction k as [|k IH]; intros s; [done|]. cbn [replicate app read_digits].
    rewrite digit_value_digit by (unfold digit_of; lia). by rewrite <- (IH s). }
  rewrite Z0. destruct (show_spec n Hn) as (_ & _ & ->). by apply read_digits_stop.
Qed.

(** Scanning a printed number, behind blanks. *)
Lemma scan_show blanks w n rest :
  base <= 10 -> Forall (fun c => is_space c = true) blanks -> 0 <= n <= ULONG_MAX -> no_digit base rest ->
  scan_unsigned base (blanks ++ show_padded w base n ++ rest) = Some (n, rest).
Proof using Hb.
  intros Hb10 Hs Hn Hr. unfold scan_unsigned.
  destruct (show_padded w base n) as [|c s] eqn:E; [by destruct (show_padded_nonempty w n (proj1 Hn))|].
  assert (Hd : digit_of base c).
  { pose proof (show_padded_digits w n (proj1 Hn)) as H. rewrite E in H. by apply Forall_cons_1 in H as [? _]. }
  assert (Es : skip_spaces (blanks ++ (c :: s) ++ rest) = (c :: s) ++ rest).
  { induction Hs as [|b bl Hb1 Hs IH]; cbn [app skip_spaces]; [|by rewrite Hb1].
    unfold digit_of, zero_char in Hd. unfold is_space, space.
    by rewrite (proj2 (Z.eqb_neq _ _)), (proj2 (Z.leb_gt c 13)), andb_false_r by lia. }
  rewrite Es. cbn [app]. unfold digit_of, zero_char in Hd.
  assert (Em : (match c with 43 => (false, s ++ rest) | 45 => (true, s ++ rest) | _ => (false, c :: s ++ rest) end)
    = (false, c :: s ++ rest)).
  { assert (c <> 43 /\ c <> 45) as [H1 H2] by lia. clear - H1 H2.
    destruct c as [|p|p]; [done| |done]. repeat (destruct p as [p|p|]; try done). }
  rewrite Em, digit_value_digit by (unfold digit_of, zero_char; lia).
  change (c :: s ++ rest) with ((c :: s) ++ rest). rewrite <- E, read_show_padded by (done || lia).
  by rewrite Z.gtb_ltb, (proj2 (Z.ltb_ge _ _)) by lia.
Qed.
End Base.
