(* ===== verification/Files.v ===== *)
(** * Files read with the C library

    A file is the list of its bytes and a position; [fread] at the end of the file
    sets [feof] and leaves the variable as it was; [fseek] clears [feof].  Also the
    blocks of the RT-11 object files that both readers of the repository take. *)
From S2P Require Import Prelude Digits.

Record file := File { data : list Z; pos : nat; feof : bool }.

(** [fread(&v, 1, 1, obj)] for a variable that holds [old]. *)
Definition fread1 (old : Z) (f : file) : Z * file :=
  match data f !! pos f with
  | Some b => (b, File (data f) (S (pos f)) (feof f))
  | None => (old, File (data f) (pos f) true)
  end.

(** [fread(&v, 2, 1, obj)]: a lone last byte reaches the low half. *)
Definition fread2 (old : Z) (f : file) : Z * file :=
  match data f !! pos f, data f !! S (pos f) with
  | Some lo, Some hi => (lo + 256 * hi, File (data f) (S (S (pos f))) (feof f))
  | Some lo, None => (lo + 256 * (old / 256), File (data f) (S (pos f)) true)
  | None, _ => (old, File (data f) (pos f) true)
  end.

(** [fseek(obj, -n, SEEK_CUR)]: fails before the start of the file. *)
Definition fseek_back (n : nat) (f : file) : file :=
  if (n <=? pos f)%nat then File (data f) (pos f - n) false else f.

(** [fseek(obj, n, SEEK_CUR)]: beyond the end is allowed, before the start not. *)
Definition fseek_cur (n : Z) (f : file) : file :=
  if 0 <=? Z.of_nat (pos f) + n then File (data f) (Z.to_nat (Z.of_nat (pos f) + n)) false else f.

(** ** The file behind the bytes read *)
Definition adv (n : nat) (f : file) : file := File (data f) (pos f + n) (feof f).

Definition ahead (f : file) : list Z := drop (pos f) (data f).

Lemma ahead_adv n f : ahead (adv n f) = drop n (ahead f).
Proof. unfold ahead, adv. cbn. by rewrite drop_drop. Qed.

Lemma adv_adv n k f : adv n (adv k f) = adv (k + n) f.
Proof. unfold adv. cbn. f_equal. lia. Qed.

Lemma ahead_lookup f i : data f !! (pos f + i)%nat = ahead f !! i.
Proof. unfold ahead. by rewrite lookup_drop. Qed.

Lemma fread1_ahead old f b l : ahead f = b :: l -> fread1 old f = (b, adv 1 f).
Proof.
  intros H. unfold fread1. pose proof (ahead_lookup f 0) as E. rewrite Nat.add_0_r, H in E.
  rewrite E. unfold adv. by rewrite Nat.add_1_r.
Qed.

Lemma fread1_end old f : ahead f = [] -> fread1 old f = (old, File (data f) (pos f) true).
Proof.
  intros H. unfold fread1. pose proof (ahead_lookup f 0) as E. rewrite Nat.add_0_r, H in E. by rewrite E.
Qed.

Lemma fread2_ahead old f lo hi l : ahead f = lo :: hi :: l -> fread2 old f = (lo + 256 * hi, adv 2 f).
Proof.
  intros H. unfold fread2. pose proof (ahead_lookup f 0) as E0. pose proof (ahead_lookup f 1) as E1.
  rewrite Nat.add_0_r, H in E0. rewrite Nat.add_1_r, H in E1. rewrite E0, E1. unfold adv.
  by replace (pos f + 2)%nat with (S (S (pos f))) by lia.
Qed.

Lemma fread2_end old f : ahead f = [] -> fread2 old f = (old, File (data f) (pos f) true).
Proof.
  intros H. unfold fread2. pose proof (ahead_lookup f 0) as E. rewrite Nat.add_0_r, H in E. by rewrite E.
Qed.

(** ** Object files *)

(** The blocks as the code of both readers takes them: the length counts
    indicator, length, type and data, and the checksum follows. *)

(** A block without text: its tag, what follows and the checksum. *)
Record obj_block := Block { tag : Z; payload : list Z; checksum : Z }.

Definition block_bytes (b : obj_block) : list Z :=
  [1; 0] ++ le16 (5 + Z.of_nat (length (payload b))) ++ [tag b] ++ payload b ++ [checksum b].

Definition block_ok (b : obj_block) : Prop :=
  tag b <> 3 /\ 5 + Z.of_nat (length (payload b)) < 65536.

(** A text block up to its checksum: a length, and [ws] to be loaded at [addr]. *)
Definition text_bytes (len addr : Z) (ws : list Z) : list Z :=
  [1; 0] ++ le16 len ++ [3] ++ le16 addr ++ [0] ++ (ws ≫= le16).

Definition text_block (addr : Z) (ws : list Z) : list Z :=
  text_bytes (8 + 2 * Z.of_nat (length ws)) addr ws.

(** The blocks as [notes/obj.md] has them: the checksum is a part of the length
    too. *)
Definition documented_block (b : obj_block) : list Z :=
  [1; 0] ++ le16 (6 + Z.of_nat (length (payload b))) ++ [tag b] ++ payload b ++ [checksum b].

Definition documented_text (addr : Z) (ws : list Z) (ck : Z) : list Z :=
  text_bytes (9 + 2 * Z.of_nat (length ws)) addr ws ++ [ck].

(** To the readers such a block is one of theirs with the checksum among its data
    and the byte behind it as checksum; a text block has a word more, of these
    two bytes. *)
Lemma documented_block_read b c l :
  documented_block b ++ c :: l = block_bytes (Block (tag b) (payload b ++ [checksum b]) c) ++ l.
Proof.
  unfold documented_block, block_bytes. cbn [payload tag checksum]. rewrite length_app. cbn [length].
  replace (5 + Z.of_nat (length (payload b) + 1)) with (6 + Z.of_nat (length (payload b))) by lia.
  by rewrite <- !app_assoc.
Qed.

Lemma le16_pair lo hi : is_u8 lo -> is_u8 hi -> le16 (lo + 256 * hi) = [lo; hi].
Proof. intros H1 H2. unfold le16. f_equal; [mod_lia|]. f_equal. mod_lia. Qed.

Lemma documented_text_read addr ws ck b l : is_u8 ck -> is_u8 b ->
  documented_text addr ws ck ++ b :: l
  = text_bytes (9 + 2 * Z.of_nat (length ws)) addr (ws ++ [ck + 256 * b]) ++ l.
Proof.
  intros Hc Hb. unfold documented_text, text_bytes. rewrite bind_app. cbn [mbind list_bind].
  rewrite le16_pair by done. by rewrite app_nil_r, <- !app_assoc.
Qed.
