(* ===== verification/Obj.v ===== *)
(** * The object-file reader

    [libobj/obj.c]: it runs through the blocks of an RT-11 object file and, built
    with [DEBUG_OBJ], prints the words of the text blocks; without, it only moves
    through the file.  The result of [read] here is what the debug build prints: a
    list of words for every text block.

    Variables that are read before they are set hold [junk], the same in every
    call.  A file that does not open is passed to [feof] as NULL and is left out. *)
From S2P Require Import Prelude Digits Files.

Record junk := Junk { j_byte : Z; j_len : Z }.

Definition is_text_block (j : junk) (f : file) : bool * file :=
  let '(byte01, f) := fread1 (j_byte j) f in
  let '(_, f) := fread1 (j_byte j) f in
  let '(len, f) := fread2 (j_len j) f in
  let '(byte01, f) := fread1 byte01 f in
  if negb (byte01 =? 3) then
    let f := fseek_cur (len - 5) f in
    let '(_, f) := fread1 0 f in
    (false, f)
  else (true, fseek_cur (-5) f).

(** [n] pairs of bytes. *)
Fixpoint read_pairs (n : nat) (byte01 byte02 : Z) (f : file) : list Z * file :=
  match n with
  | O => ([], f)
  | S n' =>
      let '(byte01, f) := fread1 byte01 f in
      let '(byte02, f) := fread1 byte02 f in
      let word := u16 (Z.lor (Z.shiftl byte02 8) byte01) in
      let '(ws, f) := read_pairs n' byte01 byte02 f in
      (word :: ws, f)
  end.

Definition load_text_block (j : junk) (f : file) : list Z * file :=
  let '(byte01, f) := fread1 (j_byte j) f in
  let '(byte02, f) := fread1 (j_byte j) f in
  let '(len, f) := fread2 (j_len j) f in
  let '(_, f) := fread1 (j_byte j) f in
  let '(_, f) := fread2 (j_len j) f in
  let '(_, f) := fread1 (j_byte j) f in
  let len := u16 (len - 8) in
  let '(ws, f) := read_pairs (Z.to_nat ((len + 1) / 2)) byte01 byte02 f in
  let '(_, f) := fread1 0 f in
  (ws, f).

(** The loop, [fuel] rounds at most; [None] if it has not ended. *)
Fixpoint read_blocks (fuel : nat) (j : junk) (f : file) : option (list (list Z)) :=
  if feof f then Some []
  else match fuel with
       | O => None
       | S fuel' =>
           let '(text, f) := is_text_block j f in
           if text : bool then
             let '(ws, f) := load_text_block j f in
             cons ws <$> read_blocks fuel' j f
           else read_blocks fuel' j f
       end.

Definition read (fuel : nat) (j : junk) (bs : list Z) : option (list (list Z)) :=
  read_blocks fuel j (File bs 0 false).

(** ** Well-formed files *)

(** A part of a file as the code takes it: a block without text, or a text block
    with its checksum. *)
Inductive part := Other (b : obj_block) | Text (addr : Z) (ws : list Z) (ck : Z).

Definition part_bytes (p : part) : list Z :=
  match p with Other b => block_bytes b | Text addr ws ck => text_block addr ws ++ [ck] end.

Definition part_ok (p : part) : Prop :=
  match p with
  | Other b => block_ok b
  | Text _ ws _ => Forall (fun w => is_u16 w) ws /\ 8 + 2 * Z.of_nat (length ws) < 65536
  end.

Definition part_words (p : part) : list (list Z) :=
  match p with Other _ => [] | Text _ ws _ => [ws] end.

Lemma fseek_cur_forward n f : fseek_cur (Z.of_nat n) f = File (data f) (pos f + n) false.
Proof.
  unfold fseek_cur. rewrite (proj2 (Z.leb_le _ _)) by lia. f_equal. lia.
Qed.

Lemma fseek_cur_back n f : (n <= pos f)%nat -> fseek_cur (- Z.of_nat n) f = File (data f) (pos f - n) false.
Proof.
  intros H. unfold fseek_cur. rewrite (proj2 (Z.leb_le _ _)) by lia. f_equal. lia.
Qed.

(** The first five bytes of a block. *)
Lemma header_ahead j f b0 b1 lo hi t l :
  ahead f = b0 :: b1 :: lo :: hi :: t :: l ->
  is_text_block j f =
    if negb (t =? 3)
    then (false, (fread1 0 (fseek_cur (lo + 256 * hi - 5) (adv 5 f))).2)
    else (true, fseek_cur (-5) (adv 5 f)).
Proof.
  intros H. unfold is_text_block. rewrite (fread1_ahead _ _ _ _ H).
  rewrite (fread1_ahead _ (adv 1 f) _ (drop 2 (ahead f))) by (by rewrite ahead_adv, H).
  rewrite adv_adv. cbn [Nat.add].
  rewrite (fread2_ahead _ (adv 2 f) _ _ (drop 4 (ahead f))) by (by rewrite ahead_adv, H).
  rewrite adv_adv. cbn [Nat.add].
  rewrite (fread1_ahead _ (adv 4 f) _ (drop 5 (ahead f))) by (by rewrite ahead_adv, H).
  rewrite adv_adv. cbn [Nat.add]. destruct (negb (t =? 3)); [|done].
  by destruct (fread1 0 _).
Qed.

Lemma other_block j f b l :
  block_ok b -> feof f = false -> ahead f = block_bytes b ++ l ->
  is_text_block j f = (false, adv (length (block_bytes b)) f).
Proof.
  intros [Ht Hl] He H. unfold block_bytes, le16 in H. cbn [app] in H.
  rewrite (header_ahead _ _ _ _ _ _ _ _ H), (proj2 (Z.eqb_neq _ _) Ht). cbn [negb].
  rewrite le16_value by lia.
  replace (5 + Z.of_nat (length (payload b)) - 5) with (Z.of_nat (length (payload b))) by lia.
  rewrite fseek_cur_forward.
  assert (E : File (data (adv 5 f)) (pos (adv 5 f) + length (payload b)) false = adv (5 + length (payload b)) f).
  { unfold adv. cbn [data pos]. rewrite He. f_equal. lia. }
  rewrite E. assert (Ea : ahead (adv (5 + length (payload b)) f) = checksum b :: l).
  { rewrite ahead_adv, H. cbn [drop Nat.add]. rewrite <- app_assoc. by rewrite drop_app_length. }
  rewrite (fread1_ahead _ _ _ _ Ea), adv_adv. cbn [snd]. do 2 f_equal.
  unfold block_bytes. rewrite !length_app. cbn. lia.
Qed.

Lemma text_block_found j f len addr ws l :
  feof f = false -> ahead f = text_bytes len addr ws ++ l -> is_text_block j f = (true, f).
Proof.
  intros He H. unfold text_bytes, le16 in H. cbn [app] in H.
  rewrite (header_ahead _ _ _ _ _ _ _ _ H). cbn [Z.eqb negb]. f_equal.
  change (-5) with (- Z.of_nat 5). rewrite fseek_cur_back by (cbn; lia). unfold adv. cbn [data pos].
  destruct f as [d p e]. cbn in *. subst. f_equal. lia.
Qed.

Lemma read_pairs_ahead ws : forall b1 b2 f l,
  Forall (fun w => is_u16 w) ws -> ahead f = (ws ≫= le16) ++ l ->
  read_pairs (length ws) b1 b2 f = (ws, adv (2 * length ws) f).
Proof.
  induction ws as [|w ws IH]; intros b1 b2 f l Hw H.
  - cbn. unfold adv. rewrite Nat.add_0_r. by destruct f.
  - apply Forall_cons_1 in Hw as [Hw Hws]. cbn [length mbind list_bind] in *.
    unfold le16 in H at 1. cbn [app] in H. cbn [read_pairs].
    rewrite (fread1_ahead _ _ _ _ H).
    rewrite (fread1_ahead _ (adv 1 f) _ (drop 2 (ahead f))) by (by rewrite ahead_adv, H).
    rewrite adv_adv. cbn [Nat.add]. rewrite (IH _ _ (adv 2 f) l Hws) by (by rewrite ahead_adv, H).
    rewrite adv_adv. rewrite (lor_shiftl_add _ _ 8) by (lia || mod_lia). f_equal.
    + f_equal. mod_lia.
    + f_equal. lia.
Qed.

(** The length may be odd: the loop rounds up. *)
Lemma load_text_block_ahead j f len addr ws ck l :
  Forall (fun w => is_u16 w) ws -> 8 <= len < 65536 -> (len - 8 + 1) / 2 = Z.of_nat (length ws) ->
  ahead f = (text_bytes len addr ws ++ [ck]) ++ l ->
  load_text_block j f = (ws, adv (length (text_bytes len addr ws ++ [ck])) f).
Proof.
  intros Hw Hl Hn H. rewrite <- app_assoc in H. unfold text_bytes, le16 in H. cbn [app] in H.
  unfold load_text_block. rewrite (fread1_ahead _ _ _ _ H).
  rewrite (fread1_ahead _ (adv 1 f) _ (drop 2 (ahead f))) by (by rewrite ahead_adv, H).
  rewrite adv_adv. cbn [Nat.add].
  rewrite (fread2_ahead _ (adv 2 f) _ _ (drop 4 (ahead f))) by (by rewrite ahead_adv, H).
  rewrite adv_adv. cbn [Nat.add].
  rewrite (fread1_ahead _ (adv 4 f) _ (drop 5 (ahead f))) by (by rewrite ahead_adv, H).
  rewrite adv_adv. cbn [Nat.add].
  rewrite (fread2_ahead _ (adv 5 f) _ _ (drop 7 (ahead f))) by (by rewrite ahead_adv, H).
  rewrite adv_adv. cbn [Nat.add].
  rewrite (fread1_ahead _ (adv 7 f) _ (drop 8 (ahead f))) by (by rewrite ahead_adv, H).
  rewrite adv_adv. cbn [Nat.add]. rewrite le16_value, u16_id by lia.
  replace (Z.to_nat ((len - 8 + 1) / 2)) with (length ws) by lia.
  assert (E : ahead (adv 8 f) = (ws ≫= le16) ++ ck :: l).
  { rewrite ahead_adv, H. cbn [drop]. rewrite drop_0. done. }
  rewrite (read_pairs_ahead ws _ _ (adv 8 f) (ck :: l) Hw E), adv_adv.
  assert (E2 : ahead (adv (8 + 2 * length ws) f) = ck :: l).
  { by rewrite <- adv_adv, ahead_adv, E, <- le16s_length, drop_app_length. }
  rewrite (fread1_ahead _ _ _ _ E2), adv_adv. do 2 f_equal.
  unfold text_bytes. rewrite !length_app, le16s_length. cbn. lia.
Qed.

(** ** The end of the file *)

(** Behind the last block nothing is read; what happens depends on the values the
    variables happen to hold. *)
Lemma end_of_file_type j f :
  ahead f = [] -> j_byte j <> 3 ->
  is_text_block j f =
    (false, (fread1 0 (fseek_cur (j_len j - 5) (File (data f) (pos f) true))).2).
Proof.
  intros H Hj. unfold is_text_block. set (f1 := File (data f) (pos f) true).
  assert (R1 : forall old, fread1 old f1 = (old, f1)) by (intros; by apply (fread1_end _ f1)).
  assert (R2 : forall old, fread2 old f1 = (old, f1)) by (intros; by apply (fread2_end _ f1)).
  rewrite (fread1_end _ f H). fold f1. rewrite R1, R2, R1, (proj2 (Z.eqb_neq _ _) Hj). cbn [negb].
  by destruct (fread1 0 _).
Qed.

Lemma end_stops j f : ahead f = [] -> j_byte j <> 3 -> 5 <= j_len j ->
  exists f', is_text_block j f = (false, f') /\ feof f' = true.
Proof.
  intros H Hj Hl. eexists. split; [by apply end_of_file_type|].
  unfold fseek_cur. cbn [pos data]. rewrite (proj2 (Z.leb_le _ _)) by lia.
  rewrite fread1_end; [done|]. unfold ahead in *. cbn [pos data].
  apply (f_equal (drop (Z.to_nat (j_len j - 5)))) in H. rewrite drop_drop, drop_nil in H.
  rewrite <- H. f_equal. lia.
Qed.

(** Four bytes further than the length: back one, read one, the same again. *)
Lemma end_loops j f : ahead f = [] -> (0 < pos f)%nat -> (pos f <= length (data f))%nat -> feof f = false ->
  j_byte j <> 3 -> j_len j = 4 -> is_text_block j f = (false, f).
Proof.
  intros H Hp Hd He Hj Hl. rewrite end_of_file_type by done. rewrite Hl. change (4 - 5) with (- Z.of_nat 1).
  rewrite fseek_cur_back by (cbn; lia). cbn [data pos].
  destruct (lookup_lt_is_Some_2 (data f) (pos f - 1)) as [b Hb]; [lia|].
  unfold fread1. cbn [data pos]. rewrite Hb. cbn [snd]. destruct f as [d p e]. cbn in *. subst. do 2 f_equal. lia.
Qed.

(** ** The loop *)
Definition all_bytes (ps : list part) : list Z := ps ≫= part_bytes.

Lemma ahead_app f (l1 l2 : list Z) : ahead f = l1 ++ l2 -> ahead (adv (length l1) f) = l2.
Proof. intros H. by rewrite ahead_adv, H, drop_app_length. Qed.

Lemma read_blocks_parts j ps : forall fuel f l,
  Forall part_ok ps -> feof f = false -> ahead f = all_bytes ps ++ l ->
  read_blocks (length ps + fuel) j f
  = app (ps ≫= part_words) <$> read_blocks fuel j (adv (length (all_bytes ps)) f).
Proof.
  induction ps as [|p ps IH]; intros fuel f l Hp He H.
  - assert (E : adv 0 f = f) by (unfold adv; rewrite Nat.add_0_r; by destruct f).
    change (length (all_bytes [])) with 0%nat. rewrite E. cbn. by destruct (read_blocks fuel j f).
  - apply Forall_cons_1 in Hp as [Hp Hps]. unfold all_bytes in H. cbn [mbind list_bind] in H.
    rewrite <- app_assoc in H. unfold all_bytes. cbn [length Nat.add read_blocks mbind list_bind]. rewrite He.
    change (list_bind part Z part_bytes ps) with (all_bytes ps).
    pose proof (IH fuel (adv (length (part_bytes p)) f) l Hps He (ahead_app _ _ _ H)) as IH'. rewrite adv_adv in IH'. rewrite length_app.
    destruct p as [b|addr ws ck]; cbn [part_bytes part_ok part_words app] in *.
    + by rewrite (other_block j f b _ Hp He H).
    + destruct Hp as [Hw Hl].
      unfold text_block in *.
      rewrite (text_block_found j f _ addr ws ([ck] ++ all_bytes ps ++ l)) by (done || by rewrite app_assoc).
      rewrite (load_text_block_ahead j f (8 + 2 * Z.of_nat (length ws)) addr ws ck _ Hw ltac:(lia) ltac:(mod_lia) H), IH'.
      by destruct (read_blocks fuel j (adv _ f)).
Qed.

Lemma read_blocks_more k j : forall fuel f r,
  read_blocks fuel j f = Some r -> read_blocks (fuel + k) j f = Some r.
Proof.
  induction fuel as [|fuel IH]; intros f r; cbn [read_blocks Nat.add].
  - destruct (feof f) eqn:E; [|done]. intros <-. destruct k; cbn [read_blocks]; by rewrite E.
  - destruct (feof f); [done|]. destruct (is_text_block j f) as [[] f']; [|by apply IH].
    destruct (load_text_block j f') as [ws f2]. destruct (read_blocks fuel j f2) eqn:E; [|done].
    by rewrite (IH _ _ E).
Qed.

Lemma read_never_ends j f : ahead f = [] -> (0 < pos f)%nat -> (pos f <= length (data f))%nat -> feof f = false ->
  j_byte j <> 3 -> j_len j = 4 -> forall fuel, read_blocks fuel j f = None.
Proof.
  intros H Hp Hd He Hj Hl fuel. induction fuel as [|fuel IH]; cbn [read_blocks]; rewrite He; [done|].
  by rewrite end_loops.
Qed.
