(* ===== verification/Bus.v ===== *)
(** * The types shared by all devices on the bus, and the bus master's interface

    Data types of [libunibus/bus_state.h], [libunibus/signals.h] and
    [libunibus/util.h], and the interface [MasterBus] through which the
    processor ([cpu/cpu.c]) uses [libunibus/device_bus_mgr.c]. *)
From S2P Require Import Prelude.

(** [data_op]: the type of data bus request to make. *)
Inductive data_op :=
| R_IN | R_INB | R_OUT | R_OUTB
| R_BLOCK_IN | R_BLOCK_INB | R_BLOCK_OUT | R_BLOCK_OUTB
| R_DONE | R_NONE.

#[export] Instance data_op_eq_dec : EqDecision data_op.
Proof. solve_decision. Defined.

(** [data_xfer_spec]: an operation, a 32-bit address, a 16-bit value. *)
Record data_xfer_spec := Xfer { x_op : data_op; x_addr : Z; x_value : Z }.

#[export] Instance data_xfer_spec_eq_dec : EqDecision data_xfer_spec.
Proof. solve_decision. Defined.

Definition xfer_wf (x : data_xfer_spec) : Prop :=
  is_u32 (x_addr x) /\ is_u16 (x_value x).

(** What a bus master calls: each call is a complete transaction, and a call
    whose reply never comes is [Blocked]. *)
Class MasterBus (B : Type) := {
  read_data_in : Z -> M B Z;
  write_data_out : Z -> Z -> M B unit;
  write_data_out_b : Z -> Z -> M B unit
}.

(** The addresses the processor issues on the bus: [translate_bus_addr] moves
    every address with one of the bits 9 to 15 set to the last pages, so what
    is left is the first 512 bytes and everything beyond 16 bits. *)
Definition issued (a : Z) : Prop := 0 <= a < 512 \/ 65536 <= a < 4294967296.

(** What the processor's well-formedness relies on: on issued addresses a
    transaction does not run into undefined behaviour, keeps the bus side well
    formed, and a read returns a word. *)
Class MasterBusOk (B : Type) {MB : MasterBus B} (I : B -> Prop) : Prop := {
  read_data_in_ok a : issued a -> hoare I (read_data_in a) (fun v b => is_u16 v /\ I b);
  write_data_out_ok a v : issued a -> is_u16 v ->
    hoare I (write_data_out a v) (fun _ b => I b);
  write_data_out_b_ok a v : issued a -> is_u8 v ->
    hoare I (write_data_out_b a v) (fun _ b => I b)
}.
