(* ===== verification/Cpu.v ===== *)
(** * The processor: registers, bus addresses, addressing modes, flags

    The first half of [cpu/cpu.c]: the [cpu] record, the register file and its
    bus addresses, the data fetch and store functions, the operand addressing
    and the condition code helpers.  The instruction handlers are in [Instr].

    A processor thread runs in the state [machine B]: the [CPU_STATE] record and
    the bus side of type [B], used only through [MasterBus].  A C pointer to a
    register is a [reg], NULL is [None]; the [uint32_t *loc] argument of the
    addressing functions is the field it points to, a [locref].  What an
    instruction prints ([dump_cpu], [printf]) is not part of the state; it is in
    [Trace].  [CPU_P] prints in debug builds only. *)
From S2P Require Import Prelude Bus.

(** ** Constants *)
Definition CARRYFLAG : Z := oct! 0000001.
Definition OVERFLOWFLAG : Z := oct! 0000002.
Definition ZEROFLAG : Z := oct! 0000004.
Definition NEGATIVEFLAG : Z := oct! 0000010.

(** ** State *)
Record cpu := Cpu {
  r0 : Z; r1 : Z; r2 : Z; r3 : Z; r4 : Z; r5 : Z;
  sp : Z; pc : Z; psw : Z; alu : Z; ir : Z;
  src_address : Z; dest_address : Z;
  halted : Z
}.

Definition init_cpu : cpu := Cpu 0 0 0 0 0 0 0 0 0 0 0 0 0 0.

Record machine (B : Type) := Machine { cs : cpu; bus : B }.
Arguments Machine {B} cs bus.
Arguments cs {B} m.
Arguments bus {B} m.

(** The registers a pointer into [CPU_STATE] can denote. *)
Inductive reg := R0 | R1 | R2 | R3 | R4 | R5 | SP | PC | PSW.

#[export] Instance reg_eq_dec : EqDecision reg.
Proof. solve_decision. Defined.

Definition get_reg (r : reg) (c : cpu) : Z :=
  match r with
  | R0 => r0 c | R1 => r1 c | R2 => r2 c | R3 => r3 c | R4 => r4 c | R5 => r5 c
  | SP => sp c | PC => pc c | PSW => psw c
  end.

Definition with_reg (r : reg) (v : Z) (c : cpu) : cpu :=
  let '(Cpu a0 a1 a2 a3 a4 a5 s p w al i sa da h) := c in
  match r with
  | R0 => Cpu v a1 a2 a3 a4 a5 s p w al i sa da h
  | R1 => Cpu a0 v a2 a3 a4 a5 s p w al i sa da h
  | R2 => Cpu a0 a1 v a3 a4 a5 s p w al i sa da h
  | R3 => Cpu a0 a1 a2 v a4 a5 s p w al i sa da h
  | R4 => Cpu a0 a1 a2 a3 v a5 s p w al i sa da h
  | R5 => Cpu a0 a1 a2 a3 a4 v s p w al i sa da h
  | SP => Cpu a0 a1 a2 a3 a4 a5 v p w al i sa da h
  | PC => Cpu a0 a1 a2 a3 a4 a5 s v w al i sa da h
  | PSW => Cpu a0 a1 a2 a3 a4 a5 s p v al i sa da h
  end.

Definition with_alu (v : Z) (c : cpu) : cpu :=
  let '(Cpu a0 a1 a2 a3 a4 a5 s p w _ i sa da h) := c in
  Cpu a0 a1 a2 a3 a4 a5 s p w v i sa da h.

Definition with_ir (v : Z) (c : cpu) : cpu :=
  let '(Cpu a0 a1 a2 a3 a4 a5 s p w al _ sa da h) := c in
  Cpu a0 a1 a2 a3 a4 a5 s p w al v sa da h.

Definition with_halted (v : Z) (c : cpu) : cpu :=
  let '(Cpu a0 a1 a2 a3 a4 a5 s p w al i sa da _) := c in
  Cpu a0 a1 a2 a3 a4 a5 s p w al i sa da v.

(** The two fields an [uint32_t *loc] argument points to. *)
Inductive locref := SrcAddress | DestAddress.

Definition with_loc (l : locref) (v : Z) (c : cpu) : cpu :=
  let '(Cpu a0 a1 a2 a3 a4 a5 s p w al i sa da h) := c in
  match l with
  | SrcAddress => Cpu a0 a1 a2 a3 a4 a5 s p w al i v da h
  | DestAddress => Cpu a0 a1 a2 a3 a4 a5 s p w al i sa v h
  end.

(** ** Register numbers and register bus addresses *)

(** The [switch] that [inc_register], [dec_register] and
    [fetch_register_contents] share. *)
Definition register_ptr (n : Z) : option reg :=
  switch n [(0, Some R0); (1, Some R1); (2, Some R2); (3, Some R3);
            (4, Some R4); (5, Some R5); (6, Some SP); (7, Some PC);
            (8, Some PSW)] None.

Definition is_internal_bus_addr (addr : Z) : Z :=
  switch addr [(oct! 0777700, 1); (oct! 0777701, 1); (oct! 0777702, 1);
               (oct! 0777703, 1); (oct! 0777704, 1); (oct! 0777705, 1);
               (oct! 0777706, 1); (oct! 0777707, 1); (oct! 0777776, 1)] 0.

Definition register_to_bus_addr (n : Z) : Z :=
  switch n [(0, oct! 0777700); (1, oct! 0777701); (2, oct! 0777702);
            (3, oct! 0777703); (4, oct! 0777704); (5, oct! 0777705);
            (6, oct! 0777706); (7, oct! 0777707); (8, oct! 0777776)] 0xffffffff.

Definition bus_addr_to_register (addr : Z) : option reg :=
  switch addr [(oct! 0777700, Some R0); (oct! 0777701, Some R1);
               (oct! 0777702, Some R2); (oct! 0777703, Some R3);
               (oct! 0777704, Some R4); (oct! 0777705, Some R5);
               (oct! 0777706, Some SP); (oct! 0777707, Some PC);
               (oct! 0777776, Some PSW)] None.

(** Convert a high address to a bus address. *)
Definition translate_bus_addr (addr : Z) : Z :=
  if truth (Z.land addr (oct! 0177000)) then Z.lor addr (oct! 0700000) else addr.

(** ** Condition codes *)
Definition set_zero_flag_psw (value : Z) (psw : Z) : Z :=
  if value =? 0 then Z.lor psw ZEROFLAG
  else if truth (Z.land psw ZEROFLAG) then Z.lxor psw ZEROFLAG else psw.

Definition set_negative_flag_psw (set : bool) (psw : Z) : Z :=
  if set then Z.lor psw NEGATIVEFLAG
  else if truth (Z.land psw NEGATIVEFLAG) then Z.lxor psw NEGATIVEFLAG else psw.

Section Processor.
Context {B : Type} {MB : MasterBus B}.

Definition rd {A} (f : cpu -> A) : M (machine B) A := gets (fun s => f (cs s)).

Definition upd (f : cpu -> cpu) : M (machine B) unit :=
  modify (fun s => Machine (f (cs s)) (bus s)).

Definition on_bus {A} (m : M B A) : M (machine B) A := fun s =>
  match m (bus s) with
  | Done a b => Done a (Machine (cs s) b)
  | Blocked => Blocked
  | Fault => Fault
  end.

(** [CPU_STATE->alu = v] and the compound assignments to it: 16 bits. *)
Definition set_alu (v : Z) : M (machine B) unit := upd (with_alu (u16 v)).

Definition upd_alu (f : Z -> Z) : M (machine B) unit :=
  upd (fun c => with_alu (u16 (f (alu c))) c).

Definition set_reg (r : reg) (v : Z) : M (machine B) unit := upd (with_reg r (u16 v)).

Definition upd_reg (r : reg) (f : Z -> Z) : M (machine B) unit :=
  upd (fun c => with_reg r (u16 (f (get_reg r c))) c).

Definition set_loc (l : locref) (v : Z) : M (machine B) unit := upd (with_loc l (u32 v)).

(** ** Registers by number *)
Definition inc_register (n : Z) (is_byte_addr : bool) : M (machine B) unit :=
  match register_ptr n with
  | None => mret tt
  | Some r => if is_byte_addr then upd_reg r (fun v => v + 1) else upd_reg r (fun v => v + 2)
  end.

Definition dec_register (n : Z) (is_byte_addr : bool) : M (machine B) unit :=
  match register_ptr n with
  | None => mret tt
  | Some r => if is_byte_addr then upd_reg r (fun v => v - 1) else upd_reg r (fun v => v - 2)
  end.

Definition fetch_register_contents (n : Z) : M (machine B) Z :=
  match register_ptr n with
  | None => mret 0xffff
  | Some r => rd (get_reg r)
  end.

(** ** Data fetch and store *)
Definition fetch_data_register (addr : Z) : M (machine B) Z :=
  r ← the (bus_addr_to_register addr); rd (get_reg r).

Definition store_data_register (addr : Z) (data : Z) : M (machine B) unit :=
  r ← the (bus_addr_to_register addr); set_reg r data.

Definition fetch_data (addr : Z) : M (machine B) Z :=
  if truth (is_internal_bus_addr addr) then fetch_data_register addr
  else on_bus (read_data_in (translate_bus_addr addr)).

Definition store_data (addr : Z) (data : Z) : M (machine B) unit :=
  if truth (is_internal_bus_addr addr) then store_data_register addr (u16 data)
  else on_bus (write_data_out (translate_bus_addr addr) (u16 data)).

Definition store_data_b (addr : Z) (data : Z) : M (machine B) unit :=
  if truth (is_internal_bus_addr addr) then store_data_register addr (u8 data)
  else on_bus (write_data_out_b (translate_bus_addr addr) (u8 data)).

(** [fetch_data(CPU_STATE->pc); CPU_STATE->pc += 2;] *)
Definition fetch_pc_word : M (machine B) Z :=
  p ← rd pc; w ← fetch_data p; upd_reg PC (fun v => v + 2);; mret w.

(** ** Addressing modes *)
Definition setup_pc_addressing (loc : locref) (mode n : Z) : M (machine B) unit :=
  switch mode
    [(0, set_loc loc (register_to_bus_addr n));
     (2, p ← rd pc; set_loc loc p;; upd_reg PC (fun v => v + 2));
     (3, p ← rd pc; w ← fetch_data p; set_loc loc w;; upd_reg PC (fun v => v + 2));
     (6, relative ← fetch_pc_word; p ← rd pc; set_loc loc (p + relative))]
    (mret tt).

Definition setup_sp_addressing (loc : locref) (mode n : Z) : M (machine B) unit :=
  switch mode
    [(0, set_loc loc (register_to_bus_addr n));
     (1, a ← rd sp; set_loc loc a);
     (2, a ← rd sp; set_loc loc a;; upd_reg SP (fun v => v + 2));
     (3, a ← rd sp; w ← fetch_data a; set_loc loc w;; upd_reg SP (fun v => v + 2));
     (4, upd_reg SP (fun v => v - 2);; a ← rd sp; set_loc loc a);
     (6, index ← fetch_pc_word; a ← rd sp; set_loc loc (a + index));
     (7, index ← fetch_pc_word; a ← rd sp; w ← fetch_data (u32 (index + a));
         set_loc loc w)]
    (mret tt).

Definition setup_general_addressing (loc : locref) (mode n : Z) : M (machine B) unit :=
  switch mode
    [(0, set_loc loc (register_to_bus_addr n));
     (1, a ← fetch_register_contents n; set_loc loc a);
     (2, a ← fetch_register_contents n; set_loc loc a;; inc_register n false);
     (3, deferred ← fetch_register_contents n; index ← fetch_data deferred;
         inc_register n false;; w ← fetch_data index; set_loc loc w);
     (4, a ← fetch_register_contents n; set_loc loc a;; dec_register n false);
     (5, deferred ← fetch_register_contents n; index ← fetch_data deferred;
         w ← fetch_data index; set_loc loc w;;
         store_data deferred (u16 (index - 2)));
     (6, index ← fetch_pc_word; deferred ← fetch_register_contents n;
         w ← fetch_data (u32 (index + deferred)); set_loc loc w);
     (7, index ← fetch_pc_word; deferred ← fetch_register_contents n;
         deferred' ← fetch_data deferred;
         w ← fetch_data (u32 (deferred' + index)); set_loc loc w)]
    (mret tt).

Definition setup_general_byte_addressing (loc : locref) (mode n : Z) : M (machine B) unit :=
  switch mode
    [(0, set_loc loc (register_to_bus_addr n));
     (1, a ← fetch_register_contents n; set_loc loc a);
     (2, a ← fetch_register_contents n; set_loc loc a;; inc_register n true);
     (3, deferred ← fetch_register_contents n; index ← fetch_data deferred;
         inc_register n true;; w ← fetch_data index; set_loc loc w);
     (4, a ← fetch_register_contents n; set_loc loc a;; dec_register n true);
     (5, deferred ← fetch_register_contents n; index ← fetch_data deferred;
         w ← fetch_data index; set_loc loc w;;
         store_data deferred (u16 (index - 1)));
     (6, index ← fetch_pc_word; deferred ← fetch_register_contents n;
         w ← fetch_data (u32 (index + deferred)); set_loc loc w);
     (7, index ← fetch_pc_word; deferred ← fetch_register_contents n;
         deferred' ← fetch_data deferred;
         w ← fetch_data (u32 (deferred' + index)); set_loc loc w)]
    (mret tt).

Definition dest_reg_field (i : Z) : Z := Z.land i (oct! 00007).
Definition dest_mode_field (i : Z) : Z := Z.shiftr (Z.land i (oct! 00070)) 3.
Definition src_reg_field (i : Z) : Z := Z.shiftr (Z.land i (oct! 00700)) 6.
Definition src_mode_field (i : Z) : Z := Z.shiftr (Z.land i (oct! 07000)) 9.

(** The [switch (reg)] that both [setup_dest_addressing] and
    [setup_src_addressing] end in. *)
Definition setup_addressing (loc : locref) (mode n : Z) (use_byte_addr : bool) :
    M (machine B) unit :=
  switch n
    [(7, setup_pc_addressing loc mode n);
     (6, setup_sp_addressing loc mode n)]
    (if use_byte_addr then setup_general_byte_addressing loc mode n
     else setup_general_addressing loc mode n).

Definition setup_dest_addressing (use_byte_addr : bool) : M (machine B) unit :=
  i ← rd ir;
  setup_addressing DestAddress (dest_mode_field i) (dest_reg_field i) use_byte_addr.

Definition setup_src_addressing (use_byte_addr : bool) : M (machine B) unit :=
  i ← rd ir;
  setup_addressing SrcAddress (src_mode_field i) (src_reg_field i) use_byte_addr.

(** ** Condition code helpers *)
Definition set_zero_flag (value : Z) : M (machine B) unit :=
  upd_reg PSW (set_zero_flag_psw (u16 value)).

Definition set_negative_flag_b (value : Z) : M (machine B) unit :=
  upd_reg PSW (set_negative_flag_psw (truth (Z.land (u8 value) (oct! 0200)))).

Definition set_negative_flag_w (value : Z) : M (machine B) unit :=
  upd_reg PSW (set_negative_flag_psw (truth (Z.land (u16 value) (oct! 0100000)))).

Definition get_branch_offset : M (machine B) Z :=
  i ← rd ir; mret (i8 (Z.land i (oct! 0377))).

End Processor.
