(* ===== verification/Instr.v ===== *)
(** * The processor: instruction handlers, decoding and the execution loop

    The second half of [cpu/cpu.c]: one definition per handler, under the
    handler's name, the nested [switch] of [exec_instruction] ([decode] picks the
    handler, [dispatch] calls it) and the loop of [execute]. *)
From S2P Require Import Prelude Bus Cpu.

(** ** Operation codes *)
Definition BR_op : Z := oct! 0000400.
Definition BNE_op : Z := oct! 0001000.
Definition BEQ_op : Z := oct! 0001400.
Definition BGE_op : Z := oct! 0002000.
Definition BLT_op : Z := oct! 0002400.
Definition BGT_op : Z := oct! 0003000.
Definition BLE_op : Z := oct! 0003400.
Definition BPL_op : Z := oct! 0100000.
Definition BMI_op : Z := oct! 0100400.
Definition BHI_op : Z := oct! 0101000.
Definition BLOS_op : Z := oct! 0101400.
Definition BVC_op : Z := oct! 0102000.
Definition BVS_op : Z := oct! 0102400.
Definition BCC_op : Z := oct! 0103000.
Definition BCS_op : Z := oct! 0103400.

Definition MUL_op : Z := oct! 0070000.
Definition DIV_op : Z := oct! 0071000.
Definition ASH_op : Z := oct! 0072000.
Definition ASHC_op : Z := oct! 0073000.
Definition XOR_op : Z := oct! 0074000.
Definition JSR_op : Z := oct! 0004000.

Definition MOV_op : Z := oct! 0010000.
Definition MOVB_op : Z := oct! 0110000.
Definition CMP_op : Z := oct! 0020000.
Definition CMPB_op : Z := oct! 0120000.
Definition BIT_op : Z := oct! 0030000.
Definition BITB_op : Z := oct! 0130000.
Definition BIC_op : Z := oct! 0040000.
Definition BICB_op : Z := oct! 0140000.
Definition BIS_op : Z := oct! 0050000.
Definition BISB_op : Z := oct! 0150000.
Definition ADD_op : Z := oct! 0060000.
Definition SUB_op : Z := oct! 0160000.

Definition JMP_op : Z := oct! 0000100.
Definition SWAB_op : Z := oct! 0000300.
Definition CLR_op : Z := oct! 0005000.
Definition CLRB_op : Z := oct! 0105000.
Definition COM_op : Z := oct! 0005100.
Definition COMB_op : Z := oct! 0105100.
Definition INC_op : Z := oct! 0005200.
Definition INCB_op : Z := oct! 0105200.
Definition DEC_op : Z := oct! 0005300.
Definition DECB_op : Z := oct! 0105300.
Definition NEG_op : Z := oct! 0005400.
Definition NEGB_op : Z := oct! 0105400.
Definition ADC_op : Z := oct! 0005500.
Definition ADCB_op : Z := oct! 0105500.
Definition SBC_op : Z := oct! 0005600.
Definition SBCB_op : Z := oct! 0105600.
Definition TST_op : Z := oct! 0005700.
Definition TSTB_op : Z := oct! 0105700.
Definition ROR_op : Z := oct! 0006000.
Definition RORB_op : Z := oct! 0106000.
Definition ROL_op : Z := oct! 0006100.
Definition ROLB_op : Z := oct! 0106100.
Definition ASR_op : Z := oct! 0006200.
Definition ASRB_op : Z := oct! 0106200.
Definition ASL_op : Z := oct! 0006300.
Definition ASLB_op : Z := oct! 0106300.
Definition MTPS_op : Z := oct! 0106400.
Definition MFPI_op : Z := oct! 0006500.
Definition MFPD_op : Z := oct! 0106500.
Definition MTPI_op : Z := oct! 0006600.
Definition MTPD_op : Z := oct! 0106600.
Definition SXT_op : Z := oct! 0006700.
Definition MFPS_op : Z := oct! 0106700.
Definition RTS_op : Z := oct! 0000200.

(** The handler an instruction word selects. *)
Inductive mnemonic :=
| m_BR | m_BNE | m_BEQ | m_BGE | m_BLT | m_BGT | m_BLE | m_BPL | m_BMI | m_BHI |
m_BLOS | m_BVC | m_BVS | m_BCC | m_BCS
| m_MUL | m_DIV | m_ASH | m_ASHC | m_XOR | m_JSR
| m_MOV | m_MOVB | m_CMP | m_CMPB | m_BIT | m_BITB | m_BIC | m_BICB | m_BIS | m_BISB |
m_ADD | m_SUB
| m_JMP | m_SWAB | m_CLR | m_CLRB | m_COM | m_COMB | m_INC | m_INCB | m_DEC | m_DECB |
m_NEG | m_NEGB | m_ADC | m_ADCB | m_SBC | m_SBCB | m_TST | m_TSTB | m_ROR | m_RORB |
m_ROL | m_ROLB | m_ASR | m_ASRB | m_ASL | m_ASLB | m_MTPS | m_MFPI | m_MFPD | m_MTPI |
m_MTPD | m_SXT | m_MFPS | m_RTS
| m_HALT.

#[export] Instance mnemonic_eq_dec : EqDecision mnemonic.
Proof. solve_decision. Defined.

Definition branch_cases : list (Z * mnemonic) :=
  [(BR_op, m_BR); (BNE_op, m_BNE); (BEQ_op, m_BEQ); (BGE_op, m_BGE); (BLT_op,
   m_BLT); (BGT_op, m_BGT); (BLE_op, m_BLE); (BPL_op, m_BPL); (BMI_op, m_BMI);
   (BHI_op, m_BHI); (BLOS_op, m_BLOS); (BVC_op, m_BVC); (BVS_op, m_BVS); (BCC_op,
   m_BCC); (BCS_op, m_BCS)].

Definition register_source_cases : list (Z * mnemonic) :=
  [(MUL_op, m_MUL); (DIV_op, m_DIV); (ASH_op, m_ASH); (ASHC_op, m_ASHC); (XOR_op,
   m_XOR); (JSR_op, m_JSR)].

Definition double_op_cases : list (Z * mnemonic) :=
  [(MOV_op, m_MOV); (MOVB_op, m_MOVB); (CMP_op, m_CMP); (CMPB_op, m_CMPB); (BIT_op,
   m_BIT); (BITB_op, m_BITB); (BIC_op, m_BIC); (BICB_op, m_BICB); (BIS_op, m_BIS);
   (BISB_op, m_BISB); (ADD_op, m_ADD); (SUB_op, m_SUB)].

Definition single_op_cases : list (Z * mnemonic) :=
  [(JMP_op, m_JMP); (SWAB_op, m_SWAB); (CLR_op, m_CLR); (CLRB_op, m_CLRB); (COM_op,
   m_COM); (COMB_op, m_COMB); (INC_op, m_INC); (INCB_op, m_INCB); (DEC_op, m_DEC);
   (DECB_op, m_DECB); (NEG_op, m_NEG); (NEGB_op, m_NEGB); (ADC_op, m_ADC); (ADCB_op,
   m_ADCB); (SBC_op, m_SBC); (SBCB_op, m_SBCB); (TST_op, m_TST); (TSTB_op, m_TSTB);
   (ROR_op, m_ROR); (RORB_op, m_RORB); (ROL_op, m_ROL); (ROLB_op, m_ROLB); (ASR_op,
   m_ASR); (ASRB_op, m_ASRB); (ASL_op, m_ASL); (ASLB_op, m_ASLB); (MTPS_op, m_MTPS);
   (MFPI_op, m_MFPI); (MFPD_op, m_MFPD); (MTPI_op, m_MTPI); (MTPD_op, m_MTPD);
   (SXT_op, m_SXT); (MFPS_op, m_MFPS); (RTS_op, m_RTS)].

Definition decode (ir : Z) : mnemonic :=
  switch (Z.land ir (oct! 0177400)) branch_cases
    (switch (Z.land ir (oct! 0177000)) register_source_cases
      (switch (Z.land ir (oct! 0170000)) double_op_cases
        (switch (Z.land ir (oct! 0177700)) single_op_cases m_HALT))).

Section Handlers.
Context {B : Type} {MB : MasterBus B}.

(** ** Shared forms *)
Definition fetch_src : M (machine B) Z := a ← rd src_address; fetch_data a.

Definition fetch_dest : M (machine B) Z := a ← rd dest_address; fetch_data a.

Definition store_alu : M (machine B) unit :=
  a ← rd dest_address; v ← rd alu; store_data a v.

Definition store_alu_b : M (machine B) unit :=
  a ← rd dest_address; v ← rd alu; store_data_b a v.

Definition zero_flag_of_alu : M (machine B) unit := v ← rd alu; set_zero_flag v.

Definition negative_flag_of_alu_b : M (machine B) unit := v ← rd alu; set_negative_flag_b v.

Definition negative_flag_of_alu_w : M (machine B) unit := v ← rd alu; set_negative_flag_w v.

(** [CPU_STATE->pc = CPU_STATE->pc + (2 * offset)] *)
Definition branch_to (offset : Z) : M (machine B) unit :=
  upd_reg PC (fun p => p + 2 * offset).

Definition psw_bits (mask : Z) : M (machine B) Z := w ← rd psw; mret (Z.land w mask).

(** ** Handlers *)
Definition NOP : M (machine B) unit := mret tt.

Definition ADCB : M (machine B) unit :=
  setup_dest_addressing true;;
  v ← fetch_dest; set_alu (Z.land v (oct! 0377));;
  c ← psw_bits CARRYFLAG; upd_alu (fun a => a + c);;
  store_alu_b;;
  zero_flag_of_alu;; negative_flag_of_alu_b.

Definition ADC : M (machine B) unit :=
  setup_dest_addressing false;;
  v ← fetch_dest; set_alu v;;
  c ← psw_bits CARRYFLAG; upd_alu (fun a => a + c);;
  store_alu;;
  zero_flag_of_alu;; negative_flag_of_alu_w.

Definition ADD : M (machine B) unit :=
  setup_src_addressing false;; setup_dest_addressing false;;
  v ← fetch_src; set_alu v;;
  w ← fetch_dest; upd_alu (fun a => a + w);;
  store_alu;;
  negative_flag_of_alu_w;; zero_flag_of_alu.

Definition ASHC : M (machine B) unit := NOP.

Definition ASH : M (machine B) unit := NOP.

Definition ASLB : M (machine B) unit :=
  setup_dest_addressing true;;
  v ← fetch_dest; set_alu (Z.land v (oct! 0377));;
  upd_alu (fun a => Z.shiftl a 1);;
  store_alu;;
  zero_flag_of_alu;; negative_flag_of_alu_b.

Definition ASL : M (machine B) unit :=
  setup_dest_addressing false;;
  v ← fetch_dest; set_alu v;;
  upd_alu (fun a => Z.shiftl a 1);;
  store_alu;;
  zero_flag_of_alu;; negative_flag_of_alu_w.

Definition ASRB : M (machine B) unit :=
  setup_dest_addressing true;;
  v ← fetch_dest; set_alu (Z.land v (oct! 0377));;
  upd_alu (fun a => Z.shiftr a 1);;
  store_alu_b;;
  zero_flag_of_alu;; negative_flag_of_alu_b.

Definition ASR : M (machine B) unit :=
  setup_dest_addressing false;;
  v ← fetch_dest; set_alu v;;
  upd_alu (fun a => Z.shiftr a 1);;
  store_alu;;
  zero_flag_of_alu;; negative_flag_of_alu_w.

Definition BCC : M (machine B) unit :=
  offset ← get_branch_offset;
  c ← psw_bits CARRYFLAG; set_alu c;;
  a ← rd alu; when (a =? 0) (branch_to offset).

Definition BCS : M (machine B) unit :=
  offset ← get_branch_offset;
  c ← psw_bits CARRYFLAG; set_alu c;;
  a ← rd alu; when (truth a) (branch_to offset).

Definition BEQ : M (machine B) unit :=
  offset ← get_branch_offset;
  z ← psw_bits ZEROFLAG; set_alu z;;
  a ← rd alu; when (a =? ZEROFLAG) (branch_to offset).

Definition BGE : M (machine B) unit :=
  offset ← get_branch_offset;
  n ← psw_bits NEGATIVEFLAG; set_alu (Z.shiftr n 3);;
  v ← psw_bits OVERFLOWFLAG; upd_alu (fun a => Z.lxor a (Z.shiftr v 1));;
  a ← rd alu; when (a =? 0) (branch_to offset).

Definition BGT : M (machine B) unit :=
  offset ← get_branch_offset;
  z ← psw_bits ZEROFLAG; set_alu (Z.shiftr z 2);;
  n ← psw_bits NEGATIVEFLAG; v ← psw_bits OVERFLOWFLAG;
  upd_alu (fun a => Z.lor a (Z.lxor (Z.shiftr n 3) (Z.shiftr v 1)));;
  a ← rd alu; when (a =? 0) (branch_to offset).

Definition BHI : M (machine B) unit :=
  offset ← get_branch_offset;
  c ← psw_bits CARRYFLAG; set_alu c;;
  z ← psw_bits ZEROFLAG; upd_alu (fun a => Z.lor a (Z.shiftr z 2));;
  a ← rd alu; when (a =? 0) (branch_to offset).

Definition BICB : M (machine B) unit :=
  setup_src_addressing true;; setup_dest_addressing true;;
  w ← fetch_dest; set_alu (Z.land w (oct! 0377));;
  v ← fetch_src; upd_alu (fun a => Z.land a (Z.lnot (Z.land v (oct! 0377))));;
  store_alu_b;;
  negative_flag_of_alu_b;; zero_flag_of_alu.

Definition BIC : M (machine B) unit :=
  setup_src_addressing false;; setup_dest_addressing false;;
  w ← fetch_dest; set_alu w;;
  v ← fetch_src; upd_alu (fun a => Z.land a (Z.lnot v));;
  store_alu;;
  negative_flag_of_alu_w;; zero_flag_of_alu.

Definition BISB : M (machine B) unit :=
  setup_src_addressing true;; setup_dest_addressing true;;
  w ← fetch_dest; set_alu (Z.land w (oct! 0377));;
  v ← fetch_src; upd_alu (fun a => Z.lor a (Z.land v (oct! 0377)));;
  store_alu_b;;
  negative_flag_of_alu_b;; zero_flag_of_alu.

Definition BIS : M (machine B) unit :=
  setup_src_addressing false;; setup_dest_addressing false;;
  w ← fetch_dest; set_alu w;;
  v ← fetch_src; upd_alu (fun a => Z.lor a v);;
  store_alu;;
  negative_flag_of_alu_w;; zero_flag_of_alu.

Definition BITB : M (machine B) unit :=
  setup_src_addressing true;; setup_dest_addressing true;;
  v ← fetch_src; set_alu (Z.land v (oct! 0377));;
  w ← fetch_dest; upd_alu (fun a => Z.land a (Z.land w (oct! 0377)));;
  negative_flag_of_alu_b;; zero_flag_of_alu.

Definition BIT : M (machine B) unit :=
  setup_src_addressing false;; setup_dest_addressing false;;
  v ← fetch_src; set_alu v;;
  w ← fetch_dest; upd_alu (fun a => Z.land a w);;
  zero_flag_of_alu;; negative_flag_of_alu_w.

Definition BLE : M (machine B) unit :=
  offset ← get_branch_offset;
  z ← psw_bits ZEROFLAG; set_alu (Z.shiftr z 2);;
  n ← psw_bits NEGATIVEFLAG; v ← psw_bits OVERFLOWFLAG;
  upd_alu (fun a => Z.lor a (Z.lxor (Z.shiftr n 3) (Z.shiftr v 1)));;
  a ← rd alu; when (truth a) (branch_to offset).

Definition BLOS : M (machine B) unit :=
  offset ← get_branch_offset;
  c ← psw_bits CARRYFLAG; set_alu c;;
  z ← psw_bits ZEROFLAG; upd_alu (fun a => Z.lor a (Z.shiftr z 2));;
  a ← rd alu; when (truth a) (branch_to offset).

Definition BLT : M (machine B) unit :=
  offset ← get_branch_offset;
  n ← psw_bits NEGATIVEFLAG; set_alu (Z.shiftr n 3);;
  v ← psw_bits OVERFLOWFLAG; upd_alu (fun a => Z.lxor a (Z.shiftr v 1));;
  a ← rd alu; when (truth a) (branch_to offset).

Definition BMI : M (machine B) unit :=
  offset ← get_branch_offset;
  n ← psw_bits NEGATIVEFLAG; set_alu n;;
  a ← rd alu; when (truth a) (branch_to offset).

Definition BNE : M (machine B) unit :=
  offset ← get_branch_offset;
  z ← psw_bits ZEROFLAG; set_alu z;;
  a ← rd alu; when (a =? 0) (branch_to offset).

Definition BPL : M (machine B) unit :=
  offset ← get_branch_offset;
  n ← psw_bits NEGATIVEFLAG; set_alu n;;
  a ← rd alu; when (a =? 0) (branch_to offset).

Definition BR : M (machine B) unit :=
  offset ← get_branch_offset; branch_to offset.

Definition BVC : M (machine B) unit :=
  offset ← get_branch_offset;
  v ← psw_bits OVERFLOWFLAG; set_alu v;;
  a ← rd alu; when (a =? 0) (branch_to offset).

Definition BVS : M (machine B) unit :=
  offset ← get_branch_offset;
  v ← psw_bits OVERFLOWFLAG; set_alu v;;
  a ← rd alu; when (truth a) (branch_to offset).

Definition CLRB : M (machine B) unit :=
  setup_dest_addressing true;;
  set_alu 0;; store_alu_b;;
  negative_flag_of_alu_b;; zero_flag_of_alu.

Definition CLR : M (machine B) unit :=
  setup_dest_addressing false;;
  set_alu 0;; store_alu;;
  negative_flag_of_alu_w;; zero_flag_of_alu.

Definition CMPB : M (machine B) unit :=
  setup_src_addressing true;; setup_dest_addressing true;;
  w ← fetch_dest; set_alu (Z.land w (oct! 0377));;
  v ← fetch_src; upd_alu (fun a => a - Z.land v (oct! 0377));;
  zero_flag_of_alu;; negative_flag_of_alu_b.

Definition CMP : M (machine B) unit :=
  setup_src_addressing false;; setup_dest_addressing false;;
  w ← fetch_dest; set_alu w;;
  v ← fetch_src; upd_alu (fun a => a - v);;
  zero_flag_of_alu;; negative_flag_of_alu_w.

Definition COMB : M (machine B) unit :=
  setup_dest_addressing false;;
  v ← fetch_dest; set_alu (Z.lnot (Z.land v (oct! 0377)));;
  store_alu_b;;
  negative_flag_of_alu_b;; zero_flag_of_alu.

Definition COM : M (machine B) unit :=
  setup_dest_addressing false;;
  v ← fetch_dest; set_alu (Z.lnot v);;
  store_alu;;
  negative_flag_of_alu_w;; zero_flag_of_alu.

Definition DECB : M (machine B) unit :=
  setup_dest_addressing true;;
  v ← fetch_dest; set_alu (Z.land v (oct! 0377));;
  upd_alu (fun a => a - 1);;
  store_alu_b;;
  zero_flag_of_alu;; negative_flag_of_alu_b.

Definition DEC : M (machine B) unit :=
  setup_dest_addressing false;;
  v ← fetch_dest; set_alu v;;
  upd_alu (fun a => a - 1);;
  store_alu;;
  zero_flag_of_alu;; negative_flag_of_alu_w.

Definition DIV : M (machine B) unit := NOP.

Definition HALT : M (machine B) unit := upd (with_halted 1).

Definition INCB : M (machine B) unit :=
  setup_dest_addressing true;;
  v ← fetch_dest; set_alu (Z.land v (oct! 0377));;
  upd_alu (fun a => a + 1);;
  store_alu_b;;
  zero_flag_of_alu;; negative_flag_of_alu_b.

Definition INC : M (machine B) unit :=
  setup_dest_addressing false;;
  v ← fetch_dest; set_alu v;;
  upd_alu (fun a => a + 1);;
  store_alu;;
  zero_flag_of_alu;; negative_flag_of_alu_w.

Definition JMP : M (machine B) unit :=
  setup_dest_addressing false;;
  v ← fetch_dest; set_reg PC v.

(** The calls [dec_register(CPU_STATE->sp, 0)] here and
    [inc_register(CPU_STATE->sp, 0)] in [RTS] pass the contents of SP where the
    functions take a register number. *)
Definition JSR : M (machine B) unit :=
  i ← rd ir;
  let n := Z.shiftr (Z.land i (oct! 0700)) 6 in
  setup_dest_addressing false;;
  d ← rd dest_address;
  let tmp := u16 d in
  reg_contents ← fetch_register_contents n;
  s ← rd sp; store_data s reg_contents;;
  s ← rd sp; dec_register s false;;
  p ← rd pc; store_data_register (register_to_bus_addr n) p;;
  set_reg PC tmp.

Definition MFPD : M (machine B) unit := NOP.

Definition MFPI : M (machine B) unit := NOP.

Definition MFPS : M (machine B) unit :=
  setup_dest_addressing false;;
  w ← rd psw; set_alu w;; store_alu.

Definition MOVB : M (machine B) unit :=
  setup_src_addressing true;; setup_dest_addressing true;;
  v ← fetch_src; set_alu (Z.land v (oct! 0377));;
  store_alu_b;;
  zero_flag_of_alu;; negative_flag_of_alu_b.

Definition MOV : M (machine B) unit :=
  setup_src_addressing false;; setup_dest_addressing false;;
  v ← fetch_src; set_alu v;;
  store_alu;;
  zero_flag_of_alu;; negative_flag_of_alu_w.

Definition MTPD : M (machine B) unit := NOP.

Definition MTPI : M (machine B) unit := NOP.

Definition MTPS : M (machine B) unit :=
  setup_dest_addressing false;;
  v ← fetch_dest; set_alu v;;
  a ← rd alu; set_reg PSW a.

Definition MUL : M (machine B) unit := NOP.

Definition NEGB : M (machine B) unit :=
  setup_dest_addressing true;;
  v ← fetch_dest; set_alu (Z.land v (oct! 0377));;
  upd_alu (fun a => Z.land (Z.lnot a + 1) (oct! 0377));;
  store_alu_b;;
  zero_flag_of_alu;; negative_flag_of_alu_b.

Definition NEG : M (machine B) unit :=
  setup_dest_addressing false;;
  v ← fetch_dest; set_alu v;;
  upd_alu (fun a => Z.lnot a + 1);;
  store_alu;;
  zero_flag_of_alu;; negative_flag_of_alu_w.

Definition ROLB : M (machine B) unit :=
  setup_dest_addressing true;;
  v ← fetch_dest; set_alu (Z.land v (oct! 0377));;
  upd_alu (fun a => Z.lor (Z.shiftl a 7) (Z.shiftr a 1));;
  store_alu_b;;
  zero_flag_of_alu;; negative_flag_of_alu_b.

Definition ROL : M (machine B) unit :=
  setup_dest_addressing false;;
  v ← fetch_dest; set_alu v;;
  upd_alu (fun a => Z.lor (Z.shiftl a 15) (Z.shiftr a 1));;
  store_alu;;
  zero_flag_of_alu;; negative_flag_of_alu_w.

Definition RORB : M (machine B) unit :=
  setup_dest_addressing true;;
  v ← fetch_dest; set_alu (Z.land v (oct! 0377));;
  upd_alu (fun a => Z.lor (Z.shiftl a 1) (Z.shiftr a 7));;
  store_alu_b;;
  zero_flag_of_alu;; negative_flag_of_alu_b.

Definition ROR : M (machine B) unit :=
  setup_dest_addressing false;;
  v ← fetch_dest; set_alu v;;
  upd_alu (fun a => Z.lor (Z.shiftl a 1) (Z.shiftr a 15));;
  store_alu;;
  zero_flag_of_alu;; negative_flag_of_alu_w.

Definition RTS : M (machine B) unit :=
  i ← rd ir;
  let n := Z.land i (oct! 07) in
  reg_contents ← fetch_register_contents n;
  set_reg PC reg_contents;;
  s ← rd sp; inc_register s false;;
  s ← rd sp; top_stack ← fetch_data s;
  store_data_register (register_to_bus_addr n) top_stack.

Definition SBCB : M (machine B) unit :=
  setup_dest_addressing true;;
  v ← fetch_dest; set_alu (Z.land v (oct! 0377));;
  c ← psw_bits CARRYFLAG; upd_alu (fun a => a - c);;
  store_alu_b;;
  zero_flag_of_alu;; negative_flag_of_alu_b.

Definition SBC : M (machine B) unit :=
  setup_dest_addressing false;;
  v ← fetch_dest; set_alu v;;
  c ← psw_bits CARRYFLAG; upd_alu (fun a => a - c);;
  store_alu;;
  zero_flag_of_alu;; negative_flag_of_alu_w.

Definition SUB : M (machine B) unit :=
  setup_src_addressing false;; setup_dest_addressing false;;
  v ← fetch_src; set_alu v;;
  w ← fetch_dest; upd_alu (fun a => a - w);;
  store_alu;;
  negative_flag_of_alu_w;; zero_flag_of_alu.

Definition SWAB : M (machine B) unit :=
  setup_dest_addressing false;;
  v ← fetch_dest; set_alu v;;
  upd_alu (fun a => Z.lor (Z.shiftr (Z.land a (oct! 0177400)) 8)
                          (Z.shiftl (Z.land a (oct! 000377)) 8));;
  store_alu;;
  negative_flag_of_alu_w;; zero_flag_of_alu.

Definition SXT : M (machine B) unit := NOP.

Definition TSTB : M (machine B) unit :=
  setup_dest_addressing true;;
  v ← fetch_dest; set_alu (Z.land v (oct! 0377));;
  zero_flag_of_alu;; negative_flag_of_alu_b.

Definition TST : M (machine B) unit :=
  setup_dest_addressing false;;
  v ← fetch_dest; set_alu v;;
  zero_flag_of_alu;; negative_flag_of_alu_w.

Definition XOR : M (machine B) unit := NOP.

(** ** Dispatch and the execution loop *)
Definition dispatch (m : mnemonic) : M (machine B) unit :=
  match m with
  | m_BR => BR | m_BNE => BNE | m_BEQ => BEQ | m_BGE => BGE
  | m_BLT => BLT | m_BGT => BGT | m_BLE => BLE | m_BPL => BPL
  | m_BMI => BMI | m_BHI => BHI | m_BLOS => BLOS | m_BVC => BVC
  | m_BVS => BVS | m_BCC => BCC | m_BCS => BCS | m_MUL => MUL
  | m_DIV => DIV | m_ASH => ASH | m_ASHC => ASHC | m_XOR => XOR
  | m_JSR => JSR | m_MOV => MOV | m_MOVB => MOVB | m_CMP => CMP
  | m_CMPB => CMPB | m_BIT => BIT | m_BITB => BITB | m_BIC => BIC
  | m_BICB => BICB | m_BIS => BIS | m_BISB => BISB | m_ADD => ADD
  | m_SUB => SUB | m_JMP => JMP | m_SWAB => SWAB | m_CLR => CLR
  | m_CLRB => CLRB | m_COM => COM | m_COMB => COMB | m_INC => INC
  | m_INCB => INCB | m_DEC => DEC | m_DECB => DECB | m_NEG => NEG
  | m_NEGB => NEGB | m_ADC => ADC | m_ADCB => ADCB | m_SBC => SBC
  | m_SBCB => SBCB | m_TST => TST | m_TSTB => TSTB | m_ROR => ROR
  | m_RORB => RORB | m_ROL => ROL | m_ROLB => ROLB | m_ASR => ASR
  | m_ASRB => ASRB | m_ASL => ASL | m_ASLB => ASLB | m_MTPS => MTPS
  | m_MFPI => MFPI | m_MFPD => MFPD | m_MTPI => MTPI | m_MTPD => MTPD
  | m_SXT => SXT | m_MFPS => MFPS | m_RTS => RTS | m_HALT => HALT
  end.

Definition exec_instruction : M (machine B) unit := i ← rd ir; dispatch (decode i).

(** One iteration of the loop of [execute]. *)
Definition execute_once : M (machine B) unit :=
  p ← rd pc; w ← fetch_data p;
  upd (with_ir w);;
  upd_reg PC (fun v => v + 2);;
  exec_instruction.

(** The loop of [execute], for at most [fuel] instructions: [None] when the
    processor has not halted by then. *)
Fixpoint execute (fuel : nat) : M (machine B) (option unit) :=
  h ← rd halted;
  if truth h then mret (Some tt)
  else match fuel with
       | O => mret None
       | S fuel' => execute_once;; execute fuel'
       end.

End Handlers.
