(* ===== verification/Lockstep.v ===== *)
(** * The processor on two buses in lockstep

    [cpu/cpu.c] reaches the bus only through the three calls of [MasterBus].  If
    two buses answer these calls alike ([BusSim]), the processor does the same on
    both: every handler, every instruction and the loop of [execute]. *)
From S2P Require Import Prelude Bus Cpu Instr.

(** ** Computations on related states

    [sim R m1 m2]: whenever [m1] returns from a state, [m2] returns the same from
    every related state, and the states stay related. *)
Definition sim {S T A} (R : S -> T -> Prop) (m1 : M S A) (m2 : M T A) : Prop :=
  forall s t a s', R s t -> m1 s = Done a s' -> exists t', m2 t = Done a t' /\ R s' t'.

Section Sim.
Context {S T : Type} {R : S -> T -> Prop}.

Lemma sim_ret {A} (a : A) : sim R (mret a) (mret a).
Proof. intros s t b s' H [= <- <-]. by exists t. Qed.

Lemma sim_bind {A A'} (m1 : M S A) m2 (f1 : A -> M S A') f2 :
  sim R m1 m2 -> (forall a, sim R (f1 a) (f2 a)) -> sim R (m1 ≫= f1) (m2 ≫= f2).
Proof.
  intros Hm Hf s t b s' H (a & s1 & E1 & E2)%bind_inv.
  destruct (Hm _ _ _ _ H E1) as (t1 & F1 & H1). destruct (Hf _ _ _ _ _ H1 E2) as (t' & F2 & H2).
  exists t'. split; [|done]. by rewrite (bind_done _ _ _ _ _ F1).
Qed.

Lemma sim_if {A} (b : bool) (m1 m1' : M S A) (m2 m2' : M T A) :
  sim R m1 m2 -> sim R m1' m2' -> sim R (if b then m1 else m1') (if b then m2 else m2').
Proof. by destruct b. Qed.

Lemma sim_the {A} (o : option A) : sim R (the o) (the o).
Proof. destruct o; [apply sim_ret | done]. Qed.

Lemma sim_switch {A} x cases1 cases2 (d1 : M S A) (d2 : M T A) :
  Forall2 (fun c1 c2 => c1.1 = c2.1 /\ sim R c1.2 c2.2) cases1 cases2 -> sim R d1 d2 ->
  sim R (switch x cases1 d1) (switch x cases2 d2).
Proof.
  intros Hc Hd. induction Hc as [|[k1 m1] [k2 m2] c1 c2 [E Hm] Hc IH]; [done|].
  cbn in *. subst k2. by apply sim_if.
Qed.
End Sim.

(** ** Two buses that answer alike *)
Class BusSim {B C : Type} {MB : MasterBus B} {MC : MasterBus C} (R : B -> C -> Prop) : Prop := {
  sim_read_data_in a : sim R (read_data_in a) (read_data_in a);
  sim_write_data_out a v : is_u16 v -> sim R (write_data_out a v) (write_data_out a v);
  sim_write_data_out_b a v : is_u8 v -> sim R (write_data_out_b a v) (write_data_out_b a v)
}.

(** Two processors in the same state, on related buses. *)
Definition alike {B C} (R : B -> C -> Prop) (s : machine B) (t : machine C) : Prop :=
  cs s = cs t /\ R (bus s) (bus t).

Create HintDb lockstep.
#[export] Hint Resolve sim_ret sim_the : lockstep.

(** Walks two copies of a computation down to primitives in the hint database. *)
Ltac lockstep_walk :=
  lazymatch goal with
  | |- sim _ (_ ≫= _) (_ ≫= _) =>
      apply sim_bind; [lockstep_walk | cbv beta; intros ?; lockstep_walk]
  | |- sim _ (switch _ _ _) (switch _ _ _) => apply sim_switch; [lockstep_walk | lockstep_walk]
  | |- Forall2 _ (_ :: _) (_ :: _) =>
      apply Forall2_cons_2; [split; [reflexivity | cbn [snd]; lockstep_walk] | lockstep_walk]
  | |- Forall2 _ [] [] => apply Forall2_nil_2
  | |- sim _ (if _ then _ else _) _ => apply sim_if; lockstep_walk
  | |- sim _ (when _ _) _ => apply sim_if; lockstep_walk
  | |- sim _ (match ?o with _ => _ end) _ => destruct o; lockstep_walk
  | |- sim _ (let _ := _ in _) _ => cbv zeta; lockstep_walk
  | |- _ => eauto with lockstep
  end.

Ltac lockstep_unfold :=
  match goal with |- sim _ ?h _ => let f := head_of h in unfold f end.

Section Lockstep.
Context {B C : Type} {MB : MasterBus B} {MC : MasterBus C} {R : B -> C -> Prop} {BS : BusSim R}.
#[local] Abbreviation both m := (sim (alike R) m m).

(** ** Primitives *)
Lemma both_rd {A} (f : cpu -> A) : both (rd f).
Proof. intros s t a s' [E H] [= <- <-]. exists t. split; [by rewrite E | done]. Qed.

Lemma both_upd (f : cpu -> cpu) : both (upd f).
Proof. intros s t a s' [E H] [= <- <-]. eexists. split; [done|]. split; [cbn; by rewrite E | done]. Qed.

Lemma both_on_bus {A} (m1 : M B A) (m2 : M C A) :
  sim R m1 m2 -> sim (alike R) (on_bus m1) (on_bus m2).
Proof.
  intros Hm s t a s' [E H]. unfold on_bus.
  destruct (m1 (bus s)) as [a1 b1| |] eqn:E1; [|done..]. intros [= -> <-].
  destruct (Hm _ _ _ _ H E1) as (c1 & -> & H1). eexists. by split.
Qed.

#[local] Hint Resolve both_rd both_upd : lockstep.
#[local] Hint Resolve sim_read_data_in sim_write_data_out sim_write_data_out_b u16_range u8_range : lockstep.
#[local] Hint Resolve both_on_bus : lockstep.

Lemma both_upd_reg r f : both (upd_reg r f).
Proof. apply both_upd. Qed.

Lemma both_set_alu v : both (set_alu v).
Proof. apply both_upd. Qed.

Lemma both_upd_alu f : both (upd_alu f).
Proof. apply both_upd. Qed.

Lemma both_set_reg r v : both (set_reg r v).
Proof. apply both_upd. Qed.

Lemma both_set_loc l v : both (set_loc l v).
Proof. apply both_upd. Qed.

#[local] Hint Resolve both_upd_reg both_set_alu both_upd_alu both_set_reg both_set_loc : lockstep.

Lemma both_fetch_data a : both (fetch_data a).
Proof. unfold fetch_data, fetch_data_register. lockstep_walk. Qed.

Lemma both_store_data_register a v : both (store_data_register a v).
Proof. unfold store_data_register. lockstep_walk. Qed.
#[local] Hint Resolve both_fetch_data both_store_data_register : lockstep.

Lemma both_store_data a v : both (store_data a v).
Proof. unfold store_data. lockstep_walk. Qed.

Lemma both_store_data_b a v : both (store_data_b a v).
Proof. unfold store_data_b. lockstep_walk. Qed.

Lemma both_fetch_register_contents n : both (fetch_register_contents n).
Proof. unfold fetch_register_contents. lockstep_walk. Qed.

Lemma both_inc_register n b : both (inc_register n b).
Proof. unfold inc_register. lockstep_walk. Qed.

Lemma both_dec_register n b : both (dec_register n b).
Proof. unfold dec_register. lockstep_walk. Qed.

#[local] Hint Resolve both_store_data both_store_data_b both_fetch_register_contents
  both_inc_register both_dec_register : lockstep.

(** ** Addressing modes and condition codes *)
Lemma both_setup_addressing l mode n b : both (setup_addressing l mode n b).
Proof.
  unfold setup_addressing, setup_pc_addressing, setup_sp_addressing,
    setup_general_byte_addressing, setup_general_addressing, fetch_pc_word.
  lockstep_walk.
Qed.
#[local] Hint Resolve both_setup_addressing : lockstep.

Lemma both_setup_dest b : both (setup_dest_addressing b).
Proof. unfold setup_dest_addressing. lockstep_walk. Qed.

Lemma both_setup_src b : both (setup_src_addressing b).
Proof. unfold setup_src_addressing. lockstep_walk. Qed.

Lemma both_operands : both fetch_src /\ both fetch_dest /\ both store_alu /\ both store_alu_b.
Proof. unfold fetch_src, fetch_dest, store_alu, store_alu_b. split_and!; lockstep_walk. Qed.

Lemma both_flags :
  both zero_flag_of_alu /\ both negative_flag_of_alu_b /\ both negative_flag_of_alu_w.
Proof.
  unfold zero_flag_of_alu, negative_flag_of_alu_b, negative_flag_of_alu_w, set_zero_flag,
    set_negative_flag_b, set_negative_flag_w. split_and!; lockstep_walk.
Qed.

Lemma both_branching mask o : both (psw_bits mask) /\ both get_branch_offset /\ both (branch_to o).
Proof. unfold psw_bits, get_branch_offset, branch_to. split_and!; lockstep_walk. Qed.

#[local] Hint Resolve both_setup_dest both_setup_src : lockstep.
#[local] Hint Extern 1 (sim _ fetch_src _) => apply both_operands : lockstep.
#[local] Hint Extern 1 (sim _ fetch_dest _) => apply both_operands : lockstep.
#[local] Hint Extern 1 (sim _ store_alu _) => apply both_operands : lockstep.
#[local] Hint Extern 1 (sim _ store_alu_b _) => apply both_operands : lockstep.
#[local] Hint Extern 1 (sim _ zero_flag_of_alu _) => apply both_flags : lockstep.
#[local] Hint Extern 1 (sim _ negative_flag_of_alu_b _) => apply both_flags : lockstep.
#[local] Hint Extern 1 (sim _ negative_flag_of_alu_w _) => apply both_flags : lockstep.
#[local] Hint Extern 1 (sim _ (psw_bits _) _) => apply (both_branching _ 0) : lockstep.
#[local] Hint Extern 1 (sim _ get_branch_offset _) => apply (both_branching 0 0) : lockstep.
#[local] Hint Extern 1 (sim _ (branch_to _) _) => apply (both_branching 0 _) : lockstep.

(** ** Instructions *)
Lemma both_NOP : both NOP.
Proof. apply sim_ret. Qed.
#[local] Hint Resolve both_NOP : lockstep.

Lemma both_dispatch m : both (dispatch m).
Proof.
  destruct m; cbn [dispatch]; try solve [eauto with lockstep]; lockstep_unfold; lockstep_walk.
Qed.
#[local] Hint Resolve both_dispatch : lockstep.

Lemma both_execute_once : both execute_once.
Proof. unfold execute_once, exec_instruction. lockstep_walk. Qed.
#[local] Hint Resolve both_execute_once : lockstep.

(** The whole loop, for any number of instructions. *)
Lemma both_execute fuel : both (execute fuel).
Proof. induction fuel as [|fuel IH]; cbn [execute]; lockstep_walk. Qed.
End Lockstep.
