(* ===== verification/Decode.v ===== *)
(** * The processor: the division of the instruction words

    [decode] is a cascade of four [switch]es under four masks.  Here the words
    of each handler are an interval, [instruction_range]; the lemma
    [decode_range] shows the cascade selects exactly by these intervals.  The
    masks ignore the low six bits, so a computation over the 1024 blocks of 64
    words decides every statement about all words. *)
From S2P Require Import Prelude Bus Cpu Instr.

(** First word and number of words; [None] for HALT, which takes the rest. *)
Definition range_of (size : Z) (cases : list (Z * mnemonic)) (m : mnemonic) : option (Z * Z) :=
  head (omap (fun c => if decide (c.2 = m) then Some (c.1, size) else None) cases).

Definition instruction_range (m : mnemonic) : option (Z * Z) :=
  match range_of 256 branch_cases m with
  | Some r => Some r
  | None =>
      match range_of 512 register_source_cases m with
      | Some r => Some r
      | None =>
          match range_of 4096 double_op_cases m with
          | Some r => Some r
          | None => range_of 64 single_op_cases m
          end
      end
  end.

Definition in_range (m : mnemonic) (w : Z) : bool :=
  match instruction_range m with
  | Some (lo, n) => (lo <=? w) && (w <? lo + n)
  | None => false
  end.

(** All handlers but HALT. *)
Definition decodable : list mnemonic :=
  branch_cases.*2 ++ register_source_cases.*2 ++ double_op_cases.*2 ++ single_op_cases.*2.

(** ** Encoding *)
Definition base_of (m : mnemonic) : Z :=
  match instruction_range m with Some (lo, _) => lo | None => 0 end.

Definition encode_double (m : mnemonic) (sm sr dm dr : Z) : Z :=
  base_of m + 512 * sm + 64 * sr + 8 * dm + dr.

Definition encode_single (m : mnemonic) (dm dr : Z) : Z := base_of m + 8 * dm + dr.

Definition encode_branch (m : mnemonic) (offset : Z) : Z := base_of m + u8 offset.

(** ** Lemmas *)
Lemma decode_block w : decode w = decode (64 * (w / 64)).
Proof.
  assert (E : forall k, (64 | k) -> Z.land w k = Z.land (64 * (w / 64)) k).
  { intros k [q ->]. apply Z.bits_inj'. intros n Hn. rewrite !Z.land_spec.
    replace (64 * (w / 64)) with (Z.shiftl (Z.shiftr w 6) 6)
      by (rewrite Z.shiftr_div_pow2, Z.shiftl_mul_pow2 by done; change (2 ^ 6) with 64; lia).
    replace (q * 64) with (Z.shiftl q 6) by by rewrite Z.shiftl_mul_pow2.
    rewrite !Z.shiftl_spec by done. destruct (Z.lt_ge_cases n 6).
    - by rewrite (Z.testbit_neg_r q), !andb_false_r by lia.
    - rewrite Z.shiftr_spec by lia. do 2 f_equal. lia. }
  unfold decode. rewrite !(E 65280), !(E 65024), !(E 61440), !(E 65472)
    by first [by exists 1020 | by exists 1016 | by exists 960 | by exists 1023]. done.
Qed.

(** Both sides of a statement about [decode] and the intervals, on block [q]. *)
Definition block_ok (q : Z) : bool :=
  forallb (fun m => Bool.eqb (bool_decide (decode (64 * q) = m)) (in_range m (64 * q))) decodable.

Lemma blocks_ok : forallb block_ok (seqZ 0 1024) = true.
Proof. vm_compute. reflexivity. Qed.

Definition range_aligned (m : mnemonic) : bool :=
  match instruction_range m with
  | Some (lo, n) => (lo mod 64 =? 0) && (n mod 64 =? 0) && (0 <=? lo) && (lo + n <=? 65536)
  | None => bool_decide (m = m_HALT)
  end.

Lemma ranges_aligned m : range_aligned m = true.
Proof. destruct m; vm_compute; reflexivity. Qed.

Lemma decodable_all m : m <> m_HALT -> m ∈ decodable.
Proof.
  destruct m;
    first [intros _; apply (bool_decide_unpack _); vm_compute; exact I | intros []; reflexivity].
Qed.

Lemma in_range_block m w : in_range m w = in_range m (64 * (w / 64)).
Proof.
  pose proof (ranges_aligned m) as H. unfold in_range, range_aligned in *.
  destruct (instruction_range m) as [[lo n]|]; [|done].
  repeat (apply andb_prop in H as [H ?]). apply Z.eqb_eq in H.
  assert (n mod 64 = 0) by by apply Z.eqb_eq.
  apply eq_true_iff_eq. rewrite !andb_true_iff, !Z.leb_le, !Z.ltb_lt.
  Z.to_euclidean_division_equations. lia.
Qed.

Lemma decode_range m w :
  is_u16 w -> m <> m_HALT -> bool_decide (decode w = m) = in_range m w.
Proof.
  intros Hw Hm. rewrite decode_block, in_range_block.
  pose proof (proj1 (forallb_forall _ _) blocks_ok (w / 64)) as H.
  assert (In (w / 64) (seqZ 0 1024)) as Hin
    by (apply list_elem_of_In, elem_of_seqZ; mod_lia).
  specialize (H Hin). unfold block_ok in H.
  pose proof (proj1 (forallb_forall _ _) H m) as Hm'. apply eqb_prop, Hm'.
  by apply list_elem_of_In, decodable_all.
Qed.

Lemma range_decodes m lo n w :
  instruction_range m = Some (lo, n) -> is_u16 w -> lo <= w < lo + n -> decode w = m.
Proof.
  intros Hr Hw Hin. assert (m <> m_HALT) by (intros ->; discriminate).
  apply (bool_decide_eq_true (decode w = m)). rewrite decode_range by done. unfold in_range. rewrite Hr.
  apply andb_true_iff. rewrite Z.leb_le, Z.ltb_lt. lia.
Qed.

Lemma range_bounds m lo n :
  instruction_range m = Some (lo, n) -> 0 <= lo /\ lo + n <= 65536 /\ lo mod 64 = 0 /\ n mod 64 = 0.
Proof.
  intros Hr. pose proof (ranges_aligned m) as H. unfold range_aligned in H. rewrite Hr in H.
  rewrite !andb_true_iff, !Z.eqb_eq, !Z.leb_le in H. tauto.
Qed.

(** The operand fields of an encoded word, whose opcode occupies the bits above. *)
Lemma fields_of_word b sm sr dm dr :
  0 <= b -> b mod 4096 = 0 -> 0 <= sm < 8 -> 0 <= sr < 8 -> 0 <= dm < 8 -> 0 <= dr < 8 ->
  let w := b + 512 * sm + 64 * sr + 8 * dm + dr in
  src_mode_field w = sm /\ src_reg_field w = sr /\ dest_mode_field w = dm /\ dest_reg_field w = dr.
Proof.
  intros Hb Hm Hsm Hsr Hdm Hdr w.
  unfold src_mode_field, src_reg_field, dest_mode_field, dest_reg_field.
  rewrite !Z.shiftr_land.
  change (Z.shiftr 3584 9) with (Z.ones 3). change (Z.shiftr 448 6) with (Z.ones 3).
  change (Z.shiftr 56 3) with (Z.ones 3). change 7 with (Z.ones 3).
  rewrite !Z.land_ones, !Z.shiftr_div_pow2 by done. subst w. change (2 ^ 3) with 8. change (2 ^ 6) with 64.
  change (2 ^ 9) with 512. assert (exists q, b = 4096 * q) as [q ->] by (exists (b / 4096); pose proof (Z.div_mod b 4096); lia).
  clear Hm. repeat split; symmetry.
  - replace (_ / 512) with (8 * q + sm) by
      (apply (Z.div_unique _ _ _ (64 * sr + 8 * dm + dr)); lia).
    apply (Z.mod_unique _ _ q); lia.
  - replace (_ / 64) with (8 * (8 * q + sm) + sr) by
      (apply (Z.div_unique _ _ _ (8 * dm + dr)); lia).
    apply (Z.mod_unique _ _ (8 * q + sm)); lia.
  - replace (_ / 8) with (8 * (8 * (8 * q + sm) + sr) + dm) by
      (apply (Z.div_unique _ _ _ dr); lia).
    apply (Z.mod_unique _ _ (8 * (8 * q + sm) + sr)); lia.
  - apply (Z.mod_unique _ _ (8 * (8 * (8 * q + sm) + sr) + dm)); lia.
Qed.
