(* ===== verification/CpuFacts.v ===== *)
(** * The processor: well-formedness and absence of undefined behaviour

    Every component of the processor record stays in the range of its C type,
    no NULL register pointer is ever dereferenced, and only issued addresses
    reach the bus. *)
From S2P Require Import Prelude Bus Cpu Instr.

Definition cpu_wf (c : cpu) : Prop :=
  (forall r, is_u16 (get_reg r c)) /\ is_u16 (alu c) /\ is_u16 (ir c) /\
  is_u32 (src_address c) /\ is_u32 (dest_address c) /\ is_u8 (halted c).

Definition machine_wf {B} (I : B -> Prop) (s : machine B) : Prop :=
  cpu_wf (cs s) /\ I (bus s).

(** ** Record updates *)
Lemma get_with_reg r r' v c :
  get_reg r (with_reg r' v c) = if decide (r = r') then v else get_reg r c.
Proof. by destruct c, r, r'. Qed.

Lemma with_reg_twice r v v' c : with_reg r v (with_reg r v' c) = with_reg r v c.
Proof. by destruct c, r. Qed.

Lemma with_reg_id r c : with_reg r (get_reg r c) c = c.
Proof. by destruct c, r. Qed.

Lemma get_reg_with_alu r v c : get_reg r (with_alu v c) = get_reg r c.
Proof. by destruct c, r. Qed.

Lemma get_reg_with_ir r v c : get_reg r (with_ir v c) = get_reg r c.
Proof. by destruct c, r. Qed.

Lemma get_reg_with_loc r l v c : get_reg r (with_loc l v c) = get_reg r c.
Proof. by destruct c, r, l. Qed.

Lemma get_reg_with_halted r v c : get_reg r (with_halted v c) = get_reg r c.
Proof. by destruct c, r. Qed.

Lemma alu_with_reg r v c : alu (with_reg r v c) = alu c.
Proof. by destruct c, r. Qed.

Lemma ir_with_reg r v c : ir (with_reg r v c) = ir c.
Proof. by destruct c, r. Qed.

Lemma alu_with_alu v c : alu (with_alu v c) = v.
Proof. by destruct c. Qed.

Lemma ir_with_loc l v c : ir (with_loc l v c) = ir c.
Proof. by destruct c, l. Qed.

Create Rewrite HintDb cpu_rw.
#[export] Hint Rewrite get_with_reg get_reg_with_alu get_reg_with_ir get_reg_with_loc
  get_reg_with_halted alu_with_reg ir_with_reg alu_with_alu ir_with_loc : cpu_rw.

(** The fields of an updated record. *)
Lemma dest_with_reg r v c : dest_address (with_reg r v c) = dest_address c.
Proof. by destruct c, r. Qed.

Lemma src_with_reg r v c : src_address (with_reg r v c) = src_address c.
Proof. by destruct c, r. Qed.

Lemma dest_with_alu v c : dest_address (with_alu v c) = dest_address c.
Proof. by destruct c. Qed.

Lemma src_with_alu v c : src_address (with_alu v c) = src_address c.
Proof. by destruct c. Qed.

Lemma dest_with_loc v c : dest_address (with_loc DestAddress v c) = v.
Proof. by destruct c. Qed.

Lemma src_with_loc v c : src_address (with_loc SrcAddress v c) = v.
Proof. by destruct c. Qed.

Lemma dest_with_src v c : dest_address (with_loc SrcAddress v c) = dest_address c.
Proof. by destruct c. Qed.

Lemma src_with_dest v c : src_address (with_loc DestAddress v c) = src_address c.
Proof. by destruct c. Qed.

Lemma ir_with_alu v c : ir (with_alu v c) = ir c.
Proof. by destruct c. Qed.

Lemma alu_with_loc l v c : alu (with_loc l v c) = alu c.
Proof. by destruct c, l. Qed.

Lemma halted_with_reg r v c : halted (with_reg r v c) = halted c.
Proof. by destruct c, r. Qed.

Lemma halted_with_alu v c : halted (with_alu v c) = halted c.
Proof. by destruct c. Qed.

Lemma halted_with_ir v c : halted (with_ir v c) = halted c.
Proof. by destruct c. Qed.

Lemma halted_with_loc l v c : halted (with_loc l v c) = halted c.
Proof. by destruct c, l. Qed.

Lemma ir_with_ir v c : ir (with_ir v c) = v.
Proof. by destruct c. Qed.

#[export] Hint Rewrite halted_with_reg halted_with_alu halted_with_ir halted_with_loc
  ir_with_ir : cpu_rw.
#[export] Hint Rewrite dest_with_reg src_with_reg dest_with_alu src_with_alu dest_with_loc
  src_with_loc dest_with_src src_with_dest ir_with_alu alu_with_loc : cpu_rw.

(** The fields the primitives read by name, seen as registers. *)
Section Fields.
Context (c : cpu) (v : Z).

Lemma sp_get : sp c = get_reg SP c.
Proof. done. Qed.

Lemma sp_with_reg r : sp (with_reg r v c) = if decide (SP = r) then v else sp c.
Proof. exact (get_with_reg SP r v c). Qed.

Lemma sp_with_alu : sp (with_alu v c) = sp c.
Proof. exact (get_reg_with_alu SP v c). Qed.

Lemma sp_with_ir : sp (with_ir v c) = sp c.
Proof. exact (get_reg_with_ir SP v c). Qed.

Lemma sp_with_loc l : sp (with_loc l v c) = sp c.
Proof. exact (get_reg_with_loc SP l v c). Qed.

Lemma pc_get : pc c = get_reg PC c.
Proof. done. Qed.

Lemma pc_with_reg r : pc (with_reg r v c) = if decide (PC = r) then v else pc c.
Proof. exact (get_with_reg PC r v c). Qed.

Lemma pc_with_alu : pc (with_alu v c) = pc c.
Proof. exact (get_reg_with_alu PC v c). Qed.

Lemma pc_with_ir : pc (with_ir v c) = pc c.
Proof. exact (get_reg_with_ir PC v c). Qed.

Lemma pc_with_loc l : pc (with_loc l v c) = pc c.
Proof. exact (get_reg_with_loc PC l v c). Qed.

Lemma psw_get : psw c = get_reg PSW c.
Proof. done. Qed.

Lemma psw_with_reg r : psw (with_reg r v c) = if decide (PSW = r) then v else psw c.
Proof. exact (get_with_reg PSW r v c). Qed.

Lemma psw_with_alu : psw (with_alu v c) = psw c.
Proof. exact (get_reg_with_alu PSW v c). Qed.

Lemma psw_with_ir : psw (with_ir v c) = psw c.
Proof. exact (get_reg_with_ir PSW v c). Qed.

Lemma psw_with_loc l : psw (with_loc l v c) = psw c.
Proof. exact (get_reg_with_loc PSW l v c). Qed.

End Fields.

#[export] Hint Rewrite sp_with_reg sp_with_alu sp_with_ir sp_with_loc pc_with_reg pc_with_alu
  pc_with_ir pc_with_loc psw_with_reg psw_with_alu psw_with_ir psw_with_loc : cpu_rw.

Lemma cpu_wf_reg c r : cpu_wf c -> is_u16 (get_reg r c).
Proof. intros [H _]. apply H. Qed.

#[export] Hint Resolve cpu_wf_reg : words.

Ltac cpu_simpl :=
  autorewrite with cpu_rw;
  repeat match goal with
  | |- context [decide (?a = ?b)] =>
      first [rewrite (decide_True (P := a = b)) by done | rewrite (decide_False (P := a = b)) by done]
  end.

Lemma init_cpu_wf : cpu_wf init_cpu.
Proof. split; [by intros [] | simpl; lia]. Qed.

Lemma with_reg_wf r v c : is_u16 v -> cpu_wf c -> cpu_wf (with_reg r v c).
Proof.
  intros Hv [Hr H]. split.
  - intros r'. rewrite get_with_reg. case_decide; auto.
  - by destruct c, r.
Qed.

Lemma with_alu_wf v c : is_u16 v -> cpu_wf c -> cpu_wf (with_alu v c).
Proof.
  intros Hv [Hr H]. split; [intros; rewrite get_reg_with_alu; auto | destruct c; simpl in *; tauto].
Qed.

Lemma with_ir_wf v c : is_u16 v -> cpu_wf c -> cpu_wf (with_ir v c).
Proof.
  intros Hv [Hr H]. split; [intros; rewrite get_reg_with_ir; auto | destruct c; simpl in *; tauto].
Qed.

Lemma with_loc_wf l v c : is_u32 v -> cpu_wf c -> cpu_wf (with_loc l v c).
Proof.
  intros Hv [Hr H]. split; [intros; rewrite get_reg_with_loc; auto | destruct c, l; simpl in *; tauto].
Qed.

Lemma with_halted_wf v c : is_u8 v -> cpu_wf c -> cpu_wf (with_halted v c).
Proof.
  intros Hv [Hr H].
  split; [intros; rewrite get_reg_with_halted; auto | destruct c; simpl in *; tauto].
Qed.

(** ** Bus addresses *)
Lemma translate_issued a : is_u32 a -> issued (translate_bus_addr a).
Proof.
  intros Ha. unfold translate_bus_addr, issued, truth.
  destruct (Z.eqb_spec (Z.land a 65024) 0) as [E|E]; simpl.
  - destruct (decide (a < 65536)); [left | right; lia]. split; [lia|].
    apply (testbit_small _ 9); [lia..|]. intros n Hn.
    destruct (decide (n < 16)); [| apply (small_testbit a 16); lia].
    assert (H : Z.testbit (Z.land a 65024) n = false) by (rewrite E; apply Z.bits_0).
    rewrite Z.land_spec in H. change 65024 with (Z.shiftl (Z.ones 7) 9) in H.
    by rewrite Z.shiftl_spec, Z.ones_spec_low, andb_true_r in H by lia.
  - right. pose proof (lor_range 32 a 229376). pose proof (lor_ge a 229376). lia.
Qed.

Lemma register_to_bus_addr_range n :
  0 <= n <= 8 -> is_u32 (register_to_bus_addr n) /\
  is_Some (bus_addr_to_register (register_to_bus_addr n)).
Proof.
  intros Hn.
  assert (n = 0 \/ n = 1 \/ n = 2 \/ n = 3 \/ n = 4 \/ n = 5 \/ n = 6 \/ n = 7 \/ n = 8)
    as H by lia.
  destruct_or! H; subst; unfold register_to_bus_addr, bus_addr_to_register; simpl;
    (split; [lia | eauto]).
Qed.

Lemma register_to_bus_addr_u32 n : is_u32 (register_to_bus_addr n).
Proof.
  unfold register_to_bus_addr. simpl.
  repeat case_match; lia.
Qed.

Lemma internal_to_register a :
  truth (is_internal_bus_addr a) = true -> is_Some (bus_addr_to_register a).
Proof.
  unfold is_internal_bus_addr, bus_addr_to_register. simpl.
  repeat case_match; eauto; done.
Qed.

(** ** Computations that keep the machine well formed *)
Section Keeps.
Context {B : Type} {MB : MasterBus B} {I : B -> Prop} {OK : MasterBusOk B I}.
#[local] Abbreviation keeps := (stable (machine_wf I)).

Lemma keeps_rd {A} (f : cpu -> A) (phi : A -> Prop) :
  (forall c, cpu_wf c -> phi (f c)) -> keeps (rd f) phi.
Proof. intros H s [Hc Hb]. repeat split; try apply Hc; auto. Qed.

Lemma keeps_upd f : (forall c, cpu_wf c -> cpu_wf (f c)) -> keeps (upd f) (fun _ => True).
Proof. intros H s [Hc Hb]. split; [done|]. split; [by apply H | done]. Qed.

Lemma keeps_on_bus {A} (m : M B A) (phi : A -> Prop) :
  hoare I m (fun a b => phi a /\ I b) -> keeps (on_bus m) phi.
Proof.
  intros H s [Hc Hb]. specialize (H _ Hb). unfold on_bus.
  destruct (m (bus s)); [| done..]. destruct H. by repeat split; try apply Hc.
Qed.

(** ** The processor's primitives *)
Lemma keeps_rd_reg r : keeps (rd (get_reg r)) (fun v => is_u16 v).
Proof. apply keeps_rd. intros c [H _]. apply H. Qed.

Lemma keeps_rd_pc : keeps (rd pc) (fun v => is_u16 v).
Proof. exact (keeps_rd_reg PC). Qed.

Lemma keeps_rd_sp : keeps (rd sp) (fun v => is_u16 v).
Proof. exact (keeps_rd_reg SP). Qed.

Lemma keeps_rd_psw : keeps (rd psw) (fun v => is_u16 v).
Proof. exact (keeps_rd_reg PSW). Qed.

Lemma keeps_rd_alu : keeps (rd alu) (fun v => is_u16 v).
Proof. apply keeps_rd. intros c H. apply H. Qed.

Lemma keeps_rd_ir : keeps (rd ir) (fun v => is_u16 v).
Proof. apply keeps_rd. intros c H. apply H. Qed.

Lemma keeps_rd_src : keeps (rd src_address) (fun v => is_u32 v).
Proof. apply keeps_rd. intros c H. apply H. Qed.

Lemma keeps_rd_dest : keeps (rd dest_address) (fun v => is_u32 v).
Proof. apply keeps_rd. intros c H. apply H. Qed.

Lemma keeps_set_reg r v : keeps (set_reg r v) (fun _ => True).
Proof. apply keeps_upd. intros c Hc. apply with_reg_wf; auto with words. Qed.

Lemma keeps_upd_reg r f : keeps (upd_reg r f) (fun _ => True).
Proof. apply keeps_upd. intros c Hc. apply with_reg_wf; auto with words. Qed.

Lemma keeps_set_alu v : keeps (set_alu v) (fun _ => True).
Proof. apply keeps_upd. intros c Hc. apply with_alu_wf; auto with words. Qed.

Lemma keeps_upd_alu f : keeps (upd_alu f) (fun _ => True).
Proof. apply keeps_upd. intros c Hc. apply with_alu_wf; auto with words. Qed.

Lemma keeps_set_loc l v : keeps (set_loc l v) (fun _ => True).
Proof. apply keeps_upd. intros c Hc. apply with_loc_wf; auto with words. Qed.

Lemma keeps_fetch_data a : is_u32 a -> keeps (fetch_data a) (fun v => is_u16 v).
Proof.
  intros Ha. apply stable_if; intros E.
  - destruct (internal_to_register _ E) as [r Hr].
    unfold fetch_data_register. rewrite Hr. exact (keeps_rd_reg r).
  - apply keeps_on_bus, read_data_in_ok, translate_issued, Ha.
Qed.

Lemma keeps_store_data_register a v :
  is_Some (bus_addr_to_register a) -> keeps (store_data_register a v) (fun _ => True).
Proof.
  intros [r Hr]. unfold store_data_register. rewrite Hr. exact (keeps_set_reg r v).
Qed.

Lemma keeps_store_data a v : is_u32 a -> keeps (store_data a v) (fun _ => True).
Proof.
  intros Ha. apply stable_if; intros E.
  - by apply keeps_store_data_register, internal_to_register.
  - apply keeps_on_bus. eapply hoare_weaken;
      [apply write_data_out_ok; [by apply translate_issued | apply u16_range] | done | done].
Qed.

Lemma keeps_store_data_b a v : is_u32 a -> keeps (store_data_b a v) (fun _ => True).
Proof.
  intros Ha. apply stable_if; intros E.
  - by apply keeps_store_data_register, internal_to_register.
  - apply keeps_on_bus. eapply hoare_weaken;
      [apply write_data_out_b_ok; [by apply translate_issued | apply u8_range] | done | done].
Qed.

Lemma keeps_fetch_register_contents n :
  keeps (fetch_register_contents n) (fun v => is_u16 v).
Proof.
  unfold fetch_register_contents.
  destruct (register_ptr n); [apply keeps_rd_reg | apply stable_ret; lia].
Qed.

Lemma keeps_inc_register n b : keeps (inc_register n b) (fun _ => True).
Proof.
  unfold inc_register. destruct (register_ptr n); [| by apply stable_ret].
  destruct b; apply keeps_upd_reg.
Qed.

Lemma keeps_dec_register n b : keeps (dec_register n b) (fun _ => True).
Proof.
  unfold dec_register. destruct (register_ptr n); [| by apply stable_ret].
  destruct b; apply keeps_upd_reg.
Qed.
End Keeps.

Create HintDb keeps.
#[export] Hint Resolve keeps_rd_reg keeps_rd_pc keeps_rd_sp keeps_rd_psw keeps_rd_alu
  keeps_rd_ir keeps_rd_src keeps_rd_dest keeps_set_reg keeps_upd_reg keeps_set_alu
  keeps_upd_alu keeps_set_loc keeps_fetch_data keeps_store_data keeps_store_data_b
  keeps_fetch_register_contents keeps_inc_register keeps_dec_register : keeps.
#[export] Hint Resolve u16_range u32_range : keeps.
#[export] Hint Resolve stable_ret : keeps.
#[export] Hint Extern 4 (_ <= _ < _) => lia : keeps.

Ltac keeps_walk := stable_walk ltac:(eauto with keeps).

Section Handlers.
Context {B : Type} {MB : MasterBus B} {I : B -> Prop} {OK : MasterBusOk B I}.
#[local] Abbreviation keeps := (stable (machine_wf I)).

Lemma keeps_fetch_pc_word : keeps fetch_pc_word (fun v => is_u16 v).
Proof. unfold fetch_pc_word. keeps_walk. Qed.
#[local] Hint Resolve keeps_fetch_pc_word : keeps.

Lemma keeps_setup_addressing l mode n b :
  keeps (setup_addressing l mode n b) (fun _ => True).
Proof.
  unfold setup_addressing, setup_pc_addressing, setup_sp_addressing,
    setup_general_byte_addressing, setup_general_addressing.
  keeps_walk.
Qed.
#[local] Hint Resolve keeps_setup_addressing : keeps.

Lemma keeps_setup_dest b : keeps (setup_dest_addressing b) (fun _ => True).
Proof. unfold setup_dest_addressing. keeps_walk. Qed.

Lemma keeps_setup_src b : keeps (setup_src_addressing b) (fun _ => True).
Proof. unfold setup_src_addressing. keeps_walk. Qed.

Lemma keeps_fetch_src : keeps fetch_src (fun v => is_u16 v).
Proof. unfold fetch_src. keeps_walk. Qed.

Lemma keeps_fetch_dest : keeps fetch_dest (fun v => is_u16 v).
Proof. unfold fetch_dest. keeps_walk. Qed.

Lemma keeps_store_alu : keeps store_alu (fun _ => True).
Proof. unfold store_alu. keeps_walk. Qed.

Lemma keeps_store_alu_b : keeps store_alu_b (fun _ => True).
Proof. unfold store_alu_b. keeps_walk. Qed.

Lemma keeps_zero_flag : keeps zero_flag_of_alu (fun _ => True).
Proof. unfold zero_flag_of_alu, set_zero_flag. keeps_walk. Qed.

Lemma keeps_negative_flag_b : keeps negative_flag_of_alu_b (fun _ => True).
Proof. unfold negative_flag_of_alu_b, set_negative_flag_b. keeps_walk. Qed.

Lemma keeps_negative_flag_w : keeps negative_flag_of_alu_w (fun _ => True).
Proof. unfold negative_flag_of_alu_w, set_negative_flag_w. keeps_walk. Qed.

Lemma keeps_psw_bits k : keeps (psw_bits k) (fun _ => True).
Proof. unfold psw_bits. keeps_walk. Qed.

Lemma keeps_get_branch_offset : keeps get_branch_offset (fun _ => True).
Proof. unfold get_branch_offset. keeps_walk. Qed.

Lemma keeps_branch_to o : keeps (branch_to o) (fun _ => True).
Proof. unfold branch_to. keeps_walk. Qed.

#[local] Hint Resolve keeps_setup_dest keeps_setup_src keeps_fetch_src keeps_fetch_dest
  keeps_store_alu keeps_store_alu_b keeps_zero_flag keeps_negative_flag_b
  keeps_negative_flag_w keeps_psw_bits keeps_get_branch_offset keeps_branch_to : keeps.

(** A link register number names a register. *)
Lemma keeps_store_link n v :
  0 <= n <= 8 -> keeps (store_data_register (register_to_bus_addr n) v) (fun _ => True).
Proof. intros Hn. apply keeps_store_data_register, register_to_bus_addr_range, Hn. Qed.

Lemma keeps_JSR : keeps JSR (fun _ => True).
Proof.
  unfold JSR. keeps_walk. apply keeps_store_link.
  pose proof (land_le a 448). rewrite Z.shiftr_div_pow2 by done. change (2 ^ 6) with 64.
  mod_lia.
Qed.

Lemma keeps_RTS : keeps RTS (fun _ => True).
Proof. unfold RTS. keeps_walk. apply keeps_store_link. pose proof (land_le a 7). lia. Qed.

Lemma keeps_HALT : keeps HALT (fun _ => True).
Proof. apply keeps_upd. intros c Hc. apply with_halted_wf; [lia | done]. Qed.

Lemma keeps_NOP : keeps NOP (fun _ => True).
Proof. by apply stable_ret. Qed.

#[local] Hint Resolve keeps_JSR keeps_RTS keeps_HALT keeps_NOP : keeps.

Lemma keeps_dispatch m : keeps (dispatch m) (fun _ => True).
Proof.
  destruct m; cbn [dispatch]; try solve [eauto with keeps];
    match goal with |- stable _ ?h _ => let f := head_of h in unfold f end; keeps_walk.
Qed.
#[local] Hint Resolve keeps_dispatch : keeps.

Lemma keeps_exec_instruction : keeps exec_instruction (fun _ => True).
Proof. unfold exec_instruction. keeps_walk. Qed.

Lemma keeps_set_ir w : is_u16 w -> keeps (upd (with_ir w)) (fun _ => True).
Proof. intros Hw. apply keeps_upd. intros c Hc. by apply with_ir_wf. Qed.
#[local] Hint Resolve keeps_exec_instruction keeps_set_ir : keeps.

Lemma keeps_execute_once : keeps execute_once (fun _ => True).
Proof. unfold execute_once. keeps_walk. Qed.
#[local] Hint Resolve keeps_execute_once : keeps.

Lemma keeps_execute fuel : keeps (execute fuel) (fun _ => True).
Proof.
  induction fuel as [|fuel IH]; cbn [execute];
    (eapply stable_bind; [by apply (keeps_rd halted (fun _ => True)) | intros h _]);
    keeps_walk.
Qed.
End Handlers.
