(* ===== verification/CpuSpec.v ===== *)
(** * The processor: a table-driven specification of the handlers

    The handlers of [Instr] are written out one by one, as in [cpu/cpu.c].  Here
    an instruction is described by a row of a table - the operands it fetches,
    the arithmetic function of their values, where the result goes - and one
    generic executor runs the rows.  The lemmas show that every handler equals
    its row, and give the closed forms of the branches and of the condition
    codes. *)
From S2P Require Import Prelude Bus Cpu Instr CpuFacts.

(** ** Specification of the condition codes *)
Definition carry (w : Z) : bool := Z.testbit w 0.
Definition overflow (w : Z) : bool := Z.testbit w 1.
Definition zero (w : Z) : bool := Z.testbit w 2.
Definition negative (w : Z) : bool := Z.testbit w 3.

(** The condition under which a branch is taken, from the flags. *)
Definition branch_condition (m : mnemonic) : option (bool -> bool -> bool -> bool -> bool) :=
  match m with
  | m_BR => Some (fun n z v c => true)
  | m_BNE => Some (fun n z v c => negb z)
  | m_BEQ => Some (fun n z v c => z)
  | m_BGE => Some (fun n z v c => negb (xorb n v))
  | m_BLT => Some (fun n z v c => xorb n v)
  | m_BGT => Some (fun n z v c => negb (z || xorb n v))
  | m_BLE => Some (fun n z v c => z || xorb n v)
  | m_BPL => Some (fun n z v c => negb n)
  | m_BMI => Some (fun n z v c => n)
  | m_BHI => Some (fun n z v c => negb (c || z))
  | m_BLOS => Some (fun n z v c => c || z)
  | m_BVC => Some (fun n z v c => negb v)
  | m_BVS => Some (fun n z v c => v)
  | m_BCC => Some (fun n z v c => negb c)
  | m_BCS => Some (fun n z v c => c)
  | _ => None
  end.

(** ** Specification of the operand instructions *)
Inductive width := W8 | W16.
Inductive result := Discard | StoreWord | StoreByte.

Definition operand (w : width) (v : Z) : Z :=
  match w with W8 => u8 v | W16 => u16 v end.

Record single_op := SingleOp {
  so_byte_addressing : bool;
  so_width : width;
  so_fetches : bool;
  so_fn : Z -> Z -> Z;          (* carry bit, operand *)
  so_result : result
}.

Definition single_table (m : mnemonic) : option single_op :=
  match m with
  | m_CLR => Some (SingleOp false W16 false (fun _ _ => 0) StoreWord)
  | m_CLRB => Some (SingleOp true W8 false (fun _ _ => 0) StoreByte)
  | m_COM => Some (SingleOp false W16 true (fun _ x => 65535 - x) StoreWord)
  | m_COMB => Some (SingleOp false W8 true (fun _ x => 65535 - x) StoreByte)
  | m_INC => Some (SingleOp false W16 true (fun _ x => x + 1) StoreWord)
  | m_INCB => Some (SingleOp true W8 true (fun _ x => x + 1) StoreByte)
  | m_DEC => Some (SingleOp false W16 true (fun _ x => x - 1) StoreWord)
  | m_DECB => Some (SingleOp true W8 true (fun _ x => x - 1) StoreByte)
  | m_NEG => Some (SingleOp false W16 true (fun _ x => - x) StoreWord)
  | m_NEGB => Some (SingleOp true W8 true (fun _ x => (- x) mod 256) StoreByte)
  | m_ADC => Some (SingleOp false W16 true (fun c x => x + c) StoreWord)
  | m_ADCB => Some (SingleOp true W8 true (fun c x => x + c) StoreByte)
  | m_SBC => Some (SingleOp false W16 true (fun c x => x - c) StoreWord)
  | m_SBCB => Some (SingleOp true W8 true (fun c x => x - c) StoreByte)
  | m_TST => Some (SingleOp false W16 true (fun _ x => x) Discard)
  | m_TSTB => Some (SingleOp true W8 true (fun _ x => x) Discard)
  | m_ROR => Some (SingleOp false W16 true (fun _ x => 2 * x + x / 32768) StoreWord)
  | m_RORB => Some (SingleOp true W8 true (fun _ x => 2 * x + x / 128) StoreByte)
  | m_ROL => Some (SingleOp false W16 true (fun _ x => 32768 * (x mod 2) + x / 2) StoreWord)
  | m_ROLB => Some (SingleOp true W8 true (fun _ x => 128 * x + x / 2) StoreByte)
  | m_ASR => Some (SingleOp false W16 true (fun _ x => x / 2) StoreWord)
  | m_ASRB => Some (SingleOp true W8 true (fun _ x => x / 2) StoreByte)
  | m_ASL => Some (SingleOp false W16 true (fun _ x => 2 * x) StoreWord)
  | m_ASLB => Some (SingleOp true W8 true (fun _ x => 2 * x) StoreWord)
  | m_SWAB => Some (SingleOp false W16 true (fun _ x => x / 256 + 256 * (x mod 256)) StoreWord)
  | _ => None
  end.

(** The operands a double-operand instruction fetches, in order. *)
Inductive fetch_order := SrcOnly | SrcThenDest | DestThenSrc.

Record double_op := DoubleOp {
  do_width : width;
  do_order : fetch_order;
  do_fn : Z -> Z -> Z;          (* source, destination *)
  do_stores : bool
}.

Definition double_table (m : mnemonic) : option double_op :=
  match m with
  | m_MOV => Some (DoubleOp W16 SrcOnly (fun v _ => v) true)
  | m_MOVB => Some (DoubleOp W8 SrcOnly (fun v _ => v) true)
  | m_CMP => Some (DoubleOp W16 DestThenSrc (fun v w => w - v) false)
  | m_CMPB => Some (DoubleOp W8 DestThenSrc (fun v w => w - v) false)
  | m_BIT => Some (DoubleOp W16 SrcThenDest Z.land false)
  | m_BITB => Some (DoubleOp W8 SrcThenDest Z.land false)
  | m_BIC => Some (DoubleOp W16 DestThenSrc (fun v w => Z.ldiff w v) true)
  | m_BICB => Some (DoubleOp W8 DestThenSrc (fun v w => Z.ldiff w v) true)
  | m_BIS => Some (DoubleOp W16 DestThenSrc Z.lor true)
  | m_BISB => Some (DoubleOp W8 DestThenSrc Z.lor true)
  | m_ADD => Some (DoubleOp W16 SrcThenDest Z.add true)
  | m_SUB => Some (DoubleOp W16 SrcThenDest Z.sub true)
  | _ => None
  end.

Section Executor.
Context {B : Type} {MB : MasterBus B}.

Definition negative_flag_of_alu (w : width) : M (machine B) unit :=
  match w with W8 => negative_flag_of_alu_b | W16 => negative_flag_of_alu_w end.

Definition store_result (r : result) : M (machine B) unit :=
  match r with Discard => mret tt | StoreWord => store_alu | StoreByte => store_alu_b end.

Definition exec_single (e : single_op) : M (machine B) unit :=
  setup_dest_addressing (so_byte_addressing e);;
  v ← (if so_fetches e then fetch_dest else mret 0);
  c ← psw_bits CARRYFLAG;
  set_alu (so_fn e c (operand (so_width e) v));;
  store_result (so_result e);;
  negative_flag_of_alu (so_width e);; zero_flag_of_alu.

Definition byte_wide (w : width) : bool := match w with W8 => true | W16 => false end.

Definition fetch_operands (o : fetch_order) : M (machine B) (Z * Z) :=
  match o with
  | SrcOnly => v ← fetch_src; mret (v, 0)
  | SrcThenDest => v ← fetch_src; w ← fetch_dest; mret (v, w)
  | DestThenSrc => w ← fetch_dest; v ← fetch_src; mret (v, w)
  end.

Definition exec_double (e : double_op) : M (machine B) unit :=
  setup_src_addressing (byte_wide (do_width e));;
  setup_dest_addressing (byte_wide (do_width e));;
  vw ← fetch_operands (do_order e);
  set_alu (do_fn e (operand (do_width e) vw.1) (operand (do_width e) vw.2));;
  store_result (if do_stores e then (if byte_wide (do_width e) then StoreByte else StoreWord)
                else Discard);;
  negative_flag_of_alu (do_width e);; zero_flag_of_alu.

(** ** Algebra of the processor's primitives *)
Lemma set_upd_alu {A} x f (k : M (machine B) A) :
  (set_alu x;; upd_alu f;; k) ≈ (set_alu (f (u16 x));; k).
Proof. by intros [[] ?]. Qed.

Lemma set_carry_upd_alu {A} x m (f : Z -> Z -> Z) (k : M (machine B) A) :
  (set_alu x;; c ← psw_bits m; upd_alu (f c);; k)
  ≈ (c ← psw_bits m; set_alu (f c (u16 x));; k).
Proof. by intros [[] ?]. Qed.

Lemma psw_bits_unused {A} m (k : M (machine B) A) : (c ← psw_bits m; k) ≈ k.
Proof. by intros [[] ?]. Qed.

Lemma set_alu_eq x y : u16 x = u16 y -> (set_alu x : M (machine B) unit) ≈ set_alu y.
Proof. intros H [c b]. unfold set_alu. by rewrite H. Qed.

Lemma fetch_src_set_alu {A} x (k : Z -> M (machine B) A) :
  (set_alu x;; v ← fetch_src; k v) ≈ (v ← fetch_src; set_alu x;; k v).
Proof.
  intros [c b]. unfold fetch_src, fetch_data, fetch_data_register, rd, on_bus, set_alu, upd.
  unfold mbind, M_bind, modify, gets, the. cbn [cs bus].
  replace (src_address (with_alu (u16 x) c)) with (src_address c) by by destruct c.
  destruct (truth (is_internal_bus_addr (src_address c))).
  - destruct (bus_addr_to_register (src_address c)) as [r|]; [|done].
    unfold mret, M_ret. cbn [cs bus]. by rewrite get_reg_with_alu.
  - cbn [cs bus]. by destruct (read_data_in (translate_bus_addr (src_address c)) b).
Qed.

Lemma fetch_dest_set_alu {A} x (k : Z -> M (machine B) A) :
  (set_alu x;; v ← fetch_dest; k v) ≈ (v ← fetch_dest; set_alu x;; k v).
Proof.
  intros [c b]. unfold fetch_dest, fetch_data, fetch_data_register, rd, on_bus, set_alu, upd.
  unfold mbind, M_bind, modify, gets, the. cbn [cs bus].
  replace (dest_address (with_alu (u16 x) c)) with (dest_address c) by by destruct c.
  destruct (truth (is_internal_bus_addr (dest_address c))).
  - destruct (bus_addr_to_register (dest_address c)) as [r|]; [|done].
    unfold mret, M_ret. cbn [cs bus]. by rewrite get_reg_with_alu.
  - cbn [cs bus]. by destruct (read_data_in (translate_bus_addr (dest_address c)) b).
Qed.

(** ** Condition codes *)
Lemma set_zero_flag_psw_eq v w :
  set_zero_flag_psw v w = if v =? 0 then Z.setbit w 2 else Z.clearbit w 2.
Proof.
  unfold set_zero_flag_psw, truth, ZEROFLAG, Z.setbit, Z.clearbit. change (Z.shiftl 1 2) with 4.
  destruct (v =? 0); [done|]. by apply (lxor_bit w 2).
Qed.

Lemma set_negative_flag_psw_eq b w :
  set_negative_flag_psw b w = if b then Z.setbit w 3 else Z.clearbit w 3.
Proof.
  unfold set_negative_flag_psw, truth, NEGATIVEFLAG, Z.setbit, Z.clearbit.
  change (Z.shiftl 1 3) with 8. destruct b; [done|]. by apply (lxor_bit w 3).
Qed.

Lemma flag_psw_commute v b w :
  u16 (set_negative_flag_psw b (u16 (set_zero_flag_psw v w)))
  = u16 (set_zero_flag_psw v (u16 (set_negative_flag_psw b w))).
Proof.
  rewrite !set_zero_flag_psw_eq, !set_negative_flag_psw_eq.
  apply Z.bits_inj'; intros i Hi.
  destruct (v =? 0), b;
    repeat (rewrite ?Z.setbit_eqb, ?Z.clearbit_eqb, ?u16_testbit by lia);
    destruct (Z.ltb_spec i 16), (Z.eqb_spec 2 i), (Z.eqb_spec 3 i); subst; try lia; cbn;
    by rewrite ?orb_false_r, ?orb_true_r, ?andb_true_r, ?andb_false_r.
Qed.

(** The two condition code updates commute. *)
Lemma flags_commute w :
  (zero_flag_of_alu;; negative_flag_of_alu w) ≈ (negative_flag_of_alu w;; zero_flag_of_alu).
Proof.
  intros [c b]. destruct w; unfold negative_flag_of_alu, zero_flag_of_alu, set_zero_flag,
    negative_flag_of_alu_b, negative_flag_of_alu_w, set_negative_flag_b, set_negative_flag_w,
    upd_reg, upd, rd, mbind, M_bind, modify, gets; cbn [cs bus];
  by rewrite !alu_with_reg, !get_with_reg, !decide_True, !with_reg_twice, flag_psw_commute.
Qed.

(** ** The handlers equal their rows *)
Lemma seq_tail (m : M (machine B) unit) w :
  (m;; zero_flag_of_alu;; negative_flag_of_alu w)
  ≈ (m;; negative_flag_of_alu w;; zero_flag_of_alu).
Proof. apply bind_ext. intros _. apply flags_commute. Qed.

Lemma set_alu_tail x y (m1 m2 : M (machine B) unit) :
  u16 x = u16 y -> m1 ≈ m2 -> (set_alu x;; m1) ≈ (set_alu y;; m2).
Proof. intros H Hm. apply seq_ext; [by apply set_alu_eq | done]. Qed.

Lemma discard_tail (m : M (machine B) unit) : (mret tt;; m) ≈ m.
Proof. done. Qed.

End Executor.

Lemma u16_lnot x : u16 (Z.lnot x) = u16 (Z.lnot (u16 x)).
Proof. unfold Z.lnot. mod_lia. Qed.

Lemma swab_word x :
  is_u16 x ->
  Z.lor (Z.shiftr (Z.land x 65280) 8) (Z.shiftl (Z.land x 255) 8) = x / 256 + 256 * (x mod 256).
Proof.
  intros Hx. rewrite high_byte, u8_land, Z.lor_comm, lor_shiftl_add by (done || mod_lia).
  change (2 ^ 8) with 256. unfold u8. lia.
Qed.

Lemma neg_byte x : Z.land (Z.lnot x + 1) 255 = (- x) mod 256.
Proof. rewrite u8_land. unfold u8, Z.lnot. f_equal. lia. Qed.

Section Rows.
Context {B : Type} {MB : MasterBus B}.

(** Arithmetic of one row: the operand is a byte or a word [x]; a shift is a
    product or a quotient, a rotation a sum of the two. *)
Ltac row_arith :=
  cbn [operand]; rewrite ?swab_word, ?neg_byte by auto with words; rewrite ?u8_land, ?u16_u16;
  lazymatch goal with
  | v : Z |- context [u8 ?v] =>
      rewrite ?(u16_id (u8 v)) by auto with words;
      pose proof (u8_range v); generalize dependent (u8 v)
  | v : Z |- _ =>
      rewrite ?(u16_lnot v); pose proof (u16_range v); generalize dependent (u16 v)
  | |- _ => idtac
  end;
  try reflexivity; intros;
  rewrite ?(Z.shiftr_div_pow2 _ 7), ?(Z.shiftr_div_pow2 _ 15), ?shiftr_1 by done;
  rewrite ?lor_shiftl_add by (cbn; mod_lia);
  rewrite ?shiftl_1; unfold Z.lnot;
  first [ f_equal; mod_lia | mod_lia ].

Ltac row_tail :=
  rewrite ?discard_tail;
  match goal with
  | |- (_;; zero_flag_of_alu;; _) ≈ (_;; negative_flag_of_alu ?w;; _) => apply (seq_tail _ w)
  | |- (zero_flag_of_alu;; _) ≈ (negative_flag_of_alu ?w;; _) => apply (flags_commute w)
  | |- _ => reflexivity
  end.

Ltac single_row :=
  unfold exec_single;
  cbn [so_byte_addressing so_width so_fetches so_fn so_result store_result];
  apply bind_ext; intros _; cbn [operand];
  lazymatch goal with
  | |- (fetch_dest ≫= _) ≈ _ => apply bind_ext; intros v
  | |- _ => idtac
  end;
  rewrite ?set_carry_upd_alu, ?psw_bits_unused;
  rewrite ?set_upd_alu;
  lazymatch goal with
  | |- (psw_bits _ ≫= _) ≈ _ => apply bind_ext; intros c
  | |- _ => idtac
  end;
  apply set_alu_tail; [ row_arith | row_tail ].

Lemma single_op_refines m e :
  single_table m = Some e -> (dispatch m : M (machine B) unit) ≈ exec_single e.
Proof.
  destruct m; try discriminate; intros [= <-]; cbn [dispatch];
    match goal with |- ?h ≈ _ => let f := head_of h in unfold f end.
  all: single_row.
Qed.
(** The same for two operands: bit by bit for the logical instructions. *)
Ltac bitwise16 :=
  apply Z.bits_inj'; intros i Hi;
  rewrite ?u16_testbit, ?Z.land_spec, ?Z.lor_spec, ?Z.ldiff_spec, ?Z.lnot_spec, ?u16_testbit by done;
  repeat match goal with |- context [Z.testbit ?x i] => destruct (Z.testbit x i) end;
  by destruct (i <? 16).

Ltac double_arith :=
  cbn [operand fst snd]; rewrite ?u8_land;
  rewrite ?(u16_id (u8 _)) by auto with words;
  rewrite ?u16_u16, ?u16_add_r, ?u16_sub_r;
  match goal with
  | |- ?x = ?x => reflexivity
  | |- context [Z.land] => bitwise16
  | |- context [Z.lor] => bitwise16
  end.

Ltac double_row :=
  unfold exec_double;
  cbn [do_width do_order do_fn do_stores byte_wide store_result fetch_operands];
  apply bind_ext; intros _; apply bind_ext; intros _;
  rewrite ?bind_assoc; apply bind_ext; intros x;
  rewrite ?bind_assoc, ?bind_ret;
  lazymatch goal with
  | |- (set_alu _;; fetch_src ≫= _) ≈ _ =>
      etransitivity; [apply fetch_src_set_alu | apply bind_ext; intros y]
  | |- (set_alu _;; fetch_dest ≫= _) ≈ _ =>
      etransitivity; [apply fetch_dest_set_alu | apply bind_ext; intros y]
  | |- _ => idtac
  end;
  rewrite ?bind_ret, ?set_upd_alu; cbn [fst snd].

Lemma double_op_refines m e :
  double_table m = Some e -> (dispatch m : M (machine B) unit) ≈ exec_double e.
Proof.
  destruct m; try discriminate; intros [= <-]; cbn [dispatch];
    match goal with |- ?h ≈ _ => let f := head_of h in unfold f end.
  all: double_row.
  all: apply set_alu_tail; [double_arith | row_tail].
Qed.
(** ** Branches *)
Definition branch_target (c : cpu) : Z := u16 (pc c + 2 * i8 (Z.land (ir c) 255)).

Definition branch_taken (f : bool -> bool -> bool -> bool -> bool) (c : cpu) : bool :=
  f (negative (psw c)) (zero (psw c)) (overflow (psw c)) (carry (psw c)).

Lemma flag_bits w :
  Z.land w 1 = (if carry w then 1 else 0) /\ Z.land w 2 = (if overflow w then 2 else 0) /\
  Z.land w 4 = (if zero w then 4 else 0) /\ Z.land w 8 = (if negative w then 8 else 0).
Proof.
  repeat split; [apply (land_bit w 0) | apply (land_bit w 1) | apply (land_bit w 2)
                | apply (land_bit w 3)]; lia.
Qed.

Lemma branch_refines m f (s : machine B) :
  branch_condition m = Some f ->
  exists a, dispatch m s =
    Done tt (Machine (with_alu a (with_reg PC
      (if branch_taken f (cs s) then branch_target (cs s) else pc (cs s)) (cs s))) (bus s)).
Proof.
  destruct s as [[a0 a1 a2 a3 a4 a5 s p w al i sa da h] b]. intros Hm.
  unfold branch_taken, branch_target. cbn [cs bus psw pc ir].
  destruct (flag_bits w) as (Hc & Hv & Hz & Hn).
  destruct m; try discriminate; injection Hm as <-; cbn [dispatch];
    unfold BR, BNE, BEQ, BGE, BLT, BGT, BLE, BPL, BMI, BHI, BLOS, BVC, BVS, BCC, BCS;
    unfold psw_bits, get_branch_offset, branch_to, set_alu, upd_alu, upd_reg, upd, rd,
      mbind, M_bind, modify, gets, mret, M_ret, CARRYFLAG, OVERFLOWFLAG, ZEROFLAG, NEGATIVEFLAG;
    cbn [cs bus psw pc ir alu with_alu with_reg get_reg];
    rewrite ?Hc, ?Hv, ?Hz, ?Hn;
    repeat match goal with |- context [if ?x w then _ else _] => destruct (x w) end;
    by eexists.
Qed.
End Rows.
