(* ===== verification/CpuRegs.v ===== *)
(** * The processor: register operands, condition codes, the decoder's table

    Closed forms for instructions whose operands are registers, the frame of the
    processor status word (which bits an instruction can change), and the
    division of the instruction words among the handlers. *)
From S2P Require Import Prelude Bus Cpu Instr CpuFacts CpuSpec.

(** ** Register operands *)
Lemma register_ptr_field n r :
  register_ptr n = Some r ->
  0 <= n <= 8 /\ (register_to_bus_addr n) = (if n =? 8 then 262142 else 262080 + n) /\
  is_internal_bus_addr (register_to_bus_addr n) = 1 /\
  bus_addr_to_register (register_to_bus_addr n) = Some r /\
  (r = PSW <-> n = 8).
Proof.
  unfold register_ptr. cbn [switch].
  repeat match goal with
  | |- (if n =? ?k then _ else _) = _ -> _ =>
      destruct (Z.eqb_spec n k); [intros [= <-]; subst; split_and!; done || lia|]
  end.
  done.
Qed.

Lemma register_ptr_some n : 0 <= n <= 8 -> is_Some (register_ptr n).
Proof.
  intros Hn.
  assert (n = 0 \/ n = 1 \/ n = 2 \/ n = 3 \/ n = 4 \/ n = 5 \/ n = 6 \/ n = 7 \/ n = 8)
    as H by lia.
  destruct_or! H; subst; cbn; eauto.
Qed.

Lemma dest_reg_field_range i : 0 <= dest_reg_field i <= 7.
Proof. unfold dest_reg_field. pose proof (land_le i 7). lia. Qed.

Lemma src_reg_field_range i : 0 <= src_reg_field i <= 7.
Proof.
  unfold src_reg_field. pose proof (land_le i 448).
  rewrite Z.shiftr_div_pow2 by done. change (2 ^ 6) with 64. mod_lia.
Qed.

Lemma field_ptr_not_psw n r : register_ptr n = Some r -> 0 <= n <= 7 -> r <> PSW.
Proof. 
  intros H Hn ->. apply register_ptr_field in H as (_ & _ & _ & _ & H).
  assert (n = 8) by (by apply H). lia.
Qed.

Section Registers.
Context {B : Type} {MB : MasterBus B}.

Lemma fetch_data_of_register n r :
  register_ptr n = Some r ->
  (fetch_data (register_to_bus_addr n) : M (machine B) Z) ≈ rd (get_reg r).
Proof.
  intros H. apply register_ptr_field in H as (_ & _ & Hi & Hr & _). intros s.
  unfold fetch_data, fetch_data_register. rewrite Hi, Hr. done.
Qed.

Lemma store_data_of_register n r v :
  register_ptr n = Some r ->
  (store_data (register_to_bus_addr n) v : M (machine B) unit) ≈ set_reg r v.
Proof.
  intros H. apply register_ptr_field in H as (_ & _ & Hi & Hr & _). intros s.
  unfold store_data, store_data_register, set_reg. rewrite Hi, Hr. cbn. by rewrite u16_u16.
Qed.

Lemma store_data_b_of_register n r v :
  register_ptr n = Some r ->
  (store_data_b (register_to_bus_addr n) v : M (machine B) unit) ≈ set_reg r (u8 v).
Proof.
  intros H. apply register_ptr_field in H as (_ & _ & Hi & Hr & _). intros s.
  unfold store_data_b, store_data_register, set_reg. by rewrite Hi, Hr.
Qed.

(** Mode 0 in each of the three addressing functions. *)
Lemma setup_register_mode l n b :
  0 <= n <= 7 ->
  (setup_addressing l 0 n b : M (machine B) unit) ≈ set_loc l (register_to_bus_addr n).
Proof.
  intros Hn s. unfold setup_addressing. cbn [switch].
  by destruct (n =? 7), (n =? 6), b.
Qed.

Lemma setup_dest_register k c (b : B) :
  dest_mode_field (ir c) = 0 ->
  setup_dest_addressing k (Machine c b)
  = Done tt (Machine (with_loc DestAddress (register_to_bus_addr (dest_reg_field (ir c))) c) b).
Proof.
  intros Hm. unfold setup_dest_addressing, mbind, M_bind, rd, gets. cbn [cs]. rewrite Hm.
  rewrite setup_register_mode by apply dest_reg_field_range.
  unfold set_loc. by rewrite u32_id by apply register_to_bus_addr_u32.
Qed.

Lemma setup_src_register k c (b : B) :
  src_mode_field (ir c) = 0 ->
  setup_src_addressing k (Machine c b)
  = Done tt (Machine (with_loc SrcAddress (register_to_bus_addr (src_reg_field (ir c))) c) b).
Proof.
  intros Hm. unfold setup_src_addressing, mbind, M_bind, rd, gets. cbn [cs]. rewrite Hm.
  rewrite setup_register_mode by apply src_reg_field_range.
  unfold set_loc. by rewrite u32_id by apply register_to_bus_addr_u32.
Qed.

(** The condition codes of a result of the given width. *)
Definition nz_psw (w : width) (x psw : Z) : Z :=
  set_zero_flag_psw x (set_negative_flag_psw (Z.testbit x (match w with W8 => 7 | W16 => 15 end)) psw).

Lemma nz_psw_u16 w x p : is_u16 p -> is_u16 (nz_psw w x p).
Proof.
  intros Hp. unfold nz_psw, set_zero_flag_psw, set_negative_flag_psw, ZEROFLAG, NEGATIVEFLAG.
  repeat case_match; auto 6 with words.
Qed.

Lemma negative_u16 b p : is_u16 p -> is_u16 (set_negative_flag_psw b p).
Proof.
  intros Hp. unfold set_negative_flag_psw, NEGATIVEFLAG. repeat case_match; auto with words.
Qed.

(** What the condition code updates at the end of an operand instruction do. *)
Lemma flags_of_alu w c (b : B) :
  is_u16 (psw c) -> is_u16 (alu c) ->
  (negative_flag_of_alu w;; zero_flag_of_alu) (Machine c b)
  = Done tt (Machine (with_reg PSW (nz_psw w (alu c) (psw c)) c) b).
Proof.
  intros Hp Ha.
  assert (E : forall neg, u16 (set_zero_flag_psw (u16 (alu c)) (u16 (set_negative_flag_psw neg (psw c))))
    = set_zero_flag_psw (alu c) (set_negative_flag_psw neg (psw c))).
  { intros neg. rewrite (u16_id (alu c)), (u16_id (set_negative_flag_psw _ _))
      by (done || by apply negative_u16).
    apply u16_id. pose proof (negative_u16 neg _ Hp).
    unfold set_zero_flag_psw, ZEROFLAG. repeat case_match; auto with words. }
  destruct w; unfold negative_flag_of_alu, negative_flag_of_alu_b, negative_flag_of_alu_w,
    zero_flag_of_alu, set_zero_flag, set_negative_flag_b, set_negative_flag_w, nz_psw, upd_reg,
    upd, rd, mbind, M_bind, modify, gets; cbn [cs bus];
    rewrite alu_with_reg, with_reg_twice, get_with_reg, decide_True by done; cbn [get_reg];
    rewrite E, ?sign_u8, ?sign_u16; done.
Qed.

(** The state after an instruction with the result [x] for the register [r]. *)
Definition put_result (w : width) (res : result) (r : reg) (x : Z) (c : cpu) : cpu :=
  with_reg PSW (nz_psw w x (psw c))
    (match res with
     | Discard => c | StoreWord => with_reg r x c | StoreByte => with_reg r (u8 x) c
     end).

Lemma finish_register w res n r x c (b : B) :
  register_ptr n = Some r -> 0 <= n <= 7 -> is_u16 x -> is_u16 (psw c) ->
  dest_address c = register_to_bus_addr n -> 
  (store_result res;; negative_flag_of_alu w;; zero_flag_of_alu) (Machine (with_alu x c) b)
  = Done tt (Machine (put_result w res r x (with_alu x c)) b).
Proof.
  intros Hr Hn Hx Hp Hd. pose proof (field_ptr_not_psw _ _ Hr Hn) as Hne.
  assert (Hps : forall v, psw (with_reg r v (with_alu x c)) = psw c)
    by (intros v; change (get_reg PSW (with_reg r v (with_alu x c)) = get_reg PSW c);
        by rewrite get_with_reg, decide_False, get_reg_with_alu by done).
  assert (Hda : dest_address (with_alu x c) = register_to_bus_addr n) by by destruct c.
  assert (Hpa : psw (with_alu x c) = psw c) by by destruct c.
  assert (S : store_result res (Machine (with_alu x c) b) = Done tt (Machine (match res with
     | Discard => with_alu x c | StoreWord => with_reg r x (with_alu x c)
     | StoreByte => with_reg r (u8 x) (with_alu x c) end) b)).
  { destruct res; [done | |]; cbn [store_result]; unfold store_alu, store_alu_b, rd, mbind,
      M_bind, gets; cbn [cs bus]; rewrite alu_with_alu, Hda.
    - rewrite (store_data_of_register _ r) by done. unfold set_reg. by rewrite u16_id.
    - rewrite (store_data_b_of_register _ r) by done. unfold set_reg.
      rewrite u16_id by auto with words. done. }
  unfold mbind at 1, M_bind at 1. rewrite S. unfold put_result.
  rewrite flags_of_alu; destruct res; rewrite ?alu_with_reg, ?alu_with_alu, ?Hps, ?Hpa; done.
Qed.

Lemma set_loc_done l v c (b : B) : set_loc l v (Machine c b) = Done tt (Machine (with_loc l (u32 v) c) b).
Proof. done. Qed.

Lemma psw_bits_done k c (b : B) : psw_bits k (Machine c b) = Done (Z.land (psw c) k) (Machine c b).
Proof. done. Qed.

Lemma set_alu_done v c (b : B) : set_alu v (Machine c b) = Done tt (Machine (with_alu (u16 v) c) b).
Proof. done. Qed.

Lemma fetch_dest_register n r c (b : B) :
  register_ptr n = Some r -> dest_address c = register_to_bus_addr n ->
  fetch_dest (Machine c b) = Done (get_reg r c) (Machine c b).
Proof.
  intros Hr Hd. unfold fetch_dest, rd, mbind, M_bind, gets. cbn [cs]. rewrite Hd.
  by rewrite (fetch_data_of_register _ r).
Qed.

Lemma fetch_src_register n r c (b : B) :
  register_ptr n = Some r -> src_address c = register_to_bus_addr n ->
  fetch_src (Machine c b) = Done (get_reg r c) (Machine c b).
Proof.
  intros Hr Hd. unfold fetch_src, rd, mbind, M_bind, gets. cbn [cs]. rewrite Hd.
  by rewrite (fetch_data_of_register _ r).
Qed.

(** A single-operand instruction on a register. *)
Lemma exec_single_register e c (b : B) r :
  cpu_wf c -> dest_mode_field (ir c) = 0 -> register_ptr (dest_reg_field (ir c)) = Some r ->
  let x := u16 (so_fn e (Z.land (psw c) 1)
                 (operand (so_width e) (if so_fetches e then get_reg r c else 0))) in
  exec_single e (Machine c b) = Done tt (Machine (put_result (so_width e) (so_result e) r x
    (with_alu x (with_loc DestAddress (register_to_bus_addr (dest_reg_field (ir c))) c))) b).
Proof.
  intros Hc Hm Hr x. pose proof (dest_reg_field_range (ir c)) as Hn.
  set (n := dest_reg_field (ir c)) in *.
  unfold exec_single. rewrite (bind_done _ _ _ _ _ (setup_dest_register _ c b Hm)). fold n.
  set (c1 := with_loc DestAddress (register_to_bus_addr n) c).
  assert (Hp1 : psw c1 = psw c) by by destruct c.
  assert (F : (if so_fetches e then fetch_dest else mret 0) (Machine c1 b)
    = Done (if so_fetches e then get_reg r c else 0) (Machine c1 b)).
  { destruct (so_fetches e); [|done].
    rewrite (fetch_dest_register n r); [| done | by destruct c].
    unfold c1. by rewrite get_reg_with_loc. }
  rewrite (bind_done _ _ _ _ _ F), (bind_done _ _ _ _ _ (psw_bits_done _ _ _)),
    (bind_done _ _ _ _ _ (set_alu_done _ _ _)), Hp1.
  apply (finish_register _ _ n); [done | lia | apply u16_range | | by destruct c].
  rewrite Hp1. destruct Hc as [Hc _]. apply (Hc PSW).
Qed.

(** A double-operand instruction between registers. *)
Lemma exec_double_register e c (b : B) rs rd :
  cpu_wf c -> src_mode_field (ir c) = 0 -> dest_mode_field (ir c) = 0 ->
  register_ptr (src_reg_field (ir c)) = Some rs ->
  register_ptr (dest_reg_field (ir c)) = Some rd ->
  let y := match do_order e with SrcOnly => 0 | _ => get_reg rd c end in
  let x := u16 (do_fn e (operand (do_width e) (get_reg rs c)) (operand (do_width e) y)) in
  exec_double e (Machine c b) = Done tt (Machine (put_result (do_width e)
    (if do_stores e then (if byte_wide (do_width e) then StoreByte else StoreWord) else Discard) rd x
    (with_alu x (with_loc DestAddress (register_to_bus_addr (dest_reg_field (ir c)))
      (with_loc SrcAddress (register_to_bus_addr (src_reg_field (ir c))) c)))) b).
Proof.
  intros Hc Hsm Hdm Hrs Hrd y x. pose proof (dest_reg_field_range (ir c)) as Hn.
  set (n := dest_reg_field (ir c)) in *. set (k := src_reg_field (ir c)) in *.
  unfold exec_double. rewrite (bind_done _ _ _ _ _ (setup_src_register _ c b Hsm)). fold k.
  set (c1 := with_loc SrcAddress _ c).
  assert (Hir : ir c1 = ir c) by apply ir_with_loc. rewrite <- Hir in Hdm.
  rewrite (bind_done _ _ _ _ _ (setup_dest_register _ c1 b Hdm)), Hir. fold n.
  set (c2 := with_loc DestAddress _ c1).
  assert (Hg : forall r, get_reg r c2 = get_reg r c)
    by (intros r; unfold c2, c1; by rewrite !get_reg_with_loc).
  assert (Hs : fetch_src (Machine c2 b) = Done (get_reg rs c) (Machine c2 b))
    by (rewrite (fetch_src_register k rs), Hg; [done | done | by destruct c]).
  assert (Hd : fetch_dest (Machine c2 b) = Done (get_reg rd c) (Machine c2 b))
    by (rewrite (fetch_dest_register n rd), Hg; [done | done | by destruct c]).
  assert (F : fetch_operands (do_order e) (Machine c2 b) = Done (get_reg rs c, y) (Machine c2 b)).
  { unfold y. destruct (do_order e); cbn [fetch_operands];
      repeat (rewrite (bind_done _ _ _ _ _ Hs) || rewrite (bind_done _ _ _ _ _ Hd)); done. }
  rewrite (bind_done _ _ _ _ _ F), (bind_done _ _ _ _ _ (set_alu_done _ _ _)).
  apply (finish_register _ _ n); [done | lia | apply u16_range | | by destruct c].
  change (psw c2) with (get_reg PSW c2). rewrite Hg. destruct Hc as [Hc _]. apply Hc.
Qed.
(** The same of the whole instruction. *)
Lemma single_register_result e c (b : B) r :
  cpu_wf c -> single_table (decode (ir c)) = Some e ->
  dest_mode_field (ir c) = 0 -> register_ptr (dest_reg_field (ir c)) = Some r ->
  let x := u16 (so_fn e (Z.land (psw c) CARRYFLAG)
                 (operand (so_width e) (if so_fetches e then get_reg r c else 0))) in
  exists c', exec_instruction (Machine c b) = Done tt (Machine c' b) /\
    get_reg r c' = match so_result e with
                   | Discard => get_reg r c | StoreWord => x | StoreByte => u8 x end /\
    psw c' = nz_psw (so_width e) x (psw c) /\
    (forall q, q <> r -> q <> PSW -> get_reg q c' = get_reg q c).
Proof.
  intros Hc He Hm Hr x. eexists. split.
  - change (exec_instruction (Machine c b)) with (dispatch (decode (ir c)) (Machine c b)).
    rewrite (single_op_refines _ e He). by apply exec_single_register.
  - pose proof (field_ptr_not_psw _ _ Hr (dest_reg_field_range _)). split_and!.
    + unfold put_result. destruct (so_result e); by cpu_simpl.
    + unfold put_result. destruct (so_result e); by cpu_simpl.
    + intros q H1 H2. unfold put_result. destruct (so_result e); by cpu_simpl.
Qed.

Lemma double_register_result e c (b : B) rs rd :
  cpu_wf c -> double_table (decode (ir c)) = Some e ->
  src_mode_field (ir c) = 0 -> dest_mode_field (ir c) = 0 ->
  register_ptr (src_reg_field (ir c)) = Some rs ->
  register_ptr (dest_reg_field (ir c)) = Some rd ->
  let y := match do_order e with SrcOnly => 0 | _ => get_reg rd c end in
  let x := u16 (do_fn e (operand (do_width e) (get_reg rs c)) (operand (do_width e) y)) in
  exists c', exec_instruction (Machine c b) = Done tt (Machine c' b) /\
    get_reg rd c' = (if do_stores e then operand (do_width e) x else get_reg rd c) /\
    psw c' = nz_psw (do_width e) x (psw c) /\
    (forall q, q <> rd -> q <> PSW -> get_reg q c' = get_reg q c).
Proof.
  intros Hc He Hsm Hdm Hrs Hrd y x. eexists. split.
  - change (exec_instruction (Machine c b)) with (dispatch (decode (ir c)) (Machine c b)).
    rewrite (double_op_refines _ e He). by apply (exec_double_register e c b rs rd).
  - pose proof (field_ptr_not_psw _ _ Hrd (dest_reg_field_range _)). split_and!.
    + unfold put_result. unfold x. destruct (do_stores e), (do_width e); cbn [byte_wide operand];
        cpu_simpl; by rewrite ?u16_u16.
    + unfold put_result. destruct (do_stores e), (do_width e); cbn [byte_wide]; by cpu_simpl.
    + intros q H1 H2. unfold put_result. destruct (do_stores e), (do_width e); cbn [byte_wide]; by cpu_simpl.
Qed.
End Registers.

(** ** The bits of the processor status word an instruction can change

    The invariant of this section: the machine is well formed, bit [i] of the
    status word is [v], and no operand address is the bus address of the status
    word - the addressing functions never produce it. *)
Definition psw_address : Z := oct! 0777776.

Definition psw_bit_is {B} (I : B -> Prop) (i : Z) (v : bool) (s : machine B) : Prop :=
  machine_wf I s /\ Z.testbit (psw (cs s)) i = v /\ dest_address (cs s) <> psw_address.

Section Frame.
Context {B : Type} {MB : MasterBus B} {I : B -> Prop} {OK : MasterBusOk B I}.
Context (i : Z) (v : bool) (Hi : 0 <= i < 16).
#[local] Abbreviation keeps := (stable (psw_bit_is I i v)).

(** What keeps the machine well formed and leaves the record's two fields
    alone keeps the invariant. *)
Lemma frame_of_keeps {A} (m : M (machine B) A) phi :
  stable (machine_wf I) m phi ->
  (forall s a s', m s = Done a s' -> psw (cs s') = psw (cs s) /\
     dest_address (cs s') = dest_address (cs s)) ->
  keeps m phi.
Proof.
  intros H F s (Hs & Hb & Hd). specialize (H s Hs). destruct (m s) as [a s'| |] eqn:E; [|done..].
  destruct (F _ _ _ E) as [F1 F2], H as [Ha Hw]. unfold psw_bit_is. by rewrite F1, F2.
Qed.

Lemma frame_rd {A} (f : cpu -> A) (phi : A -> Prop) :
  (forall c, cpu_wf c -> phi (f c)) -> keeps (rd f) phi.
Proof. intros H. apply frame_of_keeps; [by apply keeps_rd | by intros s a s' [= <- <-]]. Qed.

Lemma frame_rd_reg r : keeps (rd (get_reg r)) (fun x => is_u16 x).
Proof. apply frame_rd. intros c [H _]. apply H. Qed.

Lemma frame_rd_pc : keeps (rd pc) (fun x => is_u16 x).
Proof. exact (frame_rd_reg PC). Qed.

Lemma frame_rd_sp : keeps (rd sp) (fun x => is_u16 x).
Proof. exact (frame_rd_reg SP). Qed.

Lemma frame_rd_psw : keeps (rd psw) (fun x => is_u16 x).
Proof. exact (frame_rd_reg PSW). Qed.

Lemma frame_rd_alu : keeps (rd alu) (fun x => is_u16 x).
Proof. apply frame_rd. intros c H. apply H. Qed.

Lemma frame_rd_ir : keeps (rd ir) (fun x => is_u16 x).
Proof. apply frame_rd. intros c H. apply H. Qed.

Lemma frame_rd_src : keeps (rd src_address) (fun x => is_u32 x).
Proof. apply frame_rd. intros c H. apply H. Qed.

Lemma frame_rd_dest : keeps (rd dest_address) (fun x => is_u32 x /\ x <> psw_address).
Proof. intros s Hs. split; [|done]. destruct Hs as ([Hc _] & _ & Hd). split; [apply Hc | done]. Qed.

Lemma frame_set_reg r x : r <> PSW -> keeps (set_reg r x) (fun _ => True).
Proof.
  intros Hr. apply frame_of_keeps; [apply keeps_set_reg|]. intros s a s' [= <- <-].
  cbn [cs]. by destruct (cs s), r.
Qed.

Lemma frame_upd_reg r f : r <> PSW -> keeps (upd_reg r f) (fun _ => True).
Proof.
  intros Hr. apply frame_of_keeps; [apply keeps_upd_reg|]. intros s a s' [= <- <-].
  cbn [cs]. by destruct (cs s), r.
Qed.

Lemma frame_set_alu x : keeps (set_alu x) (fun _ => True).
Proof.
  apply frame_of_keeps; [apply keeps_set_alu|]. intros s a s' [= <- <-]. cbn. by destruct (cs s).
Qed.

Lemma frame_upd_alu f : keeps (upd_alu f) (fun _ => True).
Proof.
  apply frame_of_keeps; [apply keeps_upd_alu|]. intros s a s' [= <- <-]. cbn. by destruct (cs s).
Qed.

Lemma frame_set_loc l x : 0 <= x < 262142 -> keeps (set_loc l x) (fun _ => True).
Proof.
  intros Hx s (Hs & Hb & Hd). split; [done|]. split; [by apply keeps_set_loc|].
  cbn [cs]. destruct (cs s), l; cbn in *; (split; [done|]); [done|].
  rewrite u32_id by lia. unfold psw_address. lia.
Qed.

Lemma frame_on_bus {A} (m : M B A) (phi : A -> Prop) :
  hoare I m (fun a b => phi a /\ I b) -> keeps (on_bus m) phi.
Proof.
  intros H. apply frame_of_keeps; [by apply keeps_on_bus|]. intros s a s' E. unfold on_bus in E.
  destruct (m (bus s)); [| done..]. by injection E as <- <-.
Qed.

Lemma internal_not_psw a r :
  truth (is_internal_bus_addr a) = true -> a <> psw_address -> bus_addr_to_register a = Some r ->
  r <> PSW.
Proof.
  intros _ Ha. unfold bus_addr_to_register. cbn [switch].
  repeat match goal with
  | |- (if ?a =? ?k then _ else _) = _ -> _ => destruct (Z.eqb_spec a k); [by intros [= <-]|]
  end. done.
Qed.

Lemma frame_fetch_data a : is_u32 a -> keeps (fetch_data a) (fun x => is_u16 x).
Proof.
  intros Ha. apply frame_of_keeps; [by apply keeps_fetch_data|]. intros s x s' E. unfold fetch_data in E.
  destruct (truth _).
  - unfold fetch_data_register, mbind, M_bind, the in E.
    destruct (bus_addr_to_register a); [|done]. by injection E as <- <-.
  - unfold on_bus in E. destruct (read_data_in _ _); [|done..]. by injection E as <- <-.
Qed.

Lemma frame_store_register a x :
  a <> psw_address -> truth (is_internal_bus_addr a) = true ->
  keeps (store_data_register a x) (fun _ => True).
Proof.
  intros Ha Hint. destruct (internal_to_register _ Hint) as [r Hr]. unfold store_data_register.
  rewrite Hr. apply frame_set_reg. by apply (internal_not_psw a).
Qed.

Lemma frame_store_data a x : is_u32 a /\ a <> psw_address -> keeps (store_data a x) (fun _ => True).
Proof.
  intros [Ha Hp]. apply stable_if; intros E; [by apply frame_store_register|].
  apply frame_on_bus. eapply hoare_weaken;
    [apply write_data_out_ok; [by apply translate_issued | apply u16_range] | done | done].
Qed.

Lemma frame_store_data_b a x : is_u32 a /\ a <> psw_address -> keeps (store_data_b a x) (fun _ => True).
Proof.
  intros [Ha Hp]. apply stable_if; intros E; [by apply frame_store_register|].
  apply frame_on_bus. eapply hoare_weaken;
    [apply write_data_out_b_ok; [by apply translate_issued | apply u8_range] | done | done].
Qed.

Lemma frame_fetch_register_contents n : keeps (fetch_register_contents n) (fun x => is_u16 x).
Proof.
  unfold fetch_register_contents.
  destruct (register_ptr n); [apply frame_rd_reg | apply stable_ret; lia].
Qed.

Lemma frame_inc_register n b : 0 <= n <= 7 -> keeps (inc_register n b) (fun _ => True).
Proof.
  intros Hn. unfold inc_register. destruct (register_ptr n) eqn:E; [| by apply stable_ret].
  destruct b; apply frame_upd_reg; by eapply field_ptr_not_psw.
Qed.

Lemma frame_dec_register n b : 0 <= n <= 7 -> keeps (dec_register n b) (fun _ => True).
Proof.
  intros Hn. unfold dec_register. destruct (register_ptr n) eqn:E; [| by apply stable_ret].
  destruct b; apply frame_upd_reg; by eapply field_ptr_not_psw.
Qed.

Lemma frame_set_loc_reg l n :
  0 <= n <= 7 -> keeps (set_loc l (register_to_bus_addr n)) (fun _ => True).
Proof.
  intros Hn. apply frame_set_loc. destruct (register_ptr_some n) as [r Hr]; [lia|].
  apply register_ptr_field in Hr as (_ & -> & _). destruct (Z.eqb_spec n 8); lia.
Qed.

(** Only the zero and negative bits change in a condition code update. *)
Lemma frame_upd_psw f :
  (forall w, is_u16 w -> Z.testbit (f w) i = Z.testbit w i) ->
  keeps (upd_reg PSW f) (fun _ => True).
Proof.
  intros Hf s (Hs & Hb & Hd). split; [done|]. split; [by apply keeps_upd_reg|].
  destruct Hs as [[Hs _] _]. specialize (Hs PSW). cbn [cs]. split.
  - change (psw (with_reg PSW ?x ?c)) with (get_reg PSW (with_reg PSW x c)).
    rewrite get_with_reg, decide_True, u16_testbit, Hf by (done || lia).
    cbn [get_reg]. by rewrite Hb, (proj2 (Z.ltb_lt i 16)) by lia.
  - by destruct (cs s).
Qed.
End Frame.

Create HintDb frame.
#[export] Hint Resolve frame_rd_reg frame_rd_pc frame_rd_sp frame_rd_psw frame_rd_alu
  frame_rd_ir frame_rd_src frame_rd_dest frame_set_reg frame_upd_reg frame_set_alu
  frame_upd_alu frame_set_loc frame_set_loc_reg frame_fetch_data frame_store_data
  frame_store_data_b frame_fetch_register_contents frame_inc_register frame_dec_register : frame.
#[export] Hint Resolve u16_range u32_range stable_ret : frame.
#[export] Hint Extern 4 (_ <= _ < _) => lia : frame.
#[export] Hint Extern 4 (_ <= _ <= _) => lia : frame.
#[export] Hint Extern 4 (_ /\ _ <> psw_address) => unfold psw_address; lia : frame.
#[export] Hint Extern 4 (_ <> PSW) => discriminate : frame.

Ltac frame_walk := stable_walk ltac:(eauto with frame).

Section FrameHandlers.
Context {B : Type} {MB : MasterBus B} {I : B -> Prop} {OK : MasterBusOk B I}.
Context (i : Z) (v : bool) (Hi : 0 <= i < 16) (Hz : i <> 2) (Hn : i <> 3).
#[local] Abbreviation keeps := (stable (psw_bit_is I i v)).

Lemma frame_fetch_pc_word : keeps fetch_pc_word (fun x => is_u16 x).
Proof. unfold fetch_pc_word. frame_walk. Qed.
#[local] Hint Resolve frame_fetch_pc_word : frame.

Lemma frame_setup_addressing l mode n b :
  0 <= n <= 7 -> keeps (setup_addressing l mode n b) (fun _ => True).
Proof.
  intros Hr. unfold setup_addressing, setup_pc_addressing, setup_sp_addressing,
    setup_general_byte_addressing, setup_general_addressing.
  frame_walk.
Qed.
#[local] Hint Resolve frame_setup_addressing dest_reg_field_range src_reg_field_range : frame.

Lemma frame_setup_dest b : keeps (setup_dest_addressing b) (fun _ => True).
Proof. unfold setup_dest_addressing. frame_walk. Qed.

Lemma frame_setup_src b : keeps (setup_src_addressing b) (fun _ => True).
Proof. unfold setup_src_addressing. frame_walk. Qed.

Lemma frame_fetch_src : keeps fetch_src (fun x => is_u16 x).
Proof. unfold fetch_src. frame_walk. Qed.

Lemma frame_fetch_dest : keeps fetch_dest (fun x => is_u16 x).
Proof.
  unfold fetch_dest. eapply stable_bind; [apply frame_rd_dest|]. intros a [Ha _].
  by apply frame_fetch_data.
Qed.

Lemma frame_store_alu : keeps store_alu (fun _ => True).
Proof. unfold store_alu. frame_walk. Qed.

Lemma frame_store_alu_b : keeps store_alu_b (fun _ => True).
Proof. unfold store_alu_b. frame_walk. Qed.

Lemma frame_zero_flag : keeps zero_flag_of_alu (fun _ => True).
Proof.
  unfold zero_flag_of_alu, set_zero_flag. eapply stable_bind; [apply frame_rd_alu|].
  intros a _. apply frame_upd_psw; [lia|]. intros w _. rewrite set_zero_flag_psw_eq.
  destruct (u16 a =? 0); rewrite ?Z.setbit_neq, ?Z.clearbit_neq by lia; done.
Qed.

Lemma frame_negative b : keeps (upd_reg PSW (set_negative_flag_psw b)) (fun _ => True).
Proof.
  apply frame_upd_psw; [lia|]. intros w _. rewrite set_negative_flag_psw_eq.
  destruct b; rewrite ?Z.setbit_neq, ?Z.clearbit_neq by lia; done.
Qed.

Lemma frame_negative_flag_b : keeps negative_flag_of_alu_b (fun _ => True).
Proof.
  unfold negative_flag_of_alu_b, set_negative_flag_b. eapply stable_bind; [apply frame_rd_alu|].
  intros a _. apply frame_negative.
Qed.

Lemma frame_negative_flag_w : keeps negative_flag_of_alu_w (fun _ => True).
Proof.
  unfold negative_flag_of_alu_w, set_negative_flag_w. eapply stable_bind; [apply frame_rd_alu|].
  intros a _. apply frame_negative.
Qed.

Lemma frame_psw_bits k : keeps (psw_bits k) (fun _ => True).
Proof. unfold psw_bits. frame_walk. Qed.

Lemma frame_get_branch_offset : keeps get_branch_offset (fun _ => True).
Proof. unfold get_branch_offset. frame_walk. Qed.

Lemma frame_branch_to o : keeps (branch_to o) (fun _ => True).
Proof. unfold branch_to. frame_walk. Qed.

#[local] Hint Resolve frame_setup_dest frame_setup_src frame_fetch_src frame_fetch_dest
  frame_store_alu frame_store_alu_b frame_zero_flag frame_negative_flag_b
  frame_negative_flag_w frame_psw_bits frame_get_branch_offset frame_branch_to : frame.

Lemma frame_HALT : keeps HALT (fun _ => True).
Proof.
  apply frame_of_keeps; [apply keeps_HALT|]. intros s a s' [= <- <-]. cbn. by destruct (cs s).
Qed.
#[local] Hint Resolve frame_HALT : frame.

(** The instructions that can write the status word otherwise: MTPS, and JSR and
    RTS, which step the register whose number is in SP. *)
Definition writes_psw (m : mnemonic) : bool :=
  match m with m_MTPS | m_JSR | m_RTS => true | _ => false end.

Lemma frame_dispatch m : writes_psw m = false -> keeps (dispatch m) (fun _ => True).
Proof.
  destruct m; try discriminate; intros _; cbn [dispatch]; try solve [eauto with frame];
    match goal with |- stable _ ?h _ => let f := head_of h in unfold f end;
    unfold NOP; frame_walk.
Qed.
End FrameHandlers.
