(* ===== verification/Mem.v ===== *)
(** * The memory device

    [mem/mem.c]: the [mem_dev] record with its byte array, the word and byte
    accesses, the request loop's body and the dump.  [store] is a finite map
    whose domain is exactly the indices of [store[MEMBYTES]]: an access outside
    it is a [Fault]. *)
From S2P Require Import Prelude Bus.

Definition MEMBYTES : Z := 65535.
Definition MEMWORDS : Z := 32767.
Definition MEMLOW : Z := 0.
Definition MEMHIGH : Z := MEMBYTES.

Record mem_dev := Mem { mar : Z; mbr : Z; store : gmap Z Z }.

(** The contents [malloc] leaves in the block. *)
Record heap_junk := Junk { junk_mar : Z; junk_mbr : Z; junk_byte : Z -> Z }.

Definition init_mem (j : heap_junk) : mem_dev :=
  Mem (junk_mar j) (junk_mbr j) (array (Z.to_nat MEMBYTES) (junk_byte j)).

Definition is_local_addr (addr : Z) : Z :=
  if (addr >=? MEMLOW) && (addr <=? MEMHIGH) then 1 else 0.

(** [MEM_STATE->store[i]] as a value and as the target of an assignment. *)
Definition store_read (i : Z) : M mem_dev Z := fun m =>
  match store m !! i with Some b => Done b m | None => Fault end.

Definition store_write (i b : Z) : M mem_dev unit := fun m =>
  match store m !! i with
  | Some _ => Done tt (Mem (mar m) (mbr m) (<[i := u8 b]> (store m)))
  | None => Fault
  end.

Definition set_mar (a : Z) : M mem_dev unit :=
  modify (fun m => Mem (u16 a) (mbr m) (store m)).

Definition set_mbr (w : Z) : M mem_dev unit :=
  modify (fun m => Mem (mar m) (u16 w) (store m)).

Definition write_word (addr word : Z) : M mem_dev unit :=
  set_mar addr;; set_mbr word;;
  a ← gets mar; w ← gets mbr; store_write a (Z.land w (oct! 0377));;
  a ← gets mar; w ← gets mbr; store_write (a + 1) (Z.shiftr (Z.land w (oct! 0177400)) 8).

Definition write_byte (addr word : Z) : M mem_dev unit :=
  set_mar addr;; set_mbr word;;
  a ← gets mar; w ← gets mbr; store_write a (Z.land w (oct! 0377)).

Definition read_word (addr : Z) : M mem_dev Z :=
  lo ← store_read addr;
  hi ← store_read (u32 (addr + 1));
  mret (u16 (Z.lor lo (Z.shiftl hi 8))).

Definition perform_read (d_op : data_xfer_spec) : M mem_dev data_xfer_spec :=
  v ← read_word (x_addr d_op); mret (Xfer (x_op d_op) (x_addr d_op) v).

Definition perform_write (d_op : data_xfer_spec) : M mem_dev data_xfer_spec :=
  write_word (x_addr d_op) (x_value d_op);; mret d_op.

Definition perform_writeb (d_op : data_xfer_spec) : M mem_dev data_xfer_spec :=
  write_byte (x_addr d_op) (x_value d_op);; mret d_op.

(** The [switch] of the loop of [execute] on the request [data_bus_check] has
    fetched: the transfer handed to [data_bus_reply], or [None] where the loop
    continues without a reply. *)
Definition serve (slave_req : data_xfer_spec) : M mem_dev (option data_xfer_spec) :=
  match x_op slave_req with
  | R_NONE => mret None
  | R_BLOCK_IN => r ← perform_read slave_req; mret (Some r)
  | R_BLOCK_OUT => r ← perform_write slave_req; mret (Some r)
  | R_BLOCK_OUTB => r ← perform_writeb slave_req; mret (Some r)
  | _ => mret None
  end.

(** ** The dump on a signal *)

(** The sixteen words of the row at [r]. *)
Definition dump_row (r : Z) : M mem_dev (list Z) :=
  foldr (fun i k => w ← read_word (r + 2 * i); ws ← k; mret (w :: ws))
    (mret []) (seqZ 0 16).

(** The rows [dump_mem] prints from offset [r] on, [fuel] rows at most: a row of
    zeros is skipped, except the first one and the last one. *)
Fixpoint dump_rows (fuel : nat) (r : Z) : M mem_dev (list (Z * list Z)) :=
  match fuel with
  | O => mret []
  | S fuel' =>
      if r <? MEMWORDS then
        row ← dump_row r;
        rest ← dump_rows fuel' (r + 32);
        if forallb (fun w => w =? 0) row && (r + 16 <? MEMWORDS) && negb (r =? 0)
        then mret rest else mret ((r, row) :: rest)
      else mret []
  end.

Definition dump_mem : M mem_dev (list (Z * list Z)) := dump_rows 1024 0.

(** ** Well-formedness *)
Definition mem_wf (m : mem_dev) : Prop :=
  is_u16 (mar m) /\ is_u16 (mbr m) /\
  (forall i, is_Some (store m !! i) <-> 0 <= i < MEMBYTES) /\
  (forall i b, store m !! i = Some b -> is_u8 b).

(** The word at [a], in the order [write_word] stores it. *)
Definition word_at (m : mem_dev) (a : Z) : option Z :=
  lo ← store m !! a; hi ← store m !! (a + 1); Some (lo + 256 * hi).

(** ** Memory as the processor sees it

    A transaction of the bus master that the memory device answers, seen as one
    step: the request is served when the address is local, and nobody answers
    any other address. *)
#[export] Instance mem_bus : MasterBus mem_dev := {
  read_data_in a := if truth (is_local_addr a) then read_word a else block;
  write_data_out a v := if truth (is_local_addr a) then write_word a v else block;
  write_data_out_b a v := if truth (is_local_addr a) then write_byte a v else block
}.

(** ** Lemmas *)
Lemma init_mem_wf j :
  is_u16 (junk_mar j) -> is_u16 (junk_mbr j) -> (forall i, is_u8 (junk_byte j i)) ->
  mem_wf (init_mem j).
Proof.
  intros Ha Hb Hj. split; [done|]. split; [done|].
  unfold init_mem; cbn [store]. split.
  - intros i. rewrite array_lookup, Z2Nat.id by done. case_decide; [split; eauto|].
    split; [by intros [? ?] | done].
  - intros i b. rewrite array_lookup. case_decide; [|done]. by intros [= <-].
Qed.

Lemma store_lookup_in m i : mem_wf m -> 0 <= i < MEMBYTES -> exists b, store m !! i = Some b.
Proof. intros (_ & _ & H & _) Hi. by apply H. Qed.

Lemma store_lookup_out m i : mem_wf m -> ~ (0 <= i < MEMBYTES) -> store m !! i = None.
Proof. intros (_ & _ & H & _) Hi. apply eq_None_not_Some. by rewrite H. Qed.

Lemma store_write_in m i b :
  mem_wf m -> 0 <= i < MEMBYTES ->
  store_write i b m = Done tt (Mem (mar m) (mbr m) (<[i := u8 b]> (store m))).
Proof. intros Hm Hi. unfold store_write. by destruct (store_lookup_in m i Hm Hi) as [? ->]. Qed.

Lemma store_insert_wf a w m i b :
  mem_wf m -> is_u16 a -> is_u16 w -> 0 <= i < MEMBYTES ->
  mem_wf (Mem a w (<[i := u8 b]> (store m))).
Proof.
  intros (_ & _ & Hd & Hv) Ha Hw Hi. split; [done|]. split; [done|]. cbn [store]. split.
  - intros j. destruct (decide (i = j)) as [<-|].
    + rewrite lookup_insert_eq. split; eauto.
    + by rewrite lookup_insert_ne.
  - intros j c. destruct (decide (i = j)) as [<-|].
    + rewrite lookup_insert_eq. intros [= <-]. apply u8_range.
    + rewrite lookup_insert_ne by done. apply Hv.
Qed.

(** The store after [write_word]. *)
Definition put_word (a w : Z) (s : gmap Z Z) : gmap Z Z :=
  <[a + 1 := u8 (Z.shiftr (Z.land w 65280) 8)]> (<[a := u8 (Z.land w 255)]> s).

Lemma write_word_in m a w :
  mem_wf m -> 0 <= a -> a + 1 < MEMBYTES ->
  write_word a w m = Done tt (Mem a (u16 w) (put_word a (u16 w) (store m))).
Proof.
  intros Hm Ha Ha'. unfold MEMBYTES in *.
  assert (Ea : u16 a = a) by (apply u16_id; lia).
  set (m1 := Mem a (u16 w) (store m)).
  assert (Hm1 : mem_wf m1)
    by (destruct Hm as (_ & _ & Hm); split; [simpl; lia|]; split; [apply u16_range | done]).
  unfold write_word, set_mar, set_mbr, mbind, M_bind, modify, gets. cbn [mar mbr store].
  rewrite Ea. fold m1.
  rewrite store_write_in by (done || (unfold MEMBYTES; lia)). cbn [mar mbr store m1].
  rewrite store_write_in; [done | | unfold MEMBYTES; lia].
  apply store_insert_wf; [done | lia | apply u16_range | unfold MEMBYTES; lia].
Qed.

Lemma put_word_wf m a w :
  mem_wf m -> is_u16 w -> 0 <= a -> a + 1 < MEMBYTES ->
  mem_wf (Mem a w (put_word a w (store m))).
Proof.
  intros Hm Hw Ha Ha'. assert (is_u16 a) by (unfold MEMBYTES in *; lia).
  assert (mem_wf (Mem a w (<[a:=u8 (Z.land w 255)]> (store m))))
    by (apply store_insert_wf; [done..|lia]).
  exact (store_insert_wf a w (Mem a w (<[a:=u8 (Z.land w 255)]> (store m))) (a + 1) _
    ltac:(done) ltac:(done) Hw ltac:(lia)).
Qed.

Lemma read_word_in m a lo hi :
  is_u32 a -> is_u32 (a + 1) -> store m !! a = Some lo -> store m !! (a + 1) = Some hi ->
  is_u8 lo -> is_u8 hi -> read_word a m = Done (lo + 256 * hi) m.
Proof.
  intros Ha Ha1 Hlo Hhi Rlo Rhi. unfold read_word, store_read, mbind, M_bind.
  rewrite Hlo, u32_id, Hhi by done. unfold mret, M_ret. f_equal.
  rewrite u16_id by (apply lor_u16; [lia|]; rewrite Z.shiftl_mul_pow2; lia).
  rewrite Z.lor_comm, lor_shiftl_add by lia. lia.
Qed.

Lemma read_word_wf m a :
  mem_wf m -> 0 <= a -> a + 1 < MEMBYTES ->
  exists lo hi, store m !! a = Some lo /\ store m !! (a + 1) = Some hi /\
    is_u8 lo /\ is_u8 hi /\ read_word a m = Done (lo + 256 * hi) m.
Proof.
  intros Hm Ha Ha'.
  destruct (store_lookup_in m a) as [lo Hlo]; [done | lia |].
  destruct (store_lookup_in m (a + 1)) as [hi Hhi]; [done | lia |].
  pose proof Hm as (_ & _ & _ & Hv). exists lo, hi. unfold MEMBYTES in *.
  pose proof (Hv _ _ Hlo). pose proof (Hv _ _ Hhi).
  split_and!; try done; try lia. apply read_word_in; auto; lia.
Qed.

Lemma read_word_hoare m a :
  mem_wf m -> 0 <= a -> a + 1 < MEMBYTES ->
  exists w, is_u16 w /\ read_word a m = Done w m.
Proof.
  intros Hm Ha Ha'. destruct (read_word_wf m a Hm Ha Ha') as (lo & hi & _ & _ & ? & ? & E).
  exists (lo + 256 * hi). split; [lia | done].
Qed.

Lemma write_byte_in m a w :
  mem_wf m -> 0 <= a < MEMBYTES ->
  write_byte a w m = Done tt (Mem a (u16 w) (<[a := u8 (Z.land (u16 w) 255)]> (store m))).
Proof.
  intros Hm Ha. unfold MEMBYTES in *.
  assert (Ea : u16 a = a) by (apply u16_id; lia).
  unfold write_byte, set_mar, set_mbr, mbind, M_bind, modify, gets. cbn [mar mbr store].
  rewrite Ea. set (m1 := Mem a (u16 w) (store m)).
  assert (mem_wf m1)
    by (destruct Hm as (_ & _ & Hm); split; [simpl; lia|]; split; [apply u16_range | done]).
  by rewrite store_write_in by (done || (unfold MEMBYTES; lia)).
Qed.

Lemma local_low a : 0 <= a < 512 -> truth (is_local_addr a) = true.
Proof.
  intros Ha. unfold is_local_addr, MEMLOW, MEMHIGH, MEMBYTES.
  destruct (Z.geb_spec a 0), (Z.leb_spec a 65535); done || lia.
Qed.

Lemma not_local_high a : 65536 <= a -> truth (is_local_addr a) = false.
Proof.
  intros Ha. unfold is_local_addr, MEMLOW, MEMHIGH, MEMBYTES.
  destruct (Z.geb_spec a 0), (Z.leb_spec a 65535); done || lia.
Qed.

(** The memory answers the processor's transactions without undefined
    behaviour. *)
#[export] Instance mem_bus_ok : MasterBusOk mem_dev mem_wf.
Proof.
  split.
  - intros a [Ha|Ha] m Hm; cbn.
    + rewrite local_low by done.
      by destruct (read_word_hoare m a) as (w & ? & ->); [done | unfold MEMBYTES; lia.. |].
    + by rewrite not_local_high by lia.
  - intros a v [Ha|Ha] Hv m Hm; cbn.
    + rewrite local_low, write_word_in by (done || (unfold MEMBYTES; lia)).
      apply put_word_wf; auto with words; unfold MEMBYTES; lia.
    + by rewrite not_local_high by lia.
  - intros a v [Ha|Ha] Hv m Hm; cbn.
    + rewrite local_low, write_byte_in by (done || (unfold MEMBYTES; lia)).
      apply store_insert_wf; auto with words; unfold MEMBYTES; lia.
    + by rewrite not_local_high by lia.
Qed.
