(* ===== verification/CpuMem.v ===== *)
(** * The processor on the memory

    The processor with the memory device as its bus: fetches and stores below
    512 reach the memory, every other 16-bit address that is not a register
    waits for ever, and the operand forms the stack and the subroutine
    instructions use. *)
From S2P Require Import Prelude Bus Cpu Instr CpuFacts CpuSpec CpuRegs Mem.

(** ** Words of the memory *)
Lemma word_at_bytes m a lo hi :
  store m !! a = Some lo -> store m !! (a + 1) = Some hi -> word_at m a = Some (lo + 256 * hi).
Proof. intros Hl Hh. unfold word_at. by rewrite Hl; cbn; rewrite Hh. Qed.

Lemma word_at_in m a w :
  mem_wf m -> word_at m a = Some w -> 0 <= a /\ a + 1 < MEMBYTES /\ is_u16 w /\ read_word a m = Done w m.
Proof.
  intros Hm Hw. unfold word_at in Hw.
  destruct (store m !! a) as [lo|] eqn:Hl; [|done]. cbn in Hw.
  destruct (store m !! (a + 1)) as [hi|] eqn:Hh; [|done]. injection Hw as <-.
  pose proof Hm as (_ & _ & Hd & Hv).
  assert (0 <= a < MEMBYTES) by by apply Hd.
  assert (0 <= a + 1 < MEMBYTES) by by apply Hd.
  pose proof (Hv _ _ Hl). pose proof (Hv _ _ Hh). unfold MEMBYTES in *.
  split_and!; try lia. apply read_word_in; done || lia.
Qed.

Lemma word_at_some m a :
  mem_wf m -> 0 <= a -> a + 1 < MEMBYTES -> exists w, is_u16 w /\ word_at m a = Some w.
Proof.
  intros Hm Ha Ha'. destruct (read_word_wf m a Hm Ha Ha') as (lo & hi & Hl & Hh & ? & ? & _).
  exists (lo + 256 * hi). split; [lia | by apply word_at_bytes].
Qed.

Lemma put_word_bytes w :
  is_u16 w -> u8 (Z.land w 255) + 256 * u8 (Z.shiftr (Z.land w 65280) 8) = w.
Proof.
  intros Hw. rewrite high_byte, u8_land by done. rewrite !u8_id by mod_lia. mod_lia.
Qed.

Lemma word_at_put x y a w s :
  is_u16 w -> word_at (Mem x y (put_word a w s)) a = Some w.
Proof.
  intros Hw. unfold put_word. rewrite <- (put_word_bytes w Hw) at 3.
  apply word_at_bytes; cbn [store].
  - by rewrite lookup_insert_ne, lookup_insert_eq by lia.
  - by rewrite lookup_insert_eq.
Qed.

Lemma store_put_other x y a w s i :
  i <> a -> i <> a + 1 -> store (Mem x y (put_word a w s)) !! i = s !! i.
Proof. intros H1 H2. cbn [store]. unfold put_word. by rewrite !lookup_insert_ne. Qed.

Lemma word_at_put_other x y a w m b :
  b + 1 < a \/ a + 1 < b -> word_at (Mem x y (put_word a w (store m))) b = word_at m b.
Proof. intros H. unfold word_at. by rewrite !store_put_other by lia. Qed.

(** The memory after the processor has stored the word [w] at [a]. *)
Definition put (a w : Z) (m : mem_dev) : mem_dev := Mem a w (put_word a w (store m)).

Lemma put_wf m a w : mem_wf m -> is_u16 w -> 0 <= a -> a + 1 < MEMBYTES -> mem_wf (put a w m).
Proof. intros. by apply put_word_wf. Qed.

(** ** Processor addresses *)
Lemma translate_low a : 0 <= a < 512 -> translate_bus_addr a = a.
Proof.
  intros Ha. unfold translate_bus_addr.
  assert (Z.land a 65024 = 0) as ->; [|done].
  apply Z.bits_inj'. intros n Hn. rewrite Z.land_spec, Z.bits_0.
  destruct (Z.lt_ge_cases n 9); [|by rewrite (small_testbit a 9) by lia].
  change 65024 with (Z.shiftl 127 9). by rewrite Z.shiftl_spec_low, andb_false_r.
Qed.

Lemma translate_high a : 512 <= a < 65536 -> translate_bus_addr a = Z.lor a 229376 /\ 229376 <= translate_bus_addr a.
Proof.
  intros Ha. unfold translate_bus_addr, truth.
  destruct (Z.eqb_spec (Z.land a 65024) 0) as [E|E]; cbn.
  - exfalso. assert (a < 512); [|lia]. apply (testbit_small a 9); [lia..|]. intros n Hn.
    destruct (Z.lt_ge_cases n 16); [|apply (small_testbit a 16); lia].
    assert (H0 : Z.testbit (Z.land a 65024) n = false) by (rewrite E; apply Z.bits_0).
    rewrite Z.land_spec in H0. change 65024 with (Z.shiftl (Z.ones 7) 9) in H0.
    by rewrite Z.shiftl_spec, Z.ones_spec_low, andb_true_r in H0 by lia.
  - split; [done|]. apply lor_ge; lia.
Qed.

Lemma not_internal a : 0 <= a < 262080 -> truth (is_internal_bus_addr a) = false.
Proof.
  intros Ha. unfold is_internal_bus_addr. cbn [switch].
  by repeat match goal with |- context [a =? ?k] => destruct (Z.eqb_spec a k); [lia|] end.
Qed.

Lemma translate_beyond a : 65536 <= a < 262080 -> 65536 <= translate_bus_addr a.
Proof.
  intros Ha. destruct (translate_issued a); lia || idtac.
  unfold translate_bus_addr in *. destruct (truth _); [|lia].
  pose proof (lor_ge a 229376). lia.
Qed.

Section OnMemory.
#[local] Abbreviation exec := (M (machine mem_dev)).

Lemma fetch_low c m a w :
  mem_wf m -> 0 <= a < 512 -> word_at m a = Some w ->
  fetch_data a (Machine c m) = Done w (Machine c m).
Proof.
  intros Hm Ha Hw. unfold fetch_data. rewrite not_internal, translate_low by lia.
  unfold on_bus. cbn. rewrite local_low by done.
  destruct (word_at_in _ _ _ Hm Hw) as (_ & _ & _ & ->). done.
Qed.

Lemma store_low c m a v :
  mem_wf m -> 0 <= a < 512 ->
  store_data a v (Machine c m) = Done tt (Machine c (put a (u16 v) m)).
Proof.
  intros Hm Ha. unfold store_data. rewrite not_internal, translate_low by lia.
  unfold on_bus. cbn. rewrite local_low by done.
  rewrite write_word_in by (done || (unfold MEMBYTES; lia)). by rewrite u16_u16.
Qed.

Lemma fetch_src_low c m a w :
  mem_wf m -> 0 <= a < 512 -> src_address c = a -> word_at m a = Some w ->
  fetch_src (Machine c m) = Done w (Machine c m).
Proof.
  intros Hm Ha Hs Hw. unfold fetch_src, mbind, M_bind, rd, gets. cbn [cs]. rewrite Hs.
  by apply fetch_low.
Qed.

Lemma fetch_dest_low c m a w :
  mem_wf m -> 0 <= a < 512 -> dest_address c = a -> word_at m a = Some w ->
  fetch_dest (Machine c m) = Done w (Machine c m).
Proof.
  intros Hm Ha Hs Hw. unfold fetch_dest, mbind, M_bind, rd, gets. cbn [cs]. rewrite Hs.
  by apply fetch_low.
Qed.

(** Nobody answers at any other address. *)
Lemma fetch_beyond (c : cpu) (m : mem_dev) a :
  512 <= a < 262080 -> fetch_data a (Machine c m) = Blocked.
Proof.
  intros Ha. unfold fetch_data. rewrite not_internal by lia. unfold on_bus. cbn.
  rewrite not_local_high; [done|].
  destruct (Z.lt_ge_cases a 65536); [pose proof (translate_high a); lia | apply translate_beyond; lia].
Qed.

Lemma store_beyond (c : cpu) (m : mem_dev) a v :
  512 <= a < 262080 -> store_data a v (Machine c m) = Blocked.
Proof.
  intros Ha. unfold store_data. rewrite not_internal by lia. unfold on_bus. cbn.
  rewrite not_local_high; [done|].
  destruct (Z.lt_ge_cases a 65536); [pose proof (translate_high a); lia | apply translate_beyond; lia].
Qed.
End OnMemory.

(** ** Primitives as state transformations *)
Lemma set_reg_done {B} r v c (b : B) :
  set_reg r v (Machine c b) = Done tt (Machine (with_reg r (u16 v) c) b).
Proof. done. Qed.

Lemma upd_reg_done {B} r f c (b : B) :
  upd_reg r f (Machine c b) = Done tt (Machine (with_reg r (u16 (f (get_reg r c))) c) b).
Proof. done. Qed.

Lemma rd_done {B A} (f : cpu -> A) c (b : B) : rd f (Machine c b) = Done (f c) (Machine c b).
Proof. done. Qed.

Lemma set_loc_run {B} l v c (b : B) :
  set_loc l v (Machine c b) = Done tt (Machine (with_loc l (u32 v) c) b).
Proof. done. Qed.

Lemma fetch_register_done {B} n r c (b : B) :
  register_ptr n = Some r -> fetch_register_contents n (Machine c b) = Done (get_reg r c) (Machine c b).
Proof. intros Hr. unfold fetch_register_contents. by rewrite Hr. Qed.

(** Runs the next primitive of a computation. *)
Tactic Notation "step" uconstr(H) := rewrite (bind_done _ _ _ _ _ H).
Ltac steps :=
  repeat (step (rd_done _ _ _) || step (set_alu_done _ _ _) || step (set_reg_done _ _ _ _)
          || step (upd_reg_done _ _ _ _) || step (set_loc_run _ _ _ _)
          || step (psw_bits_done _ _ _)); cbv beta.

(** ** Pushing and popping *)
Section Stack.
#[local] Abbreviation st := (machine mem_dev).

(** Destination [-(SP)]. *)
Lemma setup_push k c (m : mem_dev) :
  dest_mode_field (ir c) = 4 -> dest_reg_field (ir c) = 6 ->
  setup_dest_addressing k (Machine c m)
  = Done tt (Machine (with_loc DestAddress (u16 (sp c - 2)) (with_reg SP (u16 (sp c - 2)) c)) m).
Proof.
  intros Hm Hr. unfold setup_dest_addressing. steps. rewrite Hm, Hr.
  unfold setup_addressing, setup_sp_addressing. cbn [switch Z.eqb Pos.eqb].
  steps. rewrite set_loc_run. cpu_simpl. cbn [get_reg].
  rewrite u32_id; [done|]. pose proof (u16_range (sp c - 2)). lia.
Qed.

(** Source [(SP)+]. *)
Lemma setup_pop k c (m : mem_dev) :
  src_mode_field (ir c) = 2 -> src_reg_field (ir c) = 6 -> is_u16 (sp c) ->
  setup_src_addressing k (Machine c m)
  = Done tt (Machine (with_reg SP (u16 (sp c + 2)) (with_loc SrcAddress (sp c) c)) m).
Proof.
  intros Hm Hr Hs. unfold setup_src_addressing. steps. rewrite Hm, Hr.
  unfold setup_addressing, setup_sp_addressing. cbn [switch Z.eqb Pos.eqb].
  steps. rewrite upd_reg_done, u32_id by lia. cpu_simpl. done.
Qed.

(** The end of an instruction that stores a word in the memory. *)
Lemma finish_memory w x c (m : mem_dev) :
  mem_wf m -> is_u16 x -> is_u16 (psw c) -> 0 <= dest_address c < 512 ->
  (store_result StoreWord;; negative_flag_of_alu w;; zero_flag_of_alu) (Machine (with_alu x c) m)
  = Done tt (Machine (with_reg PSW (nz_psw w x (psw c)) (with_alu x c)) (put (dest_address c) x m)).
Proof.
  intros Hm Hx Hp Hd.
  assert (S : store_result StoreWord (Machine (with_alu x c) m)
    = Done tt (Machine (with_alu x c) (put (dest_address c) x m))).
  { cbn [store_result]. unfold store_alu. steps. cpu_simpl.
    rewrite store_low, u16_id by done. done. }
  assert (Hpa : psw (with_alu x c) = psw c) by by destruct c.
  step S. rewrite flags_of_alu; rewrite ?Hpa, ?alu_with_alu; done.
Qed.

(** The end of an instruction that only sets the condition codes or stores in a
    register is [finish_register]. *)

(** MOV Rn, -(SP) *)
Lemma push_register c m r :
  cpu_wf c -> mem_wf m -> decode (ir c) = m_MOV ->
  src_mode_field (ir c) = 0 -> register_ptr (src_reg_field (ir c)) = Some r -> r <> SP ->
  dest_mode_field (ir c) = 4 -> dest_reg_field (ir c) = 6 -> 2 <= sp c <= 513 ->
  exists c', exec_instruction (Machine c m) = Done tt (Machine c' (put (sp c - 2) (get_reg r c) m)) /\
    cpu_wf c' /\ sp c' = sp c - 2 /\ (forall q, q <> SP -> q <> PSW -> get_reg q c' = get_reg q c).
Proof.
  intros Hc Hm Hd Hsm Hr Hne Hdm Hdr Hsp. unfold exec_instruction. steps. rewrite Hd.
  rewrite (double_op_refines m_MOV _ eq_refl). unfold exec_double. cbn [byte_wide do_width].
  step (setup_src_register _ _ _ Hsm).
  set (c1 := with_loc SrcAddress _ c).
  assert (Hir : ir c1 = ir c) by apply ir_with_loc.
  assert (Hs1 : sp c1 = sp c) by by destruct c.
  rewrite (bind_done _ _ _ _ _ (setup_push _ c1 m ltac:(by rewrite Hir) ltac:(by rewrite Hir))).
  rewrite Hs1, u16_id by lia.
  set (c2 := with_loc DestAddress _ _).
  assert (Hc2 : cpu_wf c2).
  { apply with_loc_wf, with_reg_wf, with_loc_wf; [lia | lia | apply register_to_bus_addr_u32 | done]. }
  assert (Hg : forall q, q <> SP -> get_reg q c2 = get_reg q c)
    by (intros q Hq; unfold c2, c1; by cpu_simpl).
  assert (F : fetch_operands SrcOnly (Machine c2 m) = Done (get_reg r c, 0) (Machine c2 m)).
  { cbn [fetch_operands].
    rewrite (bind_done _ _ _ _ _ (fetch_src_register _ r c2 m Hr ltac:(by destruct c))).
    by rewrite Hg. }
  cbn [do_order do_fn do_stores]. step F. steps. cbn [operand fst].
  pose proof (cpu_wf_reg _ r Hc). rewrite u16_u16, u16_id by done.
  rewrite finish_memory; [| done | done | by apply (cpu_wf_reg c2 PSW) | by destruct c; cbn in *; lia].
  replace (dest_address c2) with (sp c - 2) by by destruct c.
  eexists. split; [reflexivity|]. split; [|split].
  - apply with_reg_wf; [apply nz_psw_u16, (cpu_wf_reg c2 PSW Hc2) | by apply with_alu_wf].
  - unfold c2. by cpu_simpl.
  - intros q H1 H2. cpu_simpl. by rewrite Hg.
Qed.

(** MOV (SP)+, Rn *)
Lemma pop_register c m r w :
  cpu_wf c -> mem_wf m -> decode (ir c) = m_MOV ->
  src_mode_field (ir c) = 2 -> src_reg_field (ir c) = 6 ->
  dest_mode_field (ir c) = 0 -> register_ptr (dest_reg_field (ir c)) = Some r -> r <> SP ->
  0 <= sp c < 512 -> word_at m (sp c) = Some w ->
  exists c', exec_instruction (Machine c m) = Done tt (Machine c' m) /\
    cpu_wf c' /\ sp c' = sp c + 2 /\ get_reg r c' = w /\
    (forall q, q <> SP -> q <> PSW -> q <> r -> get_reg q c' = get_reg q c).
Proof.
  intros Hc Hm Hd Hsm Hsr Hdm Hr Hne Hsp Hw. unfold exec_instruction. steps. rewrite Hd.
  rewrite (double_op_refines m_MOV _ eq_refl). unfold exec_double. cbn [byte_wide do_width].
  step (setup_pop _ _ _ Hsm Hsr (cpu_wf_reg c SP Hc)). rewrite u16_id by lia.
  set (c1 := with_reg SP _ _).
  assert (Hir : ir c1 = ir c) by (unfold c1; by cpu_simpl). rewrite <- Hir in Hdm, Hr.
  step (setup_dest_register _ _ m Hdm).
  set (n := dest_reg_field (ir c1)) in *.
  set (c2 := with_loc DestAddress _ _).
  assert (Hn : 0 <= n <= 7) by apply dest_reg_field_range.
  assert (Hc2 : cpu_wf c2).
  { apply with_loc_wf, with_reg_wf, with_loc_wf; [apply register_to_bus_addr_u32 | lia | lia | done]. }
  assert (Hg : forall q, q <> SP -> get_reg q c2 = get_reg q c)
    by (intros q Hq; unfold c2, c1; by cpu_simpl).
  destruct (word_at_in _ _ _ Hm Hw) as (_ & _ & Hw16 & _).
  assert (F : fetch_operands SrcOnly (Machine c2 m) = Done (w, 0) (Machine c2 m)).
  { cbn [fetch_operands]. step (fetch_src_low c2 m (sp c) w Hm Hsp
      ltac:(unfold c2, c1; by cpu_simpl) Hw). done. }
  cbn [do_order do_fn do_stores]. step F. steps. cbn [operand fst]. rewrite u16_u16, u16_id by done.
  rewrite (finish_register _ _ n r); [| done | done | done | by apply (cpu_wf_reg c2 PSW)
    | by destruct c]. cbn [byte_wide].
  pose proof (field_ptr_not_psw _ _ Hr Hn).
  eexists. split; [reflexivity|]. unfold put_result. split; [|split_and!].
  - apply with_reg_wf; [apply nz_psw_u16|by apply with_reg_wf, with_alu_wf].
    cpu_simpl. by apply (cpu_wf_reg c2 PSW).
  - cpu_simpl. unfold c2, c1. by cpu_simpl.
  - by cpu_simpl.
  - intros q H1 H2 H3. cpu_simpl. by apply Hg.
Qed.
End Stack.

(** ** Subroutines *)
Section Subroutines.
Lemma register_ptr_none n : 9 <= n -> register_ptr n = None.
Proof.
  intros Hn. unfold register_ptr. apply switch_not_in. cbn. rewrite !list_elem_of_In. cbn. lia.
Qed.

(** The step of SP that JSR and RTS take has no effect: the functions are given
    the contents of SP, which is no register number. *)
Lemma step_register_none {B} n k (s : machine B) :
  9 <= n -> dec_register n k s = Done tt s /\ inc_register n k s = Done tt s.
Proof. intros Hn. unfold dec_register, inc_register. by rewrite register_ptr_none. Qed.

Lemma store_register_done {B} {MB : MasterBus B} n r v c (b : B) :
  register_ptr n = Some r ->
  store_data_register (register_to_bus_addr n) v (Machine c b)
  = Done tt (Machine (with_reg r (u16 v) c) b).
Proof.
  intros Hr. apply register_ptr_field in Hr as (_ & _ & _ & Hb & _).
  unfold store_data_register. by rewrite Hb.
Qed.

(** JSR up to the step of SP, once its destination is set up. *)
Lemma jsr_stores c m c1 m1 r :
  setup_dest_addressing false (Machine c m) = Done tt (Machine c1 m1) ->
  mem_wf m1 -> cpu_wf c1 -> register_ptr (src_reg_field (ir c)) = Some r -> sp c1 < 512 ->
  dispatch m_JSR (Machine c m)
  = (dec_register (sp c1) false;;
     p ← rd pc; store_data_register (register_to_bus_addr (src_reg_field (ir c))) p;;
     set_reg PC (u16 (dest_address c1))) (Machine c1 (put (sp c1) (get_reg r c1) m1)).
Proof.
  intros Hs Hm Hc Hr Hsp. pose proof (cpu_wf_reg c1 SP Hc) as Hs0. cbn in Hs0.
  cbn [dispatch]. unfold JSR. steps. step Hs. steps.
  change (Z.shiftr (Z.land (ir c) 448) 6) with (src_reg_field (ir c)).
  step (fetch_register_done _ _ c1 m1 Hr). steps.
  rewrite (bind_done _ _ _ _ _ (store_low c1 m1 (sp c1) (get_reg r c1) Hm ltac:(lia))).
  rewrite (u16_id (get_reg r c1)) by auto with words. by steps.
Qed.

(** With a stack pointer that is no register number. *)
Lemma jsr_on_memory c m c1 m1 r :
  setup_dest_addressing false (Machine c m) = Done tt (Machine c1 m1) ->
  mem_wf m1 -> cpu_wf c1 -> register_ptr (src_reg_field (ir c)) = Some r -> 9 <= sp c1 < 512 ->
  dispatch m_JSR (Machine c m)
  = Done tt (Machine (with_reg PC (u16 (dest_address c1)) (with_reg r (pc c1) c1))
                     (put (sp c1) (get_reg r c1) m1)).
Proof.
  intros Hs Hm Hc Hr Hsp. rewrite (jsr_stores c m c1 m1 r) by (done || lia).
  rewrite (bind_done _ _ _ _ _ (proj1 (step_register_none (sp c1) false _ ltac:(lia)))). steps.
  step (store_register_done _ _ (pc c1) c1 (put (sp c1) (get_reg r c1) m1) Hr).
  rewrite set_reg_done, u16_u16, (u16_id (pc c1)) by apply (cpu_wf_reg c1 PC Hc). done.
Qed.

(** With one that is: the step falls on that register. *)
Lemma jsr_on_registers c m c1 m1 r q :
  setup_dest_addressing false (Machine c m) = Done tt (Machine c1 m1) ->
  mem_wf m1 -> cpu_wf c1 -> register_ptr (src_reg_field (ir c)) = Some r -> register_ptr (sp c1) = Some q ->
  dispatch m_JSR (Machine c m)
  = Done tt (Machine (with_reg PC (u16 (dest_address c1))
                        (let c2 := with_reg q (u16 (get_reg q c1 - 2)) c1 in with_reg r (u16 (pc c2)) c2))
                     (put (sp c1) (get_reg r c1) m1)).
Proof.
  intros Hs Hm Hc Hr Hq.
  assert (sp c1 < 512).
  { destruct (Z.lt_ge_cases (sp c1) 9); [lia|]. by rewrite register_ptr_none in Hq by lia. }
  rewrite (jsr_stores c m c1 m1 r) by (done || lia). unfold dec_register. rewrite Hq. steps.
  step (store_register_done _ _ _ _ _ Hr). by rewrite set_reg_done, u16_u16.
Qed.

(** With one beyond the memory JSR waits at the store and RTS at the fetch. *)
Lemma jsr_beyond c m c1 m1 r :
  setup_dest_addressing false (Machine c m) = Done tt (Machine c1 m1) ->
  cpu_wf c1 -> register_ptr (src_reg_field (ir c)) = Some r -> 512 <= sp c1 ->
  dispatch m_JSR (Machine c m) = Blocked.
Proof.
  intros Hs Hc Hr Hsp. pose proof (cpu_wf_reg c1 SP Hc) as Hs0. cbn in Hs0.
  cbn [dispatch]. unfold JSR. steps. step Hs. steps.
  change (Z.shiftr (Z.land (ir c) 448) 6) with (src_reg_field (ir c)).
  step (fetch_register_done _ _ c1 m1 Hr). steps.
  apply bind_blocked, store_beyond. lia.
Qed.

Lemma rts_beyond c (m : mem_dev) r :
  cpu_wf c -> register_ptr (dest_reg_field (ir c)) = Some r -> 512 <= sp c ->
  dispatch m_RTS (Machine c m) = Blocked.
Proof.
  intros Hc Hr Hsp. pose proof (cpu_wf_reg c SP Hc) as Hs0. cbn in Hs0.
  cbn [dispatch]. unfold RTS. steps. change (Z.land (ir c) 7) with (dest_reg_field (ir c)).
  step (fetch_register_done _ _ c m Hr). steps.
  set (c1 := with_reg PC _ c). assert (Hs : sp c1 = sp c) by (unfold c1; by cpu_simpl).
  rewrite (bind_done _ _ _ _ _ (proj2 (step_register_none (sp c1) false _ ltac:(lia)))). steps.
  rewrite Hs. apply bind_blocked, fetch_beyond. lia.
Qed.

Lemma rts_on_memory c m r w :
  mem_wf m -> cpu_wf c -> register_ptr (dest_reg_field (ir c)) = Some r -> r <> SP ->
  9 <= sp c < 512 -> word_at m (sp c) = Some w ->
  dispatch m_RTS (Machine c m)
  = Done tt (Machine (with_reg r w (with_reg PC (get_reg r c) c)) m).
Proof.
  intros Hm Hc Hr Hne Hsp Hw. cbn [dispatch]. unfold RTS. steps.
  change (Z.land (ir c) 7) with (dest_reg_field (ir c)).
  step (fetch_register_done _ _ c m Hr). steps.
  rewrite (u16_id (get_reg r c)) by auto with words. set (c1 := with_reg PC _ c).
  assert (Hs : sp c1 = sp c) by (unfold c1; by cpu_simpl).
  rewrite (bind_done _ _ _ _ _ (proj2 (step_register_none (sp c1) false _ ltac:(lia)))). steps.
  rewrite Hs. step (fetch_low c1 m (sp c) w Hm ltac:(lia) Hw).
  rewrite (store_register_done _ r) by done.
  destruct (word_at_in _ _ _ Hm Hw) as (_ & _ & ? & _). by rewrite u16_id.
Qed.

(** Destination [(Rn)]. *)
Lemma setup_deferred c (m : mem_dev) r :
  cpu_wf c -> dest_mode_field (ir c) = 1 -> register_ptr (dest_reg_field (ir c)) = Some r ->
  dest_reg_field (ir c) <= 5 ->
  setup_dest_addressing false (Machine c m)
  = Done tt (Machine (with_loc DestAddress (get_reg r c) c) m).
Proof.
  intros Hc Hm Hr Hn. unfold setup_dest_addressing. steps. rewrite Hm.
  pose proof (dest_reg_field_range (ir c)). unfold setup_addressing.
  rewrite switch_not_in by (cbn; rewrite !list_elem_of_In; cbn; lia).
  unfold setup_general_addressing. cbn [switch Z.eqb Pos.eqb].
  step (fetch_register_done _ _ c m Hr). rewrite set_loc_run, u32_id; [done|].
  pose proof (cpu_wf_reg _ r Hc). lia.
Qed.

(** Destination [(PC)+], the word behind the instruction itself. *)
Lemma setup_immediate c (m : mem_dev) :
  cpu_wf c -> dest_mode_field (ir c) = 2 -> dest_reg_field (ir c) = 7 ->
  setup_dest_addressing false (Machine c m)
  = Done tt (Machine (with_reg PC (u16 (pc c + 2)) (with_loc DestAddress (pc c) c)) m).
Proof.
  intros Hc Hm Hr. unfold setup_dest_addressing. steps. rewrite Hm, Hr.
  unfold setup_addressing, setup_pc_addressing. cbn [switch Z.eqb Pos.eqb]. steps.
  pose proof (cpu_wf_reg _ PC Hc) as Hp. cbn in Hp. rewrite upd_reg_done, u32_id by lia. by cpu_simpl.
Qed.

(** Destination [X(PC)]. *)
Lemma setup_pc_relative c (m : mem_dev) x :
  mem_wf m -> dest_mode_field (ir c) = 6 -> dest_reg_field (ir c) = 7 ->
  0 <= pc c < 510 -> word_at m (pc c) = Some x ->
  setup_dest_addressing false (Machine c m)
  = Done tt (Machine (with_loc DestAddress (pc c + 2 + x) (with_reg PC (pc c + 2) c)) m).
Proof.
  intros Hm Hd Hr Hp Hx. unfold setup_dest_addressing. steps. rewrite Hd, Hr.
  unfold setup_addressing, setup_pc_addressing. cbn [switch Z.eqb Pos.eqb].
  destruct (word_at_in _ _ _ Hm Hx) as (_ & _ & Hx16 & _).
  assert (E : fetch_pc_word (Machine c m) = Done x (Machine (with_reg PC (pc c + 2) c) m)).
  { unfold fetch_pc_word. steps. step (fetch_low c m (pc c) x Hm ltac:(lia) Hx). steps.
    cbn [get_reg]. by rewrite u16_id by lia. }
  step E. steps. rewrite set_loc_run. cpu_simpl. by rewrite u32_id by lia.
Qed.
End Subroutines.
