(* ===== verification/CpuPlaces.v ===== *)
(** * The processor: operands as places

    An operand of a word instruction is a register or an even word of the memory
    below 512, a [place].  For the addressing modes 0, 1, 2 and 4 on registers, and
    2 on the PC, the place an operand denotes and the step of its register, and
    what an instruction of the tables of [CpuSpec] does to places. *)
From S2P Require Import Prelude Bus Cpu Instr CpuFacts CpuSpec CpuRegs Mem CpuMem.

Inductive place := PReg (n : Z) | PMem (a : Z).

#[export] Instance place_eq_dec : EqDecision place.
Proof. solve_decision. Defined.

Definition low_even (a : Z) : bool := (0 <=? a) && (a <=? 510) && Z.even a.

Definition valid (p : place) : Prop :=
  match p with PReg n => 0 <= n <= 7 | PMem a => low_even a = true end.

Lemma low_even_range a : low_even a = true -> 0 <= a <= 510 /\ a mod 2 = 0.
Proof.
  unfold low_even. rewrite !andb_true_iff, !Z.leb_le. intros [[H1 H2] H3].
  split; [lia|]. by rewrite Zmod_even, H3.
Qed.

Lemma places_apart a b : low_even a = true -> low_even b = true -> a <> b -> a + 2 <= b \/ b + 2 <= a.
Proof. intros [_ Ha]%low_even_range [_ Hb]%low_even_range H. mod_lia. Qed.

(** The contents of a place, and its address on the bus. *)
Definition get (p : place) (c : cpu) (m : mem_dev) : Z :=
  match p with
  | PReg n => match register_ptr n with Some r => get_reg r c | None => 0 end
  | PMem a => default 0 (word_at m a)
  end.

Definition bus_at (p : place) : Z :=
  match p with PReg n => register_to_bus_addr n | PMem a => a end.

(** The place of an operand and the new contents of its register, [v] being the
    old ones. *)
Definition operand_place (mode n v : Z) : option (place * option Z) :=
  let at_mem a upd := if low_even a then Some (PMem a, upd) else None in
  switch mode
    [(0, Some (PReg n, None));
     (1, if n <=? 6 then at_mem v None else None);
     (2, at_mem v (Some (u16 (v + 2))));
     (4, if n =? 6 then at_mem (u16 (v - 2)) (Some (u16 (v - 2)))
         else if n <? 6 then at_mem v (Some (u16 (v - 2))) else None)]
    None.

Definition move (n : Z) (upd : option Z) (c : cpu) : cpu :=
  match upd, register_ptr n with Some v, Some r => with_reg r v c | _, _ => c end.

Lemma operand_place_valid mode n v p upd :
  0 <= n <= 7 -> operand_place mode n v = Some (p, upd) -> valid p.
Proof.
  intros Hn. unfold operand_place. cbn [switch].
  repeat (case_match; try discriminate); intros [= <- <-]; done.
Qed.

Lemma operand_place_u16 mode n v p upd x : operand_place mode n v = Some (p, upd) -> upd = Some x -> is_u16 x.
Proof.
  unfold operand_place. cbn [switch].
  repeat (case_match; try discriminate); intros [= <- <-]; intros [= <-]; apply u16_range.
Qed.

Lemma get_valid p c m : cpu_wf c -> mem_wf m -> valid p -> is_u16 (get p c m).
Proof.
  intros Hc Hm Hp. destruct p as [n|a]; cbn [get valid] in *.
  - destruct (register_ptr n); [apply Hc | lia].
  - apply low_even_range in Hp as [Hp _].
    destruct (word_at_some m a Hm ltac:(lia) ltac:(unfold MEMBYTES; lia)) as (w & Hw & ->). done.
Qed.

Lemma word_at_get a c m : mem_wf m -> low_even a = true -> word_at m a = Some (get (PMem a) c m).
Proof.
  intros Hm [Ha _]%low_even_range. cbn.
  destruct (word_at_some m a Hm ltac:(lia) ltac:(unfold MEMBYTES; lia)) as (w & _ & ->). done.
Qed.

Lemma bus_at_u32 p : valid p -> is_u32 (bus_at p).
Proof. destruct p; cbn; [intros; apply register_to_bus_addr_u32 | intros [? _]%low_even_range; lia]. Qed.

(** ** Setting up an operand *)
Lemma move_wf n upd c : (forall x, upd = Some x -> is_u16 x) -> cpu_wf c -> cpu_wf (move n upd c).
Proof.
  intros Hu Hc. unfold move. destruct upd as [x|]; [|done]. destruct (register_ptr n); [|done].
  apply with_reg_wf; [by apply Hu | done].
Qed.

Lemma with_loc_reg l x r v c : with_reg r v (with_loc l x c) = with_loc l x (with_reg r v c).
Proof. by destruct c, l, r. Qed.

(** One goal for each mode that has a case. *)
Ltac mode_cases mode :=
  repeat match goal with
  | |- context [mode =? ?k] => destruct (Z.eqb_spec mode k); [subst mode; cbn [Z.eqb Pos.eqb] | ]
  end; try discriminate.

Lemma setup_place l mode n c (m : mem_dev) r p upd :
  0 <= n <= 7 -> cpu_wf c -> register_ptr n = Some r -> operand_place mode n (get_reg r c) = Some (p, upd) ->
  setup_addressing l mode n false (Machine c m) = Done tt (Machine (with_loc l (bus_at p) (move n upd c)) m).
Proof.
  intros Hn Hc Hr. pose proof (cpu_wf_reg c r Hc) as Hv. unfold operand_place, move. rewrite Hr.
  assert (U : forall a, is_u16 a -> u32 a = a) by (intros; apply u32_id; lia).
  destruct (Z.eq_dec mode 0) as [->|N0].
  { cbn [switch Z.eqb]. intros [= <- <-]. rewrite setup_register_mode by done.
    rewrite set_loc_run, u32_id by apply register_to_bus_addr_u32. done. }
  cbn [switch]. rewrite (proj2 (Z.eqb_neq mode 0) N0).
  assert (n <= 5 \/ n = 6 \/ n = 7) as [H5|[->| ->]] by lia.
  - unfold setup_addressing. rewrite switch_not_in by (cbn; rewrite !list_elem_of_In; cbn; lia).
    unfold setup_general_addressing. cbn [switch]. rewrite (proj2 (Z.eqb_neq mode 0) N0).
    rewrite (proj2 (Z.leb_le n 6)), (proj2 (Z.eqb_neq n 6)), (proj2 (Z.ltb_lt n 6)) by lia.
    mode_cases mode;
      destruct (low_even (get_reg r c)); try discriminate; intros [= <- <-];
      step (fetch_register_done _ _ c m Hr); unfold inc_register, dec_register; rewrite ?Hr; steps;
      rewrite ?set_loc_run, ?upd_reg_done, ?U by done; cbn [bus_at];
      rewrite ?get_reg_with_loc, ?with_loc_reg; done.
  - injection Hr as <-. unfold setup_addressing. cbn [switch Z.eqb Pos.eqb Z.leb Z.compare Pos.compare Pos.compare_cont].
    unfold setup_sp_addressing. cbn [switch]. rewrite (proj2 (Z.eqb_neq mode 0) N0).
    mode_cases mode;
      match goal with |- context [low_even ?a] => destruct (low_even a) end; try discriminate;
      intros [= <- <-]; steps; cpu_simpl;
      rewrite ?set_loc_run, ?upd_reg_done, ?(U (sp c)), ?(U (u16 _)) by (apply Hv || apply u16_range);
      cbn [bus_at get_reg]; cpu_simpl; rewrite ?with_loc_reg; done.
  - injection Hr as <-. unfold setup_addressing. cbn [switch Z.eqb Pos.eqb Z.leb Z.compare Pos.compare Pos.compare_cont].
    unfold setup_pc_addressing. cbn [switch]. rewrite (proj2 (Z.eqb_neq mode 0) N0).
    mode_cases mode;
      match goal with |- context [low_even ?a] => destruct (low_even a) end; try discriminate;
      intros [= <- <-]; steps; cpu_simpl;
      rewrite ?set_loc_run, ?upd_reg_done, ?(U (pc c)) by (apply Hv || apply u16_range);
      cbn [bus_at get_reg]; cpu_simpl; rewrite ?with_loc_reg; done.
Qed.

(** ** Reading and writing a place *)
Definition put_reg (p : place) (x : Z) (c : cpu) : cpu :=
  match p with PReg n => move n (Some x) c | PMem _ => c end.

Definition put_mem (p : place) (x : Z) (m : mem_dev) : mem_dev :=
  match p with PReg _ => m | PMem a => put a x m end.

Lemma put_reg_other p x q c : valid p -> (forall n r, p = PReg n -> register_ptr n = Some r -> q <> r) ->
  get_reg q (put_reg p x c) = get_reg q c.
Proof.
  intros Hp H. destruct p as [n|a]; [|done]. cbn [put_reg move]. unfold move.
  destruct (register_ptr n) as [r|] eqn:Er; [|done]. rewrite get_with_reg, decide_False; [done|].
  by apply (H n r).
Qed.

Lemma put_reg_fields p x c :
  ir (put_reg p x c) = ir c /\ halted (put_reg p x c) = halted c /\ alu (put_reg p x c) = alu c /\
  src_address (put_reg p x c) = src_address c /\ dest_address (put_reg p x c) = dest_address c /\
  (valid p -> psw (put_reg p x c) = psw c).
Proof.
  destruct p as [n|a]; [|done]. cbn [put_reg valid]. unfold move.
  destruct (register_ptr n) as [r|] eqn:E; [|done]. cpu_simpl. split_and!; try done.
  intros Hn. pose proof (field_ptr_not_psw _ _ E Hn). by cpu_simpl.
Qed.

Lemma register_ptr_injective n k r : register_ptr n = Some r -> register_ptr k = Some r -> n = k.
Proof.
  unfold register_ptr. cbn [switch].
  repeat match goal with |- context [?x =? ?y] => destruct (Z.eqb_spec x y); [subst|] end; congruence.
Qed.

Lemma get_put p q x c m :
  mem_wf m -> valid p -> valid q -> is_u16 x ->
  get q (put_reg p x c) (put_mem p x m) = if decide (q = p) then x else get q c m.
Proof.
  intros Hm Hp Hq Hx. destruct p as [n|a], q as [k|b]; cbn [get put_reg put_mem valid] in *; unfold move.
  - destruct (register_ptr_some n) as [r Hr]; [lia|]. destruct (register_ptr_some k) as [s Hs]; [lia|].
    rewrite Hr, Hs, get_with_reg. destruct (decide (s = r)) as [->|E].
    + pose proof (register_ptr_injective _ _ _ Hr Hs) as ->. by rewrite decide_True.
    + rewrite decide_False; [done|]. intros [= ->]. congruence.
  - by rewrite decide_False.
  - by rewrite decide_False.
  - unfold put. case_decide as E.
    + injection E as ->. by rewrite word_at_put.
    + rewrite word_at_put_other; [done|]. destruct (places_apart a b Hp Hq) as [|]; [congruence | lia..].
Qed.

Lemma put_wf_place p x c m :
  cpu_wf c -> mem_wf m -> valid p -> is_u16 x -> cpu_wf (put_reg p x c) /\ mem_wf (put_mem p x m).
Proof.
  intros Hc Hm Hp Hx. destruct p as [n|a]; cbn [put_reg put_mem valid] in *.
  - split; [|done]. apply move_wf; [|done]. by intros y [= <-].
  - apply low_even_range in Hp as [Hp _]. split; [done|]. apply put_wf; try done; unfold MEMBYTES; lia.
Qed.

Lemma fetch_place p c m : mem_wf m -> valid p -> fetch_data (bus_at p) (Machine c m) = Done (get p c m) (Machine c m).
Proof.
  intros Hm Hp. destruct p as [n|a]; cbn [bus_at valid] in *.
  - destruct (register_ptr_some n) as [r Hr]; [lia|].
    rewrite (fetch_data_of_register n r) by done. cbn [get]. by rewrite Hr.
  - pose proof (low_even_range a Hp) as [Ha _]. apply fetch_low; [done | lia | by apply word_at_get].
Qed.

Lemma store_place p v c m : mem_wf m -> valid p -> is_u16 v ->
  store_data (bus_at p) v (Machine c m) = Done tt (Machine (put_reg p v c) (put_mem p v m)).
Proof.
  intros Hm Hp Hv. destruct p as [n|a]; cbn [bus_at valid put_reg put_mem] in *.
  - destruct (register_ptr_some n) as [r Hr]; [lia|].
    rewrite (store_data_of_register n r) by done. unfold move. rewrite Hr. unfold set_reg. by rewrite u16_id.
  - pose proof (low_even_range a Hp) as [Ha _]. by rewrite store_low, u16_id by (done || lia).
Qed.

(** ** Instructions on places *)

(** The state an instruction leaves that stores [x] at [p], if it stores. *)
Record stored (p : place) (x : Z) (stores : bool) (c : cpu) (m : mem_dev) (c' : cpu) (m' : mem_dev) : Prop := Stored {
  st_cpu : cpu_wf c'; st_mem : mem_wf m'; st_halted : halted c' = halted c;
  st_psw : psw c' = nz_psw W16 x (psw c);
  st_places : forall q, valid q -> get q c' m' = if decide (q = p) then (if stores then x else get q c m) else get q c m
}.

Definition stores_word (r : result) : bool := match r with Discard => false | _ => true end.

Lemma get_with_psw q v c m : valid q -> get q (with_reg PSW v c) m = get q c m.
Proof.
  intros Hq. destruct q as [n|a]; [|done]. cbn [get valid] in *.
  destruct (register_ptr n) as [r|] eqn:E; [|done]. rewrite get_with_reg, decide_False; [done|].
  by apply (field_ptr_not_psw n).
Qed.

Lemma get_with_alu q v c m : get q (with_alu v c) m = get q c m.
Proof. destruct q as [n|a]; [|done]. cbn [get]. destruct (register_ptr n); [|done]. apply get_reg_with_alu. Qed.

Lemma get_with_loc q l v c m : get q (with_loc l v c) m = get q c m.
Proof. destruct q as [n|a]; [|done]. cbn [get]. destruct (register_ptr n); [|done]. apply get_reg_with_loc. Qed.

(** The end of an instruction with the result [x]. *)
Lemma finish_place p res x c m :
  cpu_wf c -> mem_wf m -> valid p -> is_u16 x -> dest_address c = bus_at p -> res <> StoreByte ->
  exists c' m', (store_result res;; negative_flag_of_alu W16;; zero_flag_of_alu) (Machine (with_alu x c) m)
    = Done tt (Machine c' m') /\ stored p x (stores_word res) c m c' m'.
Proof.
  intros Hc Hm Hp Hx Hd Hr.
  assert (Hpsw : is_u16 (psw c)) by apply (cpu_wf_reg c PSW Hc).
  assert (Hpa : psw (with_alu x c) = psw c) by by destruct c.
  assert (Hca : cpu_wf (with_alu x c)) by by apply with_alu_wf.
  destruct res; [| |done]; cbn [store_result stores_word].
  - eexists _, m. split.
    { step (eq_refl : (mret tt : M (machine mem_dev) unit) (Machine (with_alu x c) m) = _).
      rewrite flags_of_alu; rewrite ?Hpa, ?alu_with_alu; done. }
    split; [| done | by cpu_simpl | by cpu_simpl |].
    + apply with_reg_wf; [by apply nz_psw_u16 | done].
    + intros q Hq. rewrite get_with_psw, get_with_alu by done. by case_decide.
  - destruct (put_reg_fields p x (with_alu x c)) as (_ & Fh & Fa & _ & _ & Fp). specialize (Fp Hp).
    destruct (put_wf_place p x (with_alu x c) m Hca Hm Hp Hx) as [Wc Wm].
    assert (S : store_alu (Machine (with_alu x c) m)
      = Done tt (Machine (put_reg p x (with_alu x c)) (put_mem p x m))).
    { unfold store_alu. steps. cpu_simpl. rewrite Hd. by apply store_place. }
    eexists _, _. split.
    { step S. rewrite flags_of_alu; rewrite ?Fa, ?Fp, ?Hpa, ?alu_with_alu; done. }
    split.
    + apply with_reg_wf; [by apply nz_psw_u16 | done].
    + done.
    + cpu_simpl. rewrite Fh. by cpu_simpl.
    + by cpu_simpl.
    + intros q Hq. rewrite get_with_psw, get_put by done. case_decide; [done | apply get_with_alu].
Qed.

Lemma fetch_dest_place p c m : mem_wf m -> valid p -> dest_address c = bus_at p ->
  fetch_dest (Machine c m) = Done (get p c m) (Machine c m).
Proof. intros Hm Hp Hd. unfold fetch_dest. step (rd_done dest_address c m). rewrite Hd. by apply fetch_place. Qed.

Lemma fetch_src_place p c m : mem_wf m -> valid p -> src_address c = bus_at p ->
  fetch_src (Machine c m) = Done (get p c m) (Machine c m).
Proof. intros Hm Hp Hd. unfold fetch_src. step (rd_done src_address c m). rewrite Hd. by apply fetch_place. Qed.

Lemma exec_single_place e p c0 c m :
  setup_dest_addressing false (Machine c0 m) = Done tt (Machine c m) -> dest_address c = bus_at p ->
  cpu_wf c -> mem_wf m -> valid p ->
  so_byte_addressing e = false -> so_width e = W16 -> so_result e <> StoreByte ->
  let x := u16 (so_fn e (Z.land (psw c) 1) (if so_fetches e then get p c m else 0)) in
  exists c' m', exec_single e (Machine c0 m) = Done tt (Machine c' m') /\
    stored p x (stores_word (so_result e)) c m c' m'.
Proof.
  intros Hs Hd Hc Hm Hp Hb Hw Hr x. unfold exec_single. rewrite Hb, Hw. step Hs.
  assert (F : (if so_fetches e then fetch_dest else mret 0) (Machine c m)
    = Done (if so_fetches e then get p c m else 0) (Machine c m))
    by (destruct (so_fetches e); [by apply fetch_dest_place | done]).
  step F. steps. cbn [operand]. pose proof (get_valid p c m Hc Hm Hp).
  rewrite (u16_id (if so_fetches e then _ else _)) by (destruct (so_fetches e); done || lia).
  apply finish_place; try done. apply u16_range.
Qed.

Lemma exec_double_place e ps pd c0 c1 c m :
  setup_src_addressing false (Machine c0 m) = Done tt (Machine c1 m) ->
  setup_dest_addressing false (Machine c1 m) = Done tt (Machine c m) ->
  src_address c = bus_at ps -> dest_address c = bus_at pd ->
  cpu_wf c -> mem_wf m -> valid ps -> valid pd -> do_width e = W16 ->
  let y := match do_order e with SrcOnly => 0 | _ => get pd c m end in
  let x := u16 (do_fn e (get ps c m) y) in
  exists c' m', exec_double e (Machine c0 m) = Done tt (Machine c' m') /\
    stored pd x (do_stores e) c m c' m'.
Proof.
  intros Hss Hsd Hs Hd Hc Hm Hps Hpd Hw y x. unfold exec_double. rewrite Hw. cbn [byte_wide].
  step Hss. step Hsd.
  pose proof (fetch_src_place ps c m Hm Hps Hs) as Fs. pose proof (fetch_dest_place pd c m Hm Hpd Hd) as Fd.
  assert (F : fetch_operands (do_order e) (Machine c m) = Done (get ps c m, y) (Machine c m)).
  { unfold y. destruct (do_order e); cbn [fetch_operands];
      repeat (rewrite (bind_done _ _ _ _ _ Fs) || rewrite (bind_done _ _ _ _ _ Fd)); done. }
  step F. steps. cbn [operand fst snd].
  pose proof (get_valid ps c m Hc Hm Hps). pose proof (get_valid pd c m Hc Hm Hpd).
  assert (is_u16 y) by (unfold y; destruct (do_order e); done || lia).
  rewrite (u16_id (get ps c m)), (u16_id y) by done. fold x.
  destruct (finish_place pd (if do_stores e then StoreWord else Discard) x c m) as (c' & m' & E & S);
    [done.. | apply u16_range | done | by destruct (do_stores e) |].
  exists c', m'. split; [exact E|]. by destruct (do_stores e).
Qed.
