(* ===== verification/Load.v ===== *)
(** * The loader of a.out files

    [libload/load.c]: the header and text are read word by word with [read(2)],
    and the object is placed in the memory by [load_aout] of [mem/mem.c].

    What [read] delivers is a stream of results, one per call: an error or the
    bytes of this call, at most two and possibly fewer; after the last one every
    call is at the end of the file and delivers nothing.  [file_reader] is the
    stream of a regular file.  The calls that allocate, open and close give the
    booleans of [os]; the header's contents before it is read are the heap's. *)
From S2P Require Import Prelude Bus Mem CpuMem.

Record aout_header := AoutHeader {
  a_midmag : Z; a_text : Z; a_data : Z; a_bss : Z; a_syms : Z; a_entry : Z;
  a_trsize : Z; a_drsize : Z
}.

Record aout_object := Aout { header : aout_header; text : list Z }.

(** [header_refs] of [aout_read_header]. *)
Definition header_refs (h : aout_header) : list Z :=
  [a_midmag h; a_text h; a_data h; a_bss h; a_syms h; a_entry h; a_trsize h; a_drsize h].

Definition header_of_refs (ws : list Z) (h : aout_header) : aout_header :=
  match ws with
  | [w0; w1; w2; w3; w4; w5; w6; w7] => AoutHeader w0 w1 w2 w3 w4 w5 w6 w7
  | _ => h
  end.

Definition reader := list (option (list Z)).

(** A two-byte object after a [read] into it delivered [bs] (little-endian). *)
Definition overwrite (old : Z) (bs : list Z) : Z :=
  match bs with
  | [] => old
  | [b0] => Z.lor (Z.land old (oct! 177400)) b0
  | b0 :: b1 :: _ => Z.lor b0 (Z.shiftl b1 8)
  end.

(** One [read(fd, &w, sizeof(uint16_t))]: [None] for the result -1. *)
Definition read_into (old : Z) (r : reader) : option Z * reader :=
  match r with
  | [] => (Some old, [])
  | None :: r' => (None, r')
  | Some bs :: r' => (Some (overwrite old bs), r')
  end.

(** The loop of [aout_read_header] and of [aout_read_text]: it stops at the first
    error and looks at no length. *)
Fixpoint read_words (olds : list Z) (r : reader) : option (list Z) * reader :=
  match olds with
  | [] => (Some [], r)
  | old :: olds' =>
      match read_into old r with
      | (None, r') => (None, r')
      | (Some w, r') =>
          match read_words olds' r' with
          | (Some ws, r'') => (Some (w :: ws), r'')
          | (None, r'') => (None, r'')
          end
      end
  end.

Definition aout_read_header (h : aout_header) (r : reader) : option aout_header * reader :=
  match read_words (header_refs h) r with
  | (Some ws, r') => (Some (header_of_refs ws h), r')
  | (None, r') => (None, r')
  end.

Record os := Os { open_ok : bool; malloc_ok : bool; calloc_ok : bool; close_ok : bool }.

Definition aout_read_text (e : os) (h : aout_header) (r : reader) : option (list Z) * reader :=
  let n_text := Z.shiftr (a_text h) 1 in
  if calloc_ok e then read_words (replicate (Z.to_nat n_text) 0) r else (None, r).

(** [aout_read]: [None] is NULL; [junk] is what [malloc] left in the header. *)
Definition aout_read (e : os) (junk : aout_header) (r : reader) : option aout_object :=
  if negb (open_ok e) then None
  else if negb (malloc_ok e) then None
  else match aout_read_header junk r with
       | (None, _) => None
       | (Some h, r') =>
           match aout_read_text e h r' with
           | (None, _) => None
           | (Some t, _) => if close_ok e then Some (Aout h t) else None
           end
       end.

(** The loop of [load_aout] on the words [ts] still to load, from index [m]. *)
Fixpoint load_words (ts : list Z) (m : Z) : M mem_dev unit :=
  match ts with
  | [] => mret tt
  | w :: ts' =>
      store_write m (Z.land w (oct! 000377));;
      store_write (m + 1) (Z.shiftr (Z.land w (oct! 177400)) 8);;
      load_words ts' (m + 2)
  end.

(** Conversion of a [uint32_t] to [int]. *)
Definition i32 (x : Z) : Z := (x + 2147483648) mod 4294967296 - 2147483648.

Definition load_aout (aout : aout_object) (offset : Z) : M mem_dev unit :=
  load_words (take (Z.to_nat (Z.shiftr (a_text (header aout)) 1)) (text aout)) (i32 offset).

(** ** Files *)

(** The reads of a regular file with the contents [bs]: two bytes each, the last
    one of an odd file a single byte. *)
Fixpoint file_reader (bs : list Z) : reader :=
  match bs with
  | b0 :: b1 :: bs' => Some [b0; b1] :: file_reader bs'
  | [b0] => [Some [b0]]
  | [] => []
  end.

Definition word_le (w : Z) : list Z := [Z.land w 255; Z.shiftr (Z.land w 65280) 8].

Definition encode_words (ws : list Z) : list Z := ws ≫= word_le.

(** The image of an object as a file. *)
Definition aout_image (a : aout_object) : list Z :=
  encode_words (header_refs (header a)) ++ encode_words (text a).

(** The header and text agree, and every field is a 16-bit word. *)
Definition aout_wf (a : aout_object) : Prop :=
  Forall (fun w => is_u16 w) (header_refs (header a)) /\ Forall (fun w => is_u16 w) (text a) /\
  Z.of_nat (length (text a)) = Z.shiftr (a_text (header a)) 1.

Definition os_ok : os := Os true true true true.

(** ** Lemmas *)
Lemma header_refs_of h h' : header_of_refs (header_refs h) h' = h.
Proof. by destruct h. Qed.

Lemma header_refs_length h : length (header_refs h) = 8%nat.
Proof. done. Qed.

Lemma read_encoded ws olds bs :
  Forall (fun w => is_u16 w) ws -> length olds = length ws ->
  read_words olds (file_reader (encode_words ws ++ bs)) = (Some ws, file_reader bs).
Proof.
  intros Hw. revert olds. induction Hw as [|w ws Hw _ IH]; intros [|old olds] Hl; try done.
  cbn [length] in Hl. injection Hl as Hl. cbn. rewrite IH by done.
  unfold overwrite. by rewrite word_bytes by done.
Qed.

Lemma read_at_eof olds : read_words olds [] = (Some olds, []).
Proof. induction olds as [|old olds IH]; [done|]. cbn. by rewrite IH. Qed.

Lemma read_words_error olds r1 r2 :
  (length r1 < length olds)%nat -> Forall is_Some r1 -> (read_words olds (r1 ++ None :: r2)).1 = None.
Proof.
  revert olds. induction r1 as [|x r1 IH]; intros [|old olds] Hl Hs; cbn in *; try lia; try done.
  inversion Hs as [|? ? [bs ->] Hs']; subst. cbn.
  specialize (IH olds ltac:(lia) Hs').
  by destruct (read_words olds (r1 ++ None :: r2)) as [[ws|] r'].
Qed.

Lemma read_words_length olds r ws r' :
  read_words olds r = (Some ws, r') -> length ws = length olds.
Proof.
  revert r ws r'. induction olds as [|old olds IH]; intros r ws r'; cbn; [by intros [= <- <-]|].
  destruct (read_into old r) as [[w|] r1]; [|done].
  destruct (read_words olds r1) as [[ws'|] r2] eqn:E; [|done]. intros [= <- <-]. cbn. by erewrite IH.
Qed.

(** [load_words] is a sequence of word stores. *)
Fixpoint put_words (ts : list Z) (a : Z) (s : gmap Z Z) : gmap Z Z :=
  match ts with
  | [] => s
  | w :: ts' => put_words ts' (a + 2) (put_word a w s)
  end.

Lemma load_words_in ts a m :
  mem_wf m -> Forall (fun w => is_u16 w) ts -> 0 <= a ->
  a + 2 * Z.of_nat (length ts) <= MEMBYTES ->
  load_words ts a m = Done tt (Mem (mar m) (mbr m) (put_words ts a (store m))) /\
  mem_wf (Mem (mar m) (mbr m) (put_words ts a (store m))).
Proof.
  intros Hm Hts. revert a m Hm. induction Hts as [|w ts Hw _ IH]; intros a m Hm Ha Hl; cbn [load_words put_words].
  - by destruct m.
  - cbn [length] in Hl. unfold MEMBYTES in *.
    pose proof Hm as (Hmar & Hmbr & _).
    rewrite (bind_done _ _ _ _ _ (store_write_in m a (Z.land w 255) Hm ltac:(unfold MEMBYTES; lia))).
    assert (H1 : mem_wf (Mem (mar m) (mbr m) (<[a := u8 (Z.land w 255)]> (store m))))
      by (apply store_insert_wf; done || (unfold MEMBYTES; lia)).
    rewrite (bind_done _ _ _ _ _ (store_write_in _ (a + 1) (Z.shiftr (Z.land w 65280) 8) H1
      ltac:(unfold MEMBYTES; lia))).
    cbn [mar mbr store].
    assert (H2 : mem_wf (Mem (mar m) (mbr m) (put_word a w (store m)))).
    { exact (store_insert_wf (mar m) (mbr m) _ (a + 1) (Z.shiftr (Z.land w 65280) 8) H1 Hmar Hmbr
        ltac:(unfold MEMBYTES; lia)). }
    apply (IH (a + 2) _ H2); cbn [store]; lia.
Qed.

Lemma put_words_below ts a s i : i < a -> put_words ts a s !! i = s !! i.
Proof.
  revert a s. induction ts as [|w ts IH]; intros a s Hi; [done|]. cbn [put_words].
  rewrite IH by lia. unfold put_word. by rewrite !lookup_insert_ne by lia.
Qed.

Lemma put_words_above ts a s i : a + 2 * Z.of_nat (length ts) <= i -> put_words ts a s !! i = s !! i.
Proof.
  revert a s. induction ts as [|w ts IH]; intros a s Hi; [done|]. cbn [put_words length] in *.
  rewrite IH by lia. unfold put_word. by rewrite !lookup_insert_ne by lia.
Qed.

Lemma put_words_at x y ts a s n w :
  Forall (fun w => is_u16 w) ts -> ts !! n = Some w ->
  word_at (Mem x y (put_words ts a s)) (a + 2 * Z.of_nat n) = Some w.
Proof.
  intros Hts. revert a s n. induction Hts as [|v ts Hv Hts IH]; intros a s n Hn; [done|].
  destruct n as [|n]; cbn [put_words].
  - injection Hn as ->. rewrite <- (word_at_put x y a w s Hv). rewrite Z.mul_0_r, Z.add_0_r.
    unfold word_at. cbn [store]. by rewrite !put_words_below by lia.
  - replace (a + 2 * Z.of_nat (S n)) with (a + 2 + 2 * Z.of_nat n) by lia. by apply IH.
Qed.

(** The first word that does not fit stops the load. *)
Lemma load_words_out ts a m :
  mem_wf m -> Forall (fun w => is_u16 w) ts -> 0 <= a -> ts <> [] ->
  MEMBYTES < a + 2 * Z.of_nat (length ts) -> load_words ts a m = Fault.
Proof.
  intros Hm Hts. revert a m Hm. induction Hts as [|w ts Hw _ IH]; intros a m Hm Ha Hne Hl; [done|].
  cbn [load_words length] in *.
  destruct (decide (a < MEMBYTES)) as [H1|H1].
  2: { apply bind_fault. unfold store_write. by rewrite store_lookup_out by (done || lia). }
  rewrite (bind_done _ _ _ _ _ (store_write_in m a (Z.land w 255) Hm ltac:(lia))).
  pose proof Hm as (Hmar & Hmbr & _).
  assert (W1 : mem_wf (Mem (mar m) (mbr m) (<[a := u8 (Z.land w 255)]> (store m))))
    by (apply store_insert_wf; done || lia).
  destruct (decide (a + 1 < MEMBYTES)) as [H2|H2].
  2: { apply bind_fault. unfold store_write. by rewrite store_lookup_out by (done || lia). }
  rewrite (bind_done _ _ _ _ _ (store_write_in _ (a + 1) (Z.shiftr (Z.land w 65280) 8) W1 ltac:(lia))).
  apply IH; [| lia | | lia].
  - exact (store_insert_wf (mar m) (mbr m) _ (a + 1) (Z.shiftr (Z.land w 65280) 8) W1 Hmar Hmbr ltac:(lia)).
  - intros ->. cbn in Hl. lia.
Qed.

(** A well-formed image is read as the object it encodes. *)
Lemma aout_read_image a junk rest :
  aout_wf a -> aout_read os_ok junk (file_reader (aout_image a ++ rest)) = Some a.
Proof.
  intros (Hh & Ht & Hl). destruct a as [h t]. cbn [header text] in *.
  unfold aout_read, aout_image, aout_read_header, aout_read_text. cbn [open_ok malloc_ok calloc_ok
    close_ok os_ok negb header text].
  rewrite <- app_assoc, read_encoded by done. rewrite header_refs_of.
  rewrite <- Hl, Nat2Z.id, read_encoded by (done || by rewrite length_replicate). done.
Qed.
