(* ===== verification/Listing.v ===== *)
(** * The listing of an a.out file

    [utilities/loader.c]: prints the header of a parsed object in decimal, its
    magic number and entry in octal, and the words of its text, one a line.  The
    state is the text printed so far. *)
From S2P Require Import Prelude Digits Mem Load.
From Stdlib Require Import String.
#[local] Open Scope Z_scope.

Abbreviation Out := (M (list Z)).

Definition print (t : list Z) : Out unit := modify (fun out => (out ++ t)%list).

Definition EXIT_SUCCESS : Z := 0.
Definition EXIT_FAILURE : Z := 1.

Definition usage : Out Z := print (chars "loader <file>" ++ [newline]);; mret EXIT_FAILURE.

Definition print_field (name : string) (digits : list Z) : Out unit :=
  print (chars name ++ digits ++ [newline])%list.

Definition print_header (h : aout_header) : Out unit :=
  print (chars ".header" ++ [newline])%list;;
  print_field "midmag : " (show_padded 4 8 (a_midmag h));;
  print_field "text   : " (show 10 (a_text h));;
  print_field "data   : " (show 10 (a_data h));;
  print_field "bss    : " (show 10 (a_bss h));;
  print_field "syms   : " (show 10 (a_syms h));;
  print_field "entry  : " (show_padded 4 8 (a_entry h));;
  print_field "trsize : " (show 10 (a_trsize h));;
  print_field "drsize : " (show 10 (a_drsize h)).

(** The line of a word of the text. *)
Definition word_line (w : Z) : list Z := (chars "0o" ++ show_padded 6 8 w ++ [newline])%list.

(** The loop over [n] words from index [i]; behind the array it is undefined. *)
Fixpoint print_words (n : nat) (i : nat) (t : list Z) : Out unit :=
  match n with
  | O => mret tt
  | S n' =>
      match t !! i with
      | Some w => print (word_line w);; print_words n' (S i) t
      | None => fault
      end
  end.

(** [main]: [None] without an argument, else the result of [aout_read]. *)
Definition main (arg : option (option aout_object)) : Out Z :=
  match arg with
  | None => usage
  | Some None => print (chars "Failed to object." ++ [newline])%list;; mret EXIT_FAILURE
  | Some (Some aout) =>
      print_header (header aout);;
      print ([newline] ++ chars ".text" ++ [newline])%list;;
      print_words (Z.to_nat (Z.shiftr (a_text (header aout)) 1)) 0 (text aout);;
      mret EXIT_SUCCESS
  end.

(** ** Reading a listing back *)

(** The word of a line, behind its [0o]. *)
Definition line_word (line : list Z) : option Z := scan_u16 8 (drop 2 line).

Lemma line_word_line w : is_u16 w -> line_word (word_line w) = Some w.
Proof.
  intros Hw. unfold line_word, word_line, scan_u16. rewrite drop_app_length'; [|done].
  pose proof (scan_show 8 ltac:(lia) [] 6 w [newline] ltac:(lia) (Forall_nil_2 _)
    ltac:(unfold ULONG_MAX; lia) eq_refl) as H.
  rewrite app_nil_l in H. rewrite H. cbn. by rewrite u16_id.
Qed.

Lemma print_words_eq t n i out : (i + n <= List.length t)%nat ->
  print_words n i t out = Done tt (out ++ (take n (drop i t) ≫= word_line))%list.
Proof.
  revert i out. induction n as [|n IH]; intros i out H; cbn [print_words].
  - by rewrite app_nil_r.
  - destruct (lookup_lt_is_Some_2 t i) as [w Hw]; [lia|]. rewrite Hw.
    rewrite (bind_done _ _ out tt (out ++ word_line w)%list) by done. rewrite IH by lia.
    rewrite (drop_S _ _ _ Hw). cbn [firstn mbind list_bind]. by rewrite app_assoc.
Qed.

(** The text printed before the words: a name, a number, a line end each. *)
Definition header_text (h : aout_header) : list Z :=
  let line (name : string) ds := (chars name ++ ds ++ [newline])%list in
  (line ".header"%string [] ++ line "midmag : "%string (show_padded 4 8 (a_midmag h)) ++
   line "text   : "%string (show 10 (a_text h)) ++ line "data   : "%string (show 10 (a_data h)) ++
   line "bss    : "%string (show 10 (a_bss h)) ++ line "syms   : "%string (show 10 (a_syms h)) ++
   line "entry  : "%string (show_padded 4 8 (a_entry h)) ++ line "trsize : "%string (show 10 (a_trsize h)) ++
   line "drsize : "%string (show 10 (a_drsize h)) ++ [newline] ++ line ".text"%string [])%list.

Lemma main_eq a out : aout_wf a ->
  main (Some (Some a)) out = Done EXIT_SUCCESS (out ++ header_text (header a) ++ (text a ≫= word_line))%list.
Proof.
  intros (_ & _ & Hl). unfold main, print_header, print_field, print.
  unfold modify, mbind, M_bind. cbv beta iota.
  rewrite <- Hl, Nat2Z.id, print_words_eq by lia.
  rewrite drop_0, firstn_all. unfold mret, M_ret, header_text. f_equal. by rewrite <- !app_assoc.
Qed.
