(* ===== verification/CpuProps.v ===== *)
(** * The processor: properties

    What the execution loop, the decoder, the branches and the operand
    instructions do, for every bus and on the memory. *)
From S2P Require Import Prelude Bus Cpu Instr Decode CpuFacts CpuSpec CpuRegs Mem CpuMem.

(** ** Concrete machines for the witnesses *)
Definition mem0 : mem_dev := init_mem (Junk 0 0 (fun _ => 0)).

Definition cpu_at (p i : Z) : cpu := with_ir i (with_reg PC p init_cpu).

Lemma mem0_wf : mem_wf mem0.
Proof. apply init_mem_wf; cbn; lia. Qed.

Lemma cpu_at_wf p i : is_u16 p -> is_u16 i -> cpu_wf (cpu_at p i).
Proof. intros. by apply with_ir_wf, with_reg_wf, init_cpu_wf. Qed.

Lemma put_all_wf ws m : mem_wf m -> Forall (fun aw => 0 <= aw.1 < 65534 /\ is_u16 aw.2) ws ->
  mem_wf (foldr (fun aw => put aw.1 aw.2) m ws).
Proof.
  intros Hm. induction 1 as [|[a w] ws [Ha Hw] _ IH]; [done|]. cbn in *.
  apply put_wf; [done | done | lia | unfold MEMBYTES; lia].
Qed.

(** A run on a concrete machine, evaluated. *)
Definition is_done {S} (o : outcome S unit) : bool :=
  match o with Done _ _ => true | _ => false end.

Definition final {S A} (d : S) (o : outcome S A) : S :=
  match o with Done _ s => s | _ => d end.

Lemma done_final {S} (d : S) (o : outcome S unit) : is_done o = true -> o = Done tt (final d o).
Proof. by destruct o as [[] s| |]. Qed.

(** ** The execution loop *)

(** C1: Whatever the bus does that keeps its own promises, the processor never
    runs into undefined behaviour: from a well-formed machine, the loop of
    [execute] dereferences no NULL register pointer, sends only issued addresses
    to the bus, and leaves every field of the record in the range of its C type. *)
Theorem execute_safe {B} {MB : MasterBus B} (I : B -> Prop) (OK : MasterBusOk B I) fuel s :
  machine_wf I s ->
  match execute fuel s with Done _ s' => machine_wf I s' | Blocked => True | Fault => False end.
Proof.
  intros Hs. pose proof (keeps_execute fuel s Hs) as H.
  destruct (execute fuel s); [apply H | done | done].
Qed.

Lemma execute_safe_witness :
  match execute 3 (Machine init_cpu mem0) with
  | Done _ s' => machine_wf mem_wf s' | Blocked => True | Fault => False end.
Proof.
  apply (execute_safe mem_wf mem_bus_ok). split; [apply init_cpu_wf | apply mem0_wf].
Defined.

(** ** Decoding *)

(** The nested switches of [exec_instruction] divide the 65536 instruction
    words into disjoint intervals, one per handler: a handler other than HALT is
    selected exactly by the words of its interval, and HALT by all others. *)
Theorem decode_intervals w :
  is_u16 w ->
  (forall m lo n, instruction_range m = Some (lo, n) -> (decode w = m <-> lo <= w < lo + n)) /\
  (decode w = m_HALT <-> forall m, in_range m w = false).
Proof.
  intros Hw. assert (D : forall m, m <> m_HALT -> (decode w = m <-> in_range m w = true)).
  { intros m Hm. rewrite <- (decode_range m w Hw Hm). by rewrite bool_decide_eq_true. }
  split.
  - intros m lo n Hr. assert (Hm : m <> m_HALT) by (intros ->; discriminate).
    rewrite (D m Hm). unfold in_range. rewrite Hr, andb_true_iff, Z.leb_le, Z.ltb_lt. done.
  - split.
    + intros E m. destruct (decide (m = m_HALT)) as [->|Hm]; [done|].
      apply not_true_iff_false. intros Ht. apply D in Ht; [|done]. congruence.
    + intros Hn. destruct (decide (decode w = m_HALT)) as [|Hm]; [done|].
      pose proof (proj1 (D _ Hm) eq_refl) as Ht. by rewrite Hn in Ht.
Qed.

Lemma decode_intervals_witness : decode (oct! 012700) = m_MOV <-> 4096 <= oct! 012700 < 4096 + 4096.
Proof. apply (decode_intervals (oct! 012700)); [lia | reflexivity]. Defined.

(** C4: Encoding an instruction and decoding it are inverse: the handler and the
    operand fields the handlers extract come back, for the double-operand, the
    single-operand and the branch formats. *)
Theorem encode_decode_roundtrip :
  (forall m lo sm sr dm dr, instruction_range m = Some (lo, 4096) ->
     0 <= sm < 8 -> 0 <= sr < 8 -> 0 <= dm < 8 -> 0 <= dr < 8 ->
     let w := encode_double m sm sr dm dr in
     decode w = m /\ src_mode_field w = sm /\ src_reg_field w = sr /\
     dest_mode_field w = dm /\ dest_reg_field w = dr) /\
  (forall m lo dm dr, instruction_range m = Some (lo, 64) -> 0 <= dm < 8 -> 0 <= dr < 8 ->
     let w := encode_single m dm dr in
     decode w = m /\ dest_mode_field w = dm /\ dest_reg_field w = dr) /\
  (forall m lo offset, instruction_range m = Some (lo, 256) -> -128 <= offset < 128 ->
     let w := encode_branch m offset in decode w = m /\ i8 (Z.land w (oct! 0377)) = offset).
Proof.
  split_and!.
  - intros m lo sm sr dm dr Hr H1 H2 H3 H4 w. pose proof (range_bounds _ _ _ Hr) as (Hlo & Hhi & _).
    unfold w, encode_double, base_of. rewrite Hr.
    assert (lo mod 4096 = 0) by (clear -Hr; destruct m; vm_compute in Hr; (discriminate || by injection Hr as <-)).
    split; [apply (range_decodes _ _ _ _ Hr); lia | by apply fields_of_word].
  - intros m lo dm dr Hr H1 H2 w. pose proof (range_bounds _ _ _ Hr) as (Hlo & Hhi & H64 & _).
    unfold w, encode_single, base_of. rewrite Hr.
    split; [apply (range_decodes _ _ _ _ Hr); lia|].
    pose proof (fields_of_word (4096 * (lo / 4096)) (lo mod 4096 / 512) (lo mod 512 / 64) dm dr) as F.
    replace (_ + 512 * _ + 64 * _) with lo in F by mod_lia.
    apply F; mod_lia.
  - intros m lo o Hr Ho w. pose proof (range_bounds _ _ _ Hr) as (Hlo & Hhi & _).
    unfold w, encode_branch, base_of. rewrite Hr. pose proof (u8_range o).
    assert (lo mod 256 = 0) by (clear -Hr; destruct m; vm_compute in Hr; (discriminate || by injection Hr as <-)).
    split; [apply (range_decodes _ _ _ _ Hr); lia|]. rewrite u8_land. mod_lia.
Qed.

Lemma encode_decode_roundtrip_witness :
  decode (encode_double m_ADD 2 3 4 5) = m_ADD /\ decode (encode_branch m_BNE (-2)) = m_BNE /\
  i8 (Z.land (encode_branch m_BNE (-2)) (oct! 0377)) = -2.
Proof.
  destruct encode_decode_roundtrip as (D & _ & Br). split.
  - apply (D m_ADD 24576 2 3 4 5); [vm_compute; reflexivity | lia..].
  - apply (Br m_BNE 512 (-2)); [vm_compute; reflexivity | lia].
Defined.

(** ** Branches and operand instructions on any bus *)
Section AnyBus.
Context {B : Type} {MB : MasterBus B}.

(** C5: A conditional branch is taken exactly under its condition on the N, Z, V
    and C flags; taken, it adds twice the signed offset to PC modulo [2^16], and
    it changes nothing else but the ALU latch: no bus transaction, no flag. *)
Theorem branch_correct f (s : machine B) :
  branch_condition (decode (ir (cs s))) = Some f ->
  exists a, exec_instruction s = Done tt (Machine (with_alu a (with_reg PC
    (if f (negative (psw (cs s))) (zero (psw (cs s))) (overflow (psw (cs s))) (carry (psw (cs s)))
     then u16 (pc (cs s) + 2 * i8 (Z.land (ir (cs s)) 255)) else pc (cs s)) (cs s))) (bus s)).
Proof. exact (branch_refines _ f s). Qed.

(** C6: Every single-operand handler computes its row of the table: operand
    addressing, operand fetch, the row's function of the operand and the carry,
    the result stored as the row says, then the condition codes. *)
Theorem single_op_correct e (s : machine B) :
  single_table (decode (ir (cs s))) = Some e -> exec_instruction s = exec_single e s.
Proof. intros He. exact (single_op_refines _ e He s). Qed.

(** C7: Every double-operand handler computes its row of the table: source
    addressing before destination addressing, the operands in the row's order,
    the row's function, the result, then the condition codes. *)
Theorem double_op_correct e (s : machine B) :
  double_table (decode (ir (cs s))) = Some e -> exec_instruction s = exec_double e s.
Proof. intros He. exact (double_op_refines _ e He s). Qed.

(** A single-operand instruction on a register, in closed form: the register
    becomes the row's function of its contents and the carry (its low byte,
    zero-extended, for a byte result), N and Z describe the 16-bit ALU latch,
    and no bus transaction takes place. *)
Theorem single_op_register e c (b : B) r :
  cpu_wf c -> single_table (decode (ir c)) = Some e ->
  dest_mode_field (ir c) = 0 -> register_ptr (dest_reg_field (ir c)) = Some r ->
  let x := u16 (so_fn e (Z.land (psw c) CARRYFLAG)
                 (operand (so_width e) (if so_fetches e then get_reg r c else 0))) in
  exists c', exec_instruction (Machine c b) = Done tt (Machine c' b) /\
    get_reg r c' = match so_result e with
                   | Discard => get_reg r c | StoreWord => x | StoreByte => u8 x end /\
    psw c' = nz_psw (so_width e) x (psw c) /\
    (forall q, q <> r -> q <> PSW -> get_reg q c' = get_reg q c).
Proof. exact (single_register_result e c b r). Qed.

(** A double-operand instruction between registers, in closed form. *)
Theorem double_op_register e c (b : B) rs rd :
  cpu_wf c -> double_table (decode (ir c)) = Some e ->
  src_mode_field (ir c) = 0 -> dest_mode_field (ir c) = 0 ->
  register_ptr (src_reg_field (ir c)) = Some rs ->
  register_ptr (dest_reg_field (ir c)) = Some rd ->
  let y := match do_order e with SrcOnly => 0 | _ => get_reg rd c end in
  let x := u16 (do_fn e (operand (do_width e) (get_reg rs c)) (operand (do_width e) y)) in
  exists c', exec_instruction (Machine c b) = Done tt (Machine c' b) /\
    get_reg rd c' = (if do_stores e then operand (do_width e) x else get_reg rd c) /\
    psw c' = nz_psw (do_width e) x (psw c) /\
    (forall q, q <> rd -> q <> PSW -> get_reg q c' = get_reg q c).
Proof. exact (double_register_result e c b rs rd). Qed.
End AnyBus.

(** BNE, taken: from 4 back to 0. *)
Lemma branch_correct_witness :
  exists a, exec_instruction (Machine (cpu_at 4 (oct! 001376)) mem0)
    = Done tt (Machine (with_alu a (with_reg PC 0 (cpu_at 4 (oct! 001376)))) mem0).
Proof. exact (branch_correct (fun n z v c => negb z) (Machine (cpu_at 4 (oct! 001376)) mem0) eq_refl). Defined.

(** COM R0 *)
Lemma single_op_correct_witness :
  exists e, exec_instruction (Machine (cpu_at 2 (oct! 005100)) mem0)
    = exec_single e (Machine (cpu_at 2 (oct! 005100)) mem0).
Proof. eexists. apply single_op_correct. reflexivity. Defined.

(** ADD (R1)+, R0 *)
Lemma double_op_correct_witness :
  exists e, exec_instruction (Machine (cpu_at 2 (oct! 062100)) mem0)
    = exec_double e (Machine (cpu_at 2 (oct! 062100)) mem0).
Proof. eexists. apply double_op_correct. reflexivity. Defined.

(** COM R0 makes 0 into 177777. *)
Lemma single_op_register_witness :
  exists c', exec_instruction (Machine (cpu_at 2 (oct! 005100)) mem0) = Done tt (Machine c' mem0) /\
    get_reg R0 c' = oct! 177777.
Proof.
  destruct (single_op_register (SingleOp false W16 true (fun _ x => 65535 - x) StoreWord)
    (cpu_at 2 (oct! 005100)) mem0 R0) as (c' & H1 & H2 & _);
    [apply cpu_at_wf; lia | reflexivity..|]. exists c'.
  split; [exact H1 | rewrite H2; reflexivity].
Defined.

(** SUB R1, R0 with R1 = 3 and R0 = 10 leaves 3 - 10 in R0. *)
Lemma double_op_register_witness :
  let c := with_reg R1 3 (with_reg R0 10 (cpu_at 2 (oct! 160100))) in
  exists c', exec_instruction (Machine c mem0) = Done tt (Machine c' mem0) /\
    get_reg R0 c' = u16 (3 - 10).
Proof.
  intros c. destruct (double_op_register (DoubleOp W16 SrcThenDest Z.sub true) c mem0 R1 R0)
    as (c' & H1 & H2 & _); [repeat apply with_reg_wf; [lia | lia | apply cpu_at_wf; lia]
    | reflexivity..|]. exists c'. split; [exact H1 | rewrite H2; reflexivity].
Defined.

(** ** Condition codes *)
Section ConditionCodes.
Context {B : Type} {MB : MasterBus B}.

Definition operand_width (m : mnemonic) : option width :=
  match single_table m with
  | Some e => Some (so_width e)
  | None => do_width <$> double_table m
  end.

Lemma set_reg_inv r v (s s' : machine B) :
  set_reg r v s = Done tt s' -> s' = Machine (with_reg r (u16 v) (cs s)) (bus s).
Proof. by intros [= <-]. Qed.

Lemma store_keeps_alu r (s s' : machine B) :
  store_result r s = Done tt s' -> alu (cs s') = alu (cs s).
Proof.
  assert (R : forall a v s1, store_data_register a v s1 = Done tt s' -> alu (cs s') = alu (cs s1)).
  { intros a v s1. unfold store_data_register, mbind, M_bind, the.
    destruct (bus_addr_to_register a); [|done]. intros [= <-]. apply alu_with_reg. }
  assert (O : forall (m : M B unit) s1, on_bus m s1 = Done tt s' -> alu (cs s') = alu (cs s1)).
  { intros m s1. unfold on_bus. destruct (m (bus s1)); [|done..]. by intros [= _ <-]. }
  destruct r; cbn [store_result].
  - by intros [= <-].
  - intros (a & s1 & [= <- <-] & (v & s2 & [= <- <-] & H)%bind_inv)%bind_inv.
    unfold store_data in H. destruct (truth _); eauto.
  - intros (a & s1 & [= <- <-] & (v & s2 & [= <- <-] & H)%bind_inv)%bind_inv.
    unfold store_data_b in H. destruct (truth _); eauto.
Qed.

Lemma flags_describe_alu w (s s' : machine B) :
  is_u16 (alu (cs s)) ->
  (negative_flag_of_alu w;; zero_flag_of_alu) s = Done tt s' ->
  alu (cs s') = alu (cs s) /\ zero (psw (cs s')) = (alu (cs s) =? 0) /\
  negative (psw (cs s')) = Z.testbit (alu (cs s)) (match w with W8 => 7 | W16 => 15 end).
Proof.
  intros Ha. destruct s as [c b]. destruct w;
    unfold negative_flag_of_alu, negative_flag_of_alu_b, negative_flag_of_alu_w,
    zero_flag_of_alu, set_zero_flag, set_negative_flag_b, set_negative_flag_w, upd_reg,
    upd, rd, mbind, M_bind, modify, gets; cbn [cs bus];
    rewrite alu_with_reg, with_reg_twice, get_with_reg, decide_True by done;
    intros [= <-]; cbn [cs bus] in *; cpu_simpl;
    rewrite set_zero_flag_psw_eq, set_negative_flag_psw_eq, ?sign_u8, ?sign_u16, (u16_id (alu c)) by done;
    unfold zero, negative;
    destruct (alu c =? 0), (Z.testbit (alu c) _);
    repeat (rewrite ?u16_testbit, ?Z.setbit_eqb, ?Z.clearbit_eqb by lia);
    cbn; rewrite ?andb_true_r, ?andb_false_r; done.
Qed.

Lemma tail_describes_alu x r w (s s' : machine B) :
  (set_alu x;; store_result r;; negative_flag_of_alu w;; zero_flag_of_alu) s = Done tt s' ->
  alu (cs s') = u16 x /\ zero (psw (cs s')) = (u16 x =? 0) /\
  negative (psw (cs s')) = Z.testbit (u16 x) (match w with W8 => 7 | W16 => 15 end).
Proof.
  intros ([] & s1 & [= <-] & ([] & s2 & H1 & H2)%bind_inv)%bind_inv.
  apply store_keeps_alu in H1. cbn [cs] in H1. rewrite alu_with_alu in H1.
  apply flags_describe_alu in H2; rewrite H1 in *; [done | apply u16_range].
Qed.

(** Every operand instruction ends with the tail above. *)
Lemma operand_instruction_tail m w (s s' : machine B) :
  operand_width m = Some w -> dispatch m s = Done tt s' ->
  exists x, alu (cs s') = u16 x /\ zero (psw (cs s')) = (u16 x =? 0) /\
    negative (psw (cs s')) = Z.testbit (u16 x) (match w with W8 => 7 | W16 => 15 end) /\
    (m = m_COMB -> exists v, x = 65535 - u8 v).
Proof.
  unfold operand_width. destruct (single_table m) as [e|] eqn:E1.
  - intros [= <-]. rewrite (single_op_refines _ _ E1). unfold exec_single.
    intros (? & s1 & _ & (v & s2 & _ & (c & s3 & _ & H)%bind_inv)%bind_inv)%bind_inv.
    apply tail_describes_alu in H as (H1 & H2 & H3). eexists. split_and!; [done..|].
    intros ->. injection E1 as <-. by exists v.
  - destruct (double_table m) as [e|] eqn:E2; [|done]. intros [= <-].
    rewrite (double_op_refines _ _ E2). unfold exec_double.
    intros (? & s1 & _ & (? & s2 & _ & (vw & s3 & _ & H)%bind_inv)%bind_inv)%bind_inv.
    apply tail_describes_alu in H as (H1 & H2 & H3). eexists. split_and!; [done..|].
    by intros ->.
Qed.

(** After any operand instruction that completes, in every addressing mode
    and on every bus, Z says whether the 16-bit ALU latch is zero and N is the
    sign bit of the latch at the instruction's width. *)
Theorem condition_codes w (s s' : machine B) :
  operand_width (decode (ir (cs s))) = Some w -> exec_instruction s = Done tt s' ->
  is_u16 (alu (cs s')) /\ zero (psw (cs s')) = (alu (cs s') =? 0) /\
  negative (psw (cs s')) = Z.testbit (alu (cs s')) (match w with W8 => 7 | W16 => 15 end).
Proof.
  intros Hw H. destruct (operand_instruction_tail _ w s s' Hw H) as (x & -> & ? & ? & _).
  split; [apply u16_range | done].
Qed.

(** COMB never sets Z: it complements the byte in the 16-bit latch, whose
    high byte becomes ones, and the zero test looks at the whole latch - also
    when the stored byte is zero. *)
Theorem comb_never_zero (s s' : machine B) :
  decode (ir (cs s)) = m_COMB -> exec_instruction s = Done tt s' -> zero (psw (cs s')) = false.
Proof.
  intros Hd H. change (exec_instruction s) with (dispatch (decode (ir (cs s))) s) in H.
  rewrite Hd in H. destruct (operand_instruction_tail m_COMB W8 s s' eq_refl H)
    as (x & _ & -> & _ & [v ->]%(fun f => f eq_refl)).
  pose proof (u8_range v). rewrite u16_id by lia. apply Z.eqb_neq. lia.
Qed.
End ConditionCodes.

(** C8: No instruction but MTPS and the subroutine instructions JSR and RTS
    changes any bit of PSW other than N and Z: carry and overflow, which ADC,
    SBC and half of the branches read, are computed by no instruction.  (A
    [dest_address] that is that of PSW is excluded in the state before: no operand
    produces it, but the modes no [case] covers leave the old value in place.) *)
Theorem psw_frame {B} {MB : MasterBus B} (I : B -> Prop) (OK : MasterBusOk B I) i (s s' : machine B) :
  machine_wf I s -> dest_address (cs s) <> psw_address ->
  0 <= i < 16 -> i <> 2 -> i <> 3 -> writes_psw (decode (ir (cs s))) = false ->
  exec_instruction s = Done tt s' -> Z.testbit (psw (cs s')) i = Z.testbit (psw (cs s)) i.
Proof.
  intros Hs Hd Hi H2 H3 Hw H.
  pose proof (frame_dispatch i (Z.testbit (psw (cs s)) i) Hi H2 H3 _ Hw s) as F.
  change (exec_instruction s) with (dispatch (decode (ir (cs s))) s) in H. rewrite H in F.
  by destruct F as (_ & _ & F & _).
Qed.


(** COMB R0 with R0 = 377 stores 0 and leaves N and Z clear. *)
Definition comb_machine : machine mem_dev := Machine (with_reg R0 255 (cpu_at 2 (oct! 105100))) mem0.

Definition comb_result : machine mem_dev := final comb_machine (exec_instruction comb_machine).

Lemma comb_never_zero_witness : zero (psw (cs comb_result)) = false /\ r0 (cs comb_result) = 0.
Proof.
  split; [|vm_compute; reflexivity].
  apply (comb_never_zero comb_machine); [reflexivity | apply done_final; vm_compute; reflexivity].
Defined.

Lemma condition_codes_witness : negative (psw (cs comb_result)) = Z.testbit (alu (cs comb_result)) 7.
Proof.
  apply (condition_codes W8 comb_machine); [reflexivity|].
  apply done_final; vm_compute; reflexivity.
Defined.

Lemma psw_frame_witness : Z.testbit (psw (cs comb_result)) 0 = Z.testbit (psw (cs comb_machine)) 0.
Proof.
  apply (psw_frame mem_wf mem_bus_ok 0 comb_machine).
  - split; [apply with_reg_wf, cpu_at_wf; lia | apply mem0_wf].
  - vm_compute. discriminate.
  - lia.
  - discriminate.
  - discriminate.
  - vm_compute. reflexivity.
  - apply done_final. vm_compute. reflexivity.
Defined.
