(* ===== verification/Programs.v ===== *)
(** * The processor on the memory: properties

    The stack and subroutine instructions, the part of the memory the processor
    reaches, the execution loop's fuel, and a complete program. *)
From S2P Require Import Prelude Bus Cpu Instr Decode CpuFacts CpuSpec CpuRegs Mem CpuMem CpuProps.

Definition run (i : Z) (s : machine mem_dev) : outcome (machine mem_dev) unit :=
  exec_instruction (Machine (with_ir i (cs s)) (bus s)).

Lemma field_register n : 0 <= n <= 5 -> exists r, register_ptr n = Some r /\ r <> SP /\ r <> PC /\ r <> PSW.
Proof.
  intros Hn. assert (n = 0 \/ n = 1 \/ n = 2 \/ n = 3 \/ n = 4 \/ n = 5) as H by lia.
  destruct_or! H; subst; cbn; eexists; split_and!; done.
Qed.

Lemma encode_double_fields m lo sm sr dm dr :
  instruction_range m = Some (lo, 4096) ->
  0 <= sm < 8 -> 0 <= sr < 8 -> 0 <= dm < 8 -> 0 <= dr < 8 ->
  let w := encode_double m sm sr dm dr in
  is_u16 w /\ decode w = m /\ src_mode_field w = sm /\ src_reg_field w = sr /\
  dest_mode_field w = dm /\ dest_reg_field w = dr.
Proof.
  intros Hr H1 H2 H3 H4 w. pose proof (range_bounds _ _ _ Hr) as (Hlo & Hhi & _).
  unfold w, encode_double, base_of. rewrite Hr.
  assert (lo mod 4096 = 0)
    by (clear -Hr; destruct m; vm_compute in Hr; (discriminate || by injection Hr as <-)).
  split; [lia|]. split; [apply (range_decodes _ _ _ _ Hr); lia | by apply fields_of_word].
Qed.

(** ** Push and pop *)
Definition push (n : Z) : Z := encode_double m_MOV 0 n 4 6.
Definition pop (n : Z) : Z := encode_double m_MOV 2 6 0 n.

(** The stack round trip: MOV Rn,-(SP) followed by MOV (SP)+,Rk moves the
    contents of Rn to Rk through the two memory bytes below the old SP, restores
    SP and changes no other register (but PSW) and no other memory byte. *)
Theorem push_pop_roundtrip n k rn rk s :
  machine_wf mem_wf s -> 0 <= n <= 5 -> 0 <= k <= 5 ->
  register_ptr n = Some rn -> register_ptr k = Some rk -> 2 <= sp (cs s) <= 512 ->
  exists s1 s2, run (push n) s = Done tt s1 /\ run (pop k) s1 = Done tt s2 /\
    word_at (bus s1) (sp (cs s) - 2) = Some (get_reg rn (cs s)) /\
    get_reg rk (cs s2) = get_reg rn (cs s) /\ sp (cs s2) = sp (cs s) /\
    (forall q, q <> rk -> q <> PSW -> get_reg q (cs s2) = get_reg q (cs s)) /\
    (forall a, a <> sp (cs s) - 2 -> a <> sp (cs s) - 1 -> store (bus s2) !! a = store (bus s) !! a).
Proof.
  destruct s as [c m]. intros [Hc Hm] Hn Hk Hrn Hrk Hsp. cbn [cs bus] in *.
  destruct (field_register n Hn) as (rn0 & Hrn' & Nn & _). rewrite Hrn in Hrn'; injection Hrn' as <-.
  destruct (field_register k Hk) as (rk0 & Hrk' & Nk & _). rewrite Hrk in Hrk'; injection Hrk' as <-.
  destruct (encode_double_fields m_MOV 4096 0 n 4 6 eq_refl) as (Pw & Pd & P1 & P2 & P3 & P4); [lia..|].
  destruct (encode_double_fields m_MOV 4096 2 6 0 k eq_refl) as (Qw & Qd & Q1 & Q2 & Q3 & Q4); [lia..|].
  fold (push n) in *. fold (pop k) in *.
  destruct (push_register (with_ir (push n) c) m rn) as (c1 & E1 & W1 & S1 & G1);
    [by apply with_ir_wf | exact Hm | rewrite ?ir_with_ir, ?P2; assumption..
    | rewrite sp_with_ir; lia |].
  rewrite sp_with_ir, get_reg_with_ir in *.
  assert (Hv : is_u16 (get_reg rn c)) by auto with words.
  assert (Hm1 : mem_wf (put (sp c - 2) (get_reg rn c) m))
    by (apply put_wf; auto with words; unfold MEMBYTES; lia).
  destruct (pop_register (with_ir (pop k) c1) (put (sp c - 2) (get_reg rn c) m) rk (get_reg rn c))
    as (c2 & E2 & W2 & S2 & V2 & G2);
    [by apply with_ir_wf | exact Hm1 | rewrite ?ir_with_ir, ?Q4; assumption..
    | rewrite sp_with_ir, S1; lia | rewrite sp_with_ir, S1; by apply word_at_put |].
  rewrite sp_with_ir, S1 in S2.
  eexists _, _. unfold run. cbn [cs bus]. split; [exact E1|]. split; [exact E2|]. cbn [cs bus].
  split_and!; [by apply word_at_put | done | lia | |].
  - intros q H1 H2. destruct (decide (q = SP)) as [->|].
    + cbn. lia.
    + rewrite G2, get_reg_with_ir, G1, get_reg_with_ir by done. done.
  - intros a H1 H2. apply store_put_other; lia.
Qed.

(** ** Subroutine calls *)

(** The destinations considered: [(Rn)] with R0 to R5, [#x] with the word at the
    PC - the form of the sample programs, whose subroutine starts at that word -
    and a relative address. *)
Inductive subroutine := Deferred (n : Z) (r : reg) | Immediate | Relative (x : Z).

Definition subroutine_ok (d : subroutine) (s : machine mem_dev) : Prop :=
  match d with
  | Deferred n r => 0 <= n <= 5 /\ register_ptr n = Some r
  | Immediate => True
  | Relative x => 0 <= pc (cs s) < 510 /\ word_at (bus s) (pc (cs s)) = Some x
  end.

Definition target (d : subroutine) (c : cpu) : Z :=
  match d with
  | Deferred _ r => get_reg r c
  | Immediate => pc c
  | Relative x => u16 (pc c + 2 + x)
  end.

(** The address behind the call, the PC being behind the instruction word. *)
Definition behind (d : subroutine) (c : cpu) : Z :=
  match d with
  | Deferred _ _ => pc c
  | _ => u16 (pc c + 2)
  end.

Definition dest_bits (d : subroutine) : Z :=
  match d with Deferred n _ => 8 * 1 + n | Immediate => 8 * 2 + 7 | Relative _ => 8 * 6 + 7 end.

Definition jsr (k : Z) (d : subroutine) : Z := base_of m_JSR + 64 * k + dest_bits d.
Definition rts (k : Z) : Z := base_of m_RTS + k.

Lemma jsr_fields k d s :
  0 <= k <= 7 -> subroutine_ok d s ->
  is_u16 (jsr k d) /\ decode (jsr k d) = m_JSR /\ src_reg_field (jsr k d) = k /\
  dest_mode_field (jsr k d) = (match d with Deferred _ _ => 1 | Immediate => 2 | Relative _ => 6 end) /\
  dest_reg_field (jsr k d) = (match d with Deferred n _ => n | _ => 7 end).
Proof.
  intros Hk Hd. unfold jsr. change (base_of m_JSR) with 2048.
  assert (exists mo n, dest_bits d = 8 * mo + n /\ 0 <= mo < 8 /\ 0 <= n < 8 /\
    mo = (match d with Deferred _ _ => 1 | Immediate => 2 | Relative _ => 6 end) /\
    n = (match d with Deferred n _ => n | _ => 7 end)) as (mo & n & -> & Hmo & Hn & <- & <-).
  { destruct d as [n r| |x]; eexists _, _; split_and!; try reflexivity; try lia; destruct Hd; lia. }
  split; [lia|]. split; [apply (range_decodes m_JSR 2048 512); [reflexivity | lia | lia]|].
  destruct (fields_of_word 0 4 k mo n) as (_ & F); [lia | done | lia.. |].
  replace (2048 + 64 * k + (8 * mo + n)) with (4096 * 0 + 512 * 4 + 64 * k + 8 * mo + n) by lia. exact F.
Qed.

Lemma rts_fields k :
  0 <= k <= 7 -> is_u16 (rts k) /\ decode (rts k) = m_RTS /\ dest_reg_field (rts k) = k.
Proof.
  intros Hk. unfold rts. change (base_of m_RTS) with 128.
  split; [lia|]. split; [apply (range_decodes m_RTS 128 64); [reflexivity | lia | lia]|].
  destruct (fields_of_word 0 0 2 0 k) as (_ & _ & _ & F); [lia | done | lia.. |]. exact F.
Qed.

(** The link register: any but SP. *)
Definition link_register (k : Z) (r : reg) : Prop := register_ptr k = Some r /\ 0 <= k <= 7 /\ k <> 6.

Lemma link_register_not k r : link_register k r -> r <> SP /\ r <> PSW.
Proof.
  intros (H & Hk & H6). assert (k = 0 \/ k = 1 \/ k = 2 \/ k = 3 \/ k = 4 \/ k = 5 \/ k = 7) as E by lia.
  destruct_or! E; subst; injection H as <-; done.
Qed.

(** The set-up of the destination. *)
Lemma jsr_set_up k d c m :
  cpu_wf c -> mem_wf m -> 0 <= k <= 7 -> subroutine_ok d (Machine c m) ->
  exists c1, setup_dest_addressing false (Machine (with_ir (jsr k d) c) m) = Done tt (Machine c1 m) /\
    cpu_wf c1 /\ u16 (dest_address c1) = target d c /\ pc c1 = behind d c /\
    (forall q, q <> PC -> get_reg q c1 = get_reg q c).
Proof.
  intros Hc Hm Hk Hd. destruct (jsr_fields k d _ Hk Hd) as (Jw & _ & _ & J2 & J3).
  set (c0 := with_ir (jsr k d) c). assert (W0 : cpu_wf c0) by by apply with_ir_wf.
  rewrite <- (ir_with_ir (jsr k d) c) in J2, J3. fold c0 in J2, J3.
  assert (G0 : forall q, get_reg q c0 = get_reg q c) by (intros q; apply get_reg_with_ir).
  assert (P0 : pc c0 = pc c) by apply (G0 PC). pose proof (cpu_wf_reg c PC Hc) as Vp. cbn in Vp.
  destruct d as [n r| |x]; cbn [target behind subroutine_ok cs bus] in *.
  - destruct Hd as (Hn & Hr). pose proof (cpu_wf_reg c r Hc) as Vn.
    eexists. split; [apply (setup_deferred c0 m r W0 J2); rewrite J3; [done | lia]|].
    split_and!; [apply with_loc_wf; [rewrite G0; lia | done] | | |].
    + cpu_simpl. rewrite G0. by apply u16_id.
    + by cpu_simpl.
    + intros q _. cpu_simpl. apply G0.
  - eexists. split; [by apply setup_immediate|].
    split_and!; [apply with_reg_wf, with_loc_wf; [apply u16_range | lia | done] | | |].
    + cpu_simpl. rewrite P0. by apply u16_id.
    + cpu_simpl. by rewrite P0.
    + intros q Hq. cpu_simpl. apply G0.
  - destruct Hd as (Hp & Hx). destruct (word_at_in _ _ _ Hm Hx) as (_ & _ & Hx16 & _).
    eexists. split; [apply (setup_pc_relative c0 m x); rewrite ?P0; done|]. rewrite P0.
    split_and!; [apply with_loc_wf, with_reg_wf; [lia | lia | done] | | |].
    + by cpu_simpl.
    + cpu_simpl. by rewrite u16_id by lia.
    + intros q Hq. cpu_simpl. apply G0.
Qed.

Lemma run_jsr k d c m :
  0 <= k <= 7 -> subroutine_ok d (Machine c m) ->
  run (jsr k d) (Machine c m) = dispatch m_JSR (Machine (with_ir (jsr k d) c) m) /\
  src_reg_field (ir (with_ir (jsr k d) c)) = k.
Proof.
  intros Hk Hd. destruct (jsr_fields k d _ Hk Hd) as (_ & Jd & J1 & _).
  rewrite ir_with_ir. split; [|done]. unfold run, exec_instruction. cbn [cs bus]. steps. by rewrite ir_with_ir, Jd.
Qed.

Lemma jsr_run k d rk c m :
  cpu_wf c -> mem_wf m -> link_register k rk -> subroutine_ok d (Machine c m) -> 9 <= sp c < 512 ->
  exists c' w, run (jsr k d) (Machine c m) = Done tt (Machine c' (put (sp c) w m)) /\
    cpu_wf c' /\ sp c' = sp c /\ pc c' = target d c /\
    w = (if decide (rk = PC) then behind d c else get_reg rk c) /\ is_u16 w /\
    (rk <> PC -> get_reg rk c' = behind d c) /\
    (forall q, q <> PC -> q <> rk -> get_reg q c' = get_reg q c).
Proof.
  intros Hc Hm Hrk Hd Hsp. pose proof (link_register_not _ _ Hrk) as (N1 & N2). destruct Hrk as (Hrk & Hk & _).
  destruct (jsr_set_up k d c m Hc Hm Hk Hd) as (c1 & Es & W1 & D1 & P1 & G1).
  destruct (run_jsr k d c m Hk Hd) as (Er & Ek).
  assert (S1 : sp c1 = sp c) by by apply (G1 SP).
  pose proof (jsr_on_memory _ m c1 m rk Es Hm W1) as J. rewrite Ek, S1, D1, P1 in J. specialize (J Hrk Hsp).
  pose proof (cpu_wf_reg c1 rk W1) as V. pose proof (cpu_wf_reg c1 PC W1) as Vb. cbn in Vb. rewrite P1 in Vb.
  assert (Vt : is_u16 (target d c)) by (rewrite <- D1; apply u16_range).
  eexists _, _. rewrite Er. split; [exact J|]. split_and!.
  - by repeat apply with_reg_wf.
  - by cpu_simpl.
  - by cpu_simpl.
  - case_decide as E; [subst; exact P1 | by apply G1].
  - lia.
  - lia.
  - intros Hne. by cpu_simpl.
  - intros q H1 H2. cpu_simpl. by apply G1.
Qed.

Lemma rts_run k rk c m w :
  cpu_wf c -> mem_wf m -> link_register k rk -> 9 <= sp c < 512 -> word_at m (sp c) = Some w ->
  exists c', run (rts k) (Machine c m) = Done tt (Machine c' m) /\
    cpu_wf c' /\ sp c' = sp c /\ pc c' = (if decide (rk = PC) then w else get_reg rk c) /\ get_reg rk c' = w /\
    (forall q, q <> PC -> q <> rk -> get_reg q c' = get_reg q c).
Proof.
  intros Hc Hm Hrk Hsp Hw. pose proof (link_register_not _ _ Hrk) as (N1 & N2). destruct Hrk as (Hrk & Hk & _).
  destruct (rts_fields k Hk) as (Rw & Rd & R1).
  set (c0 := with_ir (rts k) c).
  assert (W0 : cpu_wf c0) by by apply with_ir_wf.
  assert (I0 : ir c0 = rts k) by apply ir_with_ir.
  pose proof (rts_on_memory c0 m rk w Hm W0) as R. rewrite I0, R1 in R.
  replace (sp c0) with (sp c) in R by (unfold c0; by cpu_simpl).
  specialize (R Hrk N1 Hsp Hw).
  destruct (word_at_in _ _ _ Hm Hw) as (_ & _ & Hw16 & _).
  assert (G : forall q, get_reg q c0 = get_reg q c) by (intros q; unfold c0; by cpu_simpl).
  exists (with_reg rk w (with_reg PC (get_reg rk c0) c0)).
  split; [|split_and!].
  - unfold run, exec_instruction. cbn [cs bus]. fold c0. steps. by rewrite I0, Rd.
  - apply with_reg_wf, with_reg_wf; auto with words.
  - cpu_simpl. apply (G SP).
  - case_decide as E; [subst; by cpu_simpl|]. cpu_simpl. apply G.
  - by cpu_simpl.
  - intros q H1 H2. cpu_simpl. apply G.
Qed.

(** C9: JSR Rk then RTS Rk, with Rk one of R0 to R5 or the PC, and a destination
    [(Rn)] with R0 to R5, [#x], or a relative address with the PC below 510.  With SP
    in 9 to 511 the call goes to its target, with the return address in Rk unless
    that is the PC, and the return goes back to it and restores every other
    register.  SP keeps its value throughout (the step of SP is given the contents of
    SP as a register number), so the old Rk - for the PC the return address - is
    stored over the word on top of the caller's stack.  With SP in 0 to 8, 0 being
    its value at reset, the call still goes to its target, but the step takes two
    from the register of that number, unless that is the PC or Rk, which the call
    sets.  From 512 on call and return wait for ever. *)
Theorem jsr_rts_roundtrip k d rk s :
  machine_wf mem_wf s -> link_register k rk -> subroutine_ok d s ->
  (9 <= sp (cs s) < 512 ->
    exists s1 s2, run (jsr k d) s = Done tt s1 /\ run (rts k) s1 = Done tt s2 /\
      pc (cs s1) = target d (cs s) /\ (rk <> PC -> get_reg rk (cs s1) = behind d (cs s)) /\
      sp (cs s1) = sp (cs s) /\ (forall q, q <> PC -> q <> rk -> get_reg q (cs s1) = get_reg q (cs s)) /\
      word_at (bus s1) (sp (cs s)) = Some (if decide (rk = PC) then behind d (cs s) else get_reg rk (cs s)) /\
      pc (cs s2) = behind d (cs s) /\ (forall q, q <> PC -> get_reg q (cs s2) = get_reg q (cs s))) /\
  (forall q, register_ptr (sp (cs s)) = Some q ->
    exists s1, run (jsr k d) s = Done tt s1 /\ pc (cs s1) = target d (cs s) /\
      (q <> PC -> q <> rk -> get_reg q (cs s1) = u16 (get_reg q (cs s) - 2))) /\
  (512 <= sp (cs s) -> run (jsr k d) s = Blocked /\ run (rts k) s = Blocked).
Proof.
  destruct s as [c m]. intros [Hc Hm] Hrk Hd. cbn [cs bus] in *. split_and!.
  - intros Hsp. destruct (jsr_run k d rk c m Hc Hm Hrk Hd Hsp) as (c1 & w & E1 & W1 & S1 & P1 & Ew & Vw & K1 & G1).
    assert (Hm1 : mem_wf (put (sp c) w m)) by (apply put_wf; auto; unfold MEMBYTES; lia).
    destruct (rts_run k rk c1 (put (sp c) w m) w) as (c2 & E2 & W2 & S2 & P2 & K2 & G2);
      [assumption.. | by rewrite S1 | rewrite S1; by apply word_at_put |].
    exists (Machine c1 (put (sp c) w m)), (Machine c2 (put (sp c) w m)).
    cbn [cs bus]. rewrite <- Ew. split_and!; [done.. | by apply word_at_put | |].
    + rewrite P2, Ew. case_decide; auto.
    + intros q Hq. destruct (decide (q = rk)) as [->|]; [|by rewrite G2, G1].
      rewrite K2, Ew. by rewrite decide_False.
  - intros q Hq. pose proof (link_register_not _ _ Hrk) as (N1 & N2). destruct Hrk as (Hrk & Hk & _).
    destruct (jsr_set_up k d c m Hc Hm Hk Hd) as (c1 & Es & W1 & D1 & P1 & G1).
    destruct (run_jsr k d c m Hk Hd) as (Er & Ek).
    pose proof (jsr_on_registers _ m c1 m rk q Es Hm W1) as J. rewrite Ek in J.
    assert (S1 : sp c1 = sp c) by by apply (G1 SP). rewrite S1 in J.
    eexists. rewrite Er. split; [exact (J Hrk Hq)|]. cbn [cs]. split.
    + by cpu_simpl.
    + intros Q1 Q2. cpu_simpl. by rewrite G1.
  - intros Hsp. pose proof (link_register_not _ _ Hrk) as (N1 & N2). destruct Hrk as (Hrk & Hk & _). split.
    + destruct (jsr_set_up k d c m Hc Hm Hk Hd) as (c1 & Es & W1 & D1 & P1 & G1).
      destruct (run_jsr k d c m Hk Hd) as (-> & Ek).
      apply (jsr_beyond _ m c1 m rk Es W1); [by rewrite Ek | change (512 <= get_reg SP c1); by rewrite G1].
    + destruct (rts_fields k Hk) as (Rw & Rd & R1). unfold run, exec_instruction. cbn [cs bus]. steps.
      rewrite ir_with_ir, Rd. apply (rts_beyond _ m rk); [by apply with_ir_wf | by rewrite ir_with_ir, R1 | by cpu_simpl].
Qed.

(** Nested calls lose the link: a second JSR through the same register
    overwrites the saved link of the first, so after both returns the register
    holds the first return address, whatever it held before the calls. *)
Theorem nested_jsr_loses_link k n rk rn s :
  machine_wf mem_wf s -> link_register k rk -> rk <> PC -> 0 <= n <= 5 -> register_ptr n = Some rn ->
  9 <= sp (cs s) < 512 ->
  exists s1 s2 s3 s4, run (jsr k (Deferred n rn)) s = Done tt s1 /\ run (jsr k (Deferred n rn)) s1 = Done tt s2 /\
    run (rts k) s2 = Done tt s3 /\ run (rts k) s3 = Done tt s4 /\
    pc (cs s3) = pc (cs s1) /\ pc (cs s4) = pc (cs s) /\ get_reg rk (cs s4) = pc (cs s).
Proof.
  destruct s as [c m]. intros [Hc Hm] Hrk Hp Hn Hrn Hsp. cbn [cs bus] in *.
  destruct (jsr_run k (Deferred n rn) rk c m) as (c1 & w1 & E1 & W1 & S1 & P1 & Ew1 & V1 & K1 & G1); [done..|].
  set (m1 := put (sp c) w1 m) in *.
  assert (Hm1 : mem_wf m1) by (apply put_wf; auto; unfold MEMBYTES; lia).
  destruct (jsr_run k (Deferred n rn) rk c1 m1) as (c2 & w2 & E2 & W2 & S2 & P2 & Ew2 & V2 & K2 & G2);
    [done..| by rewrite S1|].
  rewrite S1 in E2. set (m2 := put (sp c) w2 m1) in *.
  assert (Hm2 : mem_wf m2) by (apply put_wf; auto; unfold MEMBYTES; lia).
  assert (Hw : word_at m2 (sp c) = Some w2) by by apply word_at_put.
  assert (S12 : sp c2 = sp c) by congruence.
  destruct (rts_run k rk c2 m2 w2) as (c3 & E3 & W3 & S3 & P3 & K3 & G3);
    [assumption.. | by rewrite S12 | by rewrite S12 |].
  assert (S13 : sp c3 = sp c) by congruence.
  destruct (rts_run k rk c3 m2 w2) as (c4 & E4 & W4 & S4 & P4 & K4 & G4);
    [assumption.. | by rewrite S13 | by rewrite S13 |].
  rewrite decide_False in P3, P4, Ew2 by done. cbn [behind] in *.
  exists (Machine c1 m1), (Machine c2 m2), (Machine c3 m2), (Machine c4 m2). cbn [cs].
  specialize (K1 Hp). specialize (K2 Hp). split_and!; done || congruence.
Qed.

(** ** The memory the processor reaches *)

(** Only the first 512 bytes of the memory are reachable: every fetch or
    store at 512..65535, and at every address of a displacement that passes
    65535, waits for ever, so a program counter of 512 or more stops the
    processor at its next instruction. *)
Theorem beyond_512_blocks s :
  (forall a, 512 <= a < 262080 ->
     fetch_data a s = Blocked /\ (forall v, store_data a v s = Blocked)) /\
  (512 <= pc (cs s) < 65536 -> execute_once (B := mem_dev) s = Blocked).
Proof.
  destruct s as [c m]. split.
  - intros a Ha. split; [by apply fetch_beyond | intros v; by apply store_beyond].
  - cbn [cs]. intros Hp. unfold execute_once. steps.
    by rewrite (bind_blocked _ _ _ (fetch_beyond c m (pc c) ltac:(lia))).
Qed.

Lemma beyond_512_blocks_witness :
  execute_once (B := mem_dev) (Machine (cpu_at 512 0) mem0) = Blocked.
Proof. apply (beyond_512_blocks (Machine (cpu_at 512 0) mem0)). vm_compute. split; congruence. Defined.

(** Destination X(PC): the relative mode. *)
Lemma setup_relative k c m w :
  dest_mode_field (ir c) = 6 -> dest_reg_field (ir c) = 7 -> mem_wf m -> 0 <= pc c < 510 ->
  word_at m (pc c) = Some w ->
  setup_dest_addressing k (Machine c m)
  = Done tt (Machine (with_loc DestAddress (pc c + 2 + w) (with_reg PC (pc c + 2) c)) m).
Proof.
  intros Hm Hr Hwf Hp Hw. unfold setup_dest_addressing. steps. rewrite Hm, Hr.
  unfold setup_addressing, setup_pc_addressing. cbn [switch Z.eqb Pos.eqb].
  destruct (word_at_in _ _ _ Hwf Hw) as (_ & _ & Hw16 & _).
  assert (F : fetch_pc_word (Machine c m) = Done w (Machine (with_reg PC (pc c + 2) c) m)).
  { unfold fetch_pc_word. steps.
    rewrite (bind_done _ _ _ _ _ (fetch_low c m (pc c) w Hwf ltac:(lia) Hw)). steps.
    cbn [get_reg]. by rewrite u16_id by lia. }
  step F. steps. rewrite set_loc_run. cpu_simpl. by rewrite u32_id by lia.
Qed.

(** A relative operand with a negative displacement is never reached: the
    effective address is a 32-bit sum that does not wrap at [2^16], so TST of a
    location before the instruction waits for ever. *)
Theorem negative_displacement_blocks c m w :
  machine_wf mem_wf (Machine c m) -> 0 <= pc c < 510 ->
  decode (ir c) = m_TST -> dest_mode_field (ir c) = 6 -> dest_reg_field (ir c) = 7 ->
  word_at m (pc c) = Some w -> 65536 - (pc c + 2) <= w ->
  exec_instruction (Machine c m) = Blocked.
Proof.
  intros [Hc Hm] Hp Hd Hdm Hdr Hw Hneg. cbn [cs bus] in *.
  destruct (word_at_in _ _ _ Hm Hw) as (_ & _ & Hw16 & _).
  unfold exec_instruction. steps. rewrite Hd. cbn [dispatch]. unfold TST.
  step (setup_relative false c m w Hdm Hdr Hm Hp Hw).
  rewrite bind_blocked; [done|]. unfold fetch_dest. steps. cpu_simpl.
  apply fetch_beyond. lia.
Qed.

(** JMP (Rn) does not go to the address in Rn but to the word stored there:
    the handler fetches its operand as if it were data. *)
Theorem jmp_goes_to_contents c m r w :
  machine_wf mem_wf (Machine c m) -> decode (ir c) = m_JMP ->
  dest_mode_field (ir c) = 1 -> dest_reg_field (ir c) <= 5 ->
  register_ptr (dest_reg_field (ir c)) = Some r ->
  0 <= get_reg r c < 512 -> word_at m (get_reg r c) = Some w ->
  exists c', exec_instruction (Machine c m) = Done tt (Machine c' m) /\ pc c' = w /\
    (forall q, q <> PC -> get_reg q c' = get_reg q c).
Proof.
  intros [Hc Hm] Hd Hdm Hn Hr Ha Hw. cbn [cs bus] in *.
  destruct (word_at_in _ _ _ Hm Hw) as (_ & _ & Hw16 & _).
  unfold exec_instruction. steps. rewrite Hd. cbn [dispatch]. unfold JMP.
  step (setup_deferred c m r Hc Hdm Hr Hn).
  rewrite (bind_done _ _ _ _ _ (fetch_dest_low (with_loc DestAddress (get_reg r c) c) m
    (get_reg r c) w Hm Ha ltac:(by cpu_simpl) Hw)).
  rewrite set_reg_done, u16_id by done. eexists. split; [reflexivity|].
  split; [by cpu_simpl | intros q Hq; by cpu_simpl].
Qed.

(** ** The execution loop's fuel *)

(** The result of the execution loop does not depend on the fuel once it is
    enough: a run that has halted is the same run with any larger bound. *)
Theorem execute_fuel_monotone {B} {MB : MasterBus B} fuel fuel' (s s' : machine B) :
  (fuel <= fuel')%nat -> execute fuel s = Done (Some tt) s' -> execute fuel' s = Done (Some tt) s'.
Proof.
  revert fuel' s. induction fuel as [|fuel IH]; intros fuel' s Hle H.
  - destruct fuel'; [done|]. cbn [execute] in *. unfold mbind, M_bind, rd, gets in *.
    destruct (truth (halted (cs s))); [done|]. done.
  - destruct fuel' as [|fuel']; [lia|]. cbn [execute] in *.
    unfold mbind, M_bind, rd, gets in *. destruct (truth (halted (cs s))); [done|].
    destruct (execute_once s) as [[] s1| |]; [|done..]. apply IH; [lia | done].
Qed.

(** ** A complete program *)

(** One iteration of the loop on the memory. *)
Lemma execute_once_on_memory c m w :
  mem_wf m -> 0 <= pc c < 512 -> word_at m (pc c) = Some w ->
  execute_once (Machine c m)
  = dispatch (decode w) (Machine (with_reg PC (pc c + 2) (with_ir w c)) m).
Proof.
  intros Hm Hp Hw. unfold execute_once. steps.
  rewrite (bind_done _ _ _ _ _ (fetch_low c m (pc c) w Hm Hp Hw)).
  rewrite (bind_done (upd (with_ir w)) _ (Machine c m) tt (Machine (with_ir w c) m) eq_refl). steps.
  cbn [get_reg]. rewrite pc_with_ir, u16_id by lia. unfold exec_instruction. steps.
  by cpu_simpl.
Qed.

Lemma execute_step {B} {MB : MasterBus B} fuel c b (s : machine B) :
  halted c = 0 -> execute_once (Machine c b) = Done tt s ->
  execute (S fuel) (Machine c b) = execute fuel s.
Proof.
  intros Hh H. cbn [execute]. unfold mbind, M_bind, rd, gets. cbn [cs]. rewrite Hh. change (truth 0) with false.
  cbv beta iota. by rewrite H.
Qed.

Lemma execute_halted {B} {MB : MasterBus B} fuel c (b : B) :
  truth (halted c) = true -> execute fuel (Machine c b) = Done (Some tt) (Machine c b).
Proof.
  intros Hh. destruct fuel; cbn [execute]; unfold mbind, M_bind, rd, gets; cbn [cs]; by rewrite Hh.
Qed.

(** [0: DEC R0; 2: BNE 0; 4: HALT] *)
Definition countdown_at (m : mem_dev) : Prop :=
  word_at m 0 = Some (oct! 005300) /\ word_at m 2 = Some (oct! 001376) /\ word_at m 4 = Some 0.

Definition counting (n : Z) (c : cpu) : Prop :=
  cpu_wf c /\ halted c = 0 /\ r0 c = n.

Lemma countdown_dec c m n :
  mem_wf m -> countdown_at m -> counting n c -> pc c = 0 -> 1 <= n < 65536 ->
  exists c', execute_once (Machine c m) = Done tt (Machine c' m) /\ counting (n - 1) c' /\
    pc c' = 2 /\ zero (psw c') = (n - 1 =? 0).
Proof.
  intros Hm (H0 & _) (Hc & Hh & Hn) Hp Hr.
  rewrite (execute_once_on_memory c m (oct! 005300)); [| done | lia | by rewrite Hp].
  change (decode 2752) with m_DEC. rewrite (single_op_refines m_DEC _ eq_refl).
  set (c1 := with_reg PC _ _).
  assert (W1 : cpu_wf c1) by (apply with_reg_wf, with_ir_wf; [lia | lia | done]).
  assert (I1 : ir c1 = 2752) by (unfold c1; by cpu_simpl).
  rewrite (exec_single_register _ c1 m R0); rewrite ?I1; [| done..].
  assert (G : get_reg R0 c1 = n) by (unfold c1; by cpu_simpl).
  rewrite G. cbn [so_fn so_fetches so_width operand so_result].
  rewrite !(u16_id n), !(u16_id (n - 1)) by lia. eexists. split; [reflexivity|].
  change (register_to_bus_addr (dest_reg_field 2752)) with 262080. split; [split_and!|split].
  - apply with_reg_wf, with_reg_wf; [apply nz_psw_u16 | lia |].
    + cpu_simpl. by apply (cpu_wf_reg c1 PSW).
    + apply with_alu_wf, with_loc_wf; [lia | lia | done].
  - unfold put_result, c1. by cpu_simpl.
  - unfold put_result.
    change (get_reg R0 (put_result W16 StoreWord R0 (n - 1)
      (with_alu (n - 1) (with_loc DestAddress 262080 c1))) = n - 1).
    unfold put_result. by cpu_simpl.
  - unfold put_result, c1. cpu_simpl. lia.
  - unfold put_result. cpu_simpl. unfold zero, nz_psw. rewrite set_zero_flag_psw_eq.
    destruct (n - 1 =? 0); [by rewrite Z.setbit_eqb | by rewrite Z.clearbit_eqb, andb_false_r].
Qed.

Lemma countdown_bne c m n :
  mem_wf m -> countdown_at m -> counting n c -> pc c = 2 ->
  exists c', execute_once (Machine c m) = Done tt (Machine c' m) /\ counting n c' /\
    pc c' = if zero (psw c) then 4 else 0.
Proof.
  intros Hm (_ & H2 & _) (Hc & Hh & Hn) Hp.
  rewrite (execute_once_on_memory c m (oct! 001376)); [| done | lia | by rewrite Hp].
  set (c1 := with_reg PC _ _).
  assert (W1 : cpu_wf c1) by (apply with_reg_wf, with_ir_wf; [lia | lia | done]).
  destruct (branch_refines m_BNE (fun n z v c => negb z) (Machine c1 m) eq_refl) as [a E].
  change (decode 766) with m_BNE. pose proof (keeps_dispatch m_BNE (Machine c1 m) (conj W1 Hm)) as K.
  rewrite E in K |- *. cbn [cs bus] in *. destruct K as [_ [K _]]. eexists. split; [reflexivity|].
  split; [split_and!|].
  - exact K.
  - unfold c1. by cpu_simpl.
  - change (get_reg R0 (with_alu a (with_reg PC (if branch_taken (fun _ z _ _ => negb z) c1
      then branch_target c1 else pc c1) c1)) = n). unfold c1. by cpu_simpl.
  - cpu_simpl. unfold branch_taken, branch_target, c1. cpu_simpl. rewrite Hp.
    by destruct (zero (psw c)).
Qed.

Lemma countdown_halt c m n :
  mem_wf m -> countdown_at m -> counting n c -> pc c = 4 ->
  exists c', execute_once (Machine c m) = Done tt (Machine c' m) /\ halted c' = 1 /\
    r0 c' = n /\ pc c' = 6.
Proof.
  intros Hm (_ & _ & H4) (Hc & Hh & Hn) Hp.
  rewrite (execute_once_on_memory c m 0); [| done | lia | by rewrite Hp].
  eexists. split; [reflexivity|]. destruct c; cbn in *. subst. done.
Qed.

Lemma countdown_loop n : forall c m k,
  mem_wf m -> countdown_at m -> counting (Z.of_nat (S n)) c -> pc c = 0 -> Z.of_nat (S n) < 65536 ->
  exists c', execute (2 * S n + 1 + k) (Machine c m) = Done (Some tt) (Machine c' m) /\
    halted c' = 1 /\ r0 c' = 0 /\ pc c' = 6.
Proof.
  induction n as [|n IH]; intros c m k Hm Hprog Hcnt Hp Hr;
    destruct (countdown_dec c m _ Hm Hprog Hcnt Hp ltac:(lia)) as (c1 & E1 & C1 & P1 & Z1);
    destruct (countdown_bne c1 m _ Hm Hprog C1 P1) as (c2 & E2 & C2 & P2);
    pose proof Hcnt as (_ & Hh & _); pose proof C1 as (_ & Hh1 & _).
  - replace (2 * 1 + 1 + k)%nat with (S (S (S k))) by lia.
    rewrite (execute_step _ _ _ _ Hh E1), (execute_step _ _ _ _ Hh1 E2).
    rewrite Z1 in P2. cbn in P2.
    destruct (countdown_halt c2 m _ Hm Hprog C2 P2) as (c3 & E3 & H3 & R3 & P3).
    pose proof C2 as (_ & Hh2 & _). rewrite (execute_step _ _ _ _ Hh2 E3).
    exists c3. rewrite execute_halted by by rewrite H3. split_and!; done.
  - replace (2 * S (S n) + 1 + k)%nat with (S (S (2 * S n + 1 + k))) by lia.
    rewrite (execute_step _ _ _ _ Hh E1), (execute_step _ _ _ _ Hh1 E2).
    rewrite Z1 in P2. replace (Z.of_nat (S (S n)) - 1) with (Z.of_nat (S n)) in * by lia.
    destruct (Z.eqb_spec (Z.of_nat (S n)) 0); [lia|]. apply IH; done || lia.
Qed.

(** A complete program runs to its end: the loop DEC R0; BNE, from any
    count [n] of 1..65535 in R0, halts after [2n + 1] instructions with R0 zero,
    PC behind the HALT and the memory unchanged. *)
Theorem countdown_halts n c m k :
  mem_wf m -> cpu_wf c -> halted c = 0 -> pc c = 0 -> r0 c = n -> 1 <= n < 65536 ->
  word_at m 0 = Some (oct! 005300) -> word_at m 2 = Some (oct! 001376) -> word_at m 4 = Some 0 ->
  exists c', execute (Z.to_nat (2 * n + 1) + k) (Machine c m) = Done (Some tt) (Machine c' m) /\
    halted c' = 1 /\ r0 c' = 0 /\ pc c' = 6.
Proof.
  intros Hm Hc Hh Hp Hn Hr H0 H2 H4.
  destruct (countdown_loop (Z.to_nat (n - 1)) c m k) as (c' & E & H); try done; try lia.
  - split_and!; [done | done | lia].
  - exists c'. split; [|done]. rewrite <- E. f_equal. lia.
Qed.

(** ** Witnesses *)
Definition stack_machine : machine mem_dev :=
  Machine (with_reg SP 100 (with_reg R1 40 (with_reg R0 7 (cpu_at 20 0)))) mem0.

Lemma stack_machine_wf : machine_wf mem_wf stack_machine.
Proof.
  split; [|apply mem0_wf].
  apply with_reg_wf; [lia|]. apply with_reg_wf; [lia|]. apply with_reg_wf; [lia|].
  apply cpu_at_wf; lia.
Qed.

Lemma push_pop_roundtrip_witness :
  exists s1 s2, run (push 0) stack_machine = Done tt s1 /\ run (pop 3) s1 = Done tt s2 /\
    get_reg R3 (cs s2) = 7.
Proof.
  destruct (push_pop_roundtrip 0 3 R0 R3 stack_machine) as (s1 & s2 & H1 & H2 & _ & H3 & _);
    [apply stack_machine_wf | lia | lia | reflexivity | reflexivity
    | cbn [cs stack_machine]; cbn; lia |].
  exists s1, s2. split; [exact H1|]. split; [exact H2|]. rewrite H3. reflexivity.
Defined.

Lemma stack_machine_sp v : is_u16 v -> machine_wf mem_wf (Machine (with_reg SP v (cs stack_machine)) mem0).
Proof. intros Hv. split; [|apply mem0_wf]. apply with_reg_wf; [done | apply stack_machine_wf]. Qed.

(** JSR PC,#x with the stack at 100, at 0, where R0 holds 7, and beyond the memory. *)
Lemma jsr_rts_roundtrip_witness :
  (exists s1 s2, run (jsr 7 Immediate) stack_machine = Done tt s1 /\ run (rts 7) s1 = Done tt s2 /\
    pc (cs s1) = 20 /\ pc (cs s2) = 22 /\ word_at (bus s1) 100 = Some 22) /\
  (exists s1, run (jsr 7 Immediate) (Machine (with_reg SP 0 (cs stack_machine)) mem0) = Done tt s1 /\ r0 (cs s1) = 5) /\
  run (jsr 5 (Deferred 1 R1)) (Machine (with_reg SP 600 (cs stack_machine)) mem0) = Blocked.
Proof.
  split_and!.
  - destruct (jsr_rts_roundtrip 7 Immediate PC stack_machine) as (H & _); [apply stack_machine_wf | split; [done | lia] | done|].
    destruct H as (s1 & s2 & H1 & H2 & H3 & _ & _ & _ & H4 & H5 & _); [cbn; lia|].
    exists s1, s2. split_and!; [exact H1 | exact H2 | exact H3 | exact H5 | exact H4].
  - destruct (jsr_rts_roundtrip 7 Immediate PC (Machine (with_reg SP 0 (cs stack_machine)) mem0)) as (_ & H & _);
      [apply stack_machine_sp; lia | split; [done | lia] | done|].
    destruct (H R0 eq_refl) as (s1 & H1 & _ & H2). exists s1. split; [exact H1|]. exact (H2 ltac:(done) ltac:(done)).
  - destruct (jsr_rts_roundtrip 5 (Deferred 1 R1) R5 (Machine (with_reg SP 600 (cs stack_machine)) mem0)) as (_ & _ & H);
      [apply stack_machine_sp; lia | split; [done | lia] | split; [lia | done] |].
    apply H. cbn. lia.
Defined.

Lemma nested_jsr_loses_link_witness :
  exists s4 : machine mem_dev, get_reg R5 (cs s4) = 20 /\ pc (cs s4) = 20.
Proof.
  destruct (nested_jsr_loses_link 5 1 R5 R1 stack_machine)
    as (s1 & s2 & s3 & s4 & _ & _ & _ & _ & _ & H1 & H2);
    [apply stack_machine_wf | split; [done | lia] | done | lia | reflexivity
    | cbn [cs stack_machine]; cbn; lia |].
  exists s4. split; [exact H2 | exact H1].
Defined.

(** TST .-6 at 10: displacement -8. *)
Definition tst_machine : machine mem_dev :=
  Machine (cpu_at 12 (oct! 005767)) (put 12 65528 mem0).

Lemma negative_displacement_blocks_witness : exec_instruction tst_machine = Blocked.
Proof.
  apply (negative_displacement_blocks (cpu_at 12 (oct! 005767)) (put 12 65528 mem0) 65528).
  - split; [apply cpu_at_wf; lia | apply put_wf; [apply mem0_wf | lia | lia | unfold MEMBYTES; lia]].
  - cbn. lia.
  - reflexivity.
  - reflexivity.
  - reflexivity.
  - apply word_at_put. lia.
  - cbn. lia.
Defined.

(** JMP (R0) with R0 = 12, where the word 65528 is stored. *)
Lemma jmp_goes_to_contents_witness :
  exists c', exec_instruction (Machine (with_reg R0 12 (cpu_at 2 (oct! 000110))) (put 12 65528 mem0))
    = Done tt (Machine c' (put 12 65528 mem0)) /\ pc c' = 65528.
Proof.
  destruct (jmp_goes_to_contents (with_reg R0 12 (cpu_at 2 (oct! 000110))) (put 12 65528 mem0) R0 65528)
    as (c' & H1 & H2 & _).
  - split; [apply with_reg_wf; [lia | apply cpu_at_wf; lia]
           | apply put_wf; [apply mem0_wf | lia | lia | unfold MEMBYTES; lia]].
  - reflexivity.
  - reflexivity.
  - vm_compute. congruence.
  - reflexivity.
  - cbn. lia.
  - apply word_at_put. lia.
  - exists c'. split; [exact H1 | exact H2].
Defined.

(** The memory of zeros is a program: HALT. *)
Definition halts {S} (o : outcome S (option unit)) : bool :=
  match o with Done (Some _) _ => true | _ => false end.

Lemma halts_final {S} (d : S) (o : outcome S (option unit)) :
  halts o = true -> o = Done (Some tt) (final d o).
Proof. by destruct o as [[[]|] s| |]. Qed.

Definition halt_result : machine mem_dev :=
  final (Machine init_cpu mem0) (execute 1 (Machine init_cpu mem0)).

Lemma execute_fuel_monotone_witness : execute 5 (Machine init_cpu mem0) = Done (Some tt) halt_result.
Proof.
  apply (execute_fuel_monotone 1 5); [lia|]. apply halts_final. vm_compute. reflexivity.
Defined.

Definition countdown_mem : mem_dev :=
  foldr (fun aw => put aw.1 aw.2) mem0 [(0, oct! 005300); (2, oct! 001376); (4, 0)].

Lemma countdown_halts_witness :
  exists c', execute 9 (Machine (with_reg R0 3 init_cpu) countdown_mem)
    = Done (Some tt) (Machine c' countdown_mem) /\ r0 c' = 0.
Proof.
  destruct (countdown_halts 3 (with_reg R0 3 init_cpu) countdown_mem 2) as (c' & H1 & _ & H2 & _).
  - apply put_all_wf; [apply mem0_wf | repeat constructor; cbn; lia].
  - apply with_reg_wf; [lia | apply init_cpu_wf].
  - reflexivity.
  - reflexivity.
  - reflexivity.
  - lia.
  - vm_compute. reflexivity.
  - vm_compute. reflexivity.
  - vm_compute. reflexivity.
  - exists c'. split; [exact H1 | exact H2].
Defined.
