(* ===== verification/MemProps.v ===== *)
(** * The memory device and the loader: properties *)
From S2P Require Import Prelude Bus Cpu Instr CpuFacts Mem CpuMem Load CpuProps.

(** ** An abstract memory *)

(** The device as a total function from addresses to bytes. *)
Definition bytes := Z -> Z.

Definition abstracts (f : bytes) (m : mem_dev) : Prop :=
  forall i, 0 <= i < MEMBYTES -> store m !! i = Some (f i).

Definition set_byte (i b : Z) (f : bytes) : bytes := fun j => if j =? i then b else f j.

(** What the device promises for a request: the reply, if any, and the memory. *)
Definition serve_spec (x : data_xfer_spec) (f : bytes) : option data_xfer_spec * bytes :=
  let a := x_addr x in
  match x_op x with
  | R_BLOCK_IN => (Some (Xfer R_BLOCK_IN a (f a + 256 * f (a + 1))), f)
  | R_BLOCK_OUT => (Some x, set_byte (a + 1) (x_value x / 256) (set_byte a (x_value x mod 256) f))
  | R_BLOCK_OUTB => (Some x, set_byte a (x_value x mod 256) f)
  | _ => (None, f)
  end.

(** The bytes a request touches are inside the store. *)
Definition in_store (x : data_xfer_spec) : Prop :=
  0 <= x_addr x /\
  match x_op x with R_BLOCK_OUTB => x_addr x < MEMBYTES | _ => x_addr x + 1 < MEMBYTES end.

Lemma abstracts_insert f m x y i b :
  abstracts f m -> u8 b = b -> abstracts (set_byte i b f) (Mem x y (<[i := u8 b]> (store m))).
Proof.
  intros H Hb j Hj. cbn [store]. unfold set_byte. destruct (Z.eqb_spec j i) as [->|].
  - by rewrite lookup_insert_eq, Hb.
  - rewrite lookup_insert_ne by done. by apply H.
Qed.

Lemma abstracts_ext f g m : (forall i, f i = g i) -> abstracts f m -> abstracts g m.
Proof. intros E H i Hi. rewrite <- E. by apply H. Qed.

Lemma word_halves w :
  is_u16 w -> u8 (Z.land w 255) = w mod 256 /\ u8 (Z.shiftr (Z.land w 65280) 8) = w / 256.
Proof.
  intros Hw. rewrite high_byte, u8_land by done.
  split; [rewrite u8_id by apply u8_range; done | apply u8_id; mod_lia].
Qed.

(** C10: The request loop of the memory device implements the abstract memory: a
    request inside the store is answered as the specification says - a read with
    the little-endian word, a write with the request itself - and the store
    becomes exactly the specified one; every other operation is ignored. *)
Theorem serve_refines x f m :
  mem_wf m -> abstracts f m -> in_store x -> xfer_wf x ->
  exists m', serve x m = Done (serve_spec x f).1 m' /\ mem_wf m' /\ abstracts (serve_spec x f).2 m'.
Proof.
  intros Hm Hf [Ha Hin] [_ Hv]. destruct x as [op a v]. cbn [x_op x_addr x_value] in *.
  unfold serve, serve_spec. cbn [x_op x_addr x_value].
  destruct op; try by exists m.
  - destruct (read_word_wf m a Hm Ha Hin) as (lo & hi & Hl & Hh & ? & ? & E).
    rewrite (Hf a ltac:(lia)) in Hl. rewrite (Hf (a + 1) ltac:(lia)) in Hh. simplify_eq.
    exists m. split; [|done]. unfold perform_read, mbind, M_bind. cbn [x_addr x_op]. by rewrite E.
  - destruct (word_halves v Hv) as [Hlo Hhi]. eexists. split; [|split].
    + unfold perform_write, mbind, M_bind. cbn [x_addr x_value].
      rewrite write_word_in by done. reflexivity.
    + apply put_word_wf; auto with words.
    + cbn [fst snd]. rewrite u16_id by done. unfold put_word. rewrite Hlo, Hhi.
      pose proof (abstracts_insert f m a v a (v mod 256) Hf ltac:(mod_lia)) as H1.
      pose proof (abstracts_insert _ _ a v (a + 1) (v / 256) H1 ltac:(mod_lia)) as H2.
      cbn [store] in H2. rewrite !u8_id in H2 by mod_lia. exact H2.
  - eexists. split; [|split].
    + unfold perform_writeb, mbind, M_bind. cbn [x_addr x_value].
      rewrite write_byte_in by done. reflexivity.
    + apply store_insert_wf; auto with words. unfold MEMBYTES in *. lia.
    + cbn [fst snd]. rewrite u16_id, u8_land by done. apply abstracts_insert; [done|].
      apply u8_id, u8_range.
Qed.

(** Word round trip and frame: a word written below 65534 is read back, the
    device stays well formed, and a word that shares no byte with it reads as
    before. *)
Theorem write_read_roundtrip a w m :
  mem_wf m -> is_u16 w -> 0 <= a -> a + 1 < MEMBYTES ->
  exists m', write_word a w m = Done tt m' /\ mem_wf m' /\ read_word a m' = Done w m' /\
    (forall b v, (b + 1 < a \/ a + 1 < b) -> read_word b m = Done v m -> read_word b m' = Done v m').
Proof.
  intros Hm Hw Ha Ha'. rewrite write_word_in, u16_id by done.
  assert (Hm' : mem_wf (Mem a w (put_word a w (store m)))) by by apply put_word_wf.
  eexists. split; [reflexivity|]. split; [done|]. split.
  - by apply (word_at_in _ a w Hm'), word_at_put.
  - intros b v Hb E. destruct (decide (0 <= b /\ b + 1 < MEMBYTES)) as [[Hb0 Hb1]|Hb'].
    + destruct (word_at_some m b Hm Hb0 Hb1) as (v' & _ & Hv').
      pose proof (word_at_in m b v' Hm Hv') as (_ & _ & _ & E'). rewrite E in E'. injection E' as <-.
      apply (word_at_in _ b v Hm'). by rewrite word_at_put_other.
    + exfalso. unfold read_word, store_read, mbind, M_bind in E.
      destruct (store m !! b) as [lo|] eqn:E1; [|done].
      pose proof Hm as (_ & _ & Hd & _). assert (0 <= b < MEMBYTES) by (by apply Hd).
      assert (b + 1 = MEMBYTES) as Hb1 by lia. unfold MEMBYTES in *.
      rewrite u32_id in E by lia. by rewrite store_lookup_out in E by (done || (unfold MEMBYTES; lia)).
Qed.

(** C11: The last local word is outside the store: of the addresses the device
    calls its own (0..65535), a word read or write is undefined behaviour exactly
    at 65534 and 65535, a byte write exactly at 65535. *)
Theorem local_access_faults a w m :
  mem_wf m -> is_local_addr a = 1 -> is_u32 a ->
  (read_word a m = Fault <-> a = 65534 \/ a = 65535) /\
  (write_word a w m = Fault <-> a = 65534 \/ a = 65535) /\
  (write_byte a w m = Fault <-> a = 65535).
Proof.
  intros Hm Hl Ha. unfold is_local_addr, MEMLOW, MEMHIGH, MEMBYTES in Hl.
  destruct (Z.geb_spec a 0), (Z.leb_spec a 65535); try done.
  assert (Hout : forall x y i, 65535 <= i -> store (Mem x y (store m)) !! i = None)
    by (intros; apply (store_lookup_out m); [done | unfold MEMBYTES; lia]).
  assert (Ea : u16 a = a) by (apply u16_id; lia).
  split_and!; split.
  - intros E. destruct (decide (a + 1 < MEMBYTES)); [|unfold MEMBYTES in *; lia].
    by destruct (read_word_hoare m a Hm ltac:(lia) ltac:(done)) as (v & _ & Ev); rewrite Ev in E.
  - intros [-> | ->]; unfold read_word, store_read, mbind, M_bind.
    + destruct (store_lookup_in m 65534 Hm ltac:(done)) as [b ->].
      change (u32 (65534 + 1)) with 65535.
      by rewrite (store_lookup_out m 65535) by (done || (unfold MEMBYTES; lia)).
    + by rewrite (store_lookup_out m) by (done || (unfold MEMBYTES; lia)).
  - intros E. destruct (decide (a + 1 < MEMBYTES)); [|unfold MEMBYTES in *; lia].
    by rewrite write_word_in in E by done.
  - intros Hx. unfold write_word, set_mar, set_mbr, store_write, mbind, M_bind, modify, gets.
    cbn [mar mbr store]. rewrite Ea. destruct Hx as [-> | ->].
    + destruct (store_lookup_in m 65534 Hm ltac:(done)) as [b ->]. cbn [mar mbr store].
      rewrite lookup_insert_ne by done.
      by rewrite (store_lookup_out m) by (done || (unfold MEMBYTES; lia)).
    + by rewrite (store_lookup_out m) by (done || (unfold MEMBYTES; lia)).
  - intros E. destruct (decide (a < MEMBYTES)); [|unfold MEMBYTES in *; lia].
    by rewrite write_byte_in in E by (done || lia).
  - intros ->. unfold write_byte, set_mar, set_mbr, store_write, mbind, M_bind, modify, gets.
    cbn [mar mbr store]. rewrite Ea.
    by rewrite (store_lookup_out m) by (done || (unfold MEMBYTES; lia)).
Qed.

(** The two directions disagree on an address that does not fit the 16-bit
    MAR: a write goes to the address modulo [2^16], a read uses the full 32-bit
    address and leaves the store. *)
Theorem write_truncates_address a w m :
  mem_wf m -> 65536 <= a < 4294967296 ->
  write_word a w m = write_word (u16 a) w m /\ write_byte a w m = write_byte (u16 a) w m /\
  read_word a m = Fault.
Proof.
  intros Hm Ha. unfold write_word, write_byte, set_mar. rewrite !u16_u16.
  split; [done|]. split; [done|]. apply bind_fault. unfold store_read.
  by rewrite store_lookup_out by (done || (unfold MEMBYTES; lia)).
Qed.

(** ** The dump *)
Lemma dump_row_in m r :
  mem_wf m -> 0 <= r -> r + 32 < MEMBYTES ->
  exists ws, dump_row r m = Done ws m /\ length ws = 16%nat /\
    (forall i, (i < 16)%nat -> exists w, ws !! i = Some w /\ word_at m (r + 2 * Z.of_nat i) = Some w).
Proof.
  intros Hm Hr Hr'. unfold dump_row. change (seqZ 0 16) with (seqZ 0 (Z.of_nat 16)).
  assert (H : forall n k, (k + n = 16)%nat ->
    exists ws, foldr (fun i k => w ← read_word (r + 2 * i); ws ← k; mret (w :: ws)) (mret [])
      (seqZ (Z.of_nat k) (Z.of_nat n)) m = Done ws m /\ length ws = n /\
    (forall i, (i < n)%nat -> exists w, ws !! i = Some w /\
      word_at m (r + 2 * Z.of_nat (k + i)) = Some w)).
  { induction n as [|n IH]; intros k Hk.
    - exists []. split_and!; [done | done | lia].
    - rewrite seqZ_cons by lia. cbn [foldr].
      destruct (word_at_some m (r + 2 * Z.of_nat k) Hm) as (w & _ & Hw); [lia..|].
      destruct (IH (S k)) as (ws & E & Hl & Hws); [lia|].
      destruct (word_at_in _ _ _ Hm Hw) as (_ & _ & _ & Er).
      exists (w :: ws). split; [|split].
      + rewrite (bind_done _ _ _ _ _ Er).
        replace (Z.succ (Z.of_nat k)) with (Z.of_nat (S k)) by lia.
        replace (Z.pred (Z.of_nat (S n))) with (Z.of_nat n) by lia.
        by rewrite (bind_done _ _ _ _ _ E).
      + cbn. by rewrite Hl.
      + intros [|i] Hi; [exists w; by rewrite Nat.add_0_r|].
        destruct (Hws i) as (v & Hv & Hv'); [lia|]. exists v. split; [done|].
        by replace (k + S i)%nat with (S k + i)%nat by lia. }
  destruct (H 16%nat 0%nat) as (ws & E & Hl & Hws); [done|]. by exists ws.
Qed.

(** A printed row shows the memory at its offset. *)
Definition row_shows (m : mem_dev) (row : Z * list Z) : Prop :=
  0 <= row.1 < MEMWORDS /\ length row.2 = 16%nat /\
  forall i, (i < 16)%nat ->
    exists w, row.2 !! i = Some w /\ word_at m (row.1 + 2 * Z.of_nat i) = Some w.

(** The row at [q] is printed, or its sixteen words are zero. *)
Definition row_covered (m : mem_dev) (rows : list (Z * list Z)) (q : Z) : Prop :=
  (exists ws, (q, ws) ∈ rows) \/
  forall i, (i < 16)%nat -> word_at m (q + 2 * Z.of_nat i) = Some 0.

Lemma zero_row ws i w : forallb (fun w => w =? 0) ws = true -> ws !! i = Some w -> w = 0.
Proof.
  rewrite forallb_forall. intros H Hi. apply Z.eqb_eq, H, list_elem_of_In.
  by eapply list_elem_of_lookup_2.
Qed.

Lemma dump_rows_in m fuel r :
  mem_wf m -> 0 <= r -> r mod 32 = 0 ->
  exists rows, dump_rows fuel r m = Done rows m /\ Forall (row_shows m) rows /\
    (forall q, r <= q < r + 32 * Z.of_nat fuel -> q < MEMWORDS -> q mod 32 = 0 -> row_covered m rows q).
Proof.
  intros Hm. revert r. induction fuel as [|fuel IH]; intros r Hr Hmod; cbn [dump_rows].
  { exists []. split_and!; [done | constructor | lia]. }
  destruct (Z.ltb_spec r MEMWORDS) as [Hlt|].
  2: { exists []. split_and!; [done | constructor | lia]. }
  destruct (dump_row_in m r Hm Hr) as (ws & E & Hl & Hws); [unfold MEMWORDS, MEMBYTES in *; lia|].
  destruct (IH (r + 32)) as (rows & E' & Hrows & Hcov); [lia | mod_lia |].
  rewrite (bind_done _ _ _ _ _ E), (bind_done _ _ _ _ _ E').
  assert (Hstep : forall q, r <= q < r + 32 * Z.of_nat (S fuel) -> q mod 32 = 0 ->
    q = r \/ r + 32 <= q < r + 32 + 32 * Z.of_nat fuel) by (intros; mod_lia).
  destruct (_ && _) eqn:Hz.
  - exists rows. split_and!; [done | done |]. intros q Hq Hq' Hq32.
    destruct (Hstep q Hq Hq32) as [->|]; [|by apply Hcov]. right. intros i Hi.
    destruct (Hws i Hi) as (w & Hw & ->). repeat (apply andb_prop in Hz as [Hz _]).
    by rewrite (zero_row _ _ _ Hz Hw).
  - exists ((r, ws) :: rows). split_and!; [done | by constructor |]. intros q Hq Hq' Hq32.
    destruct (Hstep q Hq Hq32) as [->|Hq2]; [left; exists ws; constructor|].
    destruct (Hcov q Hq2 Hq' Hq32) as [[ws' H]|H]; [left; exists ws'; by constructor | by right].
Qed.

(** The dump on a signal never leaves the store and changes nothing; every
    row it prints is read from the memory at its offset, and a row of the lower
    half that it does not print is zero.  No row starts at 32767 or above: the
    upper half of the memory is never printed. *)
Theorem dump_mem_correct m :
  mem_wf m ->
  exists rows, dump_mem m = Done rows m /\ Forall (row_shows m) rows /\
    (forall q, 0 <= q < MEMWORDS -> q mod 32 = 0 -> row_covered m rows q).
Proof.
  intros Hm. destruct (dump_rows_in m 1024 0 Hm) as (rows & E & H1 & H2); [done..|].
  exists rows. split_and!; [done | done |]. intros q Hq Hq32. apply H2; [|lia | done].
  unfold MEMWORDS in *. lia.
Qed.

(** ** The loader *)

(** C12: Reading a well-formed a.out file gives back the object it was written
    from: header fields in file order and the text, whatever the heap held and
    whatever follows the text in the file. *)
Theorem aout_read_roundtrip a junk rest :
  aout_wf a -> aout_read os_ok junk (file_reader (aout_image a ++ rest)) = Some a.
Proof. apply aout_read_image. Qed.

(** The loader looks at no length: a file that ends inside the header is
    accepted, the missing fields keep what the heap held, and so an empty file
    is an object with a text of zeros as long as the heap said. *)
Theorem empty_file_accepted junk :
  aout_read os_ok junk (file_reader []) =
  Some (Aout junk (replicate (Z.to_nat (Z.shiftr (a_text junk) 1)) 0)).
Proof.
  unfold aout_read, aout_read_header, aout_read_text. cbn [file_reader open_ok malloc_ok calloc_ok
    close_ok os_ok negb].
  by rewrite read_at_eof, header_refs_of, read_at_eof.
Qed.

(** Every failure gives NULL: a file that cannot be opened or closed, an
    allocation that fails, and a [read] that fails before the last word. *)
Theorem aout_read_errors e junk r :
  (open_ok e && malloc_ok e && calloc_ok e && close_ok e = false -> aout_read e junk r = None) /\
  (forall r1 r2, r = r1 ++ None :: r2 -> Forall is_Some r1 -> (length r1 < 8)%nat ->
     aout_read e junk r = None) /\
  (forall h r1 r2 r3, read_words (header_refs junk) r = (Some (header_refs h), r1) ->
     r1 = r2 ++ None :: r3 -> Forall is_Some r2 ->
     Z.of_nat (length r2) < Z.shiftr (a_text h) 1 -> aout_read e junk r = None).
Proof.
  split_and!.
  - unfold aout_read, aout_read_header, aout_read_text.
    destruct (open_ok e), (malloc_ok e), (calloc_ok e), (close_ok e); cbn [negb andb];
      intros H; try done; by repeat case_match; simplify_eq.
  - intros r1 r2 -> Hs Hl. unfold aout_read, aout_read_header.
    destruct (open_ok e), (malloc_ok e); cbn [negb]; try done.
    pose proof (read_words_error (header_refs junk) r1 r2 Hl Hs) as H.
    destruct (read_words _ _) as [[ws|] r']; [done|]. done.
  - intros h r1 r2 r3 Hh -> Hs Hl. unfold aout_read, aout_read_header, aout_read_text.
    destruct (open_ok e), (malloc_ok e); cbn [negb]; try done. rewrite Hh, header_refs_of.
    destruct (calloc_ok e); [|done].
    pose proof (read_words_error (replicate (Z.to_nat (Z.shiftr (a_text h) 1)) 0) r2 r3) as H.
    rewrite length_replicate in H. specialize (H ltac:(lia) Hs).
    destruct (read_words (replicate _ 0) _) as [[ws|] r']; [done|]. done.
Qed.

Lemma load_aout_words a offset m :
  aout_wf a -> 0 <= offset < 2147483648 -> load_aout a offset m = load_words (text a) offset m.
Proof.
  intros (_ & _ & Hl) Ho. unfold load_aout. rewrite <- Hl, Nat2Z.id, firstn_all.
  by replace (i32 offset) with offset by (unfold i32; mod_lia).
Qed.

(** Placing an object in the memory: it fits exactly when its end is at most
    65535; then word [n] of the text is at [offset + 2n] and every byte outside
    the text keeps its value; when it does not fit the store is overrun. *)
Theorem load_aout_places a offset m :
  mem_wf m -> aout_wf a -> 0 <= offset < 2147483648 ->
  (offset + 2 * Z.of_nat (length (text a)) <= MEMBYTES ->
   exists m', load_aout a offset m = Done tt m' /\ mem_wf m' /\
     (forall n w, text a !! n = Some w -> word_at m' (offset + 2 * Z.of_nat n) = Some w) /\
     (forall i, i < offset \/ offset + 2 * Z.of_nat (length (text a)) <= i ->
        store m' !! i = store m !! i)) /\
  (MEMBYTES < offset + 2 * Z.of_nat (length (text a)) -> text a <> [] ->
   load_aout a offset m = Fault).
Proof.
  intros Hm Ha Ho. rewrite load_aout_words by done. destruct Ha as (_ & Ht & _). split.
  - intros Hfit. destruct (load_words_in (text a) offset m Hm Ht) as [E Hwf]; [lia | done |].
    eexists. split; [exact E|]. split; [exact Hwf|]. split.
    + intros n w Hn. by apply put_words_at.
    + intros i [Hi|Hi]; cbn [store]; [by apply put_words_below | by apply put_words_above].
  - intros Hout Hne. apply load_words_out; [done | done | lia | done | done].
Qed.

(** From the file to the processor: a well-formed a.out file read by the
    loader and placed at 0 is what the processor fetches - the word at [2n] below
    512 is word [n] of the file's text. *)
Theorem boot_fetch a junk m c n w :
  mem_wf m -> aout_wf a -> 2 * Z.of_nat (length (text a)) <= MEMBYTES ->
  text a !! n = Some w -> 2 * Z.of_nat n < 512 ->
  exists a' m', aout_read os_ok junk (file_reader (aout_image a)) = Some a' /\
    load_aout a' 0 m = Done tt m' /\
    fetch_data (2 * Z.of_nat n) (Machine c m') = Done w (Machine c m').
Proof.
  intros Hm Ha Hl Hn Hlow. exists a.
  destruct (load_words_in (text a) 0 m Hm (proj1 (proj2 Ha))) as [E Hwf]; [lia | lia |].
  eexists. split; [|split].
  - rewrite <- (app_nil_r (aout_image a)). by apply aout_read_image.
  - rewrite load_aout_words by done. exact E.
  - apply fetch_low; [done | lia |].
    replace (2 * Z.of_nat n) with (0 + 2 * Z.of_nat n) by lia.
    apply put_words_at; [apply Ha | done].
Qed.

(** ** Witnesses *)
Definition tiny_aout : aout_object :=
  Aout (AoutHeader (oct! 0407) 6 0 0 0 0 0 0) [oct! 005300; oct! 001376; 0].

Lemma tiny_aout_wf : aout_wf tiny_aout.
Proof.
  split_and!; [| |reflexivity]; unfold tiny_aout, header_refs; cbn [header text a_midmag a_text
    a_data a_bss a_syms a_entry a_trsize a_drsize];
    repeat (apply Forall_cons_2; [lia|]); apply Forall_nil_2.
Qed.

Definition no_header : aout_header := AoutHeader 0 0 0 0 0 0 0 0.

Lemma abstracts_zero : abstracts (fun _ => 0) mem0.
Proof.
  intros i Hi. unfold mem0, init_mem. cbn [store junk_byte]. rewrite array_lookup, Z2Nat.id by done.
  by rewrite decide_True.
Qed.

Lemma serve_refines_witness :
  exists m', serve (Xfer R_BLOCK_OUT 10 258) mem0 = Done (Some (Xfer R_BLOCK_OUT 10 258)) m'.
Proof.
  destruct (serve_refines (Xfer R_BLOCK_OUT 10 258) (fun _ => 0) mem0) as (m' & H & _);
    [apply mem0_wf | apply abstracts_zero | split; cbn; unfold MEMBYTES; lia | split; cbn; lia |].
  exists m'. exact H.
Defined.

Lemma write_read_roundtrip_witness :
  exists m', write_word 100 4660 mem0 = Done tt m' /\ read_word 100 m' = Done 4660 m'.
Proof.
  destruct (write_read_roundtrip 100 4660 mem0) as (m' & H1 & _ & H2 & _);
    [apply mem0_wf | lia | lia | unfold MEMBYTES; lia |]. exists m'. split; [exact H1 | exact H2].
Defined.

Lemma local_access_faults_witness : read_word 65535 mem0 = Fault.
Proof. apply (local_access_faults 65535 0 mem0); [apply mem0_wf | reflexivity | lia | lia]. Defined.

Lemma write_truncates_address_witness : read_word 65536 mem0 = Fault.
Proof. apply (write_truncates_address 65536 0 mem0); [apply mem0_wf | lia]. Defined.

Lemma dump_mem_correct_witness : exists rows, dump_mem mem0 = Done rows mem0.
Proof.
  destruct (dump_mem_correct mem0) as (rows & H & _); [apply mem0_wf|]. exists rows. exact H.
Defined.

Lemma aout_read_roundtrip_witness :
  aout_read os_ok no_header (file_reader (aout_image tiny_aout ++ [])) = Some tiny_aout.
Proof. apply aout_read_roundtrip, tiny_aout_wf. Defined.

Lemma aout_read_errors_witness :
  aout_read (Os true true true false) no_header (file_reader (aout_image tiny_aout)) = None.
Proof.
  apply (aout_read_errors (Os true true true false) no_header (file_reader (aout_image tiny_aout))).
  reflexivity.
Defined.

Lemma load_aout_places_witness :
  load_aout tiny_aout 65530 mem0 = Fault /\ exists m', load_aout tiny_aout 0 mem0 = Done tt m'.
Proof.
  split.
  - apply (load_aout_places tiny_aout 65530 mem0); [apply mem0_wf | apply tiny_aout_wf | lia | | discriminate].
    unfold MEMBYTES. cbn. lia.
  - destruct (load_aout_places tiny_aout 0 mem0) as [(m' & H & _) _];
      [apply mem0_wf | apply tiny_aout_wf | lia | unfold MEMBYTES; cbn; lia |]. exists m'. exact H.
Defined.

Lemma boot_fetch_witness :
  exists m', fetch_data 2 (Machine init_cpu m') = Done (oct! 001376) (Machine init_cpu m').
Proof.
  destruct (boot_fetch tiny_aout no_header mem0 init_cpu 1 (oct! 001376)) as (_ & m' & _ & _ & H);
    [apply mem0_wf | apply tiny_aout_wf | unfold MEMBYTES; cbn; lia | reflexivity | lia |].
  exists m'. exact H.
Defined.
