(* ===== verification/ToolProps.v ===== *)
(** * Properties of the file tools

    The reader of object files of [libobj] and the listing of a.out files. *)
From S2P Require Import Prelude Digits Files Mem Load MemProps.
From S2P Require Obj Listing.

(** C40: Reading an object file.  On a file of text and other blocks, in any order,
    whose lengths count everything but the checksum ([part_bytes]), as the code has
    it, the reader finds the words of the text blocks, block by block, and stops
    one round behind the last block - as long as the variables it reads at the end
    of the file, which are never set there, hold a type other than 3 and a length
    of at least 5.  With a length of 4 in them it never stops.  In the format
    [notes/obj.md] describes the length counts the checksum too.  Of such a text
    block the reader takes a word too many, made of the checksum and the next byte,
    and is then two bytes beyond the block; of another block it skips a byte too
    many. *)
Theorem object_file_read j :
  (forall ps, Forall Obj.part_ok ps -> Obj.j_byte j <> 3 ->
    (5 <= Obj.j_len j ->
      Obj.read (length ps + 1) j (Obj.all_bytes ps) = Some (ps ≫= Obj.part_words)) /\
    (Obj.j_len j = 4 -> ps <> [] -> forall fuel, Obj.read fuel j (Obj.all_bytes ps) = None)) /\
  (forall addr ws ck b c l f, Forall (fun w => is_u16 w) ws -> 9 + 2 * Z.of_nat (length ws) < 65536 ->
    is_u8 ck -> is_u8 b -> feof f = false -> ahead f = documented_text addr ws ck ++ b :: c :: l ->
    Obj.is_text_block j f = (true, f) /\
    exists n, Obj.load_text_block j f = (ws ++ [ck + 256 * b], adv n f) /\ ahead (adv n f) = l) /\
  (forall blk b l f, tag blk <> 3 -> 6 + Z.of_nat (length (payload blk)) < 65536 ->
    feof f = false -> ahead f = documented_block blk ++ b :: l ->
    exists n, Obj.is_text_block j f = (false, adv n f) /\ ahead (adv n f) = l).
Proof.
  split_and!.
  - intros ps Hp Hj. set (f := File (Obj.all_bytes ps) 0 false).
    assert (Ha : ahead f = Obj.all_bytes ps ++ []) by (by rewrite app_nil_r).
    split.
    + intros Hl. unfold Obj.read. fold f. rewrite (Obj.read_blocks_parts j ps 1 f [] Hp eq_refl Ha).
      cbn [Obj.read_blocks]. change (feof (adv _ f)) with false. cbv iota.
      destruct (Obj.end_stops j (adv (length (Obj.all_bytes ps)) f) (Obj.ahead_app _ _ _ Ha) Hj Hl)
        as (f' & -> & ->). cbn. by rewrite app_nil_r.
    + intros Hl Hne fuel. unfold Obj.read. fold f. apply eq_None_not_Some. intros [r E].
      apply (Obj.read_blocks_more (length ps)) in E.
      rewrite Nat.add_comm, (Obj.read_blocks_parts j ps fuel f [] Hp eq_refl Ha), Obj.read_never_ends in E;
        [done | exact (Obj.ahead_app _ _ _ Ha) | | cbn; lia | done..].
      destruct ps as [|[b|addr ws ck] ps]; [done|..]; cbn; rewrite ?length_app; cbn; lia.
  - intros addr ws ck b c l f Hw Hl Hc Hb He H. rewrite documented_text_read in H by done.
    split; [by eapply Obj.text_block_found|]. eexists. split.
    + eapply (Obj.load_text_block_ahead j f (9 + 2 * Z.of_nat (length ws)) addr (ws ++ [ck + 256 * b]) c l);
        [apply Forall_app_2, Forall_singleton; [done | lia] | lia | rewrite length_app; cbn; mod_lia
        | by rewrite H, <- app_assoc].
    + apply (Obj.ahead_app f). by rewrite H, <- app_assoc.
  - intros blk b l f Ht Hp He H. rewrite documented_block_read in H. eexists. split.
    + eapply Obj.other_block; [|done|exact H]. split; [done|]. cbn [payload]. rewrite length_app. cbn. lia.
    + by apply Obj.ahead_app.
Qed.

(** The listing of an a.out file.  For a well-formed file the tool prints the
    header and, behind it, one line for every word of the text and nothing else; the
    number behind the [0o] of the lines is the text of the file again. *)
Theorem listing_reads_back a junk out :
  aout_wf a -> exists lines,
  Listing.main (Some (aout_read os_ok junk (file_reader (aout_image a)))) out
  = Done Listing.EXIT_SUCCESS (out ++ Listing.header_text (header a) ++ concat lines) /\
  mapM Listing.line_word lines = Some (text a).
Proof.
  intros Ha. exists (map Listing.word_line (text a)). split.
  - rewrite <- (app_nil_r (aout_image a)), aout_read_image by done. rewrite Listing.main_eq by done.
    do 3 f_equal. clear. induction (text a) as [|w t IH]; [done|]. cbn [map concat mbind list_bind]. by f_equal.
  - destruct Ha as (_ & Ht & _). induction Ht as [|w t Hw Ht IH]; [done|].
    cbn [map mapM]. by rewrite Listing.line_word_line, IH by done.
Qed.

(** ** Witnesses *)
Definition sample_parts : list Obj.part :=
  [Obj.Other (Block 1 [7; 7] 0); Obj.Text 512 [4660; 22136] 9; Obj.Text 1024 [1] 9].

Lemma object_file_read_witness :
  Obj.read 4 (Obj.Junk 1 10) (Obj.all_bytes sample_parts) = Some [[4660; 22136]; [1]] /\
  Obj.read 100 (Obj.Junk 1 4) (Obj.all_bytes sample_parts) = None /\
  exists f', Obj.load_text_block (Obj.Junk 1 4) (File (documented_text 512 [4660] 9 ++ [1; 0]) 0 false) = ([4660; 9 + 256 * 1], f').
Proof.
  assert (Hp : Forall Obj.part_ok sample_parts).
  { repeat (apply Forall_cons_2 || apply Forall_nil_2); cbn; unfold block_ok; cbn; try lia;
      (split; [repeat (apply Forall_cons_2 || apply Forall_nil_2) | ]; lia). }
  split_and!.
  - destruct (object_file_read (Obj.Junk 1 10)) as [H _]. destruct (H sample_parts Hp) as [H1 _]; [done|]. apply H1. cbn. lia.
  - destruct (object_file_read (Obj.Junk 1 4)) as [H _]. destruct (H sample_parts Hp) as [_ H1]; [done|]. by apply H1.
  - destruct (object_file_read (Obj.Junk 1 4)) as (_ & H & _).
    destruct (H 512 [4660] 9 1 0 [] (File (documented_text 512 [4660] 9 ++ [1; 0]) 0 false)) as (_ & n & E & _);
      [by repeat constructor | done | lia | lia | done | done |].
    eexists. exact E.
Defined.

Lemma listing_reads_back_witness : exists lines out,
  Listing.main (Some (aout_read os_ok no_header (file_reader (aout_image tiny_aout)))) [] = Done 0 out /\
  mapM Listing.line_word lines = Some [oct! 005300; oct! 001376; 0].
Proof.
  destruct (listing_reads_back tiny_aout no_header [] tiny_aout_wf) as (lines & H1 & H2).
  exists lines. eexists. split; [exact H1 | exact H2].
Defined.
