(* ===== verification/Heap.v ===== *)
(** * The C heap

    Blocks allocated by [malloc] and [calloc] and descriptors opened by [open], for
    the parts of the program that release what they allocate.  A block holds a
    value of type [V]; a pointer is [Some l], NULL is [None].  An access to a block
    that is not live and a second [free] of one are undefined behaviour.  Locations
    are not reused, so an access to freed memory always shows; [malloc] and [open]
    succeed as the environment lets them. *)
From S2P Require Import Prelude.

Abbreviation ptr := (option positive).

Record heap (V : Type) := Heap {
  blocks : gmap positive V; next : positive;      (* live blocks, first unused location *)
  open_fds : gset positive; next_fd : positive    (* open descriptors, the next one *)
}.
Arguments Heap {V}.
Arguments blocks {V}.
Arguments next {V}.
Arguments open_fds {V}.
Arguments next_fd {V}.

Definition empty_heap {V} : heap V := Heap ∅ 1 ∅ 3.

(** Locations from [next] on are unused, and so are descriptors from [next_fd]. *)
Definition heap_wf {V} (h : heap V) : Prop :=
  (forall l, (next h <= l)%positive -> blocks h !! l = None) /\
  (forall fd, (next_fd h <= fd)%positive -> fd ∉ open_fds h).

Section Heap.
Context {V : Type}.

Definition with_blocks (b : gmap positive V) (h : heap V) : heap V :=
  Heap b (next h) (open_fds h) (next_fd h).

(** [malloc] of a block that then holds [v]. *)
Definition malloc (ok : bool) (v : V) : M (heap V) ptr := fun h =>
  if ok then
    Done (Some (next h))
      (Heap (<[next h := v]> (blocks h)) (Pos.succ (next h)) (open_fds h) (next_fd h))
  else Done None h.

(** Reading and writing the block a pointer points to. *)
Definition deref (p : ptr) : M (heap V) V := fun h =>
  match p ≫= fun l => blocks h !! l with Some v => Done v h | None => Fault end.

Definition assign (p : ptr) (v : V) : M (heap V) unit := fun h =>
  match p with
  | Some l => if decide (is_Some (blocks h !! l)) then Done tt (with_blocks (<[l := v]> (blocks h)) h) else Fault
  | None => Fault
  end.

(** [free] of NULL does nothing. *)
Definition free (p : ptr) : M (heap V) unit := fun h =>
  match p with
  | None => Done tt h
  | Some l => if decide (is_Some (blocks h !! l)) then Done tt (with_blocks (delete l (blocks h)) h) else Fault
  end.

(** [open]: -1 is [None]. *)
Definition open (ok : bool) : M (heap V) (option positive) := fun h =>
  if ok then
    Done (Some (next_fd h))
      (Heap (blocks h) (next h) ({[next_fd h]} ∪ open_fds h) (Pos.succ (next_fd h)))
  else Done None h.

(** [close] releases the descriptor, also when it reports an error. *)
Definition close (fd : positive) (ok : bool) : M (heap V) bool := fun h =>
  Done ok (Heap (blocks h) (next h) (open_fds h ∖ {[fd]}) (next_fd h)).

(** ** Lemmas *)
Lemma empty_heap_wf : heap_wf (empty_heap (V := V)).
Proof. split; [intros l _; apply lookup_empty | intros fd _; apply not_elem_of_empty]. Qed.

Lemma deref_live l v h : blocks h !! l = Some v -> deref (Some l) h = Done v h.
Proof. intros H. unfold deref. cbn. by rewrite H. Qed.

Lemma assign_live l v v' h :
  blocks h !! l = Some v -> assign (Some l) v' h = Done tt (with_blocks (<[l := v']> (blocks h)) h).
Proof. intros H. unfold assign. rewrite decide_True; [done | by exists v]. Qed.

Lemma free_live l v h :
  blocks h !! l = Some v -> free (Some l) h = Done tt (with_blocks (delete l (blocks h)) h).
Proof. intros H. unfold free. rewrite decide_True; [done | by exists v]. Qed.

(** The second [free] of a block, or an access to it, is undefined. *)
Lemma dead_faults l v h :
  blocks h !! l = None ->
  deref (Some l) h = Fault /\ assign (Some l) v h = Fault /\ free (Some l) h = Fault.
Proof.
  intros H. unfold deref, assign, free. cbn. rewrite H.
  rewrite decide_False by (by intros [? ?]). done.
Qed.

Lemma wf_fresh (h : heap V) : heap_wf h -> blocks h !! next h = None.
Proof. intros [H _]. apply H. lia. Qed.

Lemma wf_malloc v (h : heap V) :
  heap_wf h -> heap_wf (Heap (<[next h := v]> (blocks h)) (Pos.succ (next h)) (open_fds h) (next_fd h)).
Proof.
  intros [H1 H2]. split; [|done]. cbn. intros l Hl. rewrite lookup_insert_ne by lia. apply H1. lia.
Qed.

Lemma wf_open (h : heap V) :
  heap_wf h -> heap_wf (Heap (blocks h) (next h) ({[next_fd h]} ∪ open_fds h) (Pos.succ (next_fd h))).
Proof.
  intros [H1 H2]. split; [done|]. cbn. intros fd Hf [->%elem_of_singleton | H]%elem_of_union; [lia|].
  by apply (H2 fd); [lia|].
Qed.

(** The descriptors behind an [open] and its [close]. *)
Lemma open_close (h : heap V) : heap_wf h -> ({[next_fd h]} ∪ open_fds h) ∖ {[next_fd h]} = open_fds h.
Proof. intros [_ H]. specialize (H (next_fd h) ltac:(lia)). set_solver. Qed.
End Heap.
