(* ===== verification/LoadHeap.v ===== *)
(** * The a.out reader and the listing tool on the heap

    [libload/load.c] and the [main] of [utilities/loader.c] again, now with the
    blocks they allocate and the descriptor they open: [aout_read] with the release
    on each of its error returns, and [aout_free].  [Load] and [Listing] give the
    values these functions compute; here it is shown that the code computes them
    without touching memory it does not own and releases what it took. *)
From S2P Require Import Prelude Digits Mem Load Heap.
From S2P Require Listing.
From Stdlib Require Import String.
#[local] Open Scope Z_scope.

(** ** State *)

(** A parsed object with the pointer to its text, and a text. *)
Inductive block := BAout (h : aout_header) (text_ptr : ptr) | BText (ws : list Z).

Record world := World { hp : heap block; file : reader; printed : list Z }.

Abbreviation W := (M world).

Definition on_heap {A} (m : M (heap block) A) : W A := fun w =>
  match m (hp w) with
  | Done a h => Done a (World h (file w) (printed w))
  | Blocked => Blocked
  | Fault => Fault
  end.

Definition on_out {A} (m : M (list Z) A) : W A := fun w =>
  match m (printed w) with
  | Done a out => Done a (World (hp w) (file w) out)
  | Blocked => Blocked
  | Fault => Fault
  end.

(** The 16-bit words of a block that [read] may fill. *)
Definition words_of (b : block) : list Z :=
  match b with BAout h _ => header_refs h | BText ws => ws end.

Definition put_words (ws : list Z) (b : block) : block :=
  match b with BAout h t => BAout (header_of_refs ws h) t | BText _ => BText ws end.

Definition header_of (b : block) : W aout_header :=
  match b with BAout h _ => mret h | BText _ => fault end.

Definition text_of (b : block) : W ptr :=
  match b with BAout _ t => mret t | BText _ => fault end.

(** ** [libload/load.c] *)

(** [read(fd, &word, sizeof(uint16_t))] into a word that holds [old]: [None] for the
    result -1. *)
Definition read_word (old : Z) : W (option Z) := fun w =>
  Done (read_into old (file w)).1 (World (hp w) (read_into old (file w)).2 (printed w)).

(** The same into word [i] of the block at [p]: [false] for -1. *)
Definition read_at (p : ptr) (i : nat) : W bool :=
  b ← on_heap (deref p);
  old ← the (words_of b !! i);
  res ← read_word old;
  match res with
  | None => mret false
  | Some v => on_heap (assign p (put_words (<[i := v]> (words_of b)) b));; mret true
  end.

(** The loops of [aout_read_header] and [aout_read_text]: [n] words from word [i]. *)
Fixpoint read_loop (p : ptr) (i n : nat) : W bool :=
  match n with
  | O => mret true
  | S n' => ok ← read_at p i; if (ok : bool) then read_loop p (S i) n' else mret false
  end.

Definition HEADER_FIELDS : nat := 8.

Definition aout_read_header (aout : ptr) : W bool := read_loop aout 0 HEADER_FIELDS.

Definition aout_read_text (e : os) (aout : ptr) : W bool :=
  b ← on_heap (deref aout); h ← header_of b;
  let n_text := Z.to_nat (Z.shiftr (a_text h) 1) in
  t ← on_heap (malloc (calloc_ok e) (BText (replicate n_text 0)));
  on_heap (assign aout (BAout h t));;
  match t with None => mret false | Some _ => read_loop t 0 n_text end.

(** The new value of [*aout]. *)
Definition aout_free (aout : ptr) : W ptr :=
  b ← on_heap (deref aout); t ← text_of b;
  match t with
  | Some _ => on_heap (free t);; h ← header_of b; on_heap (assign aout (BAout h None))
  | None => mret tt
  end;;
  on_heap (free aout);; mret None.

(** [junk] and [junk_text] are what [malloc] left in the object. *)
Definition aout_read (e : os) (junk : aout_header) (junk_text : ptr) : W ptr :=
  fd ← on_heap (open (open_ok e));
  match fd with
  | None => mret None
  | Some fd =>
      aout ← on_heap (malloc (malloc_ok e) (BAout junk junk_text));
      match aout with
      | None => mret None
      | Some _ =>
          on_heap (assign aout (BAout junk None));;
          ok ← aout_read_header aout;
          if negb ok then aout_free aout;; on_heap (close fd (close_ok e));; mret None
          else
            ok ← aout_read_text e aout;
            if negb ok then aout_free aout;; on_heap (close fd (close_ok e));; mret None
            else
              closed ← on_heap (close fd (close_ok e));
              if negb closed then aout_free aout;; mret None
              else mret aout
      end
  end.

(** ** [utilities/loader.c] *)

(** The loop that prints [n] words of [aout->text] from index [i]. *)
Fixpoint print_text (aout : ptr) (i n : nat) : W unit :=
  match n with
  | O => mret tt
  | S n' =>
      b ← on_heap (deref aout); t ← text_of b;
      c ← on_heap (deref t); v ← the (words_of c !! i);
      on_out (Listing.print (Listing.word_line v));; print_text aout (S i) n'
  end.

(** [main] with an argument. *)
Definition main (e : os) (junk : aout_header) (junk_text : ptr) : W Z :=
  aout ← aout_read e junk junk_text;
  match aout with
  | None =>
      on_out (Listing.print (chars "Failed to object."%string ++ [newline])%list);; mret Listing.EXIT_FAILURE
  | Some _ =>
      b ← on_heap (deref aout); h ← header_of b;
      on_out (Listing.print_header h);;
      on_out (Listing.print ([newline] ++ chars ".text"%string ++ [newline])%list);;
      print_text aout 0 (Z.to_nat (Z.shiftr (a_text h) 1));;
      aout_free aout;;
      mret Listing.EXIT_SUCCESS
  end.

(** ** The loops against [Load.read_words] *)
Definition with_hp (h : heap block) (w : world) : world := World h (file w) (printed w).

Lemma on_heap_done {A} (m : M (heap block) A) a h w :
  m (hp w) = Done a h -> on_heap m w = Done a (with_hp h w).
Proof. intros H. unfold on_heap. by rewrite H. Qed.

Lemma words_put ws b : List.length ws = List.length (words_of b) -> words_of (put_words ws b) = ws.
Proof.
  destruct b as [h t|]; [|done]. cbn. intros Hl.
  do 9 (destruct ws as [|? ws]; try discriminate). done.
Qed.

Lemma put_put ws ws' b : List.length ws' = List.length (words_of b) -> List.length ws = List.length (words_of b) ->
  put_words ws (put_words ws' b) = put_words ws b.
Proof.
  destruct b as [h t|]; [|done]. cbn. intros H1 H2. f_equal.
  do 9 (destruct ws as [|? ws]; try discriminate). do 9 (destruct ws' as [|? ws']; try discriminate). done.
Qed.

Lemma put_same b : put_words (words_of b) b = b.
Proof. destruct b as [[] t|]; done. Qed.

(** What one [read] does to a live block. *)
Lemma read_at_eq l b i old w :
  blocks (hp w) !! l = Some b -> words_of b !! i = Some old ->
  read_at (Some l) i w =
  match read_into old (file w) with
  | (None, r) => Done false (World (hp w) r (printed w))
  | (Some v, r) =>
      Done true (World (with_blocks (<[l := put_words (<[i := v]> (words_of b)) b]> (blocks (hp w))) (hp w)) r (printed w))
  end.
Proof.
  intros Hl Ho. unfold read_at. rewrite (bind_done _ _ _ _ _ (on_heap_done _ _ _ _ (deref_live _ _ _ Hl))).
  rewrite Ho. unfold the, read_word, mbind, M_bind, mret, M_ret. cbn [file with_hp].
  destruct (read_into old (file w)) as [[v|] r]; cbn [fst snd]; [|by destruct w as [[] ? ?]].
  unfold on_heap. cbn [hp]. by rewrite (assign_live _ _ _ _ Hl).
Qed.

(** A loop over the words [olds] behind [pre] reads what [Load.read_words] reads,
    into the block; at an error some words are overwritten. *)
Lemma read_loop_eq l olds : forall b pre w,
  blocks (hp w) !! l = Some b -> words_of b = pre ++ olds ->
  exists ws, List.length ws = List.length olds /\
    read_loop (Some l) (List.length pre) (List.length olds) w =
    Done (bool_decide (is_Some (read_words olds (file w)).1))
      (World (with_blocks (<[l := put_words (pre ++ ws) b]> (blocks (hp w))) (hp w))
        (read_words olds (file w)).2 (printed w)) /\
    forall ws', (read_words olds (file w)).1 = Some ws' -> ws = ws'.
Proof.
  induction olds as [|old olds IH]; intros b pre w Hl Hw.
  - exists []. split; [done|]. cbn [read_words read_loop fst snd List.length].
    rewrite <- Hw, put_same, insert_id by done. split; [by destruct w as [[] ? ?] | by intros ? [= <-]].
  - cbn [read_words read_loop List.length].
    assert (Ho : words_of b !! List.length pre = Some old) by (rewrite Hw; by apply list_lookup_middle).
    destruct (read_into old (file w)) as [[v|] r] eqn:E.
    + set (b1 := put_words (pre ++ v :: olds) b).
      set (w1 := World (with_blocks (<[l := b1]> (blocks (hp w))) (hp w)) r (printed w)).
      assert (E1 : read_at (Some l) (List.length pre) w = Done true w1).
      { rewrite (read_at_eq _ _ _ _ _ Hl Ho), E, Hw. unfold w1, b1. do 5 f_equal.
        by rewrite <- (Nat.add_0_r (List.length pre)), insert_app_r. }
      assert (Lv : List.length (pre ++ v :: olds) = List.length (words_of b)) by (rewrite Hw, !length_app; done).
      destruct (IH b1 (pre ++ [v]) w1) as (ws & Hn & E2 & Hs).
      { cbn. by rewrite lookup_insert_eq. }
      { unfold b1. rewrite words_put by done. by rewrite <- app_assoc. }
      exists (v :: ws). split; [cbn; by rewrite Hn|].
      rewrite (bind_done _ _ _ _ _ E1). cbv iota.
      rewrite List.length_app, Nat.add_comm in E2. cbn [List.length Nat.add] in E2. rewrite E2. cbn [file w1 printed].
      assert (Eb : with_blocks (<[l := put_words ((pre ++ [v]) ++ ws) b1]> (blocks (hp w1))) (hp w1)
          = with_blocks (<[l := put_words (pre ++ v :: ws) b]> (blocks (hp w))) (hp w)).
      { unfold w1. cbn [hp with_blocks blocks next open_fds next_fd]. unfold with_blocks.
        cbn [next open_fds next_fd]. rewrite insert_insert_eq. unfold b1.
        rewrite put_put by (rewrite ?Hw, !List.length_app in *; cbn in *; lia). by rewrite <- app_assoc. }
      rewrite Eb. cbn [file w1] in Hs. unfold reader in *.
      destruct (read_words olds r) as [[ws'|] r'']; cbn [fst snd] in *;
        (split; [reflexivity|]); [intros ? [= <-]; by rewrite (Hs ws') | done].
    + exists (old :: olds). split; [done|].
      rewrite (bind_done _ _ _ _ _ (eq_trans (read_at_eq _ _ _ _ _ Hl Ho) ltac:(rewrite E; reflexivity))).
      cbn. rewrite <- Hw, put_same, insert_id by done. split; [by destruct w as [[] ? ?] | done].
Qed.

(** ** Releasing *)
Lemma aout_free_empty l h w :
  blocks (hp w) !! l = Some (BAout h None) ->
  aout_free (Some l) w = Done None (with_hp (with_blocks (delete l (blocks (hp w))) (hp w)) w).
Proof.
  intros Hl. unfold aout_free, on_heap, text_of, mbind, M_bind, mret, M_ret.
  rewrite (deref_live _ _ _ Hl). cbn [hp file printed]. by rewrite (free_live _ _ _ Hl).
Qed.

Lemma aout_free_text l t h b w :
  l <> t -> blocks (hp w) !! l = Some (BAout h (Some t)) -> blocks (hp w) !! t = Some b ->
  aout_free (Some l) w = Done None (with_hp (with_blocks (delete l (delete t (blocks (hp w)))) (hp w)) w).
Proof.
  intros Hn Hl Ht. unfold aout_free, on_heap, text_of, header_of, mbind, M_bind, mret, M_ret.
  rewrite (deref_live _ _ _ Hl). cbn [hp file printed]. rewrite (free_live _ _ _ Ht). cbn [hp file printed].
  rewrite (assign_live l (BAout h (Some t))) by (cbn; by rewrite lookup_delete_ne).
  cbn [hp file printed].
  rewrite (free_live l (BAout h None)) by (cbn; by rewrite lookup_insert_eq).
  unfold with_hp, with_blocks. cbn. by rewrite delete_insert_eq.
Qed.

(** ** [aout_read] *)

(** A parsed object at [l]; the rest of the heap is as in [h0]. *)
Definition holds (a : aout_object) (l : positive) (h0 h : heap block) : Prop :=
  exists t, l <> t /\ blocks h0 !! l = None /\ blocks h0 !! t = None /\
    blocks h = <[t := BText (text a)]> (<[l := BAout (header a) (Some t)]> (blocks h0)).

(** An object that [aout_free] gives back whole, with or without a text. *)
Definition owned (l : positive) (h0 h : heap block) : Prop :=
  (exists hd, blocks h0 !! l = None /\ blocks h = <[l := BAout hd None]> (blocks h0)) \/
  exists a, holds a l h0 h.

Lemma owned_free l h0 w : owned l h0 (hp w) ->
  aout_free (Some l) w = Done None (with_hp (with_blocks (blocks h0) (hp w)) w).
Proof.
  intros [(hd & Fl & E) | (a & t & Hn & Fl & Ft & E)].
  - rewrite (aout_free_empty l hd) by (rewrite E; by rewrite lookup_insert_eq).
    by rewrite E, delete_insert_eq, delete_id.
  - rewrite (aout_free_text l t (header a) (BText (text a))).
    + rewrite E, delete_insert_eq, (delete_id (<[l := _]> _) t) by (by rewrite lookup_insert_ne).
      by rewrite delete_insert_eq, delete_id.
    + done.
    + rewrite E. rewrite lookup_insert_ne by done. by rewrite lookup_insert_eq.
    + by rewrite E, lookup_insert_eq.
Qed.

(** The two loops of [aout_read] on the heap, and what [Load.aout_read] computes. *)
Lemma read_header_eq l junk w : blocks (hp w) !! l = Some (BAout junk None) ->
  let b := blocks (hp w) in
  match Load.aout_read_header junk (file w) with
  | (Some h, r) =>
      aout_read_header (Some l) w
      = Done true (World (with_blocks (<[l := BAout h None]> b) (hp w)) r (printed w))
  | (None, r) =>
      exists h, aout_read_header (Some l) w
      = Done false (World (with_blocks (<[l := BAout h None]> b) (hp w)) r (printed w))
  end.
Proof.
  intros Hl. destruct (read_loop_eq l (header_refs junk) _ [] w Hl eq_refl) as (ws & _ & E & Hs).
  cbn [List.length app header_refs put_words] in E. unfold aout_read_header, HEADER_FIELDS.
  unfold Load.aout_read_header. change (header_refs junk) with
    [a_midmag junk; a_text junk; a_data junk; a_bss junk; a_syms junk; a_entry junk; a_trsize junk;
     a_drsize junk] in *.
  destruct (read_words _ (file w)) as [[ws'|] r]; cbn [fst snd] in *.
  - by rewrite (Hs ws') in E.
  - eexists. exact E.
Qed.

Lemma read_words_count olds r ws r' : read_words olds r = (Some ws, r') -> List.length ws = List.length olds.
Proof.
  revert r ws r'. induction olds as [|old olds IH]; intros r ws r'; cbn; [by intros [= <- _]|].
  destruct (read_into old r) as [[w|] r1]; [|done].
  destruct (read_words olds r1) as [[ws1|] r2] eqn:E; [|done]. intros [= <- _]. cbn. f_equal. by eapply IH.
Qed.


(** [aout_read_text] on an object without text: the text of [Load.aout_read_text],
    or an object to give back. *)
Lemma read_text_eq e l hd h0 w :
  heap_wf (hp w) -> blocks h0 !! l = None -> blocks (hp w) = <[l := BAout hd None]> (blocks h0) ->
  let res := Load.aout_read_text e hd (file w) in
  exists h', aout_read_text e (Some l) w = Done (bool_decide (is_Some res.1)) (World h' res.2 (printed w)) /\
    heap_wf h' /\ open_fds h' = open_fds (hp w) /\ next_fd h' = next_fd (hp w) /\
    owned l h0 h' /\ forall ws, res.1 = Some ws -> holds (Aout hd ws) l h0 h'.
Proof.
  intros Hwf Fl E res. pose proof (wf_fresh _ Hwf) as Ft.
  assert (Hl : blocks (hp w) !! l = Some (BAout hd None)) by (rewrite E; by rewrite lookup_insert_eq).
  assert (Hn : l <> next (hp w)) by (intros El; rewrite <- El, Hl in Ft; done).
  assert (Ft0 : blocks h0 !! next (hp w) = None) by (rewrite E, lookup_insert_ne in Ft by done; done).
  unfold res, Load.aout_read_text, aout_read_text. clear res.
  rewrite (bind_done _ _ _ _ _ (on_heap_done _ _ _ _ (deref_live _ _ _ Hl))).
  cbn [header_of]. unfold mbind at 1, M_bind at 1, mret at 1, M_ret at 1. cbv beta iota.
  set (n := Z.to_nat (Z.shiftr (a_text hd) 1)). destruct (calloc_ok e).
  - set (t := next (hp w)) in *. set (wt := <[t := BText (replicate n 0)]> (blocks (hp w))).
    set (h1 := Heap wt (Pos.succ t) (open_fds (hp w)) (next_fd (hp w))).
    rewrite (bind_done _ _ _ (Some t) (with_hp h1 w)) by done.
    assert (L1 : blocks h1 !! l = Some (BAout hd None)) by (cbn; unfold wt; by rewrite lookup_insert_ne).
    rewrite (bind_done _ _ _ tt _ (on_heap_done _ _ _ (with_hp h1 w) (assign_live l _ (BAout hd (Some t)) h1 L1))).
    match goal with |- context [read_loop _ _ _ ?w0] => set (w2 := w0) end.
    assert (L2 : blocks (hp w2) !! t = Some (BText (replicate n 0)))
      by (cbn; rewrite lookup_insert_ne by done; unfold wt; by rewrite lookup_insert_eq).
    destruct (read_loop_eq t (replicate n 0) _ [] w2 L2 eq_refl) as (ws & _ & E2 & Hs).
    rewrite length_replicate in E2. change (List.length []) with 0%nat in E2. rewrite E2.
    change (file w2) with (file w) in *. eexists. split; [reflexivity|].
    assert (Eb : forall c : list Z, <[t := BText c]> (blocks (hp w2))
        = <[t := BText c]> (<[l := BAout hd (Some t)]> (blocks h0))).
    { intros c. cbn. unfold wt. rewrite E.
      rewrite (insert_insert_ne _ t l) by done. rewrite insert_insert_eq, insert_insert_ne by done.
      by rewrite insert_insert_eq, insert_insert_ne by done. }
    assert (Ho : forall c, holds (Aout hd c) l h0 (with_blocks (<[t := BText c]> (blocks (hp w2))) (hp w2)))
      by (intros c; exists t; by rewrite <- Eb).
    cbn [put_words app]. split; [|split_and!; [done | done | right; by eexists | intros ws' Hw; rewrite (Hs ws' Hw); apply Ho]].
    pose proof (wf_malloc (BText (replicate n 0)) _ Hwf) as [W1 W2]. split; [|exact W2].
    intros l' Hl'. cbn [with_blocks blocks]. cbn in Hl'. rewrite Eb.
    specialize (W1 l' Hl'). cbn in W1. fold t in W1. fold t in Hl'.
    assert (l' <> t) by lia. rewrite lookup_insert_ne in W1 by done. rewrite lookup_insert_ne by done.
    rewrite E in W1. destruct (decide (l' = l)) as [->|]; [by rewrite lookup_insert_eq in W1|].
    by rewrite lookup_insert_ne in * by done.
  - rewrite (bind_done _ _ _ None (with_hp (hp w) w)) by done.
    rewrite (bind_done _ _ _ tt _ (on_heap_done _ _ _ (with_hp (hp w) w) (assign_live l _ (BAout hd None) (hp w) Hl))).
    rewrite insert_id by done. exists (hp w).
    split; [by destruct w as [[] ? ?]|]. split_and!; [apply Hwf | done | done | left; by exists hd | done].
Qed.

(** Behind a failed step of [aout_read]: the object is given back and the
    descriptor closed. *)
Lemma give_up_eq l h0 fd ok w : owned l h0 (hp w) ->
  (aout_free (Some l);; on_heap (close fd ok);; mret None : W ptr) w
  = Done None (World (Heap (blocks h0) (next (hp w)) (open_fds (hp w) ∖ {[fd]}) (next_fd (hp w))) (file w) (printed w)).
Proof. intros H. by rewrite (bind_done _ _ _ _ _ (owned_free l h0 w H)). Qed.

(** What [aout_read] leaves: the object of [Load.aout_read], or nothing; and the
    descriptor only when [malloc] fails behind a successful [open]. *)
Definition fds_after (e : os) (h : heap block) : gset positive :=
  if open_ok e && negb (malloc_ok e) then {[next_fd h]} ∪ open_fds h else open_fds h.

Lemma aout_read_eq e junk junk_text w : heap_wf (hp w) ->
  exists p w', aout_read e junk junk_text w = Done p w' /\ printed w' = printed w /\
    open_fds (hp w') = fds_after e (hp w) /\
    match Load.aout_read e junk (file w) with
    | None => p = None /\ blocks (hp w') = blocks (hp w)
    | Some a => exists l, p = Some l /\ holds a l (hp w) (hp w')
    end.
Proof.
  intros Hwf. unfold aout_read, Load.aout_read, fds_after. destruct (open_ok e); cbn [negb andb];
    [|rewrite (bind_done _ _ _ None w) by (by destruct w as [[] ? ?]); by exists None, w].
  set (h1 := Heap (blocks (hp w)) (next (hp w)) ({[next_fd (hp w)]} ∪ open_fds (hp w)) (Pos.succ (next_fd (hp w)))).
  rewrite (bind_done _ _ _ (Some (next_fd (hp w))) (with_hp h1 w)) by done.
  pose proof (wf_open _ Hwf) as W1. fold h1 in W1. pose proof (open_close _ Hwf) as Eo.
  destruct (malloc_ok e); cbn [negb];
    [|rewrite (bind_done _ _ _ None (with_hp h1 w)) by done; by exists None, (with_hp h1 w)].
  set (l := next (hp w)).
  set (h2 := Heap (<[l := BAout junk junk_text]> (blocks (hp w))) (Pos.succ l) (open_fds h1) (next_fd h1)).
  pose proof (wf_malloc (BAout junk junk_text) _ W1 : heap_wf h2) as W2.
  rewrite (bind_done _ _ _ (Some l) (with_hp h2 w)) by done.
  assert (L2 : blocks h2 !! l = Some (BAout junk junk_text)) by (cbn; by rewrite lookup_insert_eq).
  rewrite (bind_done _ _ _ tt _ (on_heap_done _ _ _ (with_hp h2 w) (assign_live l _ (BAout junk None) h2 L2))).
  set (w3 := with_hp (with_blocks (<[l := BAout junk None]> (blocks h2)) h2) (with_hp h2 w)).
  assert (L3 : blocks (hp w3) !! l = Some (BAout junk None)) by (cbn; by rewrite lookup_insert_eq).
  assert (F0 : blocks (hp w) !! l = None) by exact (wf_fresh _ Hwf).
  pose proof (read_header_eq l junk w3 L3) as H. cbn zeta in H.
  assert (Eb : forall hd, <[l := BAout hd None]> (blocks (hp w3)) = <[l := BAout hd None]> (blocks (hp w)))
    by (intros hd; cbn; by rewrite !insert_insert_eq).
  change (file w3) with (file w) in H.
  destruct (Load.aout_read_header junk (file w)) as [[hd|] r]; cbn [fst].
  2: { destruct H as (hd & H). rewrite (bind_done _ _ _ _ _ H). cbn [negb].
    rewrite (give_up_eq l (hp w)) by (left; exists hd; split; [exact F0 | apply Eb]).
    eexists _, _. split; [reflexivity|]. split; [done|]. split; [exact Eo | done]. }
  rewrite (bind_done _ _ _ _ _ H). cbn [negb]. rewrite Eb.
  match goal with |- context [(aout_read_text e (Some l) ≫= _) ?w0] => set (w4 := w0) end.
  assert (W4 : heap_wf (hp w4)).
  { destruct W2 as [P1 P2]. split; [|exact P2]. intros l' Hl'. specialize (P1 l' Hl'). cbn in P1, Hl' |- *.
    rewrite lookup_insert_ne in P1 by lia. by rewrite lookup_insert_ne by lia. }
  destruct (read_text_eq e l hd (hp w) w4 W4 F0 eq_refl) as (h5 & E5 & _ & Ef & Enf & Ow & Hh).
  change (file w4) with r in *. rewrite (bind_done _ _ _ _ _ E5).
  destruct (Load.aout_read_text e hd r) as [[ws|] r']; cbn [fst snd] in *.
  - rewrite bool_decide_eq_true_2 by (by exists ws). cbn [negb].
    set (h6 := Heap (blocks h5) (next h5) (open_fds h5 ∖ {[next_fd (hp w)]}) (next_fd h5)).
    rewrite (bind_done _ _ _ (close_ok e) (World h6 r' (printed w4))) by done.
    assert (Eo6 : open_fds h6 = open_fds (hp w)) by (cbn; rewrite Ef; exact Eo).
    destruct (close_ok e); cbn [negb].
    + eexists _, _. split; [reflexivity|]. split; [done|]. split; [exact Eo6|]. exists l. split; [done|].
      exact (Hh ws eq_refl).
    + rewrite (bind_done _ _ _ _ _ (owned_free l (hp w) (World h6 r' (printed w4)) Ow)).
      eexists _, _. split; [reflexivity|]. by split.
  - rewrite bool_decide_eq_false_2 by (by intros [? ?]). cbn [negb].
    rewrite (give_up_eq l (hp w)) by exact Ow.
    eexists _, _. split; [reflexivity|]. split; [done|]. cbn. split; [by rewrite Ef | done].
Qed.

(** ** The listing *)
Lemma aout_text_length e junk r a :
  Load.aout_read e junk r = Some a -> List.length (text a) = Z.to_nat (Z.shiftr (a_text (header a)) 1).
Proof.
  unfold Load.aout_read, Load.aout_read_text. destruct (open_ok e), (malloc_ok e); try done. cbn [negb].
  destruct (Load.aout_read_header junk r) as [[h|] r1]; [|done]. destruct (calloc_ok e); [|done].
  destruct (read_words _ r1) as [[ws|] r2] eqn:E; [|done]. destruct (close_ok e); [|done].
  intros [= <-]. cbn. rewrite (read_words_count _ _ _ _ E). by rewrite length_replicate.
Qed.

Lemma print_text_eq a l h0 n i w :
  holds a l h0 (hp w) -> (i + n <= List.length (text a))%nat ->
  exists out, print_text (Some l) i n w = Done tt (World (hp w) (file w) out) /\
    Listing.print_words n i (text a) (printed w) = Done tt out.
Proof.
  intros Hh. revert i w Hh. induction n as [|n IH]; intros i w Hh Hl; cbn [print_text Listing.print_words].
  - exists (printed w). by destruct w.
  - destruct (lookup_lt_is_Some_2 (text a) i) as [v Hv]; [lia|]. rewrite Hv.
    pose proof Hh as (t & Hn & _ & _ & E).
    erewrite bind_done
      by (apply on_heap_done; apply (deref_live l (BAout (header a) (Some t))); rewrite E; by simplify_map_eq).
    cbn [text_of]. erewrite bind_done by done.
    erewrite bind_done
      by (apply on_heap_done; apply (deref_live t (BText (text a))); cbn; rewrite E; by simplify_map_eq).
    cbn [words_of]. rewrite Hv. cbn [the]. erewrite bind_done by done.
    erewrite (bind_done (on_out _)) by done.
    destruct (IH (S i) (World (hp w) (file w) (printed w ++ Listing.word_line v)%list)) as (out & E1 & E2);
      [exact Hh | lia |].
    exists out. split; [exact E1|]. by erewrite bind_done by done.
Qed.

Lemma print_header_done h out : exists out', Listing.print_header h out = Done tt out'.
Proof. eexists. reflexivity. Qed.

(** [main] prints what [Listing.main] prints and gives back what it took. *)
Lemma main_refines e junk junk_text w : heap_wf (hp w) ->
  exists st w', main e junk junk_text w = Done st w' /\
    Listing.main (Some (Load.aout_read e junk (file w))) (printed w) = Done st (printed w') /\
    blocks (hp w') = blocks (hp w) /\ open_fds (hp w') = fds_after e (hp w).
Proof.
  intros Hwf. destruct (aout_read_eq e junk junk_text w Hwf) as (p & w1 & E & Ep & Ef & H).
  unfold main. rewrite (bind_done _ _ _ _ _ E).
  destruct (Load.aout_read e junk (file w)) as [a|] eqn:Ea.
  - destruct H as (l & -> & Hh). cbn [Listing.main]. rewrite <- Ep.
    pose proof Hh as (t & Hn & _ & _ & Eb).
    erewrite bind_done
      by (apply on_heap_done; apply (deref_live l (BAout (header a) (Some t))); rewrite Eb; by simplify_map_eq).
    cbn [header_of]. erewrite bind_done by done.
    destruct (print_header_done (header a) (printed w1)) as (out1 & E1). rewrite (bind_done _ _ _ _ _ E1).
    erewrite (bind_done (on_out _)) by (unfold on_out; cbn [printed with_hp]; by rewrite E1).
    erewrite (bind_done (on_out _)) by done. erewrite (bind_done (Listing.print _)) by done.
    cbn [printed hp file with_hp].
    match goal with |- context [(print_text _ _ _ ≫= _) ?w0] => set (w2 := w0) end.
    destruct (print_text_eq a l (hp w) (Z.to_nat (Z.shiftr (a_text (header a)) 1)) 0 w2) as (out2 & E2 & E2');
      [exact Hh | by rewrite (aout_text_length _ _ _ _ Ea) |].
    rewrite (bind_done _ _ _ _ _ E2). cbn [printed w2] in E2'. rewrite (bind_done _ _ _ _ _ E2').
    erewrite (bind_done (aout_free _)) by (apply (owned_free l (hp w)); right; by exists a).
    by eexists _, _.
  - destruct H as [-> Hb]. cbn [Listing.main]. eexists _, _. split; [reflexivity|]. cbn. by rewrite Ep.
Qed.
