(* ===== verification/Disk.v ===== *)
(** * The floppy disk controller

    [disk/disk.c] and [disk/disk.h]: the [disk_state] record, the register
    accesses over the bus and the state machine of the loop of [execute].  The
    disk image is the list of its bytes; [lseek], [read] and [write] on it behave
    as POSIX says for a regular file.  [internal_buffer] is the list of its 128
    words; as the target of [read] and the source of [write] it is the list of
    its bytes, little-endian.

    [pending_bus_requests] declares its request and never fills it: the request
    is an argument of the definitions here. *)
From S2P Require Import Prelude Bus.

Definition TRACK_SIZE : Z := 3328.
Definition SECTOR_SIZE : Z := 128.
Definition BUFFER_SIZE : Z := 128.
Definition RXCS_WRITE_MASK : Z := oct! 040137.
Definition RXCS_ADDR : Z := oct! 0777170.
Definition RXDB_ADDR : Z := oct! 0777172.

Definition RXCS_FLAG_GO : Z := oct! 0000001.
Definition RXCS_FLAG_FS : Z := oct! 0000016.
Definition RXCS_FLAG_DONE : Z := oct! 0000040.
Definition RXCS_FLAG_XFER : Z := oct! 0000200.

Inductive disk_op :=
| DSK_OP_BEGIN | DSK_OP_SECTOR | DSK_OP_TRACK | DSK_OP_FILL | DSK_OP_EMPTY
| DSK_OP_WRITE_SECTOR | DSK_OP_READ_SECTOR | DSK_OP_DONE.

Inductive disk_func :=
| DSK_FUNC_FILL_BUFFER | DSK_FUNC_EMPTY_BUFFER | DSK_FUNC_WRITE_SECTOR
| DSK_FUNC_READ_SECTOR | DSK_FUNC_NOT_USED | DSK_FUNC_READ_STATUS
| DSK_FUNC_WRITE_DEL | DSK_FUNC_READ_ERR | DSK_FUNC_IDLE.

#[export] Instance disk_op_eq_dec : EqDecision disk_op.
Proof. solve_decision. Defined.

#[export] Instance disk_func_eq_dec : EqDecision disk_func.
Proof. solve_decision. Defined.

Record disk_state := Disk {
  op : disk_op; func : disk_func; track : Z; sector : Z; rxcs : Z; rxdb : Z;
  buffer_idx : Z; internal_buffer : list Z; disk_media : Z;
  image : list Z                      (* the bytes of the open disk image *)
}.

(** ** Fields *)
Definition set_op (o : disk_op) (f : disk_func) (d : disk_state) : disk_state :=
  Disk o f (track d) (sector d) (rxcs d) (rxdb d) (buffer_idx d) (internal_buffer d)
    (disk_media d) (image d).

Definition set_rxcs (v : Z) (d : disk_state) : disk_state :=
  Disk (op d) (func d) (track d) (sector d) v (rxdb d) (buffer_idx d) (internal_buffer d)
    (disk_media d) (image d).

Definition set_rxdb (v : Z) (d : disk_state) : disk_state :=
  Disk (op d) (func d) (track d) (sector d) (rxcs d) v (buffer_idx d) (internal_buffer d)
    (disk_media d) (image d).

Definition set_address (t s : Z) (d : disk_state) : disk_state :=
  Disk (op d) (func d) t s (rxcs d) (rxdb d) (buffer_idx d) (internal_buffer d)
    (disk_media d) (image d).

Definition set_buffer (i : Z) (ws : list Z) (d : disk_state) : disk_state :=
  Disk (op d) (func d) (track d) (sector d) (rxcs d) (rxdb d) i ws (disk_media d) (image d).

Definition set_media (fd : Z) (bs : list Z) (d : disk_state) : disk_state :=
  Disk (op d) (func d) (track d) (sector d) (rxcs d) (rxdb d) (buffer_idx d)
    (internal_buffer d) fd bs.

(** The static record, zero before [main], then [init_disk]. *)
Definition init_disk : disk_state :=
  Disk DSK_OP_BEGIN DSK_FUNC_IDLE 0 0 0 0 0 (replicate (Z.to_nat BUFFER_SIZE) 0) (-1) [].

Definition is_local_addr (addr : Z) : Z :=
  if (addr =? RXCS_ADDR) || (addr =? RXDB_ADDR) then 1 else 0.

(** [insert_disk_media]: [open] gave [fd], or -1. *)
Definition insert_disk_media (fd : Z) (bs : list Z) (d : disk_state) : disk_state :=
  if fd =? -1 then d else set_media fd bs d.

(** ** Registers and flags *)
Definition clear_buffer_register (d : disk_state) : disk_state := set_rxdb 0 d.

Definition set_status_register (data : Z) (d : disk_state) : disk_state :=
  set_rxcs (Z.lor (rxcs d) (Z.land data RXCS_WRITE_MASK)) d.

Definition set_transfer_flag (d : disk_state) : disk_state :=
  if Z.land (rxcs d) RXCS_FLAG_XFER =? 0 then set_rxcs (Z.lor (rxcs d) RXCS_FLAG_XFER) d else d.

Definition clear_transfer_flag (d : disk_state) : disk_state :=
  set_rxcs (Z.land (rxcs d) RXCS_FLAG_XFER) d.

Definition is_transfer_flag_set (d : disk_state) : bool :=
  truth (Z.land (rxcs d) RXCS_FLAG_XFER).

Definition set_done_flag (d : disk_state) : disk_state :=
  if Z.land (rxcs d) RXCS_FLAG_DONE =? 0 then set_rxcs (Z.lor (rxcs d) RXCS_FLAG_DONE) d else d.

Definition clear_all_flags (d : disk_state) : disk_state := set_rxcs 0 d.

(** ** Bus requests *)
Definition with_value (x : data_xfer_spec) (v : Z) : data_xfer_spec := Xfer (x_op x) (x_addr x) v.

(** The state afterwards and the transfer given to [data_bus_reply], if any. *)
Definition pending_bus_requests (slave_req : data_xfer_spec) (d : disk_state) :
    disk_state * option data_xfer_spec :=
  let a := x_addr slave_req in
  let write :=
    if a =? RXCS_ADDR then (set_status_register (x_value slave_req) d, Some slave_req)
    else if a =? RXDB_ADDR then
      (clear_transfer_flag (set_rxdb (x_value slave_req) d), Some slave_req)
    else (d, None) in
  match x_op slave_req with
  | R_BLOCK_IN =>
      if a =? RXCS_ADDR then (d, Some (with_value slave_req (rxcs d)))
      else if a =? RXDB_ADDR then
        (clear_buffer_register (clear_transfer_flag d), Some (with_value slave_req (rxdb d)))
      else (d, None)
  | R_BLOCK_OUTB => write
  | R_BLOCK_OUT => write
  | _ => (d, None)
  end.

(** ** The buffer *)

(** [internal_buffer[i]] as a value and as the target of an assignment; [None]
    outside the array. *)
Definition buffer_read (i : Z) (d : disk_state) : option Z :=
  if (0 <=? i) then internal_buffer d !! Z.to_nat i else None.

Definition buffer_write (i v : Z) (d : disk_state) : option disk_state :=
  if (0 <=? i) && (i <? BUFFER_SIZE)
  then Some (set_buffer (buffer_idx d) (<[Z.to_nat i := v]> (internal_buffer d)) d)
  else None.

(** The common end of [fill_buffer] and [empty_buffer] after [buffer_idx++]. *)
Definition advance_buffer (d : disk_state) : disk_state :=
  let d := set_buffer (u32 (buffer_idx d + 1)) (internal_buffer d) d in
  if negb (buffer_idx d =? SECTOR_SIZE) then set_transfer_flag d
  else
    let d := set_done_flag (clear_all_flags d) in
    set_op DSK_OP_DONE DSK_FUNC_IDLE (set_buffer 0 (internal_buffer d) d).

Definition fill_buffer (d : disk_state) : option disk_state :=
  if buffer_idx d =? SECTOR_SIZE then Some d
  else if is_transfer_flag_set d then Some d
  else
    let d := clear_transfer_flag d in
    d ← buffer_write (buffer_idx d) (Z.land (rxdb d) (oct! 0377)) d;
    Some (advance_buffer (clear_buffer_register d)).

Definition empty_buffer (d : disk_state) : option disk_state :=
  if buffer_idx d =? SECTOR_SIZE then Some d
  else if is_transfer_flag_set d then Some d
  else
    w ← buffer_read (buffer_idx d) d;
    Some (advance_buffer (set_rxdb w d)).

(** ** Sectors *)
Definition word_bytes_le (w : Z) : list Z := [Z.land w 255; Z.shiftr (Z.land w 65280) 8].

Definition bytes_of (ws : list Z) : list Z := ws ≫= word_bytes_le.

Fixpoint words_of (bs : list Z) : list Z :=
  match bs with
  | b0 :: b1 :: bs' => Z.lor b0 (Z.shiftl b1 8) :: words_of bs'
  | _ => []
  end.

(** [read(fd, p, n)] at [offset]: the bytes delivered. *)
Definition file_read (offset n : Z) (bs : list Z) : list Z :=
  take (Z.to_nat n) (drop (Z.to_nat offset) bs).

(** [write(fd, p, n)] at [offset]: a gap past the end reads as zeros. *)
Definition file_write (offset : Z) (data bs : list Z) : list Z :=
  let off := Z.to_nat offset in
  take off bs ++ replicate (off - length bs) 0 ++ data ++ drop (off + length data) bs.

(** [TRACK_SIZE * track + SECTOR_SIZE * sector], in [uint32_t]. *)
Definition disk_offset (d : disk_state) : Z :=
  u32 (u32 (TRACK_SIZE * track d) + u32 (SECTOR_SIZE * sector d)).

(** The buffer after [read] put [bs] at its start. *)
Definition overlay (bs ws : list Z) : list Z := words_of (bs ++ drop (length bs) (bytes_of ws)).

(** The first two branches that [read_sector] and [write_sector] share. *)
Definition sector_address (d : disk_state) (transfer : disk_state -> disk_state) : disk_state :=
  if bool_decide (op d = DSK_OP_SECTOR) && negb (is_transfer_flag_set d) then
    set_transfer_flag (set_op DSK_OP_TRACK (func d) (set_address (track d) (rxdb d) d))
  else if bool_decide (op d = DSK_OP_TRACK) && negb (is_transfer_flag_set d) then
    set_op DSK_OP_WRITE_SECTOR (func d) (set_address (rxdb d) (sector d) d)
  else if bool_decide (op d = DSK_OP_WRITE_SECTOR) then
    let d := if negb (disk_media d =? -1) then transfer d else d in
    set_op DSK_OP_DONE DSK_FUNC_IDLE (set_address 0 0 d)
  else d.

Definition read_sector (d : disk_state) : disk_state :=
  sector_address d (fun d =>
    set_buffer (buffer_idx d)
      (overlay (file_read (disk_offset d) SECTOR_SIZE (image d)) (internal_buffer d)) d).

Definition write_sector (d : disk_state) : disk_state :=
  sector_address d (fun d =>
    set_media (disk_media d)
      (file_write (disk_offset d) (take 128 (bytes_of (internal_buffer d))) (image d)) d).

(** ** The loop of [execute] *)
Definition start_function (d : disk_state) : disk_state :=
  let function := Z.shiftr (Z.land RXCS_FLAG_FS (rxcs d)) 1 in
  let d := clear_all_flags d in
  switch function
    [(0, set_transfer_flag (set_op DSK_OP_FILL DSK_FUNC_FILL_BUFFER d));
     (1, set_op DSK_OP_EMPTY DSK_FUNC_EMPTY_BUFFER d);
     (2, set_transfer_flag (set_op DSK_OP_SECTOR DSK_FUNC_WRITE_SECTOR d));
     (3, set_transfer_flag (set_op DSK_OP_SECTOR DSK_FUNC_READ_SECTOR d))]
    d.

Definition transition (d : disk_state) : option disk_state :=
  let go_flag := truth (Z.land RXCS_FLAG_GO (rxcs d)) in
  if go_flag && (bool_decide (op d = DSK_OP_BEGIN) || bool_decide (op d = DSK_OP_DONE)) then
    Some (start_function d)
  else if bool_decide (op d = DSK_OP_FILL) && bool_decide (func d = DSK_FUNC_FILL_BUFFER) then
    fill_buffer d
  else if bool_decide (op d = DSK_OP_EMPTY) && bool_decide (func d = DSK_FUNC_EMPTY_BUFFER) then
    empty_buffer d
  else if bool_decide (func d = DSK_FUNC_READ_SECTOR) then Some (read_sector d)
  else if bool_decide (func d = DSK_FUNC_WRITE_SECTOR) then Some (write_sector d)
  else if bool_decide (op d = DSK_OP_DONE) then
    Some (set_done_flag (set_op DSK_OP_BEGIN (func d) d))
  else Some d.

(** One iteration with the given request. *)
Definition execute_once (slave_req : data_xfer_spec) (d : disk_state) :
    option (disk_state * option data_xfer_spec) :=
  let '(d, reply) := pending_bus_requests slave_req d in
  d ← transition d; Some (d, reply).

(** The iterations for a list of requests, and the replies. *)
Fixpoint execute (reqs : list data_xfer_spec) (d : disk_state) :
    option (disk_state * list (option data_xfer_spec)) :=
  match reqs with
  | [] => Some (d, [])
  | r :: reqs' =>
      '(d, reply) ← execute_once r d;
      '(d, replies) ← execute reqs' d;
      Some (d, reply :: replies)
  end.
