(* ===== verification/DiskProps.v ===== *)
(** * The floppy disk controller: properties *)
From S2P Require Import Prelude Bus Disk.

(** ** Well-formedness *)
Definition disk_wf (d : disk_state) : Prop :=
  is_u16 (track d) /\ is_u16 (sector d) /\ is_u16 (rxcs d) /\ is_u16 (rxdb d) /\
  0 <= buffer_idx d < BUFFER_SIZE /\ length (internal_buffer d) = Z.to_nat BUFFER_SIZE /\
  Forall (fun w => is_u16 w) (internal_buffer d) /\ Forall (fun b => is_u8 b) (image d).

Lemma init_disk_wf : disk_wf init_disk.
Proof.
  unfold disk_wf, init_disk. cbn [track sector rxcs rxdb buffer_idx internal_buffer image].
  rewrite length_replicate. unfold BUFFER_SIZE.
  split_and!; try lia; [apply Forall_replicate; lia | constructor].
Qed.

(** ** Words and bytes *)
Lemma bytes_of_length ws : length (bytes_of ws) = (2 * length ws)%nat.
Proof. induction ws as [|w ws IH]; [done|]. cbn. change (mbind _ ws) with (bytes_of ws). lia. Qed.

Lemma words_of_bytes ws : Forall (fun w => is_u16 w) ws -> words_of (bytes_of ws) = ws.
Proof.
  induction 1 as [|w ws Hw _ IH]; [done|]. cbn. change (mbind _ ws) with (bytes_of ws).
  by rewrite word_bytes, IH by done.
Qed.

Lemma bytes_of_u8 ws : Forall (fun w => is_u16 w) ws -> Forall (fun b => is_u8 b) (bytes_of ws).
Proof.
  induction 1 as [|w ws Hw _ IH]; [constructor|]. cbn.
  rewrite high_byte, u8_land by done. repeat constructor; try apply IH; mod_lia.
Qed.

Lemma words_of_length bs : length (words_of bs) = (length bs / 2)%nat.
Proof.
  assert (H : forall n bs, (length bs <= n)%nat -> length (words_of bs) = (length bs / 2)%nat).
  { clear. induction n as [|n IH]; intros [|b0 [|b1 bs]] Hl; cbn [words_of length] in *;
      try done; try lia.
    rewrite IH by lia. replace (S (S (length bs))) with (1 * 2 + length bs)%nat by lia.
    by rewrite Nat.div_add_l by lia. }
  by apply (H (length bs)).
Qed.

Lemma words_of_u16 bs : Forall (fun b => is_u8 b) bs -> Forall (fun w => is_u16 w) (words_of bs).
Proof.
  assert (H : forall n bs, (length bs <= n)%nat -> Forall (fun b => is_u8 b) bs ->
    Forall (fun w => is_u16 w) (words_of bs)).
  { clear. induction n as [|n IH]; intros [|b0 [|b1 bs]] Hl Hb; cbn in *; try done; try lia.
    inversion Hb as [|? ? H0 Hb']; subst. inversion Hb' as [|? ? H1 Hb'']; subst.
    constructor; [|apply IH; [lia | done]].
    rewrite Z.lor_comm, lor_shiftl_add by lia. lia. }
  by apply (H (length bs)).
Qed.

Lemma overlay_ok bs ws :
  Forall (fun b => is_u8 b) bs -> Forall (fun w => is_u16 w) ws -> (length bs <= 2 * length ws)%nat ->
  Forall (fun w => is_u16 w) (overlay bs ws) /\ length (overlay bs ws) = length ws.
Proof.
  intros Hb Hw Hl. split.
  - apply words_of_u16, Forall_app. split; [done|]. by apply Forall_drop, bytes_of_u8.
  - unfold overlay. rewrite words_of_length, length_app, length_drop, bytes_of_length.
    replace (length bs + (2 * length ws - length bs))%nat with (length ws * 2)%nat by lia.
    by rewrite Nat.div_mul.
Qed.

(** ** Every step keeps the record well formed *)
Ltac disk_fields := unfold disk_wf in *;
  cbn [op func track sector rxcs rxdb buffer_idx internal_buffer disk_media image set_op set_rxcs
       set_rxdb set_address set_buffer set_media] in *.

Lemma set_rxcs_wf v d : is_u16 v -> disk_wf d -> disk_wf (set_rxcs v d).
Proof. intros Hv H. disk_fields. tauto. Qed.

Lemma set_rxdb_wf v d : is_u16 v -> disk_wf d -> disk_wf (set_rxdb v d).
Proof. intros Hv H. disk_fields. tauto. Qed.

Lemma set_op_wf o f d : disk_wf d -> disk_wf (set_op o f d).
Proof. done. Qed.

Lemma set_address_wf t s d : is_u16 t -> is_u16 s -> disk_wf d -> disk_wf (set_address t s d).
Proof. intros Ht Hs H. disk_fields. tauto. Qed.

Lemma set_transfer_flag_wf d : disk_wf d -> disk_wf (set_transfer_flag d).
Proof.
  intros H. unfold set_transfer_flag. destruct (_ =? 0); [|done].
  apply set_rxcs_wf; [|done]. apply lor_u16; [apply H | unfold RXCS_FLAG_XFER; lia].
Qed.

Lemma set_done_flag_wf d : disk_wf d -> disk_wf (set_done_flag d).
Proof.
  intros H. unfold set_done_flag. destruct (_ =? 0); [|done].
  apply set_rxcs_wf; [|done]. apply lor_u16; [apply H | unfold RXCS_FLAG_DONE; lia].
Qed.

Lemma clear_transfer_flag_wf d : disk_wf d -> disk_wf (clear_transfer_flag d).
Proof. intros H. apply set_rxcs_wf; [|done]. apply land_u16_l, H. Qed.

Lemma clear_all_flags_wf d : disk_wf d -> disk_wf (clear_all_flags d).
Proof. intros H. apply set_rxcs_wf; [lia | done]. Qed.

Lemma set_status_register_wf v d : disk_wf d -> disk_wf (set_status_register v d).
Proof.
  intros H. apply set_rxcs_wf; [|done]. apply lor_u16; [apply H|].
  apply land_u16. unfold RXCS_WRITE_MASK. lia.
Qed.

Create HintDb disk.
#[export] Hint Resolve set_rxcs_wf set_rxdb_wf set_op_wf set_address_wf set_transfer_flag_wf
  set_done_flag_wf clear_transfer_flag_wf clear_all_flags_wf set_status_register_wf : disk.
#[export] Hint Extern 4 (_ <= _ < _) => lia : disk.

Lemma pending_wf x d : is_u16 (x_value x) -> disk_wf d -> disk_wf (pending_bus_requests x d).1.
Proof.
  intros Hx H. unfold pending_bus_requests.
  destruct (x_op x), (x_addr x =? RXCS_ADDR), (x_addr x =? RXDB_ADDR); cbn [fst];
    unfold clear_buffer_register; auto with disk.
Qed.

Lemma advance_buffer_wf d : disk_wf d -> disk_wf (advance_buffer d).
Proof.
  intros H. unfold advance_buffer. destruct (negb _) eqn:E; cbv zeta.
  - apply set_transfer_flag_wf. apply negb_true_iff, Z.eqb_neq in E. revert H E. disk_fields.
    unfold BUFFER_SIZE, SECTOR_SIZE. intros H E.
    rewrite u32_id in E |- * by lia. split_and!; try apply H; lia.
  - assert (H0 : disk_wf (set_buffer 0 (internal_buffer d) d))
      by (disk_fields; split_and!; try apply H; unfold BUFFER_SIZE; lia).
    apply set_op_wf.
    assert (Hc : disk_wf (set_rxcs (Z.lor 0 RXCS_FLAG_DONE) (set_buffer 0 (internal_buffer d) d)))
      by (apply set_rxcs_wf; [split; vm_compute; congruence | done]).
    exact Hc.
Qed.

Lemma fill_buffer_wf d : disk_wf d -> exists d', fill_buffer d = Some d' /\ disk_wf d'.
Proof.
  intros H. unfold fill_buffer. destruct (_ =? _); [by exists d|].
  destruct (is_transfer_flag_set d); [by exists d|]. cbv zeta.
  pose proof (clear_transfer_flag_wf d H) as H1. set (d1 := clear_transfer_flag d) in *.
  unfold buffer_write. pose proof H1 as (_ & _ & _ & Hdb & Hidx & Hlen & Hf & _).
  replace ((0 <=? buffer_idx d1) && (buffer_idx d1 <? BUFFER_SIZE)) with true
    by (symmetry; rewrite andb_true_iff, Z.leb_le, Z.ltb_lt; lia).
  eexists. split; [reflexivity|]. apply advance_buffer_wf.
  apply set_rxdb_wf; [lia|]. disk_fields. split_and!; try apply H1; try lia.
  - by rewrite length_insert.
  - apply Forall_insert; [done|]. apply land_u16. lia.
Qed.

Lemma empty_buffer_wf d : disk_wf d -> exists d', empty_buffer d = Some d' /\ disk_wf d'.
Proof.
  intros H. unfold empty_buffer. destruct (_ =? _); [by exists d|].
  destruct (is_transfer_flag_set d); [by exists d|].
  unfold buffer_read. pose proof H as (_ & _ & _ & _ & Hidx & Hlen & Hf & _).
  replace (0 <=? buffer_idx d) with true by (symmetry; apply Z.leb_le; lia).
  destruct (lookup_lt_is_Some_2 (internal_buffer d) (Z.to_nat (buffer_idx d))) as [w Hw]; [lia|].
  rewrite Hw. eexists. split; [reflexivity|]. apply advance_buffer_wf, set_rxdb_wf; [|done].
  by eapply (Forall_lookup_1 _ _ _ _ Hf).
Qed.

Lemma file_write_u8 o data bs :
  Forall (fun b => is_u8 b) data -> Forall (fun b => is_u8 b) bs -> Forall (fun b => is_u8 b) (file_write o data bs).
Proof.
  intros Hd Hb. unfold file_write. rewrite !Forall_app. split_and!.
  - by apply Forall_take.
  - apply Forall_replicate. lia.
  - done.
  - by apply Forall_drop.
Qed.

Lemma sector_address_wf t d :
  (disk_wf d -> disk_wf (t d)) -> disk_wf d -> disk_wf (sector_address d t).
Proof.
  intros Ht H. unfold sector_address.
  destruct (_ && _); [|destruct (_ && _); [|destruct (bool_decide _); [|done]]].
  - apply set_transfer_flag_wf, set_op_wf, set_address_wf; try apply H; done.
  - apply set_op_wf, set_address_wf; try apply H; done.
  - cbv zeta. apply set_op_wf, set_address_wf; [lia | lia |]. destruct (negb _); auto.
Qed.

Lemma read_sector_wf d : disk_wf d -> disk_wf (read_sector d).
Proof.
  intros H. apply sector_address_wf; [|done]. intros _.
  pose proof H as (_ & _ & _ & _ & Hidx & Hlen & Hf & Him).
  destruct (overlay_ok (file_read (disk_offset d) SECTOR_SIZE (image d)) (internal_buffer d)) as [H1 H2].
  - by apply Forall_take, Forall_drop.
  - done.
  - unfold file_read. rewrite length_take, Hlen. unfold SECTOR_SIZE, BUFFER_SIZE. lia.
  - disk_fields. rewrite H2. tauto.
Qed.

Lemma write_sector_wf d : disk_wf d -> disk_wf (write_sector d).
Proof.
  intros H. apply sector_address_wf; [|done]. intros _.
  pose proof H as (_ & _ & _ & _ & Hidx & Hlen & Hf & Him).
  assert (Forall (fun b => is_u8 b) (file_write (disk_offset d) (take 128 (bytes_of (internal_buffer d))) (image d)))
    by (apply file_write_u8; [by apply Forall_take, bytes_of_u8 | done]).
  disk_fields. tauto.
Qed.

Lemma start_function_wf d : disk_wf d -> disk_wf (start_function d).
Proof. intros H. unfold start_function. cbn [switch]. repeat case_match; auto with disk. Qed.

Lemma transition_wf d : disk_wf d -> exists d', transition d = Some d' /\ disk_wf d'.
Proof.
  intros H. unfold transition.
  destruct (_ && _); [eexists; split; [reflexivity | by apply start_function_wf]|].
  destruct (_ && _); [by apply fill_buffer_wf|].
  destruct (_ && _); [by apply empty_buffer_wf|].
  destruct (bool_decide _); [eexists; split; [reflexivity | by apply read_sector_wf]|].
  destruct (bool_decide _); [eexists; split; [reflexivity | by apply write_sector_wf]|].
  destruct (bool_decide _); eexists; (split; [reflexivity|]); auto with disk.
Qed.

Lemma execute_once_wf x d :
  is_u16 (x_value x) -> disk_wf d -> exists d' r, execute_once x d = Some (d', r) /\ disk_wf d'.
Proof.
  intros Hx H. unfold execute_once. pose proof (pending_wf x d Hx H) as H1.
  destruct (pending_bus_requests x d) as [d1 r]. cbn [fst] in H1.
  destruct (transition_wf d1 H1) as (d2 & E & H2). exists d2, r. by rewrite E.
Qed.

(** C14: The disk controller never leaves its buffer: for every sequence of
    requests, whatever their operations, addresses and 16-bit values, the loop
    runs through, and every field stays in the range of its type. *)
Theorem disk_execute_safe reqs d :
  disk_wf d -> Forall (fun x => is_u16 (x_value x)) reqs ->
  exists d' replies, execute reqs d = Some (d', replies) /\ disk_wf d' /\ length replies = length reqs.
Proof.
  intros Hd Hr. revert d Hd. induction Hr as [|x reqs Hx _ IH]; intros d Hd; cbn [execute].
  - by exists d, [].
  - destruct (execute_once_wf x d Hx Hd) as (d1 & r & -> & H1). cbn.
    destruct (IH d1 H1) as (d2 & rs & -> & H2 & Hl). exists d2, (r :: rs). cbn. by rewrite Hl.
Qed.

(** ** Flags *)
Definition xfer (d : disk_state) : bool := Z.testbit (rxcs d) 7.
Definition done_bit (d : disk_state) : bool := Z.testbit (rxcs d) 5.

Lemma is_transfer_flag_xfer d : is_transfer_flag_set d = xfer d.
Proof. apply (truth_land_bit _ 7). lia. Qed.

Lemma set_transfer_flag_bits d :
  xfer (set_transfer_flag d) = true /\ done_bit (set_transfer_flag d) = done_bit d.
Proof.
  unfold set_transfer_flag, xfer, done_bit. change RXCS_FLAG_XFER with (2 ^ 7).
  rewrite land_bit by lia. destruct (Z.testbit (rxcs d) 7) eqn:E; cbn [Z.eqb].
  - split; [exact E | reflexivity].
  - change (0 =? 0) with true. cbn [rxcs set_rxcs]. by rewrite !Z.lor_spec, E, orb_false_r.
Qed.

Lemma clear_transfer_flag_bits d :
  xfer (clear_transfer_flag d) = xfer d /\ done_bit (clear_transfer_flag d) = false.
Proof.
  unfold clear_transfer_flag, xfer, done_bit. cbn [rxcs set_rxcs].
  rewrite !Z.land_spec. change (Z.testbit RXCS_FLAG_XFER 7) with true.
  change (Z.testbit RXCS_FLAG_XFER 5) with false. by rewrite andb_true_r, andb_false_r.
Qed.

Lemma set_status_register_bits v d :
  xfer (set_status_register v d) = xfer d /\ done_bit (set_status_register v d) = done_bit d.
Proof.
  unfold set_status_register, xfer, done_bit. cbn [rxcs set_rxcs].
  rewrite !Z.lor_spec, !Z.land_spec. change (Z.testbit RXCS_WRITE_MASK 7) with false.
  change (Z.testbit RXCS_WRITE_MASK 5) with false. by rewrite !andb_false_r, !orb_false_r.
Qed.

(** ** The reachable states *)

(** Where the controller can be after [init_disk], for any requests: idle; or in
    a filling or sector operation with the transfer flag set; or in an emptying
    operation before or after its first word. *)
Definition parked (d : disk_state) : Prop :=
  done_bit d = false /\ disk_media d = -1 /\ image d = [] /\
  internal_buffer d = replicate (Z.to_nat BUFFER_SIZE) 0 /\
  match op d with
  | DSK_OP_BEGIN => func d = DSK_FUNC_IDLE /\ xfer d = false /\ buffer_idx d = 0
  | DSK_OP_FILL => func d = DSK_FUNC_FILL_BUFFER /\ xfer d = true /\ buffer_idx d = 0
  | DSK_OP_SECTOR =>
      (func d = DSK_FUNC_READ_SECTOR \/ func d = DSK_FUNC_WRITE_SECTOR) /\ xfer d = true /\
      buffer_idx d = 0
  | DSK_OP_EMPTY => func d = DSK_FUNC_EMPTY_BUFFER /\ buffer_idx d = if xfer d then 1 else 0
  | _ => False
  end.

(** The fields a request leaves alone. *)
Definition same_machine (d d' : disk_state) : Prop :=
  op d' = op d /\ func d' = func d /\ buffer_idx d' = buffer_idx d /\
  internal_buffer d' = internal_buffer d /\ disk_media d' = disk_media d /\ image d' = image d.

Lemma pending_bits x d :
  let d' := (pending_bus_requests x d).1 in
  same_machine d d' /\ xfer d' = xfer d /\ (done_bit d = false -> done_bit d' = false).
Proof.
  unfold pending_bus_requests, clear_buffer_register. cbv zeta.
  pose proof (set_status_register_bits (x_value x) d) as [S1 S2].
  pose proof (clear_transfer_flag_bits (set_rxdb (x_value x) d)) as [C1 C2].
  pose proof (clear_transfer_flag_bits d) as [C3 C4].
  destruct (x_op x), (x_addr x =? RXCS_ADDR), (x_addr x =? RXDB_ADDR); cbn [fst];
    (split; [done|]); try (split; [done | auto]; fail); rewrite ?S1, ?S2; auto.
Qed.

Lemma parked_same d d' :
  same_machine d d' -> xfer d' = xfer d -> done_bit d' = false -> parked d -> parked d'.
Proof.
  intros (E1 & E2 & E3 & E4 & E5 & E6) Hx Hd (_ & P). unfold parked.
  by rewrite E1, E2, E3, E4, E5, E6, Hx, Hd.
Qed.

Lemma parked_start d : parked d -> op d = DSK_OP_BEGIN -> parked (start_function d).
Proof.
  intros (_ & Hm & Hi & Hb & P) Ho. rewrite Ho in P. destruct P as (Hf & _ & Hidx).
  assert (T : forall o f,
    match o with
    | DSK_OP_FILL => f = DSK_FUNC_FILL_BUFFER
    | DSK_OP_SECTOR => f = DSK_FUNC_READ_SECTOR \/ f = DSK_FUNC_WRITE_SECTOR
    | _ => False
    end -> parked (set_transfer_flag (set_op o f (clear_all_flags d)))).
  { intros o f H. destruct (set_transfer_flag_bits (set_op o f (clear_all_flags d))) as [X1 X2].
    unfold parked. rewrite X1, X2. unfold set_transfer_flag. by destruct o, (_ =? 0). }
  unfold start_function. cbn [switch].
  destruct (_ =? 0); [by apply T|].
  destruct (_ =? 1); [done|].
  destruct (_ =? 2); [apply T; by right|].
  destruct (_ =? 3); [apply T; by left|].
  unfold parked, clear_all_flags. cbn [op func rxcs buffer_idx internal_buffer disk_media image set_rxcs].
  by rewrite Ho.
Qed.

(** The first word of an emptying operation: the only one there is. *)
Lemma parked_empty d :
  parked d -> op d = DSK_OP_EMPTY -> exists d', empty_buffer d = Some d' /\ parked d'.
Proof.
  intros P Ho. pose proof P as (Hd & Hm & Hi & Hb & Q). rewrite Ho in Q. destruct Q as [Hf Hidx].
  unfold empty_buffer. rewrite is_transfer_flag_xfer.
  destruct (xfer d) eqn:Hx; [destruct (_ =? _); by exists d|].
  rewrite Hidx. unfold buffer_read. change (0 =? SECTOR_SIZE) with false. change (0 <=? 0) with true.
  cbv iota. rewrite Hb. change (replicate _ 0 !! Z.to_nat 0) with (Some 0). eexists.
  split; [reflexivity|]. unfold advance_buffer. cbn [buffer_idx set_rxdb]. rewrite Hidx.
  change (u32 (0 + 1)) with 1. cbn [buffer_idx set_buffer]. change (negb (1 =? SECTOR_SIZE)) with true.
  cbv zeta iota. set (d1 := set_buffer _ _ _).
  destruct (set_transfer_flag_bits d1) as [X1 X2]. unfold parked. rewrite X1, X2.
  unfold set_transfer_flag. destruct (_ =? 0); cbn; by rewrite Ho.
Qed.

Lemma parked_transition d : parked d -> exists d', transition d = Some d' /\ parked d'.
Proof.
  intros P. pose proof P as (Hd & Hm & Hi & Hb & Q). unfold transition.
  destruct (op d) eqn:Ho; try done.
  - destruct Q as (Hf & Hx & Hidx). rewrite Hf. rewrite orb_true_l, andb_true_r.
    destruct (truth _); [|by exists d]. eexists. split; [reflexivity|]. by apply parked_start.
  - destruct Q as (Hf & Hx & Hidx). rewrite andb_false_r. cbv iota. exists d. split; [|done].
    assert (E : forall t, sector_address d t = d).
    { intros t. unfold sector_address. rewrite is_transfer_flag_xfer, Hx, Ho. done. }
    unfold read_sector, write_sector. rewrite !E. by destruct Hf as [-> | ->].
  - destruct Q as (Hf & Hx & Hidx). rewrite andb_false_r, Hf. cbv iota. exists d. split; [|done].
    unfold fill_buffer. rewrite is_transfer_flag_xfer, Hx. by destruct (_ =? _).
  - destruct Q as (Hf & Hidx). rewrite andb_false_r, Hf. by apply parked_empty.
Qed.

Lemma parked_once x d : parked d -> exists d' r, execute_once x d = Some (d', r) /\ parked d'.
Proof.
  intros P. unfold execute_once. pose proof (pending_bits x d) as (S & X & D).
  destruct (pending_bus_requests x d) as [d1 r]. cbn [fst] in *.
  destruct (parked_transition d1) as (d2 & E & P2).
  - apply (parked_same d); [done | done | apply D, P | done].
  - exists d2, r. by rewrite E.
Qed.

Lemma parked_init : parked init_disk.
Proof. done. Qed.

(** A reply to a read of RXCS shows the register. *)
Definition shows_done (reply : option data_xfer_spec) (x : data_xfer_spec) : bool :=
  match reply with
  | Some r => bool_decide (x_op x = R_BLOCK_IN) && (x_addr x =? RXCS_ADDR) && Z.testbit (x_value r) 5
  | None => false
  end.

Lemma rxcs_reply x d d' r :
  done_bit d = false -> pending_bus_requests x d = (d', r) -> shows_done r x = false.
Proof.
  intros Hd. unfold pending_bus_requests. destruct (x_op x) eqn:Ho, (x_addr x =? RXCS_ADDR) eqn:Ha,
    (x_addr x =? RXDB_ADDR); intros [= <- <-]; unfold shows_done; rewrite ?Ho, ?Ha; try done; exact Hd.
Qed.

(** C15: No disk operation ever completes.  After [init_disk], whatever requests
    arrive, the controller never reaches the state behind an operation (nor the
    second half of a sector command), the DONE flag is never set, so no read of
    RXCS shows it, the buffer keeps its zeros and no disk image is open: clearing
    the transfer flag keeps exactly that flag, and nothing inserts the image. *)
Theorem disk_never_done reqs :
  exists d replies, execute reqs init_disk = Some (d, replies) /\
    (op d = DSK_OP_BEGIN \/ op d = DSK_OP_FILL \/ op d = DSK_OP_EMPTY \/ op d = DSK_OP_SECTOR) /\
    Z.testbit (rxcs d) 5 = false /\ disk_media d = -1 /\
    internal_buffer d = replicate (Z.to_nat BUFFER_SIZE) 0 /\
    Forall2 (fun r x => shows_done r x = false) replies reqs.
Proof.
  assert (H : forall d0, parked d0 -> exists d replies, execute reqs d0 = Some (d, replies) /\ parked d /\
    Forall2 (fun r x => shows_done r x = false) replies reqs).
  { induction reqs as [|x reqs IH]; intros d0 P; cbn [execute]; [by exists d0, []|].
    destruct (parked_once x d0 P) as (d1 & r & E1 & P1).
    destruct (IH d1 P1) as (d2 & rs & E2 & P2 & F). exists d2, (r :: rs). rewrite E1. cbn. rewrite E2.
    split; [done|]. split; [done|]. constructor; [|done].
    unfold execute_once in E1. destruct (pending_bus_requests x d0) as [d' r'] eqn:Ep.
    destruct (transition d') as [d''|]; [|done]. injection E1 as <- <-.
    eapply rxcs_reply; [apply P | exact Ep]. }
  destruct (H init_disk parked_init) as (d & rs & E & P & F). exists d, rs.
  destruct P as (Hd & Hm & _ & Hb & Q). split_and!; try done.
  destruct (op d); try done; auto.
Qed.

(** A fill, read or write command is stuck at its first transfer: with the
    transfer flag set, every sequence of requests leaves operation, function,
    buffer index, buffer and image as they are, and the flag set - the host's
    accesses to RXDB clear every flag but this one. *)
Theorem transfer_never_progresses reqs d :
  xfer d = true ->
  (op d = DSK_OP_FILL /\ func d = DSK_FUNC_FILL_BUFFER) \/
  (op d = DSK_OP_SECTOR /\ (func d = DSK_FUNC_READ_SECTOR \/ func d = DSK_FUNC_WRITE_SECTOR)) ->
  exists d' replies, execute reqs d = Some (d', replies) /\ same_machine d d' /\ xfer d' = true.
Proof.
  revert d. induction reqs as [|x reqs IH]; intros d Hx Hop; cbn [execute]; [by exists d, []|].
  unfold execute_once. pose proof (pending_bits x d) as (S & X & _).
  destruct (pending_bus_requests x d) as [d1 r]. cbn [fst] in *.
  pose proof S as (S1 & S2 & S3 & S4 & S5 & S6).
  assert (T : transition d1 = Some d1).
  { unfold transition. rewrite S1, S2. rewrite Hx in X.
    assert (E : forall t, sector_address d1 t = d1 \/ op d <> DSK_OP_SECTOR).
    { intros t. unfold sector_address. rewrite is_transfer_flag_xfer, X, S1.
      destruct (op d); auto; right; done. }
    destruct Hop as [[-> ->]|[Ho Hf]].
    - rewrite andb_false_r. cbv iota. unfold fill_buffer. rewrite is_transfer_flag_xfer, X.
      by destruct (_ =? _).
    - unfold read_sector, write_sector. rewrite Ho. rewrite andb_false_r. cbv iota.
      destruct Hf as [-> | ->]; cbn; f_equal; edestruct E as [E'|E']; [exact E' | done | exact E' | done]. }
  rewrite T. cbn. destruct (IH d1) as (d2 & rs & E2 & S' & X2).
  - by rewrite X.
  - by rewrite S1, S2.
  - exists d2, (r :: rs). rewrite E2. split; [done|]. split; [|done].
    destruct S' as (T1 & T2 & T3 & T4 & T5 & T6). unfold same_machine. by rewrite T1, T2, T3, T4, T5, T6.
Qed.

(** ** Sectors *)
Lemma file_read_write off data bs :
  0 <= off -> file_read off (Z.of_nat (length data)) (file_write off data bs) = data.
Proof.
  intros Ho. unfold file_read, file_write. rewrite Nat2Z.id.
  set (n := Z.to_nat off).
  assert (Hl : length (take n bs ++ replicate (n - length bs) 0) = n)
    by (rewrite length_app, length_take, length_replicate; lia).
  rewrite app_assoc, drop_app_length' by done. by rewrite take_app_length.
Qed.

Lemma file_write_elsewhere off data bs i :
  0 <= off -> (i < length bs)%nat ->
  (i < Z.to_nat off)%nat \/ (Z.to_nat off + length data <= i)%nat ->
  file_write off data bs !! i = bs !! i.
Proof.
  intros Ho Hi Hout. unfold file_write. set (n := Z.to_nat off) in *. destruct Hout as [H|H].
  - rewrite lookup_app_l by (rewrite length_take; lia). by rewrite lookup_take_lt.
  - rewrite lookup_app_r by (rewrite length_take; lia). rewrite length_take.
    replace (n - length bs)%nat with 0%nat by lia. cbn [replicate app].
    rewrite lookup_app_r by lia. rewrite lookup_drop. f_equal. lia.
Qed.

Lemma overlay_bytes ws ws' :
  Forall (fun w => is_u16 w) ws -> Forall (fun w => is_u16 w) ws' ->
  length ws = 128%nat -> length ws' = 128%nat ->
  overlay (take 128 (bytes_of ws)) ws' = take 64 ws ++ drop 64 ws'.
Proof.
  intros Hw Hw' Hl Hl'. unfold overlay.
  assert (B : forall n l, take (2 * n) (bytes_of l) = bytes_of (take n l)).
  { clear. induction n as [|n IH]; intros [|w l]; [done | done | done |].
    replace (2 * S n)%nat with (S (S (2 * n))) by lia. cbn.
    change (mbind _ l) with (bytes_of l). change (mbind _ (take n l)) with (bytes_of (take n l)).
    by rewrite <- IH. }
  assert (D : forall n l, drop (2 * n) (bytes_of l) = bytes_of (drop n l)).
  { clear. induction n as [|n IH]; intros [|w l]; [done | done | done |].
    replace (2 * S n)%nat with (S (S (2 * n))) by lia. cbn.
    change (mbind _ l) with (bytes_of l). apply IH. }
  rewrite (B 64%nat), bytes_of_length, length_take, Hl. change (2 * (64 `min` 128))%nat with (2 * 64)%nat.
  rewrite (D 64%nat). unfold bytes_of. rewrite <- bind_app. apply words_of_bytes.
  apply Forall_app. split; [by apply Forall_take | by apply Forall_drop].
Qed.

Definition at_sector (f : disk_func) (t s : Z) (d : disk_state) : disk_state :=
  set_op DSK_OP_WRITE_SECTOR f (set_address t s d).

(** C16: Sector round trip: with an image inserted, writing the buffer to a sector
    and reading the sector into any other buffer brings back the first 64 of the
    128 words; the other 64 keep what the reading buffer held, since 128 is the
    number of words where [read] and [write] count bytes.  A byte of the image
    outside the sector's 128 bytes is not touched. *)
Theorem sector_roundtrip t s d ws :
  disk_wf d -> disk_media d <> -1 -> 0 <= t < 77 -> 0 <= s <= 26 ->
  Forall (fun w => is_u16 w) ws -> length ws = 128%nat ->
  let d1 := write_sector (at_sector DSK_FUNC_WRITE_SECTOR t s d) in
  let d2 := read_sector (at_sector DSK_FUNC_READ_SECTOR t s (set_buffer (buffer_idx d) ws d1)) in
  op d1 = DSK_OP_DONE /\ op d2 = DSK_OP_DONE /\
  internal_buffer d2 = take 64 (internal_buffer d) ++ drop 64 ws /\ image d2 = image d1 /\
  (forall i, (i < length (image d))%nat ->
     (Z.of_nat i < 3328 * t + 128 * s \/ 3328 * t + 128 * s + 128 <= Z.of_nat i) ->
     image d1 !! i = image d !! i).
Proof.
  intros Hd Hm Ht Hs Hw Hl d1 d2.
  pose proof Hd as (_ & _ & _ & _ & _ & Hlen & Hf & _).
  assert (Hoff : forall d0 f, disk_offset (at_sector f t s d0) = 3328 * t + 128 * s).
  { intros d0 f. unfold disk_offset, at_sector, TRACK_SIZE, SECTOR_SIZE. cbn [track sector set_op set_address].
    rewrite (u32_id (3328 * t)), (u32_id (128 * s)), u32_id by lia. done. }
  assert (Hmb : (disk_media d =? -1) = false) by by apply Z.eqb_neq.
  set (data := take 128 (bytes_of (internal_buffer d))).
  assert (Hdl : length data = 128%nat)
    by (unfold data; rewrite length_take, bytes_of_length, Hlen; unfold BUFFER_SIZE; lia).
  assert (E1 : d1 = set_op DSK_OP_DONE DSK_FUNC_IDLE (set_address 0 0 (set_media (disk_media d)
    (file_write (3328 * t + 128 * s) data (image d)) (at_sector DSK_FUNC_WRITE_SECTOR t s d)))).
  { unfold d1, write_sector, sector_address. cbn [op at_sector set_op bool_decide andb].
    change (bool_decide (DSK_OP_WRITE_SECTOR = DSK_OP_SECTOR)) with false.
    change (bool_decide (DSK_OP_WRITE_SECTOR = DSK_OP_TRACK)) with false.
    change (bool_decide (DSK_OP_WRITE_SECTOR = DSK_OP_WRITE_SECTOR)) with true.
    cbn [andb]. cbv zeta iota. rewrite Hoff. cbn [disk_media at_sector set_op set_address].
    by rewrite Hmb. }
  assert (E2 : d2 = set_op DSK_OP_DONE DSK_FUNC_IDLE (set_address 0 0 (set_buffer (buffer_idx d)
    (overlay (file_read (3328 * t + 128 * s) SECTOR_SIZE (image d1)) ws)
    (at_sector DSK_FUNC_READ_SECTOR t s (set_buffer (buffer_idx d) ws d1))))).
  { unfold d2, read_sector, sector_address. cbn [op at_sector set_op bool_decide andb].
    change (bool_decide (DSK_OP_WRITE_SECTOR = DSK_OP_SECTOR)) with false.
    change (bool_decide (DSK_OP_WRITE_SECTOR = DSK_OP_TRACK)) with false.
    change (bool_decide (DSK_OP_WRITE_SECTOR = DSK_OP_WRITE_SECTOR)) with true.
    cbn [andb]. cbv zeta iota. rewrite Hoff. rewrite E1 at 1.
    cbn [disk_media at_sector set_op set_address set_buffer set_media].
    by rewrite Hmb. }
  assert (Ei : image d1 = file_write (3328 * t + 128 * s) data (image d)) by by rewrite E1.
  split_and!.
  - by rewrite E1.
  - by rewrite E2.
  - rewrite E2. cbn [internal_buffer set_op set_address set_buffer]. rewrite Ei.
    change SECTOR_SIZE with (Z.of_nat 128). rewrite <- Hdl at 1. rewrite file_read_write by lia.
    by apply overlay_bytes.
  - by rewrite E2.
  - intros i Hi Hout. rewrite Ei. apply file_write_elsewhere; [lia | done | rewrite Hdl; lia].
Qed.

(** ** Witnesses *)
Lemma disk_execute_safe_witness :
  exists d replies, execute [Xfer R_BLOCK_OUT RXCS_ADDR 1; Xfer R_BLOCK_OUT RXDB_ADDR 7] init_disk
    = Some (d, replies).
Proof.
  destruct (disk_execute_safe [Xfer R_BLOCK_OUT RXCS_ADDR 1; Xfer R_BLOCK_OUT RXDB_ADDR 7] init_disk)
    as (d & rs & H & _).
  - apply init_disk_wf.
  - apply Forall_cons_2; [cbn; lia|]. apply Forall_cons_2; [cbn; lia | apply Forall_nil_2].
  - exists d, rs. exact H.
Defined.

(** The state a FILL command leads to. *)
Definition filling : disk_state := set_transfer_flag (set_op DSK_OP_FILL DSK_FUNC_FILL_BUFFER init_disk).

Lemma transfer_never_progresses_witness :
  exists d replies, execute [Xfer R_BLOCK_OUT RXDB_ADDR 7] filling = Some (d, replies) /\
    same_machine filling d.
Proof.
  destruct (transfer_never_progresses [Xfer R_BLOCK_OUT RXDB_ADDR 7] filling) as (d & rs & H1 & H2 & _).
  - reflexivity.
  - left. split; reflexivity.
  - exists d, rs. split; [exact H1 | exact H2].
Defined.

Definition with_image : disk_state := insert_disk_media 3 (replicate 512 1) init_disk.

Lemma with_image_wf : disk_wf with_image.
Proof.
  destruct init_disk_wf as (H1 & H2 & H3 & H4 & H5 & H6 & H7 & H8). unfold with_image.
  unfold insert_disk_media. change (3 =? -1) with false. cbv iota. disk_fields.
  split_and!; try assumption; try lia. apply Forall_replicate. lia.
Qed.

Lemma sector_roundtrip_witness :
  internal_buffer (read_sector (at_sector DSK_FUNC_READ_SECTOR 0 1
    (set_buffer 0 (replicate 128 9) (write_sector (at_sector DSK_FUNC_WRITE_SECTOR 0 1 with_image)))))
  = replicate 64 0 ++ replicate 64 9.
Proof.
  apply (sector_roundtrip 0 1 with_image (replicate 128 9)).
  - apply with_image_wf.
  - discriminate.
  - lia.
  - lia.
  - apply Forall_replicate. lia.
  - reflexivity.
Defined.
