(* ===== verification/DataBus.v ===== *)
(** * The data bus of a device

    [libunibus/data_bus.c] and the data bus half of
    [libunibus/device_bus_mgr.c]: the state a device's main thread shares with
    its data bus thread, the messages between devices, and the code of both
    threads cut at the points where another thread can come in between: the
    unlocking of a mutex, a signal, a wait.

    A datagram's [from] field is never read and is left out.  The fields of a
    message a function does not assign have the values the stack held: they come
    from the argument [junk].  A datagram sent to a neighbour arrives. *)
From S2P Require Import Prelude Bus.
From Stdlib Require Import Ascii String.
From stdpp Require Export strings.

(** ** Messages *)
Inductive data_bus_msg := DBM_REQ | DBM_RESP.

Inductive data_bus_signal := D_DATI | D_DATIP | D_DATO | D_DATOB | D_EMPTY.

(** [event.msg_type == DBM_REQ], [== DBM_RESP], and [op == R_DONE]. *)
Definition is_req (m : data_bus_msg) : bool := match m with DBM_REQ => true | DBM_RESP => false end.
Definition is_resp (m : data_bus_msg) : bool := match m with DBM_REQ => false | DBM_RESP => true end.
Definition is_done (o : data_op) : bool := match o with R_DONE => true | _ => false end.

#[export] Instance data_bus_msg_eq_dec : EqDecision data_bus_msg.
Proof. solve_decision. Defined.

#[export] Instance data_bus_signal_eq_dec : EqDecision data_bus_signal.
Proof. solve_decision. Defined.

Record data_bus_req := Req {
  msg_type : data_bus_msg; q_c : data_bus_signal; q_addr : Z; q_data : Z; q_msyn : Z; q_ssyn : Z
}.

(** ** State *)

(** The part of [bus_state] the data bus uses. *)
Record bus_state := BusState {
  is_master : bool;
  l_sock : option string; sock : string; r_sock : option string;
  master : data_xfer_spec; slave : data_xfer_spec;
  addr_internal_to_device : option (Z -> Z)
}.

(** [init_bus]; [connect_cpu_bus] makes the processor the first master. *)
Definition init_bus (l : option string) (s : string) (r : option string) (local : option (Z -> Z)) :
    bus_state :=
  BusState false l s r (Xfer R_NONE 0 0) (Xfer R_NONE 0 0) local.

Definition connect_cpu_bus (b : bus_state) : bus_state :=
  BusState true (l_sock b) (sock b) (r_sock b) (master b) (slave b) (addr_internal_to_device b).

Definition set_master (x : data_xfer_spec) (b : bus_state) : bus_state :=
  BusState (is_master b) (l_sock b) (sock b) (r_sock b) x (slave b) (addr_internal_to_device b).

Definition set_slave (x : data_xfer_spec) (b : bus_state) : bus_state :=
  BusState (is_master b) (l_sock b) (sock b) (r_sock b) (master b) x (addr_internal_to_device b).

(** [data_state]; the neighbours' addresses are present or not. *)
Record data_state := DataState {
  d_out_addr_l : option string; d_out_addr_r : option string;
  buffer : data_xfer_spec; req_issued : bool;
  is_addr_internal : option (Z -> Z)
}.

(** The neighbours [data_bus_mgr] takes over: not the bus arbiter. *)
Definition data_neighbour (s : option string) : option string :=
  match s with
  | Some (String "b"%char (String "a"%char _)) => None
  | _ => s
  end.

Definition init_data_state (b : bus_state) : data_state :=
  DataState (data_neighbour (l_sock b)) (data_neighbour (r_sock b)) (Xfer R_NONE 0 0) false
    (addr_internal_to_device b).

(** The data bus thread's place in the loop of [data_bus_mgr]. *)
Inductive bus_pc :=
| BPoll                          (* about to look at [master.op] *)
| BProcess                       (* about to call [process_op] *)
| BCheck                         (* about to call [check_bus] *)
| BRespSignal                    (* in [handle_resp], about to signal *)
| BReqSignal (s : data_bus_signal)  (* in [slave_wait], about to signal *)
| BReqEnter (s : data_bus_signal)   (* in [slave_wait], about to wait *)
| BReqWait (s : data_bus_signal)    (* waiting for [cond_slave_data] *)
| BReqWoken (s : data_bus_signal).  (* behind [slave_wait] *)

#[export] Instance bus_pc_eq_dec : EqDecision bus_pc.
Proof. solve_decision. Defined.

(** A device process without its main thread. *)
Record device := Device {
  shared : bus_state; dstate : data_state; inbox : list data_bus_req; bus_thread : bus_pc
}.

Definition set_shared (b : bus_state) (d : device) : device :=
  Device b (dstate d) (inbox d) (bus_thread d).

Definition set_thread (p : bus_pc) (d : device) : device :=
  Device (shared d) (dstate d) (inbox d) p.

Definition set_dstate (x : data_state) (d : device) : device :=
  Device (shared d) x (inbox d) (bus_thread d).

Definition receive (q : data_bus_req) (d : device) : device :=
  Device (shared d) (dstate d) (inbox d ++ [q]) (bus_thread d).

Definition connect_bus (b : bus_state) : device := Device b (init_data_state b) [] BPoll.

(** ** The data bus thread *)

(** The body of the loop under [state_mutex]: takes over the master's request. *)
Definition poll_master (b : bus_state) (x : data_state) : bus_state * data_state :=
  let m := master b in
  let b' := set_master (Xfer R_NONE (x_addr m) (x_value m)) b in
  let put op v := DataState (d_out_addr_l x) (d_out_addr_r x) (Xfer op (x_addr m) v)
                    (req_issued x) (is_addr_internal x) in
  match x_op m with
  | R_NONE | R_DONE => (b, x)
  | R_IN => (b', put R_IN (x_value (buffer x)))
  | R_INB => (b', put R_INB (x_value (buffer x)))
  | R_OUT => (b', put R_OUT (x_value m))
  | R_OUTB => (b', put R_OUTB (x_value m))
  | R_BLOCK_IN | R_BLOCK_INB | R_BLOCK_OUT | R_BLOCK_OUTB => (b', x)
  end.

(** The messages of [in_word], [out_word] and [out_byte]. *)
Definition in_word (junk : data_bus_req) (x : data_state) : data_bus_req :=
  Req DBM_REQ D_DATI (x_addr (buffer x)) (q_data junk) (q_msyn junk) (q_ssyn junk).

Definition out_word (junk : data_bus_req) (x : data_state) : data_bus_req :=
  Req DBM_REQ D_DATO (x_addr (buffer x)) (x_value (buffer x)) (q_msyn junk) (q_ssyn junk).

Definition out_byte (junk : data_bus_req) (x : data_state) : data_bus_req :=
  Req DBM_REQ D_DATOB (x_addr (buffer x)) (x_value (buffer x)) (q_msyn junk) (q_ssyn junk).

(** The message to send, if any, and the state afterwards. *)
Definition process_op (junk : data_bus_req) (x : data_state) : option data_bus_req * data_state :=
  let clear issued := DataState (d_out_addr_l x) (d_out_addr_r x)
    (Xfer R_NONE (x_addr (buffer x)) (x_value (buffer x))) issued (is_addr_internal x) in
  match x_op (buffer x) with
  | R_IN => (Some (in_word junk x), clear true)
  | R_OUT => (Some (out_word junk x), clear true)
  | R_OUTB => (Some (out_byte junk x), clear true)
  | _ => (None, clear (req_issued x))
  end.

Definition examine_address (x : data_state) (event : data_bus_req) : bool :=
  match is_addr_internal x with
  | None => false
  | Some f => truth (f (q_addr event))
  end.

(** [handle_resp], up to the signal: the reply for the main thread. *)
Definition handle_resp (event : data_bus_req) (d : device) : device :=
  let b := shared d in
  match q_c event with
  | D_DATI | D_DATO | D_DATOB =>
      set_thread BRespSignal
        (set_shared (set_master (Xfer R_DONE (x_addr (master b)) (q_data event)) b) d)
  | _ => set_thread BPoll d
  end.

(** [handle_dati], [handle_dato] and [handle_datob], up to [slave_wait]. *)
Definition handle_dati (event : data_bus_req) (d : device) : device :=
  set_thread (BReqSignal D_DATI)
    (set_shared (set_slave (Xfer R_BLOCK_IN (q_addr event) 0) (shared d)) d).

Definition handle_dato (event : data_bus_req) (d : device) : device :=
  set_thread (BReqSignal D_DATO)
    (set_shared (set_slave (Xfer R_BLOCK_OUT (q_addr event) (q_data event)) (shared d)) d).

Definition handle_datob (event : data_bus_req) (d : device) : device :=
  set_thread (BReqSignal D_DATOB)
    (set_shared (set_slave (Xfer R_BLOCK_OUTB (q_addr event) (q_data event)) (shared d)) d).

Definition handle_req (event : data_bus_req) (d : device) : device :=
  match q_c event with
  | D_DATI => handle_dati event d
  | D_DATO => handle_dato event d
  | D_DATOB => handle_datob event d
  | D_DATIP | D_EMPTY => set_thread BPoll d
  end.

Definition check_bus (d : device) : device :=
  match inbox d with
  | [] => set_thread BPoll d
  | event :: rest =>
      let d := Device (shared d) (dstate d) rest (bus_thread d) in
      let is_this_device := examine_address (dstate d) event in
      if is_req (msg_type event) && is_this_device then handle_req event d
      else if is_resp (msg_type event) && is_master (shared d)
              && req_issued (dstate d) then handle_resp event d
      else set_thread BPoll d
  end.

(** The three handlers behind [slave_wait]: the response, and the slave's request
    cleared if the main thread has served it. *)
Definition finish_req (s : data_bus_signal) (junk : data_bus_req) (d : device) :
    data_bus_req * device :=
  let b := shared d in
  if is_done (x_op (slave b)) then
    (Req DBM_RESP s (match s with D_DATOB => 0 | _ => q_addr junk end)
       (match s with D_DATI => x_value (slave b) | _ => 0 end) (q_msyn junk) 1,
     set_thread BPoll (set_shared (set_slave (Xfer R_NONE 0 0) b) d))
  else
    (Req DBM_RESP s (q_addr junk) (q_data junk) (q_msyn junk) 0, set_thread BPoll d).

(** [handle_resp] behind the signal. *)
Definition response_handled (d : device) : device :=
  let x := dstate d in
  set_thread BPoll
    (set_dstate (DataState (d_out_addr_l x) (d_out_addr_r x) (buffer x) false (is_addr_internal x)) d).

(** One step of the data bus thread that needs no other thread: the device
    afterwards and the message sent; [None] while it waits. *)
Definition bus_step (junk : data_bus_req) (d : device) : option (device * option data_bus_req) :=
  match bus_thread d with
  | BPoll =>
      let '(b, x) := poll_master (shared d) (dstate d) in
      Some (Device b x (inbox d) (if is_master (shared d) then BProcess else BCheck), None)
  | BProcess =>
      let '(m, x) := process_op junk (dstate d) in
      Some (set_thread BCheck (set_dstate x d), m)
  | BCheck => Some (check_bus d, None)
  | BRespSignal => Some (response_handled d, None)
  | BReqSignal s => Some (set_thread (BReqEnter s) d, None)
  | BReqEnter s => Some (set_thread (BReqWait s) d, None)
  | BReqWait s => None
  | BReqWoken s => let '(m, d) := finish_req s junk d in Some (d, Some m)
  end.

(** ** The main threads' side *)

(** [data_bus_check] *)
Definition data_bus_check (b : bus_state) : data_xfer_spec := slave b.

(** [data_bus_reply], up to the signal. *)
Definition data_bus_reply (d_op : data_xfer_spec) (b : bus_state) : bus_state :=
  set_slave (Xfer R_DONE (x_addr d_op) (x_value d_op)) b.

(** [pthread_cond_signal] on [cond_slave_data]: wakes the data bus thread if it
    waits, and is lost if it does not. *)
Definition signal_slave_data (d : device) : device :=
  match bus_thread d with
  | BReqWait s => set_thread (BReqWoken s) d
  | _ => d
  end.
