(* ===== verification/Transfer.v ===== *)
(** * A data transfer as an interleaving of four threads

    The processor's main thread (in [read_data_in], [write_data_out] or
    [write_data_out_b] of [libunibus/device_bus_mgr.c]), its data bus thread, the
    memory's data bus thread and the memory's main thread (the loop of [execute]
    of [mem/mem.c]) run in any order.  A condition variable has no memory: a
    signal wakes the thread that waits, and nobody otherwise.

    [step] is one step of one thread.  [timely] singles out the steps of the
    intended schedule, in which the data bus thread polls when no request is half
    written and a signal finds its waiter: there the four threads implement the
    memory as one step ([MasterBus mem_dev] of [Mem]). *)
From S2P Require Import Prelude Bus Mem DataBus.

(** ** The main threads *)
Inductive call := CRead (a : Z) | CWrite (a v : Z) | CWriteB (a v : Z).

Definition call_op (k : call) : data_op :=
  match k with CRead _ => R_IN | CWrite _ _ => R_OUT | CWriteB _ _ => R_OUTB end.

Definition call_addr (k : call) : Z :=
  match k with CRead a => a | CWrite a _ => a | CWriteB a _ => a end.

(** The processor's main thread inside a call. *)
Inductive cpu_pc :=
| CIdle
| CAddr (k : call)               (* [master.op] is written *)
| CValue (k : call)              (* and [master.addr] *)
| CIssued (k : call)             (* the request is complete *)
| CWait (k : call)               (* waiting for [cond_master_data] *)
| CWoken (k : call).             (* behind the wait *)

(** The memory's main thread in the loop of [execute]. *)
Inductive mem_pc :=
| KEnter                         (* about to wait *)
| KWait                          (* waiting for [cond_perma_slave] *)
| KWoken                         (* about to call [data_bus_check] *)
| KServe (r : data_xfer_spec)    (* with the request copied *)
| KReply (r : data_xfer_spec)    (* about to call [data_bus_reply] *)
| KSignal                        (* in [data_bus_reply], about to signal *)
| KCrash.                        (* undefined behaviour *)

Record sys := Sys {
  cpu_dev : device; cpu_main : cpu_pc; todo : list call; log : list (option Z);
  mem_device : device; mem_main : mem_pc; memory : mem_dev
}.

Inductive thread := CpuMain | CpuBus | MemBus | MemMain.

Definition on_cpu (f : device -> device) (pc : cpu_pc) (s : sys) : sys :=
  Sys (f (cpu_dev s)) pc (todo s) (log s) (mem_device s) (mem_main s) (memory s).

Definition on_master (f : data_xfer_spec -> data_xfer_spec) (d : device) : device :=
  set_shared (set_master (f (master (shared d))) (shared d)) d.

(** A request is written field by field, in the order of the assignments; the
    reply is read and [master.op] cleared in one critical section. *)
Definition step_cpu_main (s : sys) : option sys :=
  match cpu_main s with
  | CIdle =>
      match todo s with
      | [] => None
      | k :: ks =>
          Some (Sys (on_master (fun x => Xfer (call_op k) (x_addr x) (x_value x)) (cpu_dev s))
                  (CAddr k) ks (log s) (mem_device s) (mem_main s) (memory s))
      end
  | CAddr k =>
      Some (on_cpu (on_master (fun x => Xfer (x_op x) (call_addr k) (x_value x)))
              (match k with CRead _ => CIssued k | _ => CValue k end) s)
  | CValue k =>
      Some (on_cpu (on_master (fun x => Xfer (x_op x) (x_addr x)
              (match k with CRead _ => x_value x | CWrite _ v => u16 v | CWriteB _ v => u8 v end)))
              (CIssued k) s)
  | CIssued k => Some (on_cpu id (CWait k) s)
  | CWait _ => None
  | CWoken k =>
      let data := x_value (master (shared (cpu_dev s))) in
      Some (Sys (on_master (fun x => Xfer R_NONE (x_addr x) (x_value x)) (cpu_dev s)) CIdle (todo s)
              (log s ++ [match k with CRead _ => Some data | _ => None end])
              (mem_device s) (mem_main s) (memory s))
  end.

Definition wake_cpu (pc : cpu_pc) : cpu_pc :=
  match pc with CWait k => CWoken k | _ => pc end.

Definition wake_mem (pc : mem_pc) : mem_pc :=
  match pc with KWait => KWoken | _ => pc end.

(** [send_msg]: to the left neighbour, then to the right one; of the two devices
    here, the memory is the processor's right and the processor the memory's left. *)
Definition send_msg (m : option data_bus_req) (to : option string) (d : device) : device :=
  match m, to with
  | Some q, Some _ => receive q d
  | _, _ => d
  end.

Definition step_cpu_bus (junk : data_bus_req) (s : sys) : option sys :=
  '(d, m) ← bus_step junk (cpu_dev s);
  let main :=
    match bus_thread (cpu_dev s) with BRespSignal => wake_cpu (cpu_main s) | _ => cpu_main s end in
  Some (Sys d main (todo s) (log s)
          (send_msg m (d_out_addr_r (dstate (cpu_dev s))) (mem_device s)) (mem_main s) (memory s)).

Definition step_mem_bus (junk : data_bus_req) (s : sys) : option sys :=
  '(d, m) ← bus_step junk (mem_device s);
  let main :=
    match bus_thread (mem_device s) with BReqSignal _ => wake_mem (mem_main s) | _ => mem_main s end in
  Some (Sys (send_msg m (d_out_addr_l (dstate (mem_device s))) (cpu_dev s)) (cpu_main s) (todo s) (log s)
          d main (memory s)).

Definition step_mem_main (s : sys) : option sys :=
  let move d pc m := Some (Sys (cpu_dev s) (cpu_main s) (todo s) (log s) d pc m) in
  let d := mem_device s in
  match mem_main s with
  | KEnter => move d KWait (memory s)
  | KWait => None
  | KWoken => move d (KServe (data_bus_check (shared d))) (memory s)
  | KServe r =>
      match serve r (memory s) with
      | Done (Some x) m => move d (KReply x) m
      | Done None m => move d KEnter m
      | _ => move d KCrash (memory s)
      end
  | KReply x => move (set_shared (data_bus_reply x (shared d)) d) KSignal (memory s)
  | KSignal => move (signal_slave_data d) KEnter (memory s)
  | KCrash => None
  end.

Definition step (junk : data_bus_req) (t : thread) (s : sys) : option sys :=
  match t with
  | CpuMain => step_cpu_main s
  | CpuBus => step_cpu_bus junk s
  | MemBus => step_mem_bus junk s
  | MemMain => step_mem_main s
  end.

(** The two devices after the start, the memory holding [m].  The fields that
    [init_bus] leaves as [malloc] gave them, [shutdown] and the processor's
    [addr_internal_to_device], are 0 and NULL. *)
Definition cpu_boot : device :=
  connect_bus (connect_cpu_bus (init_bus None "cpu" (Some "mem") None)).

Definition mem_boot : device :=
  connect_bus (init_bus (Some "cpu") "mem" None (Some is_local_addr)).

Definition boot (ks : list call) (m : mem_dev) : sys := Sys cpu_boot CIdle ks [] mem_boot KEnter m.

(** ** Schedules *)

(** The steps of the intended schedule. *)
Definition timely (t : thread) (s : sys) : bool :=
  match t with
  | CpuMain => true
  | CpuBus =>
      match bus_thread (cpu_dev s), cpu_main s with
      | BPoll, (CAddr _ | CValue _ | CIssued _) => false
      | _, _ => true
      end
  | MemBus =>
      match bus_thread (mem_device s), mem_main s with
      | BReqSignal _, KWait => true
      | BReqSignal _, _ => false
      | _, _ => true
      end
  | MemMain =>
      match mem_main s, bus_thread (mem_device s) with
      | KSignal, BReqWait _ => true
      | KSignal, _ => false
      | _, _ => true
      end
  end.

(** States some schedule leads to; every step with its own stack contents. *)
Inductive reachable (ok : thread -> sys -> bool) (s0 : sys) : sys -> Prop :=
| reach_start : reachable ok s0 s0
| reach_step s t junk s' :
    reachable ok s0 s -> ok t s = true -> step junk t s = Some s' -> reachable ok s0 s'.

Definition any (t : thread) (s : sys) : bool := true.

(** A schedule run on a state. *)
Fixpoint run_schedule (junk : data_bus_req) (ts : list thread) (s : sys) : option sys :=
  match ts with
  | [] => Some s
  | t :: ts' => s' ← step junk t s; run_schedule junk ts' s'
  end.

(** ** The specification: the memory as one step *)
Definition spec_call (k : call) : M mem_dev (option Z) :=
  match k with
  | CRead a => v ← read_data_in a; mret (Some v)
  | CWrite a v => write_data_out a (u16 v);; mret None
  | CWriteB a v => write_data_out_b a (u8 v);; mret None
  end.

Fixpoint spec_run (ks : list call) : M mem_dev (list (option Z)) :=
  match ks with
  | [] => mret []
  | k :: ks' => r ← spec_call k; rs ← spec_run ks'; mret (r :: rs)
  end.
