(* ===== verification/TransferFacts.v ===== *)
(** * Data transfers: the invariant of the intended schedule

    Every state the timely steps reach is in one of the phases below of at most
    one transfer. *)
From S2P Require Import Prelude Bus Mem DataBus Transfer.

(** ** The two devices *)
Definition cpuD (m buf : data_xfer_spec) (issued : bool) (q : list data_bus_req) (th : bus_pc) : device :=
  Device (BusState true None "cpu" (Some "mem") m (Xfer R_NONE 0 0) None)
    (DataState None (Some "mem") buf issued None) q th.

Definition memD (sl : data_xfer_spec) (q : list data_bus_req) (th : bus_pc) : device :=
  Device (BusState false (Some "cpu") "mem" None (Xfer R_NONE 0 0) sl (Some is_local_addr))
    (DataState (Some "cpu") None (Xfer R_NONE 0 0) false (Some is_local_addr)) q th.

Lemma boot_devices : cpu_boot = cpuD (Xfer R_NONE 0 0) (Xfer R_NONE 0 0) false [] BPoll /\
  mem_boot = memD (Xfer R_NONE 0 0) [] BPoll.
Proof. done. Qed.

(** ** Requests and replies *)
Definition call_value (k : call) : Z :=
  match k with CRead _ => 0 | CWrite _ v => u16 v | CWriteB _ v => u8 v end.

Definition call_signal (k : call) : data_bus_signal :=
  match k with CRead _ => D_DATI | CWrite _ _ => D_DATO | CWriteB _ _ => D_DATOB end.

Definition is_read (k : call) : bool := match k with CRead _ => true | _ => false end.

(** A transfer record that holds the call's request; the value of a read is
    whatever was there. *)
Definition requests (k : call) (x : data_xfer_spec) : Prop :=
  x_op x = call_op k /\ x_addr x = call_addr k /\ (is_read k = false -> x_value x = call_value k).

Definition asks (k : call) (q : data_bus_req) : Prop :=
  msg_type q = DBM_REQ /\ q_c q = call_signal k /\ q_addr q = call_addr k /\
  (is_read k = false -> q_data q = call_value k).

Definition block_request (k : call) : data_xfer_spec :=
  Xfer (match k with CRead _ => R_BLOCK_IN | CWrite _ _ => R_BLOCK_OUT | CWriteB _ _ => R_BLOCK_OUTB end)
    (call_addr k) (call_value k).

Definition local (k : call) : Prop := truth (is_local_addr (call_addr k)) = true.

(** The call has been served: the value in transit is its result. *)
Definition result_is (k : call) (v : Z) (r : option Z) : Prop :=
  r = match k with CRead _ => Some v | _ => None end.

Definition cpu_idle (th : bus_pc) : Prop := th = BPoll \/ th = BProcess \/ th = BCheck.
Definition mem_idle (th : bus_pc) : Prop := th = BPoll \/ th = BCheck.
Definition main_idle (pc : mem_pc) : Prop := pc = KEnter \/ pc = KWait.
Definition waits (k : call) (th : bus_pc) : Prop :=
  th = BReqEnter (call_signal k) \/ th = BReqWait (call_signal k).

(** ** Phases

    [phase cur m s]: the call in progress is [cur]; before it the memory was [m]. *)
Inductive phase : option call -> mem_dev -> sys -> Prop :=
| ph_idle m x buf th ks lg sl thm mm :
    x_op x = R_NONE -> x_op buf = R_NONE -> cpu_idle th -> mem_idle thm -> main_idle mm ->
    phase None m (Sys (cpuD x buf false [] th) CIdle ks lg (memD sl [] thm) mm m)
| ph_addr k m x buf th ks lg sl thm mm :
    x_op x = call_op k -> x_op buf = R_NONE -> cpu_idle th -> mem_idle thm -> main_idle mm ->
    phase (Some k) m (Sys (cpuD x buf false [] th) (CAddr k) ks lg (memD sl [] thm) mm m)
| ph_value k m x buf th ks lg sl thm mm :
    is_read k = false -> x_op x = call_op k -> x_addr x = call_addr k ->
    x_op buf = R_NONE -> cpu_idle th -> mem_idle thm -> main_idle mm ->
    phase (Some k) m (Sys (cpuD x buf false [] th) (CValue k) ks lg (memD sl [] thm) mm m)
| ph_issued k m x buf th ks lg sl thm mm pc :
    pc = CIssued k \/ pc = CWait k ->
    requests k x -> x_op buf = R_NONE -> cpu_idle th -> mem_idle thm -> main_idle mm ->
    phase (Some k) m (Sys (cpuD x buf false [] th) pc ks lg (memD sl [] thm) mm m)
| ph_polled k m x buf ks lg sl thm mm :
    x_op x = R_NONE -> requests k buf -> mem_idle thm -> main_idle mm ->
    phase (Some k) m (Sys (cpuD x buf false [] BProcess) (CWait k) ks lg (memD sl [] thm) mm m)
| ph_sent k m x buf th ks lg sl thm mm q :
    x_op x = R_NONE -> x_op buf = R_NONE -> cpu_idle th -> mem_idle thm -> main_idle mm -> asks k q ->
    phase (Some k) m (Sys (cpuD x buf true [] th) (CWait k) ks lg (memD sl [q] thm) mm m)
| ph_dropped k m x buf th ks lg sl thm mm :
    x_op x = R_NONE -> x_op buf = R_NONE -> cpu_idle th -> mem_idle thm -> main_idle mm -> ~ local k ->
    phase (Some k) m (Sys (cpuD x buf true [] th) (CWait k) ks lg (memD sl [] thm) mm m)
| ph_signal k m x buf th ks lg mm :
    x_op x = R_NONE -> x_op buf = R_NONE -> cpu_idle th -> main_idle mm -> local k ->
    phase (Some k) m (Sys (cpuD x buf true [] th) (CWait k) ks lg
      (memD (block_request k) [] (BReqSignal (call_signal k))) mm m)
| ph_serving k m x buf th ks lg thm mm :
    x_op x = R_NONE -> x_op buf = R_NONE -> cpu_idle th -> waits k thm -> local k ->
    mm = KWoken \/ mm = KServe (block_request k) ->
    phase (Some k) m (Sys (cpuD x buf true [] th) (CWait k) ks lg
      (memD (block_request k) [] thm) mm m)
| ph_crashed k m x buf th ks lg thm sl :
    x_op x = R_NONE -> x_op buf = R_NONE -> cpu_idle th -> waits k thm ->
    phase (Some k) m (Sys (cpuD x buf true [] th) (CWait k) ks lg (memD sl [] thm) KCrash m)
| ph_served k m m' r x buf th ks lg thm sl d_op :
    x_op x = R_NONE -> x_op buf = R_NONE -> cpu_idle th -> waits k thm ->
    spec_call k m = Done r m' -> result_is k (x_value d_op) r ->
    phase (Some k) m (Sys (cpuD x buf true [] th) (CWait k) ks lg (memD sl [] thm) (KReply d_op) m')
| ph_replied k m m' r x buf th ks lg thm sl :
    x_op x = R_NONE -> x_op buf = R_NONE -> cpu_idle th -> waits k thm ->
    spec_call k m = Done r m' -> x_op sl = R_DONE -> result_is k (x_value sl) r ->
    phase (Some k) m (Sys (cpuD x buf true [] th) (CWait k) ks lg (memD sl [] thm) KSignal m')
| ph_woken k m m' r x buf th ks lg sl mm :
    x_op x = R_NONE -> x_op buf = R_NONE -> cpu_idle th -> main_idle mm ->
    spec_call k m = Done r m' -> x_op sl = R_DONE -> result_is k (x_value sl) r ->
    phase (Some k) m (Sys (cpuD x buf true [] th) (CWait k) ks lg
      (memD sl [] (BReqWoken (call_signal k))) mm m')
| ph_response k m m' r x buf th ks lg sl thm mm q :
    x_op x = R_NONE -> x_op buf = R_NONE -> cpu_idle th -> mem_idle thm -> main_idle mm ->
    spec_call k m = Done r m' -> msg_type q = DBM_RESP -> q_c q = call_signal k ->
    result_is k (q_data q) r ->
    phase (Some k) m (Sys (cpuD x buf true [q] th) (CWait k) ks lg (memD sl [] thm) mm m')
| ph_received k m m' r x buf ks lg sl thm mm :
    x_op x = R_DONE -> x_op buf = R_NONE -> mem_idle thm -> main_idle mm ->
    spec_call k m = Done r m' -> result_is k (x_value x) r ->
    phase (Some k) m (Sys (cpuD x buf true [] BRespSignal) (CWait k) ks lg (memD sl [] thm) mm m')
| ph_return k m m' r x buf th ks lg sl thm mm :
    x_op x = R_DONE -> x_op buf = R_NONE -> cpu_idle th -> mem_idle thm -> main_idle mm ->
    spec_call k m = Done r m' -> result_is k (x_value x) r ->
    phase (Some k) m (Sys (cpuD x buf false [] th) (CWoken k) ks lg (memD sl [] thm) mm m').

(** What one step does to the call in progress. *)
Definition progress (cur : option call) (m : mem_dev) (s s' : sys) : Prop :=
  (phase cur m s' /\ todo s' = todo s /\ log s' = log s) \/
  (cur = None /\ exists k, todo s = k :: todo s' /\ phase (Some k) m s' /\ log s' = log s) \/
  (exists k r m', cur = Some k /\ spec_call k m = Done r m' /\ phase None m' s' /\
     todo s' = todo s /\ log s' = log s ++ [r]).

Lemma phase_boot ks m : phase None m (boot ks m).
Proof. unfold boot. destruct boot_devices as [-> ->]. apply ph_idle; unfold cpu_idle, mem_idle, main_idle; auto. Qed.

(** The memory device serves a call as the specification says. *)
Lemma serve_spec_call k m :
  local k ->
  match serve (block_request k) m with
  | Done (Some x) m' => exists r, spec_call k m = Done r m' /\ result_is k (x_value x) r
  | Done None _ => False
  | Blocked => False
  | Fault => True
  end.
Proof.
  intros Hl. unfold local in Hl. destruct k as [a|a v|a v]; cbn [call_addr] in Hl;
    unfold serve, block_request; cbn [x_op call_addr call_value];
    unfold perform_read, perform_write, perform_writeb, mbind, M_bind, mret, M_ret;
    cbn [x_op x_addr x_value]; unfold spec_call, read_data_in, write_data_out, write_data_out_b;
    cbn [mem_bus]; rewrite Hl; unfold mbind, M_bind.
  - destruct (read_word a m) as [w m'| |] eqn:E; [|unfold read_word, store_read, mbind, M_bind in E; by repeat case_match|done].
    exists (Some w). done.
  - destruct (write_word a (u16 v) m) as [[] m'| |] eqn:E;
      [by exists None | unfold write_word, store_write, mbind, M_bind, set_mar, set_mbr, modify, gets in E; by repeat case_match | done].
  - destruct (write_byte a (u8 v) m) as [[] m'| |] eqn:E;
      [by exists None | unfold write_byte, store_write, mbind, M_bind, set_mar, set_mbr, modify, gets in E; by repeat case_match | done].
Qed.

(** ** Every timely step keeps the phases *)
#[local] Hint Unfold cpu_idle mem_idle main_idle waits : core.

Lemma cpu_main_progress cur m s s' :
  phase cur m s -> step_cpu_main s = Some s' -> progress cur m s s'.
Proof.
  intros P. destruct P; cbn [step_cpu_main cpu_main todo].
  - destruct ks as [|k ks]; [done|]. intros [= <-]. right; left. split; [done|].
    exists k. split; [done|]. split; [|done]. by apply ph_addr.
  - intros [= <-]. left. split; [|done]. unfold on_cpu. cbn.
    destruct k; cbn.
    + apply ph_issued; [by left | by unfold requests; cbn | done..].
    + apply ph_value; auto.
    + apply ph_value; auto.
  - intros [= <-]. left. split; [|done]. unfold on_cpu. cbn.
    apply ph_issued; [by left | | done..]. unfold requests. cbn. by destruct k.
  - destruct H as [-> | ->]; [|done]. intros [= <-]. left. split; [|done]. unfold on_cpu. cbn.
    apply ph_issued; auto.
  - done. - done. - done. - done. - done. - done. - done. - done. - done. - done. - done.
  - intros [= <-]. right; right. exists k, r, m'. split; [done|]. split; [done|]. split.
    + cbn. apply ph_idle; auto.
    + cbn. split; [done|]. rewrite H5. by destruct k.
Qed.


Lemma main_idle_wait : main_idle KWait.
Proof. by right. Qed.

Lemma main_idle_enter : main_idle KEnter.
Proof. by left. Qed.

Ltac same_phase := intros [= <-]; left; split; [|done].

Lemma mem_main_progress cur m s s' :
  phase cur m s -> timely MemMain s = true -> step_mem_main s = Some s' -> progress cur m s s'.
Proof.
  intros P T.
  destruct P; cbn [step_mem_main mem_main memory] in *;
    try match goal with
    | H : main_idle ?y |- _ => destruct H as [-> | ->];
        [same_phase; pose proof main_idle_wait; econstructor; eassumption | done]
    end.
  - destruct H4 as [-> | ->]; cbn [step_mem_main mem_main memory].
    + same_phase. apply ph_serving; auto.
    + pose proof (serve_spec_call k m H3) as S. destruct (serve (block_request k) m) as [[y|] m'| |];
        [|done..|].
      * destruct S as (r & Hs & Hr). same_phase. eapply ph_served; eauto.
      * same_phase. apply ph_crashed; auto.
  - done.
  - same_phase. eapply ph_replied; eauto.
  - destruct H2 as [-> | ->]; [discriminate|]. same_phase. pose proof main_idle_enter.
    eapply ph_woken; eauto.
Qed.

Lemma idle_poll : cpu_idle BPoll /\ cpu_idle BProcess /\ cpu_idle BCheck.
Proof. unfold cpu_idle. auto. Qed.

(** The processor's data bus thread with nothing to take over, send or receive. *)
Lemma cpu_bus_quiet junk x buf issued th :
  x_op x = R_NONE \/ x_op x = R_DONE -> x_op buf = R_NONE -> cpu_idle th ->
  exists buf' th', bus_step junk (cpuD x buf issued [] th) = Some (cpuD x buf' issued [] th', None) /\
    x_op buf' = R_NONE /\ cpu_idle th'.
Proof.
  intros Hx Hb Ht. destruct idle_poll as (I1 & I2 & I3). destruct Ht as [-> | [-> | ->]]; unfold bus_step; cbn.
  - exists buf, BProcess. unfold poll_master. cbn. by destruct Hx as [-> | ->].
  - unfold process_op. cbn. rewrite Hb. by eexists _, BCheck.
  - by exists buf, BPoll.
Qed.

(** It does not poll while a request is half written. *)
Lemma cpu_bus_quiet_nopoll junk x buf issued th :
  x_op buf = R_NONE -> cpu_idle th -> th <> BPoll ->
  exists buf' th', bus_step junk (cpuD x buf issued [] th) = Some (cpuD x buf' issued [] th', None) /\
    x_op buf' = R_NONE /\ cpu_idle th'.
Proof.
  intros Hb Ht Hp. destruct idle_poll as (I1 & I2 & I3). destruct Ht as [-> | [-> | ->]]; unfold bus_step; cbn; [done|..].
  - unfold process_op. cbn. rewrite Hb. by eexists _, BCheck.
  - by exists buf, BPoll.
Qed.

Lemma step_cpu_bus_eq junk d pc ks lg md mm m d' msg :
  bus_step junk d = Some (d', msg) -> bus_thread d <> BRespSignal ->
  step_cpu_bus junk (Sys d pc ks lg md mm m)
  = Some (Sys d' pc ks lg (send_msg msg (d_out_addr_r (dstate d)) md) mm m).
Proof.
  intros E Hn. unfold step_cpu_bus. cbn [cpu_dev]. rewrite E. cbn. by destruct (bus_thread d).
Qed.

Lemma idle_not_signal th : cpu_idle th -> th <> BRespSignal.
Proof. by intros [-> | [-> | ->]]. Qed.

Lemma cpu_bus_progress junk cur m s s' :
  phase cur m s -> timely CpuBus s = true -> step_cpu_bus junk s = Some s' -> progress cur m s s'.
Proof.
  intros P T. destruct P.
  all: try (match goal with
    | Hx : x_op ?x = _, Hb : x_op ?buf = R_NONE, Ht : cpu_idle ?th |-
        step_cpu_bus _ (Sys (cpuD ?x ?buf ?i [] ?th) _ _ _ _ _ _) = _ -> _ =>
        destruct (cpu_bus_quiet junk x buf i th) as (buf' & th' & E & Hb' & Ht');
        [first [by left | by right] | exact Hb | exact Ht |];
        rewrite (step_cpu_bus_eq _ _ _ _ _ _ _ _ _ _ E (idle_not_signal _ Ht)); same_phase;
        econstructor; eassumption
    end).
  - (* ph_addr *)
    destruct (cpu_bus_quiet_nopoll junk x buf false th) as (buf' & th' & E & Hb' & Ht');
      [done | done | by intros -> |].
    rewrite (step_cpu_bus_eq _ _ _ _ _ _ _ _ _ _ E (idle_not_signal _ H1)). same_phase.
    econstructor; eassumption.
  - (* ph_value *)
    destruct (cpu_bus_quiet_nopoll junk x buf false th) as (buf' & th' & E & Hb' & Ht');
      [done | done | by intros -> |].
    rewrite (step_cpu_bus_eq _ _ _ _ _ _ _ _ _ _ E (idle_not_signal _ H3)). same_phase.
    econstructor; eassumption.
  - (* ph_issued *)
    destruct (decide (th = BPoll)) as [->|Hp].
    + destruct H as [-> | ->]; [done|]. destruct H0 as (Ho & Ha & Hv).
      unfold step_cpu_bus, bus_step. cbn [cpu_dev bus_thread cpuD shared dstate]. unfold poll_master.
      cbn [master]. rewrite Ho. destruct k; cbn [call_op]; same_phase;
        (apply ph_polled; [done | split_and!; [done | exact Ha | intros E; first [discriminate E | by apply Hv]] | done | done]).
    + destruct (cpu_bus_quiet_nopoll junk x buf false th) as (buf' & th' & E & Hb' & Ht');
        [done | done | done |].
      rewrite (step_cpu_bus_eq _ _ _ _ _ _ _ _ _ _ E (idle_not_signal _ H2)). same_phase.
      econstructor; eassumption.
  - (* ph_polled *)
    destruct H0 as (Ho & Ha & Hv). destruct idle_poll as (_ & _ & I3).
    unfold step_cpu_bus, bus_step. cbn [cpu_dev bus_thread cpuD shared dstate]. unfold process_op.
    cbn [buffer]. rewrite Ho. destruct k; cbn [call_op]; same_phase;
      (apply ph_sent; [done | done | done | done | done | split_and!;
        [done | done | exact Ha | intros E; first [discriminate E | by apply Hv]]]).
  - (* ph_response *)
    destruct idle_poll as (I1 & I2 & I3). destruct H1 as [-> | [-> | ->]];
      unfold step_cpu_bus, bus_step; cbn [cpu_dev bus_thread cpuD shared dstate].
    + unfold poll_master. cbn [master]. rewrite H. same_phase. eapply ph_response; eauto.
    + unfold process_op. cbn [buffer]. rewrite H0. same_phase. eapply ph_response; eauto.
    + unfold check_bus. cbn [inbox cpuD]. rewrite H5. unfold examine_address.
      cbn [dstate is_addr_internal shared is_master req_issued memD cpuD]. rewrite andb_false_r.
      cbn [andb is_resp is_req]. unfold handle_resp. rewrite H6.
      destruct k; cbn [call_signal]; same_phase; eapply ph_received; eauto.
  - (* ph_received *)
    destruct idle_poll as (I1 & I2 & I3). unfold step_cpu_bus, bus_step.
    cbn [cpu_dev bus_thread cpuD shared dstate]. same_phase. eapply ph_return; eauto.
Qed.

(** The memory's data bus thread with an empty inbox. *)
Lemma mem_bus_quiet junk sl th :
  mem_idle th -> exists th', bus_step junk (memD sl [] th) = Some (memD sl [] th', None) /\ mem_idle th'.
Proof.
  intros [-> | ->]; unfold bus_step; cbn; [exists BCheck | exists BPoll]; (split; [done|]);
    [by right | by left].
Qed.

Lemma step_mem_bus_eq junk d cd pc ks lg mm m d' msg :
  bus_step junk d = Some (d', msg) -> (forall s, bus_thread d <> BReqSignal s) ->
  step_mem_bus junk (Sys cd pc ks lg d mm m)
  = Some (Sys (send_msg msg (d_out_addr_l (dstate d)) cd) pc ks lg d' mm m).
Proof.
  intros E Hn. unfold step_mem_bus. cbn [mem_device]. rewrite E. cbn.
  destruct (bus_thread d) eqn:Et; try done. by destruct (Hn s).
Qed.

Lemma mem_idle_not_signal th s : mem_idle th -> th <> BReqSignal s.
Proof. by intros [-> | ->]. Qed.

Lemma mem_bus_progress junk cur m s s' :
  phase cur m s -> timely MemBus s = true -> step_mem_bus junk s = Some s' -> progress cur m s s'.
Proof.
  intros P T. destruct P.
  all: try (match goal with
    | Ht : mem_idle ?th |- step_mem_bus _ (Sys _ _ _ _ (memD ?sl [] ?th) _ _) = _ -> _ =>
        destruct (mem_bus_quiet junk sl th Ht) as (th' & E & Ht');
        rewrite (step_mem_bus_eq _ _ _ _ _ _ _ _ _ _ E (fun s => mem_idle_not_signal _ s Ht));
        same_phase; cbn [send_msg]; econstructor; eassumption
    | Hw : waits _ ?th |- _ =>
        destruct Hw as [-> | ->]; [|done]; unfold step_mem_bus, bus_step;
        cbn [mem_device bus_thread memD]; same_phase; cbn [send_msg];
        econstructor; try eassumption; by right
    end).
  - (* ph_sent *)
    destruct H2 as [-> | ->]; unfold step_mem_bus, bus_step; cbn [mem_device bus_thread memD].
    + unfold poll_master. cbn [shared master x_op is_master]. same_phase. apply ph_sent; try done. by right.
    + destruct H4 as (Hm & Hc & Ha & Hv). unfold check_bus. cbn [inbox memD]. rewrite Hm.
      unfold examine_address. cbn [dstate is_addr_internal shared is_master req_issued memD cpuD].
      rewrite Ha. cbn [andb is_req].
      destruct (truth (is_local_addr (call_addr k))) eqn:Hl.
      * unfold handle_req. rewrite Hc. destruct k as [a|a v|a v]; cbn [call_signal call_addr] in *;
          rewrite ?Hl; unfold handle_dati, handle_dato, handle_datob; rewrite Ha, ?Hv by done; same_phase;
          [apply (ph_signal (CRead a)) | apply (ph_signal (CWrite a v)) | apply (ph_signal (CWriteB a v))];
          done.
      * rewrite ?Hl. cbn [andb is_resp]. same_phase.
        apply ph_dropped; try done; [by left | unfold local; by rewrite Hl].
  - (* ph_signal *)
    destruct H2 as [-> | ->]; [done|]. unfold step_mem_bus, bus_step. cbn [mem_device bus_thread memD].
    same_phase. cbn [send_msg mem_main wake_mem]. apply ph_serving; try done; [by left | by left].
  - (* ph_woken *)
    unfold step_mem_bus, bus_step. cbn [mem_device bus_thread memD]. unfold finish_req.
    cbn [shared slave memD]. rewrite H4. cbn [is_done]. same_phase.
    cbn [send_msg d_out_addr_l dstate memD receive].
    eapply ph_response; try eassumption; try done; [by left|]. cbn.
    unfold result_is in *. by destruct k.
Qed.

Lemma step_progress junk t cur m s s' :
  phase cur m s -> timely t s = true -> step junk t s = Some s' -> progress cur m s s'.
Proof.
  intros P T H. destruct t; cbn [step] in H.
  - by apply cpu_main_progress.
  - by apply (cpu_bus_progress junk).
  - by apply (mem_bus_progress junk).
  - by apply mem_main_progress.
Qed.

(** ** Whole runs *)
Lemma spec_run_app ks k m rs m1 r m2 :
  spec_run ks m = Done rs m1 -> spec_call k m1 = Done r m2 ->
  spec_run (ks ++ [k]) m = Done (rs ++ [r]) m2.
Proof.
  revert m rs. induction ks as [|k0 ks IH]; intros m rs; cbn [spec_run app].
  - intros [= <- <-] H. by rewrite (bind_done _ _ _ _ _ H).
  - intros (r0 & m0 & E0 & (rs0 & m' & E1 & [= <- <-])%bind_inv)%bind_inv H.
    rewrite (bind_done _ _ _ _ _ E0). by rewrite (bind_done _ _ _ _ _ (IH _ _ E1 H)).
Qed.

Definition in_progress (cur : option call) : list call :=
  match cur with Some k => [k] | None => [] end.

Lemma timely_invariant ks m0 s :
  reachable timely (boot ks m0) s ->
  exists ks1 cur m, ks = ks1 ++ in_progress cur ++ todo s /\ spec_run ks1 m0 = Done (log s) m /\ phase cur m s.
Proof.
  induction 1 as [|s t junk s' _ (ks1 & cur & m & E & R & P) T H].
  - exists [], None, m0. split_and!; [done | done | apply phase_boot].
  - destruct (step_progress junk t cur m s s' P T H)
      as [(P' & Et & El) | [(-> & k & Et & P' & El) | (k & r & m' & -> & Es & P' & Et & El)]].
    + exists ks1, cur, m. by rewrite Et, El.
    + exists ks1, (Some k), m. rewrite El. split; [|done]. rewrite E, Et. done.
    + exists (ks1 ++ [k]), None, m'. rewrite Et, El. split; [|split; [by eapply spec_run_app | done]].
      by rewrite E, <- app_assoc.
Qed.

Lemma phase_idle cur m s : phase cur m s -> cpu_main s = CIdle -> cur = None /\ memory s = m.
Proof.
  intros P H. destruct P; cbn [cpu_main] in *; try discriminate; [done|].
  by destruct H0 as [-> | ->].
Qed.
