(* ===== verification/TransferRuns.v ===== *)
(** * Data transfers: the schedule of one call

    [timely_run] follows a list of timely steps.  From a state between calls,
    [settle] brings the threads to their resting places and [schedule] carries one
    call from there to its return. *)
From S2P Require Import Prelude Bus Mem DataBus Transfer TransferFacts.
#[local] Open Scope Z_scope.

(** ** Schedules that are followed *)

(** Timely steps taken in a given order, each with its own stack contents. *)
Fixpoint timely_run (ts : list (data_bus_req * thread)) (s : sys) : option sys :=
  match ts with
  | [] => Some s
  | (junk, t) :: ts' => if timely t s then s' ← step junk t s; timely_run ts' s' else None
  end.

Lemma timely_run_reachable ts s0 s s' :
  reachable timely s0 s -> timely_run ts s = Some s' -> reachable timely s0 s'.
Proof.
  revert s. induction ts as [|[junk t] ts IH]; intros s R; cbn [timely_run]; [by intros [= <-]|].
  destruct (timely t s) eqn:T; [|done]. destruct (step junk t s) as [s1|] eqn:E; [|done].
  cbn. apply IH. by eapply reach_step.
Qed.

Lemma timely_run_app ts1 ts2 s s1 :
  timely_run ts1 s = Some s1 -> timely_run (ts1 ++ ts2) s = timely_run ts2 s1.
Proof.
  revert s. induction ts1 as [|[junk t] ts IH]; intros s; cbn [timely_run app]; [by intros [= ->]|].
  destruct (timely t s); [|done]. destruct (step junk t s); [|done]. cbn. apply IH.
Qed.

(** The threads' way to their resting places, and the schedule of one call from
    there. *)
Definition settle (th thm : bus_pc) (mm : mem_pc) : list thread :=
  match th with BProcess => [CpuBus; CpuBus] | BCheck => [CpuBus] | _ => [] end ++
  match mm with KEnter => [MemMain] | _ => [] end ++
  match thm with BPoll => [MemBus] | _ => [] end.

Definition schedule (k : call) : list thread :=
  (if is_read k then [CpuMain; CpuMain; CpuMain] else [CpuMain; CpuMain; CpuMain; CpuMain]) ++
  [CpuBus; CpuBus; MemBus; MemBus; MemBus; MemMain; MemMain; MemMain; MemMain; MemBus; CpuBus;
   CpuBus; CpuMain].

Definition no_junk : data_bus_req := Req DBM_REQ D_EMPTY 0 0 0 0.

(** One call from a state between calls. *)
Definition one_call (k : call) (s : sys) : list (data_bus_req * thread) :=
  map (pair no_junk)
    (settle (bus_thread (cpu_dev s)) (bus_thread (mem_device s)) (mem_main s) ++ schedule k).

Lemma serve_done k m r m' :
  local k -> spec_call k m = Done r m' ->
  exists x, serve (block_request k) m = Done (Some x) m' /\ result_is k (x_value x) r.
Proof.
  intros Hl Hs. pose proof (serve_spec_call k m Hl) as H.
  destruct (serve (block_request k) m) as [[x|] m1| |] eqn:E; try done.
  - destruct H as (r' & Hs' & Hr). rewrite Hs in Hs'. injection Hs' as <- <-. by exists x.
  - exfalso. destruct k as [a|a v|a v]; unfold local in Hl; cbn [call_addr] in Hl;
      unfold serve, block_request in E; cbn [x_op call_addr call_value] in E;
      unfold perform_read, perform_write, perform_writeb, mbind, M_bind, mret, M_ret in E;
      cbn [x_op x_addr x_value] in E; unfold spec_call, read_data_in, write_data_out, write_data_out_b in Hs;
      cbn [mem_bus] in Hs; rewrite Hl in Hs; unfold mbind, M_bind in Hs.
    + by destruct (read_word a m).
    + by destruct (write_word a (u16 v) m).
    + by destruct (write_byte a (u8 v) m).
Qed.

Lemma spec_call_local k m r m' : spec_call k m = Done r m' -> local k.
Proof.
  unfold local. destruct k; cbn; destruct (truth _); done.
Qed.

Lemma settle_runs x buf th ks lg sl thm mm m :
  x_op x = R_NONE -> x_op buf = R_NONE -> cpu_idle th -> mem_idle thm -> main_idle mm ->
  exists buf', x_op buf' = R_NONE /\
    timely_run (map (pair no_junk) (settle th thm mm))
      (Sys (cpuD x buf false [] th) CIdle ks lg (memD sl [] thm) mm m)
    = Some (Sys (cpuD x buf' false [] BPoll) CIdle ks lg (memD sl [] BCheck) KWait m).
Proof.
  intros Hx Hb Ht Htm Hmm. destruct x as [xo xa xv], buf as [bo ba bv]. cbn [x_op] in *. subst.
  exists (Xfer R_NONE ba bv). split; [done|].
  destruct Ht as [-> | [-> | ->]], Htm as [-> | ->], Hmm as [-> | ->]; reflexivity.
Qed.

Lemma schedule_runs k m r m' x buf ks lg sl :
  x_op x = R_NONE -> x_op buf = R_NONE -> spec_call k m = Done r m' ->
  exists s', timely_run (map (pair no_junk) (schedule k))
      (Sys (cpuD x buf false [] BPoll) CIdle (k :: ks) lg (memD sl [] BCheck) KWait m) = Some s' /\
    cpu_main s' = CIdle /\ todo s' = ks /\ log s' = lg ++ [r] /\ memory s' = m'.
Proof.
  intros Hx Hb Hs. pose proof (spec_call_local _ _ _ _ Hs) as Hl.
  destruct (serve_done k m r m' Hl Hs) as (y & Hy & Hr). unfold local in Hl.
  destruct x as [xo xa xv], buf as [bo ba bv]. cbn [x_op] in *. subst.
  destruct k as [a|a v|a v]; cbn [call_addr] in Hl; unfold block_request in Hy;
    cbn [call_addr call_value] in Hy; unfold result_is in Hr; subst r;
    (eexists; split;
     [cbn -[is_local_addr serve truth u8 u16]; rewrite Hl; cbn -[is_local_addr serve truth u8 u16];
      rewrite Hy; cbn -[is_local_addr serve truth u8 u16]; reflexivity | done]).
Qed.

(** From a state between calls that the timely steps reach, [one_call] leads to
    the return of the next call, with the specified result and memory. *)
Lemma one_call_runs ks m0 s k rest r m' :
  reachable timely (boot ks m0) s -> cpu_main s = CIdle -> todo s = k :: rest ->
  spec_call k (memory s) = Done r m' ->
  exists s', timely_run (one_call k s) s = Some s' /\ cpu_main s' = CIdle /\ todo s' = rest /\
    log s' = log s ++ [r] /\ memory s' = m'.
Proof.
  intros H Hi Ht Hs. destruct (timely_invariant ks m0 s H) as (ks1 & cur & m & _ & _ & P).
  destruct (phase_idle cur m s P Hi) as [-> Em].
  inversion P as [m1 x buf th ks' lg sl thm mm Hx Hb Hth Hthm Hmm E1 E2 E3 | | | | | | | | | | | | | | |].
  subst s. cbn [todo memory log] in *. subst.
  destruct (settle_runs x buf th (k :: rest) lg sl thm mm m Hx Hb Hth Hthm Hmm) as (buf' & Hb' & E).
  destruct (schedule_runs k m r m' x buf' rest lg sl Hx Hb' Hs) as (s' & E' & R).
  exists s'. split; [|done]. unfold one_call. rewrite map_app. cbn [cpu_dev mem_device mem_main].
  by rewrite (timely_run_app _ _ _ _ E).
Qed.
