(* ===== verification/TransferProps.v ===== *)
(** * Data transfers: properties

    On the intended schedule the four threads implement the memory; off it, a
    signal can be lost for ever and a request can be taken over half written. *)
From S2P Require Import Prelude Bus Mem CpuMem DataBus Transfer TransferFacts TransferRuns CpuProps.
#[local] Open Scope Z_scope.

(** C17: On the intended schedule the devices implement the memory as one step.
    In every state the timely steps reach, for every interleaving of the four
    threads, the calls that returned are a prefix of the program's calls and
    returned what the memory, used call after call, returns; whenever the
    processor is between calls the memory's contents are the specified ones. *)
Theorem transfers_refine_memory ks m0 s :
  reachable timely (boot ks m0) s ->
  exists ks1 rest m, ks = ks1 ++ rest /\ spec_run ks1 m0 = Done (log s) m /\
    (cpu_main s = CIdle -> rest = todo s /\ memory s = m).
Proof.
  intros H. destruct (timely_invariant ks m0 s H) as (ks1 & cur & m & E & R & P).
  exists ks1, (in_progress cur ++ todo s), m. split_and!; [done | done |].
  intros Hi. by destruct (phase_idle cur m s P Hi) as [-> ->].
Qed.

Lemma run_schedule_reachable junk ts s0 s s' :
  reachable any s0 s -> run_schedule junk ts s = Some s' -> reachable any s0 s'.
Proof.
  revert s. induction ts as [|t ts IH]; intros s R; cbn [run_schedule]; [by intros [= <-]|].
  destruct (step junk t s) as [s1|] eqn:E; [|done]. cbn. apply IH. by eapply reach_step.
Qed.

Lemma run_schedule_app junk ts1 ts2 s s1 :
  run_schedule junk ts1 s = Some s1 -> run_schedule junk (ts1 ++ ts2) s = run_schedule junk ts2 s1.
Proof.
  revert s. induction ts1 as [|t ts IH]; intros s; cbn [run_schedule app]; [by intros [= ->]|].
  destruct (step junk t s); [|done]. cbn. apply IH.
Qed.

(** C18: On the intended schedule every call the memory can answer is answered:
    from any state between calls that the timely steps reach, timely steps lead to
    the return of the next call, with the result and the memory the specification
    gives. *)
Theorem transfer_completes ks m0 s k rest r m' :
  reachable timely (boot ks m0) s -> cpu_main s = CIdle -> todo s = k :: rest ->
  spec_call k (memory s) = Done r m' ->
  exists s', reachable timely (boot ks m0) s' /\ cpu_main s' = CIdle /\ todo s' = rest /\
    log s' = log s ++ [r] /\ memory s' = m'.
Proof.
  intros H Hi Ht Hs. destruct (one_call_runs ks m0 s k rest r m' H Hi Ht Hs) as (s' & E & R).
  exists s'. split; [|done]. by eapply timely_run_reachable.
Qed.

(** ** Lost wakeups *)

(** Nobody will wake anybody: both main threads and the memory's data bus thread
    wait or are about to, and no message is under way. *)
Definition deadlocked (k : call) (s : sys) : Prop :=
  exists x buf th ks lg sl thm mm m,
    s = Sys (cpuD x buf true [] th) (CWait k) ks lg (memD sl [] thm) mm m /\
    x_op x = R_NONE /\ x_op buf = R_NONE /\ cpu_idle th /\ waits k thm /\ main_idle mm.

Lemma deadlock_step junk k t s s' :
  deadlocked k s -> step junk t s = Some s' ->
  deadlocked k s' /\ log s' = log s /\ cpu_main s' = CWait k.
Proof.
  intros (x & buf & th & ks & lg & sl & thm & mm & m & -> & Hx & Hb & Hth & Hthm & Hmm) H.
  destruct t; cbn [step] in H.
  - discriminate.
  - destruct (cpu_bus_quiet junk x buf true th) as (buf' & th' & E & Hb' & Hth'); [by left | done | done |].
    rewrite (step_cpu_bus_eq _ _ _ _ _ _ _ _ _ _ E (idle_not_signal _ Hth)) in H.
    injection H as <-. split; [|done]. by exists x, buf', th', ks, lg, sl, thm, mm, m.
  - destruct Hthm as [-> | ->]; [|discriminate]. unfold step_mem_bus, bus_step in H.
    cbn [mem_device bus_thread memD] in H. injection H as <-. split; [|done].
    exists x, buf, th, ks, lg, sl, (BReqWait (call_signal k)), mm, m.
    split_and!; try done. by right.
  - destruct Hmm as [-> | ->]; [|discriminate]. cbn [step_mem_main mem_main] in H. injection H as <-.
    split; [|done]. exists x, buf, th, ks, lg, sl, thm, KWait, m. split_and!; try done. by right.
Qed.

(** C20: A wakeup can be lost for ever: in some schedule the memory's data bus
    thread signals the request before the memory's main thread waits for it, and
    from there no schedule lets the processor's read return. *)
Theorem lost_wakeup a m :
  truth (is_local_addr a) = true ->
  exists s, reachable any (boot [CRead a] m) s /\
    forall s', reachable any s s' -> cpu_main s' = CWait (CRead a) /\ log s' = [].
Proof.
  intros Hl.
  set (sched := [CpuMain; CpuMain; CpuMain; CpuBus; CpuBus; MemBus; MemBus; MemBus]).
  set (lost := Sys (cpuD (Xfer R_NONE a 0) (Xfer R_NONE a 0) true [] BCheck) (CWait (CRead a)) [] []
    (memD (Xfer R_BLOCK_IN a 0) [] (BReqEnter D_DATI)) KEnter m).
  assert (E : run_schedule no_junk sched (boot [CRead a] m) = Some lost).
  { unfold boot. destruct boot_devices as [-> ->]. cbn -[is_local_addr truth]. by rewrite Hl. }
  assert (D : deadlocked (CRead a) lost).
  { do 9 eexists. split; [reflexivity|]. cbn. unfold cpu_idle, waits, main_idle. auto 8. }
  assert (C : cpu_main lost = CWait (CRead a) /\ log lost = []) by done.
  clearbody lost. rename lost into s.
  exists s. split; [eapply run_schedule_reachable; [constructor | exact E]|].
  intros s' R. assert (deadlocked (CRead a) s' /\ cpu_main s' = CWait (CRead a) /\ log s' = []) as H; [|tauto].
  induction R as [|s1 t junk s2 _ (D1 & C1 & L1) _ H]; [tauto|].
  destruct (deadlock_step _ _ _ _ _ D1 H) as (D2 & L2 & C2). by rewrite L2.
Qed.

(** A request can be taken over half written: the processor's data bus thread
    reads [master] under another mutex than the one it is written under, so it can
    see the new operation with the old address; the second of two reads then
    returns the word of the first. *)
Theorem torn_request m w0 w2 :
  mem_wf m -> word_at m 0 = Some w0 -> word_at m 2 = Some w2 ->
  spec_run [CRead 0; CRead 2] m = Done [Some w0; Some w2] m /\
  exists s, reachable any (boot [CRead 0; CRead 2] m) s /\
    cpu_main s = CIdle /\ todo s = [] /\ log s = [Some w0; Some w0].
Proof.
  intros Hm H0 H2.
  destruct (word_at_in _ _ _ Hm H0) as (_ & _ & _ & E0).
  destruct (word_at_in _ _ _ Hm H2) as (_ & _ & _ & E2). split.
  - assert (C0 : spec_call (CRead 0) m = Done (Some w0) m)
      by (cbn -[read_word]; change (truth (is_local_addr 0)) with true; unfold mbind, M_bind; by rewrite E0).
    assert (C2 : spec_call (CRead 2) m = Done (Some w2) m)
      by (cbn -[read_word]; change (truth (is_local_addr 2)) with true; unfold mbind, M_bind; by rewrite E2).
    cbn [spec_run]. by rewrite (bind_done _ _ _ _ _ C0), (bind_assoc _ _ _ _), (bind_done _ _ _ _ _ C2).
  - assert (S : serve (block_request (CRead 0)) m = Done (Some (Xfer R_BLOCK_IN 0 w0)) m).
    { unfold serve, perform_read, mbind, M_bind, block_request. cbn [x_op x_addr call_addr].
      by rewrite E0. }
    unfold block_request in S. cbn [call_addr call_value] in S.
    set (blk := Xfer R_BLOCK_IN 0 0) in *.
    set (waiting k x lg ks mm m := Sys (cpuD x (Xfer R_NONE 0 0) true [] BCheck) (CWait k) ks lg
      (memD blk [] (BReqWait D_DATI)) mm m).
    set (before := [MemMain; MemBus; CpuMain; CpuMain; CpuMain; CpuBus; CpuBus; MemBus; MemBus; MemBus;
      MemMain]).
    set (between := [MemMain; MemMain; MemBus; CpuBus; CpuBus; CpuMain] ++
      [CpuMain; CpuBus; CpuMain; CpuMain; CpuBus; MemMain; MemBus; MemBus; MemBus; MemBus; MemMain]).
    set (after := [MemMain; MemMain; MemBus; CpuBus; CpuBus; CpuMain]).
    assert (A1 : run_schedule no_junk before (boot [CRead 0; CRead 2] m)
      = Some (waiting (CRead 0) (Xfer R_NONE 0 0) [] [CRead 2] (KServe blk) m)) by (vm_compute; reflexivity).
    assert (A2 : forall k x lg ks, step no_junk MemMain (waiting k x lg ks (KServe blk) m)
      = Some (waiting k x lg ks (KReply (Xfer R_BLOCK_IN 0 w0)) m)).
    { intros. unfold waiting. cbn [step step_mem_main mem_main memory]. by rewrite S. }
    assert (A3 : run_schedule no_junk between
        (waiting (CRead 0) (Xfer R_NONE 0 0) [] [CRead 2] (KReply (Xfer R_BLOCK_IN 0 w0)) m)
      = Some (waiting (CRead 2) (Xfer R_NONE 2 w0) [Some w0] [] (KServe blk) m)) by (vm_compute; reflexivity).
    assert (A4 : match run_schedule no_junk after
        (waiting (CRead 2) (Xfer R_NONE 2 w0) [Some w0] [] (KReply (Xfer R_BLOCK_IN 0 w0)) m) with
      | Some s => cpu_main s = CIdle /\ todo s = [] /\ log s = [Some w0; Some w0]
      | None => False
      end) by (vm_compute; auto).
    destruct (run_schedule no_junk after _) as [s|] eqn:A5; [|done].
    exists s. split; [|done].
    apply (run_schedule_reachable no_junk (before ++ (MemMain :: between ++ MemMain :: after)) _
      (boot [CRead 0; CRead 2] m)); [constructor|].
    rewrite (run_schedule_app _ _ _ _ _ A1). cbn [run_schedule]. rewrite A2. cbn [mbind option_bind].
    rewrite (run_schedule_app _ _ _ _ _ A3). cbn [run_schedule]. rewrite A2. exact A5.
Qed.

(** ** Witnesses *)
Lemma transfers_refine_memory_witness :
  exists ks1 rest m, [CWrite 10 7; CRead 10] = ks1 ++ rest /\
    spec_run ks1 mem0 = Done (log (boot [CWrite 10 7; CRead 10] mem0)) m.
Proof.
  destruct (transfers_refine_memory [CWrite 10 7; CRead 10] mem0 (boot [CWrite 10 7; CRead 10] mem0))
    as (ks1 & rest & m & H1 & H2 & _); [constructor|]. exists ks1, rest, m. split; [exact H1 | exact H2].
Defined.

Lemma transfer_completes_witness :
  exists s', reachable timely (boot [CRead 10] mem0) s' /\ log s' = [Some 0].
Proof.
  destruct (transfer_completes [CRead 10] mem0 (boot [CRead 10] mem0) (CRead 10) [] (Some 0) mem0)
    as (s' & H1 & _ & _ & H2 & _); [constructor | reflexivity | reflexivity | | exists s'; split; [exact H1 | exact H2]].
  cbn [boot memory spec_call]. unfold read_data_in. cbn [mem_bus].
  change (truth (is_local_addr 10)) with true. cbv iota. unfold mbind, M_bind.
  rewrite (read_word_in mem0 10 0 0); [reflexivity | lia | lia | vm_compute; reflexivity
    | vm_compute; reflexivity | lia | lia].
Defined.

Lemma lost_wakeup_witness :
  exists s, reachable any (boot [CRead 10] mem0) s /\
    forall s', reachable any s s' -> cpu_main s' = CWait (CRead 10) /\ log s' = [].
Proof. apply (lost_wakeup 10 mem0). reflexivity. Defined.

Lemma torn_request_witness :
  exists s, reachable any (boot [CRead 0; CRead 2] (put 2 9 mem0)) s /\ log s = [Some 0; Some 0].
Proof.
  destruct (torn_request (put 2 9 mem0) 0 9) as (_ & s & H1 & _ & _ & H2).
  - apply put_wf; [apply mem0_wf | lia | lia | unfold MEMBYTES; lia].
  - vm_compute. reflexivity.
  - vm_compute. reflexivity.
  - exists s. split; [exact H1 | exact H2].
Defined.
