(* ===== verification/Threads.v ===== *)
(** * The processor program on the four threads of a transfer

    The bus as the processor's thread sees it: each call of [read_data_in],
    [write_data_out] or [write_data_out_b] is issued to the system of [Transfer]
    and the four threads take steps, chosen by a scheduler, until the call has
    returned.  The scheduler is any function of the call and the state: the state
    records all calls so far ([log]), so every sequence of choices is one. *)
From S2P Require Import Prelude Bus Cpu Instr Lockstep Mem DataBus Transfer TransferFacts TransferRuns.

Definition scheduler : Type := call -> sys -> list (data_bus_req * thread).

Definition enqueue (k : call) (s : sys) : sys :=
  Sys (cpu_dev s) (cpu_main s) (todo s ++ [k]) (log s) (mem_device s) (mem_main s) (memory s).

(** A call on the threads: [Blocked] when the chosen steps do not lead to its
    return. *)
Definition call_on_threads (sched : scheduler) (k : call) : M sys (option Z) := fun s =>
  let s0 := enqueue k s in
  match timely_run (sched k s0) s0 with
  | Some s' =>
      match cpu_main s', todo s', last (log s') with
      | CIdle, [], Some r => Done r s'
      | _, _, _ => Blocked
      end
  | None => Blocked
  end.

(** The three functions, given how a call is carried out. *)
Definition bus_of {S} (perform : call -> M S (option Z)) : MasterBus S := {|
  read_data_in a := r ← perform (CRead a); the r;
  write_data_out a v := perform (CWrite a v);; mret tt;
  write_data_out_b a v := perform (CWriteB a v);; mret tt
|}.

Definition threads_bus (sched : scheduler) : MasterBus sys := bus_of (call_on_threads sched).

(** The program of [execute] with this bus. *)
Definition execute_on_threads (sched : scheduler) (fuel : nat) : M (machine sys) (option unit) :=
  execute (MB := threads_bus sched) fuel.

(** The system between two calls of the program, its memory holding [m]. *)
Definition between_calls (s : sys) (m : mem_dev) : Prop :=
  exists ks m0, reachable timely (boot ks m0) s /\ cpu_main s = CIdle /\ todo s = [] /\ memory s = m.

Lemma boot_between m : between_calls (boot [] m) m.
Proof. exists [], m. split_and!; [constructor | done..]. Qed.

(** ** A call may be issued late *)
Lemma enqueue_step k junk t s s' :
  step junk t s = Some s' -> step junk t (enqueue k s) = Some (enqueue k s').
Proof.
  destruct s as [cd cp ks lg md mp m], t; cbn [step].
  - unfold step_cpu_main, enqueue. cbn. destruct cp; cbn; try discriminate;
      [destruct ks; [discriminate|]|..]; by intros [= <-].
  - unfold step_cpu_bus, enqueue. cbn. destruct (bus_step junk cd) as [[d q]|]; [|done]. by intros [= <-].
  - unfold step_mem_bus, enqueue. cbn. destruct (bus_step junk md) as [[d q]|]; [|done]. by intros [= <-].
  - unfold step_mem_main, enqueue. cbn. destruct mp; try discriminate; try by intros [= <-].
    destruct (serve r m) as [[x|] m'| |]; by intros [= <-].
Qed.

Lemma enqueue_reachable ks m0 k s :
  reachable timely (boot ks m0) s -> reachable timely (boot (ks ++ [k]) m0) (enqueue k s).
Proof.
  induction 1 as [|s t junk s' _ IH T H]; [constructor|].
  eapply reach_step; [exact IH | | by apply (enqueue_step k) in H; exact H]. done.
Qed.

(** ** Calls against the specification *)
Lemma spec_run_snoc ks k m L m' :
  spec_run (ks ++ [k]) m = Done L m' ->
  exists rs m1 r, spec_run ks m = Done rs m1 /\ spec_call k m1 = Done r m' /\ L = rs ++ [r].
Proof.
  revert m L. induction ks as [|k0 ks IH]; intros m L; cbn [spec_run app].
  - intros (r & m1 & E1 & (rs & m2 & [= <- <-] & [= <- <-])%bind_inv)%bind_inv. by exists [], m, r.
  - intros (r & m1 & E1 & (rs & m2 & E2 & [= <- <-])%bind_inv)%bind_inv.
    destruct (IH _ _ E2) as (rs' & m3 & r' & F1 & F2 & ->).
    exists (r :: rs'), m3, r'. split_and!; [|done..].
    by rewrite (bind_done _ _ _ _ _ E1), (bind_done _ _ _ _ _ F1).
Qed.

(** What has been run when the system is between calls. *)
Lemma between_run ks m0 s :
  reachable timely (boot ks m0) s -> cpu_main s = CIdle -> todo s = [] ->
  spec_run ks m0 = Done (log s) (memory s).
Proof.
  intros H Hi Ht. destruct (timely_invariant ks m0 s H) as (ks1 & cur & m & E & R & P).
  destruct (phase_idle cur m s P Hi) as [-> Em]. subst m.
  rewrite Ht, !app_nil_r in E. by subst ks1.
Qed.

Lemma call_refines sched k : sim between_calls (call_on_threads sched k) (spec_call k).
Proof.
  intros s m r s' (ks & m0 & H & Hi & Ht & Em). unfold call_on_threads.
  pose proof (enqueue_reachable _ _ k _ H) as H1.
  destruct (timely_run (sched k (enqueue k s)) (enqueue k s)) as [s1|] eqn:E; [|done].
  pose proof (timely_run_reachable _ _ _ _ H1 E) as H2.
  destruct (cpu_main s1) eqn:C, (todo s1) eqn:T, (last (log s1)) as [r1|] eqn:L; try discriminate.
  intros [= -> ->].
  pose proof (between_run _ _ _ H Hi Ht) as R1. pose proof (between_run _ _ _ H2 C T) as R2.
  destruct (spec_run_snoc _ _ _ _ _ R2) as (rs & m1 & r' & F1 & F2 & F3).
  rewrite R1 in F1. injection F1 as <- <-. rewrite F3, last_snoc in L. injection L as <-.
  exists (memory s'). rewrite <- Em. split; [done|]. by exists (ks ++ [k]), m0.
Qed.

Lemma call_answered k : sim (flip between_calls) (spec_call k) (call_on_threads one_call k).
Proof.
  intros m s r m' (ks & m0 & H & Hi & Ht & Em) Hs. unfold call_on_threads.
  pose proof (enqueue_reachable _ _ k _ H) as H1.
  assert (T1 : todo (enqueue k s) = [k]) by (unfold enqueue; cbn; by rewrite Ht).
  assert (S1 : spec_call k (memory (enqueue k s)) = Done r m') by (cbn; by rewrite Em).
  destruct (one_call_runs _ _ _ k [] r m' H1 Hi T1 S1) as (s' & E & C & T & L & M).
  exists s'. rewrite E, C, T, L, last_snoc. split; [done|].
  exists (ks ++ [k]), m0. split; [|done]. by eapply timely_run_reachable.
Qed.

(** ** The two buses *)
Lemma bus_of_sim {S T} (R : S -> T -> Prop) p1 p2 :
  (forall k, sim R (p1 k) (p2 k)) -> BusSim (MB := bus_of p1) (MC := bus_of p2) R.
Proof.
  intros H. split; intros; cbn [read_data_in write_data_out write_data_out_b bus_of];
    (apply sim_bind; [apply H | auto with lockstep]).
Qed.

(** The memory as one step is the bus that carries out the specified calls. *)
Lemma spec_bus a v (m : mem_dev) :
  read_data_in (MasterBus := bus_of spec_call) a m = read_data_in a m /\
  (is_u16 v -> write_data_out (MasterBus := bus_of spec_call) a v m = write_data_out a v m) /\
  (is_u8 v -> write_data_out_b (MasterBus := bus_of spec_call) a v m = write_data_out_b a v m).
Proof.
  cbn [read_data_in write_data_out write_data_out_b bus_of spec_call]. unfold mbind, M_bind, mret, M_ret.
  split_and!.
  - by destruct (read_data_in a m).
  - intros Hv. rewrite u16_id by done. by destruct (write_data_out a v m) as [[]| |].
  - intros Hv. rewrite u8_id by done. by destruct (write_data_out_b a v m) as [[]| |].
Qed.

#[export] Instance threads_sim sched : BusSim (MB := threads_bus sched) between_calls.
Proof.
  destruct (bus_of_sim _ _ _ (call_refines sched)) as [H1 H2 H3].
  split; [intros a | intros a v Hv..]; intros s m r s' Hr Hs.
  - destruct (H1 a _ _ _ _ Hr Hs) as (m' & Hm & Hr'). exists m'. split; [|done].
    by rewrite <- Hm; symmetry; apply (spec_bus a 0).
  - destruct (H2 a v Hv _ _ _ _ Hr Hs) as (m' & Hm & Hr'). exists m'. split; [|done].
    by rewrite <- Hm; symmetry; apply (spec_bus a v).
  - destruct (H3 a v Hv _ _ _ _ Hr Hs) as (m' & Hm & Hr'). exists m'. split; [|done].
    by rewrite <- Hm; symmetry; apply (spec_bus a v).
Qed.

#[export] Instance threads_answer : BusSim (MC := threads_bus one_call) (flip between_calls).
Proof.
  destruct (bus_of_sim _ _ _ call_answered) as [H1 H2 H3].
  split; [intros a | intros a v Hv..]; intros m s r m' Hr Hm.
  - rewrite <- (proj1 (spec_bus a 0 m)) in Hm. exact (H1 a _ _ _ _ Hr Hm).
  - rewrite <- (proj1 (proj2 (spec_bus a v m)) Hv) in Hm. exact (H2 a v Hv _ _ _ _ Hr Hm).
  - rewrite <- (proj2 (proj2 (spec_bus a v m)) Hv) in Hm. exact (H3 a v Hv _ _ _ _ Hr Hm).
Qed.
