(* ===== verification/ThreadsProps.v ===== *)
(** * The processor program on the four threads: properties *)
From S2P Require Import Prelude Bus Cpu Instr Lockstep Mem CpuMem CpuProps Programs.
From S2P Require Import DataBus Transfer TransferFacts TransferRuns Threads.
#[local] Open Scope Z_scope.

(** C3: The processor running on the four threads of the data bus is the processor
    running on the memory as one step.  Whatever timely steps the scheduler takes
    during each bus call, a run of [execute] that returns ends with the registers,
    the halt flag and the memory of the run on the memory device alone; and with
    the schedule [one_call] for every call, each such run is also a run on the
    threads, so no wakeup is lost and the program ends the same way. *)
Theorem processor_on_threads fuel c m :
  (forall sched out st, execute_on_threads sched fuel (Machine c (boot [] m)) = Done out st ->
     execute fuel (Machine c m) = Done out (Machine (cs st) (memory (bus st)))) /\
  (forall out st, execute fuel (Machine c m) = Done out st ->
     exists st', execute_on_threads one_call fuel (Machine c (boot [] m)) = Done out st' /\
       cs st' = cs st /\ memory (bus st') = bus st).
Proof.
  split.
  - intros sched out st H.
    destruct (both_execute (MB := threads_bus sched) (R := between_calls) fuel
      (Machine c (boot [] m)) (Machine c m) out st) as ([c' m'] & E & Ec & Eb);
      [split; [done | apply boot_between] | exact H |].
    destruct Eb as (ks & m0 & _ & _ & _ & Em). cbn in *. by subst.
  - intros out st H.
    destruct (both_execute (MC := threads_bus one_call) (R := flip between_calls) fuel
      (Machine c m) (Machine c (boot [] m)) out st) as (st' & E & Ec & Eb);
      [split; [done | apply boot_between] | exact H |].
    destruct Eb as (ks & m0 & _ & _ & _ & Em). exists st'. by rewrite Ec, Em.
Qed.

(** The program of [countdown_halts] on the threads: R0 counts down to 0. *)
Lemma processor_on_threads_witness :
  exists st', execute_on_threads one_call 9%nat (Machine (with_reg R0 3 init_cpu) (boot [] countdown_mem))
    = Done (Some tt) st' /\ r0 (cs st') = 0 /\ halted (cs st') = 1.
Proof.
  assert (E : match execute 9%nat (Machine (with_reg R0 3 init_cpu) countdown_mem) with
    | Done out st => out = Some tt /\ r0 (cs st) = 0 /\ halted (cs st) = 1
    | _ => False
    end) by (vm_compute; auto).
  pose proof (proj2 (processor_on_threads 9%nat (with_reg R0 3 init_cpu) countdown_mem)) as P.
  revert E P. generalize (execute 9%nat (Machine (with_reg R0 3 init_cpu) countdown_mem)).
  intros [out st| |] E P; [|done..]. destruct E as (-> & E1 & E2).
  destruct (P _ _ eq_refl) as (st' & H' & Hc & _).
  exists st'. rewrite Hc. split; [exact H' | split; [exact E1 | exact E2]].
Defined.
