(* ===== verification/Sockets.v ===== *)
(** * Descriptors and datagram sockets

    What the two buses use of POSIX: the descriptor table of a process, in
    which [socket] takes the lowest free number, and datagram sockets bound to
    path names.  A connected datagram socket sends to its peer as long as the
    peer's socket exists; a full queue is not modelled.  The system calls are over
    any type of datagrams with a size ([Datagram]): the priority bus sends the
    request record of [libunibus/signals.h], the data bus one of its own. *)
From S2P Require Import Prelude.
From Stdlib Require Import Ascii String.
From stdpp Require Export strings.
#[local] Open Scope Z_scope.

(** What is sent, with its [sizeof]. *)
Class Datagram (P : Type) := dgram_size : Z.

(** ** Requests on the priority bus *)
Inductive pr_signal := BR | BG | NPR | NPG | SACK | BBSY.

#[export] Instance pr_signal_eq_dec : EqDecision pr_signal.
Proof. solve_decision. Defined.

Definition ASSERTED : Z := 1.
Definition NEGATED : Z := 0.

Definition SOCK_NAME_LEN : nat := 100.

(** [level] is neither set nor read by any function. *)
Record pr_bus_req := PrReq { from : string; sig : pr_signal; assertion : Z }.

#[export] Instance pr_bus_req_eq_dec : EqDecision pr_bus_req.
Proof. solve_decision. Defined.

Definition sizeof_pr_bus_req : Z := 112.

#[export] Instance pr_datagram : Datagram pr_bus_req := sizeof_pr_bus_req.

(** The path [sprintf] builds from a device's name. *)
Definition socket_path (name : string) : string :=
  ("/tmp/xmachine/" ++ name ++ "_pr.socket")%string.

(** [sizeof(sun_path)] on Linux. *)
Definition SUN_PATH_LEN : nat := 108.

(** [sprintf] into [sun_path]. *)
Definition fits (path : string) : bool := (String.length path <? SUN_PATH_LEN)%nat.

(** [strncpy] into [from], after a [memset]: the first 100 characters. *)
Definition from_field (path : string) : string := String.substring 0 SOCK_NAME_LEN path.

(** [strncmp(from, path, SOCK_NAME_LEN) == 0] *)
Definition same_name (a b : string) : bool :=
  bool_decide (String.substring 0 SOCK_NAME_LEN a = String.substring 0 SOCK_NAME_LEN b).

(** ** Descriptors *)

(** A datagram socket with the path it is bound to and the path it is connected
    to, or any other open file: writing to it reaches no bus. *)
Inductive descriptor :=
| DSocket (bound peer : option string)
| DOther.

Record sockets (P : Type) := Os {
  fds : gmap Z descriptor;          (* this process's open descriptors *)
  open_max : Z;                     (* their limit *)
  names : gset string;              (* socket files in the file system *)
  inboxes : gmap string (list P)    (* queues of the bound sockets *)
}.
Arguments Os {P} fds open_max names inboxes.
Arguments fds {P} s.
Arguments open_max {P} s.
Arguments names {P} s.
Arguments inboxes {P} s.

(** The system as a thread of the priority bus sees it. *)
Abbreviation os := (sockets pr_bus_req).

Definition set_fds {P} (t : gmap Z descriptor) (o : sockets P) : sockets P :=
  Os t (open_max o) (names o) (inboxes o).

Definition set_inboxes {P} (n : gmap string (list P)) (o : sockets P) : sockets P :=
  Os (fds o) (open_max o) (names o) n.

(** The lowest number that is not an open descriptor; one of the first
    [size t + 1] numbers is free. *)
Fixpoint lowest_free (n : nat) (fd : Z) (t : gmap Z descriptor) : Z :=
  match n with
  | O => fd
  | S n' => match t !! fd with None => fd | Some _ => lowest_free n' (fd + 1) t end
  end.

Definition next_fd (t : gmap Z descriptor) : Z := lowest_free (S (size t)) 0 t.

(** ** System calls: the result and the state afterwards, [-1] on an error *)
Definition socket {P} (o : sockets P) : Z * sockets P :=
  let fd := next_fd (fds o) in
  if fd <? open_max o then (fd, set_fds (<[fd := DSocket None None]> (fds o)) o) else (-1, o).

Definition close {P} (fd : Z) (o : sockets P) : Z * sockets P :=
  match fds o !! fd with
  | None => (-1, o)
  | Some (DSocket (Some p) _) =>
      (0, Os (delete fd (fds o)) (open_max o) (names o) (delete p (inboxes o)))
  | Some _ => (0, set_fds (delete fd (fds o)) o)
  end.

Definition bind {P} (fd : Z) (path : string) (o : sockets P) : Z * sockets P :=
  match fds o !! fd with
  | Some (DSocket None peer) =>
      if bool_decide (path ∈ names o) then (-1, o)
      else (0, Os (<[fd := DSocket (Some path) peer]> (fds o)) (open_max o)
                 ({[path]} ∪ names o) (<[path := []]> (inboxes o)))
  | _ => (-1, o)
  end.

Definition unlink {P} (path : string) (o : sockets P) : Z * sockets P :=
  if bool_decide (path ∈ names o)
  then (0, Os (fds o) (open_max o) (names o ∖ {[path]}) (inboxes o)) else (-1, o).

Definition connect {P} (fd : Z) (path : string) (o : sockets P) : Z * sockets P :=
  match fds o !! fd, inboxes o !! path with
  | Some (DSocket b _), Some _ => (0, set_fds (<[fd := DSocket b (Some path)]> (fds o)) o)
  | _, _ => (-1, o)
  end.

Definition deliver `{Datagram P} (path : string) (q : P) (o : sockets P) : Z * sockets P :=
  match inboxes o !! path with
  | Some l => (dgram_size, set_inboxes (<[path := l ++ [q]]> (inboxes o)) o)
  | None => (-1, o)
  end.

Definition write `{Datagram P} (fd : Z) (q : P) (o : sockets P) : Z * sockets P :=
  match fds o !! fd with
  | Some (DSocket _ (Some p)) => deliver p q o
  | Some DOther => (dgram_size, o)
  | _ => (-1, o)
  end.

Definition sendto `{Datagram P} (fd : Z) (q : P) (path : string) (o : sockets P) : Z * sockets P :=
  match fds o !! fd with
  | Some (DSocket _ _) => deliver path q o
  | _ => (-1, o)
  end.

(** [recv] with [MSG_DONTWAIT]: [None] is [-1] with [EAGAIN]. *)
Definition recv {P} (fd : Z) (o : sockets P) : option P * sockets P :=
  match fds o !! fd with
  | Some (DSocket (Some p) _) =>
      match inboxes o !! p with
      | Some (q :: l) => (Some q, set_inboxes (<[p := l]> (inboxes o)) o)
      | _ => (None, o)
      end
  | _ => (None, o)
  end.

(** ** Processes *)

(** A process: the state of its program and the operating system around it. *)
Record process (P A : Type) := Proc { self : A; system : sockets P }.
Arguments Proc {P A} self system.
Arguments self {P A} p.
Arguments system {P A} p.

(** A process with a thread of the priority bus. *)
Abbreviation proc := (process pr_bus_req).

Definition sys_call {P A R} (f : sockets P -> R * sockets P) : M (process P A) R := fun p =>
  let '(r, o) := f (system p) in Done r (Proc (self p) o).

Definition ask {P A R} (f : A -> R) : M (process P A) R := gets (fun p => f (self p)).

Definition update {P A} (f : A -> A) : M (process P A) unit :=
  modify (fun p => Proc (f (self p)) (system p)).

(** ** Lemmas *)
Lemma lowest_free_spec n fd t :
  (exists i, fd <= i < fd + Z.of_nat n /\ t !! i = None) ->
  t !! lowest_free n fd t = None /\ fd <= lowest_free n fd t /\
  forall i, fd <= i < lowest_free n fd t -> is_Some (t !! i).
Proof.
  revert fd. induction n as [|n IH]; intros fd [i [Hi Hn]]; [lia|]. cbn [lowest_free].
  destruct (t !! fd) as [d|] eqn:E; [| split; [done | split; [lia | lia]]].
  destruct (IH (fd + 1)) as (H1 & H2 & H3).
  { exists i. split; [| done]. destruct (decide (i = fd)) as [->|]; [congruence | lia]. }
  split; [done|]. split; [lia|]. intros j Hj.
  destruct (decide (j = fd)) as [->|]; [by rewrite E | apply H3; lia].
Qed.

(** Some number up to the number of open descriptors is free. *)
Lemma some_fd_free (t : gmap Z descriptor) :
  exists i, 0 <= i < 0 + Z.of_nat (S (size t)) /\ t !! i = None.
Proof.
  destruct (decide (Forall (fun i => is_Some (t !! i)) (seqZ 0 (Z.of_nat (S (size t))))))
    as [Hall|Hex].
  - exfalso.
    assert (Hsub : list_to_set (seqZ 0 (Z.of_nat (S (size t)))) ⊆ dom t).
    { intros i Hi. apply elem_of_list_to_set in Hi. apply elem_of_dom.
      by apply (proj1 (Forall_forall _ _) Hall). }
    apply subseteq_size in Hsub. rewrite size_dom, size_list_to_set in Hsub by apply NoDup_seqZ.
    rewrite length_seqZ in Hsub. lia.
  - apply not_Forall_Exists in Hex; [| apply _]. apply Exists_exists in Hex as (i & Hi & Hn).
    apply elem_of_seqZ in Hi. exists i. split; [lia|]. by apply eq_None_not_Some.
Qed.

Lemma next_fd_free t : t !! next_fd t = None /\ 0 <= next_fd t /\
  forall i, 0 <= i < next_fd t -> is_Some (t !! i).
Proof. apply lowest_free_spec, some_fd_free. Qed.

(** A number is the next one exactly if it is the lowest free one. *)
Lemma next_fd_unique t n :
  0 <= n -> t !! n = None -> (forall i, 0 <= i < n -> is_Some (t !! i)) -> next_fd t = n.
Proof.
  intros H0 Hn Hlt. destruct (next_fd_free t) as (Hf & H0' & Hlt').
  destruct (Z.lt_total (next_fd t) n) as [H|[H|H]]; [|done|].
  - destruct (Hlt (next_fd t)) as [? E]; [lia | congruence].
  - destruct (Hlt' n) as [? E]; [lia | congruence].
Qed.

(** ** One message over a fresh connection *)
Section Fresh.
Context {P : Type} {DP : Datagram P}.
Implicit Types (o : sockets P) (q : P).

(** The system after a message to [path]. *)
Definition sent (path : string) (q : P) (o : sockets P) : sockets P := (deliver path q o).2.

Definition deliveries (ms : list (string * P)) (o : sockets P) : sockets P :=
  foldl (fun o m => sent m.1 m.2 o) o ms.

Definition opened (path : string) (o : sockets P) : sockets P :=
  set_fds (<[next_fd (fds o) := DSocket None (Some path)]> (fds o)) o.

(** [path] can be talked to. *)
Definition reaches (o : sockets P) (path : string) : Prop :=
  is_Some (inboxes o !! path) /\ next_fd (fds o) < open_max o.

Lemma sent_fds path q o : fds (sent path q o) = fds o /\ open_max (sent path q o) = open_max o /\
  names (sent path q o) = names o.
Proof. unfold sent, deliver. by destruct (inboxes o !! path). Qed.

Lemma sent_inbox path q o l :
  inboxes o !! path = Some l -> inboxes (sent path q o) = <[path := l ++ [q]]> (inboxes o).
Proof. intros E. unfold sent, deliver. by rewrite E. Qed.

Lemma sent_other path q o p : p <> path -> inboxes (sent path q o) !! p = inboxes o !! p.
Proof.
  intros Hp. unfold sent, deliver. destruct (inboxes o !! path); [| done].
  by apply lookup_insert_ne.
Qed.

Lemma sent_inboxes_dom path q o p :
  is_Some (inboxes o !! p) -> is_Some (inboxes (sent path q o) !! p).
Proof.
  intros H. unfold sent, deliver. destruct (inboxes o !! path) eqn:E; [| done]. cbn [snd inboxes set_inboxes].
  destruct (decide (p = path)) as [->|]; [rewrite lookup_insert_eq; eauto | by rewrite lookup_insert_ne].
Qed.

Lemma reaches_sent o path q p : reaches o p -> reaches (sent path q o) p.
Proof.
  intros [H1 H2]. destruct (sent_fds path q o) as (E1 & E2 & _).
  split; [by apply sent_inboxes_dom | by rewrite E1, E2].
Qed.

Lemma socket_ok o :
  next_fd (fds o) < open_max o ->
  socket o = (next_fd (fds o), set_fds (<[next_fd (fds o) := DSocket None None]> (fds o)) o).
Proof. intros H. unfold socket. by destruct (Z.ltb_spec (next_fd (fds o)) (open_max o)); [|lia]. Qed.

Lemma connect_ok o path :
  is_Some (inboxes o !! path) ->
  connect (next_fd (fds o)) path (set_fds (<[next_fd (fds o) := DSocket None None]> (fds o)) o)
  = (0, opened path o).
Proof.
  intros [l E]. unfold connect, opened. cbn [fds inboxes set_fds]. rewrite lookup_insert_eq, E.
  by rewrite insert_insert_eq.
Qed.

Lemma write_ok o path q :
  is_Some (inboxes o !! path) ->
  write (next_fd (fds o)) q (opened path o) = (dgram_size, opened path (sent path q o)).
Proof.
  intros [l E]. unfold write, opened, sent, deliver. cbn [fds inboxes set_fds].
  by rewrite lookup_insert_eq, E.
Qed.

Lemma close_ok o path : close (next_fd (fds o)) (opened path o) = (0, o).
Proof.
  unfold close, opened. cbn [fds set_fds]. rewrite lookup_insert_eq.
  rewrite delete_insert_id by apply next_fd_free. by destruct o.
Qed.

Lemma close_sent o path q :
  close (next_fd (fds o)) (opened path (sent path q o)) = (0, sent path q o).
Proof. destruct (sent_fds path q o) as [E _]. rewrite <- E at 1. apply close_ok. Qed.

Lemma sendto_ok o path q :
  is_Some (inboxes o !! path) ->
  sendto (next_fd (fds o)) q path (opened path o) = (dgram_size, opened path (sent path q o)).
Proof.
  intros [l E]. unfold sendto, opened, sent, deliver. cbn [fds inboxes set_fds].
  by rewrite lookup_insert_eq, E.
Qed.
Lemma next_fd_not_none o : next_fd (fds o) <> -1.
Proof. destruct (next_fd_free (fds o)) as (_ & ? & _). lia. Qed.

End Fresh.

(** ** Steps of a process *)
Lemma bind_run {S X Y} (m : M S X) (k : X -> M S Y) s a s' :
  m s = Done a s' -> (m ≫= k) s = k a s'.
Proof. apply bind_done. Qed.

Lemma sys_call_bind {P : Type} {X R B} (f : sockets P -> R * sockets P) (k : R -> M (process P X) B) a o r o' :
  f o = (r, o') -> (sys_call f ≫= k) (Proc a o) = k r (Proc a o').
Proof. intros E. unfold mbind, M_bind, sys_call. cbn [system self]. by rewrite E. Qed.

Lemma sys_call_done {P : Type} {X R} (f : sockets P -> R * sockets P) (a : X) o r o' :
  f o = (r, o') -> sys_call f (Proc a o) = Done r (Proc a o').
Proof. intros E. unfold sys_call. cbn [system self]. by rewrite E. Qed.

Lemma ask_bind {P : Type} {X R B} (f : X -> R) (k : R -> M (process P X) B) a o :
  (ask f ≫= k) (Proc a o) = k (f a) (Proc a o).
Proof. done. Qed.

Lemma update_bind {P : Type} {X B} (f : X -> X) (k : unit -> M (process P X) B) a o :
  (update f ≫= k) (Proc a o) = k tt (Proc (f a) o).
Proof. done. Qed.

Lemma update_done {P : Type} {X} (f : X -> X) (a : X) (o : sockets P) : update f (Proc a o) = Done tt (Proc (f a) o).
Proof. done. Qed.

Lemma proc_assoc {S X Y Z'} (m : M S X) (f : X -> M S Y) (g : Y -> M S Z') s :
  ((m ≫= f) ≫= g) s = (m ≫= (fun a => f a ≫= g)) s.
Proof. apply bind_assoc. Qed.

(** Runs the front of a computation with the lemmas [R] offers. *)
Ltac run R :=
  repeat (rewrite proc_assoc || rewrite ask_bind || rewrite update_bind || R); cbv beta.
