(* ===== verification/DataSocket.v ===== *)
(** * The data bus: its sockets

    The part of [libunibus/data_bus.c] that [DataBus] leaves out: the set-up of
    the receiving socket, the connections to the neighbours, which live for one
    message, and the clean-up.  The thread runs on a process of [Sockets].

    [malloc] fails or not ([malloc_ok]); what it leaves in the fields
    [init_data_state] does not assign is the argument [junk].  Between the
    [connect] and the [write] of [send_msg] other processes may open and close
    sockets: the functions [env_l] and [env_r]. *)
From S2P Require Import Prelude Bus DataBus Sockets.
From Stdlib Require Import Ascii String.
#[local] Open Scope Z_scope.

(** ** Datagrams: a request and the [from] field nobody reads *)
Record data_msg := DataMsg { msg_from : string; msg_req : data_bus_req }.

Definition sizeof_data_bus_req : Z := 116.

#[export] Instance data_datagram : Datagram data_msg := sizeof_data_bus_req.

Abbreviation data_os := (sockets data_msg).

(** ** State: the addresses (empty for no neighbour) and descriptors *)
Record ports := Ports {
  out_addr_l : string; out_addr_r : string; in_addr : string;
  d_bus_in : Z; d_bus_out_l : Z; d_bus_out_r : Z
}.

Definition set_bus_out_l (fd : Z) (p : ports) : ports :=
  Ports (out_addr_l p) (out_addr_r p) (in_addr p) (d_bus_in p) fd (d_bus_out_r p).

Definition set_bus_out_r (fd : Z) (p : ports) : ports :=
  Ports (out_addr_l p) (out_addr_r p) (in_addr p) (d_bus_in p) (d_bus_out_l p) fd.

Abbreviation N := (M (process data_msg ports)).

Definition data_path (name : string) : string :=
  ("/tmp/xmachine/" ++ name ++ "_d.socket")%string.

(** ** Set-up and clean-up *)
Definition init_data_state (malloc_ok : bool) (junk : Z * Z) (l : option string) (sock : string)
    (r : option string) : M data_os (option ports) := fun o =>
  if negb malloc_ok then Done None o else
  let path_l := from_option data_path EmptyString l in
  let path_r := from_option data_path EmptyString r in
  let path := data_path sock in
  if fits path_l && fits path_r && fits path then
    let '(fd, o) := socket o in
    if fd =? -1 then Done None o else
    let '(ret, o) := bind fd path o in
    if ret =? -1 then Done None o else
    Done (Some (Ports path_l path_r path fd
                  (if l is Some _ then junk.1 else -1) (if r is Some _ then junk.2 else -1))) o
  else Fault.

Definition cleanup : N unit :=
  p ← ask id;
  sys_call (close (d_bus_in p));;
  sys_call (unlink (in_addr p));;
  mret tt.

(** ** Connections *)
Definition d_connect_l : N Z :=
  addr ← ask out_addr_l;
  if decide (addr = EmptyString) then mret (-1) else
  ret ← sys_call socket;
  if ret =? -1 then mret ret else
  update (set_bus_out_l ret);;
  fd ← ask d_bus_out_l;
  ret ← sys_call (connect fd addr);
  if ret =? -1 then mret ret else mret 0.

Definition d_connect_r : N Z :=
  addr ← ask out_addr_r;
  if decide (addr = EmptyString) then mret (-1) else
  ret ← sys_call socket;
  update (set_bus_out_r ret);;
  fd ← ask d_bus_out_r;
  if fd =? -1 then mret (-1) else
  ret ← sys_call (connect fd addr);
  if ret =? -1 then mret ret else mret 0.

Definition d_close_l : N Z :=
  fd ← ask d_bus_out_l;
  ret ← sys_call (close fd);
  update (set_bus_out_l (-1));;
  mret ret.

Definition d_close_r : N Z :=
  fd ← ask d_bus_out_r;
  ret ← sys_call (close fd);
  update (set_bus_out_r (-1));;
  mret ret.

(** ** Sending and receiving *)
Definition update_from_addr (req : data_bus_req) : N data_msg :=
  path ← ask in_addr;
  mret (DataMsg (from_field path) req).

(** One side of [send_msg]; [false] where it returns the error of [write]. *)
Definition send_half (conn : N Z) (fd : ports -> Z) (clo : N Z) (env : data_os -> data_os)
    (req : data_msg) : N bool :=
  ret ← conn;
  if ret =? -1 then mret true else
  sys_call (fun o => (tt, env o));;
  fd ← ask fd;
  ret ← sys_call (write fd req);
  if ret =? -1 then mret false else (clo;; mret true).

Definition send_msg (env_l env_r : data_os -> data_os) (req : data_msg) : N Z :=
  ok ← send_half d_connect_l d_bus_out_l d_close_l env_l req;
  if negb ok then mret (-1) else
  ok ← send_half d_connect_r d_bus_out_r d_close_r env_r req;
  if negb ok then mret (-1) else mret 0.

(** The ends of [in_word], [out_word] and [out_byte]: the stamped request. *)
Definition issue (env_l env_r : data_os -> data_os) (req : data_bus_req) : N Z :=
  q ← update_from_addr req;
  send_msg env_l env_r q.

(** The [recv] of [check_bus]. *)
Definition receive_event : N (option data_msg) :=
  fd ← ask d_bus_in;
  sys_call (recv fd).
