(* ===== verification/DataSocketFacts.v ===== *)
(** * The data bus: what its sockets do

    [attempt] is the effect of one side of [send_msg]: nothing without a
    neighbour, a message in the queue of a neighbour that is there, a descriptor
    lost on one that is not.  [send_msg_eq] is the closed form of the function;
    the rest counts descriptors. *)
From S2P Require Import Prelude Bus DataBus Sockets DataSocket.
From Stdlib Require Import Ascii String.
#[local] Open Scope Z_scope.

(** The effect on the system of a message for [addr]. *)
Definition attempt (addr : string) (q : data_msg) (o : data_os) : data_os :=
  if decide (addr = EmptyString) then o
  else if next_fd (fds o) <? open_max o then
    match inboxes o !! addr with
    | Some _ => sent addr q o
    | None => set_fds (<[next_fd (fds o) := DSocket None None]> (fds o)) o
    end
  else o.

(** Equal but for the two descriptors that are set before they are used. *)
Definition same_ports (p p' : ports) : Prop :=
  out_addr_l p' = out_addr_l p /\ out_addr_r p' = out_addr_r p /\ in_addr p' = in_addr p /\
  d_bus_in p' = d_bus_in p.

Lemma same_ports_trans p1 p2 p3 : same_ports p1 p2 -> same_ports p2 p3 -> same_ports p1 p3.
Proof. intros (?&?&?&?) (?&?&?&?). repeat split; congruence. Qed.

Lemma socket_full (o : data_os) : open_max o <= next_fd (fds o) -> socket o = (-1, o).
Proof. intros H. unfold socket. by destruct (Z.ltb_spec (next_fd (fds o)) (open_max o)); [lia|]. Qed.

(** The descriptor a failed [connect] leaves behind. *)
Definition leaked (o : data_os) : data_os :=
  set_fds (<[next_fd (fds o) := DSocket None None]> (fds o)) o.

Lemma connect_absent (o : data_os) addr :
  inboxes o !! addr = None -> connect (next_fd (fds o)) addr (leaked o) = (-1, leaked o).
Proof. intros E. unfold connect, leaked. cbn [fds inboxes set_fds]. by rewrite lookup_insert_eq, E. Qed.

(** [addr] is the address of a neighbour that can be connected to. *)
Definition reachable (o : data_os) (addr : string) : Prop :=
  addr <> EmptyString /\ is_Some (inboxes o !! addr) /\ next_fd (fds o) < open_max o.

(** What a failed connection leaves of the system. *)
Definition refused (addr : string) (o : data_os) : data_os :=
  if decide (addr = EmptyString) then o
  else if next_fd (fds o) <? open_max o then leaked o else o.

Lemma open_cases (o : data_os) addr : addr <> EmptyString ->
  socket o = (-1, o) /\ ~ reachable o addr /\ refused addr o = o \/
  exists fd, fd = next_fd (fds o) /\ (fd =? -1) = false /\ socket o = (fd, leaked o) /\
    (~ reachable o addr /\ connect fd addr (leaked o) = (-1, refused addr o) \/
     reachable o addr /\ connect fd addr (leaked o) = (0, opened addr o)).
Proof.
  intros Ha. unfold refused. rewrite decide_False by done.
  destruct (Z.ltb_spec (next_fd (fds o)) (open_max o)) as [Hm|Hm].
  - right. exists (next_fd (fds o)). split; [done|].
    split; [apply Z.eqb_neq, next_fd_not_none|]. split; [by apply socket_ok|].
    destruct (inboxes o !! addr) as [l|] eqn:El.
    + right. split; [done|]. by apply connect_ok.
    + left. split; [intros (_ & H & _); rewrite El in H; by destruct H | by apply connect_absent].
  - left. split; [by apply socket_full|]. split; [|done]. intros (_ & _ & H). lia.
Qed.

(** What the two sides of a device have in common: connecting fails or leaves the
    next descriptor connected, closing closes it. *)
Class Side (conn : N Z) (addr : ports -> string) (fd : ports -> Z) (clo : N Z) : Prop := {
  side_same p p' : same_ports p p' -> addr p' = addr p;
  side_connect p o : exists p', same_ports p p' /\
    (~ reachable o (addr p) /\ conn (Proc p o) = Done (-1) (Proc p' (refused (addr p) o)) \/
     reachable o (addr p) /\ fd p' = next_fd (fds o) /\ conn (Proc p o) = Done 0 (Proc p' (opened (addr p) o)));
  side_close p o : exists p', same_ports p p' /\
    clo (Proc p o) = Done (close (fd p) o).1 (Proc p' (close (fd p) o).2)
}.

Ltac call E := rewrite (sys_call_bind _ _ _ _ _ _ E); run idtac.

#[export] Instance left_side : Side d_connect_l out_addr_l d_bus_out_l d_close_l.
Proof.
  split.
  - by intros p p' (?&_).
  - intros p o. unfold d_connect_l. run idtac. case_decide as Ha.
    { exists p. split; [done|]. left. unfold refused. rewrite decide_True by done. by split; [intros [? _]|]. }
    destruct (open_cases o (out_addr_l p) Ha) as [(Es & Hn & Er)|(fd & Efd & En & Es & H)]; call Es.
    + exists p. split; [done|]. left. by rewrite Er.
    + rewrite En. run idtac. exists (set_bus_out_l fd p). split; [done|]. cbn [d_bus_out_l set_bus_out_l].
      destruct H as [[Hr Ec]|[Hr Ec]]; [left | right]; call Ec; by split.
  - intros p o. exists (set_bus_out_l (-1) p). split; [done|]. unfold d_close_l. run idtac.
    by rewrite (sys_call_bind _ _ _ _ _ _ (surjective_pairing _)).
Qed.

#[export] Instance right_side : Side d_connect_r out_addr_r d_bus_out_r d_close_r.
Proof.
  split.
  - by intros p p' (?&?&_).
  - intros p o. unfold d_connect_r. run idtac. case_decide as Ha.
    { exists p. split; [done|]. left. unfold refused. rewrite decide_True by done. by split; [intros [? _]|]. }
    destruct (open_cases o (out_addr_r p) Ha) as [(Es & Hn & Er)|(fd & Efd & En & Es & H)]; call Es;
      cbn [d_bus_out_r set_bus_out_r].
    + exists (set_bus_out_r (-1) p). split; [done|]. left. by rewrite Er.
    + rewrite En. exists (set_bus_out_r fd p). split; [done|].
      destruct H as [[Hr Ec]|[Hr Ec]]; [left | right]; call Ec; by split.
  - intros p o. exists (set_bus_out_r (-1) p). split; [done|]. unfold d_close_r. run idtac.
    by rewrite (sys_call_bind _ _ _ _ _ _ (surjective_pairing _)).
Qed.

(** ** One side of a message *)
Lemma attempt_reachable addr q o : reachable o addr -> attempt addr q o = sent addr q o.
Proof.
  intros (Ha & [l El] & Hm). unfold attempt. rewrite decide_False, El by done.
  by destruct (Z.ltb_spec (next_fd (fds o)) (open_max o)); [|lia].
Qed.

Lemma attempt_refused addr q o : ~ reachable o addr -> attempt addr q o = refused addr o.
Proof.
  intros H. unfold attempt, refused. case_decide; [done|].
  destruct (Z.ltb_spec (next_fd (fds o)) (open_max o)); [|done].
  destruct (inboxes o !! addr) as [l|] eqn:El; [|done].
  destruct H. split; [done|]. by rewrite El.
Qed.

Lemma reachable_dec o addr : reachable o addr \/ ~ reachable o addr.
Proof.
  unfold reachable. destruct (decide (addr = EmptyString)); [right; by intros [? _]|].
  destruct (inboxes o !! addr) as [l|] eqn:El; [|right; intros (_ & [? E] & _); congruence].
  destruct (decide (next_fd (fds o) < open_max o)); [left; eauto | right; by intros (_ & _ & ?)].
Qed.

Lemma write_error fd q (o : data_os) : (write fd q o).1 = -1 -> write fd q o = (-1, o).
Proof.
  unfold write, deliver. repeat case_match; cbn [fst]; intros; simplify_eq; done.
Qed.

Section Half.
Context {conn : N Z} {addr : ports -> string} {fd : ports -> Z} {clo : N Z} {S : Side conn addr fd clo}.

Lemma send_half_eq p o q : exists p', same_ports p p' /\
  send_half conn fd clo id q (Proc p o) = Done true (Proc p' (attempt (addr p) q o)).
Proof.
  destruct (side_connect p o) as (p1 & H1 & [(Hr & E)|(Hr & Hfd & E)]);
    unfold send_half; rewrite (bind_run _ _ _ _ _ E); cbn [Z.eqb].
  - exists p1. split; [done|]. by rewrite attempt_refused.
  - rewrite (sys_call_bind (fun o => (tt, id o)) _ _ _ tt (opened (addr p) o) eq_refl); run idtac. rewrite Hfd.
    destruct Hr as (Ha & Hi & Hm). call (write_ok o (addr p) q Hi).
    cbn [Z.eqb dgram_size data_datagram sizeof_data_bus_req].
    destruct (side_close p1 (opened (addr p) (sent (addr p) q o))) as (p2 & H2 & E2).
    rewrite Hfd, close_sent in E2. rewrite (bind_run _ _ _ _ _ E2).
    exists p2. split; [by eapply same_ports_trans|]. by rewrite attempt_reachable.
Qed.

(** The neighbour has gone when the message is written. *)
Lemma send_half_error p o q env :
  reachable o (addr p) -> (write (next_fd (fds o)) q (env (opened (addr p) o))).1 = -1 ->
  exists p', same_ports p p' /\
  send_half conn fd clo env q (Proc p o) = Done false (Proc p' (env (opened (addr p) o))).
Proof.
  intros Hr Hw. destruct (side_connect p o) as (p1 & H1 & [(Hn & E)|(_ & Hfd & E)]); [done|].
  unfold send_half. rewrite (bind_run _ _ _ _ _ E). cbn [Z.eqb].
  rewrite (sys_call_bind (fun o => (tt, env o)) _ _ _ tt (env (opened (addr p) o)) eq_refl); run idtac. rewrite Hfd. call (write_error _ _ _ Hw).
  by exists p1.
Qed.
End Half.

(** ** A message *)
Lemma send_msg_eq p o q : exists p', same_ports p p' /\
  send_msg id id q (Proc p o)
  = Done 0 (Proc p' (attempt (out_addr_r p) q (attempt (out_addr_l p) q o))).
Proof.
  unfold send_msg.
  destruct (send_half_eq (S := left_side) p o q) as (p1 & H1 & E1). rewrite (bind_run _ _ _ _ _ E1).
  cbn [negb].
  destruct (send_half_eq (S := right_side) p1 (attempt (out_addr_l p) q o) q) as (p2 & H2 & E2).
  rewrite (bind_run _ _ _ _ _ E2). cbn [negb]. rewrite (proj1 (proj2 H1)).
  exists p2. by split; [eapply same_ports_trans|].
Qed.

(** ** Counting descriptors *)

(** The table of a process holds numbers below the limit. *)
Definition table_ok {P} (o : sockets P) : Prop :=
  forall fd, is_Some (fds o !! fd) -> 0 <= fd < open_max o.

Definition free_fds {P} (o : sockets P) : Z := open_max o - Z.of_nat (size (fds o)).

Lemma size_below {P} (o : sockets P) : table_ok o -> 0 <= open_max o ->
  (next_fd (fds o) < open_max o <-> 0 < free_fds o).
Proof.
  intros Ht Hm. unfold free_fds. set (all := list_to_set (seqZ 0 (open_max o)) : gset Z).
  assert (Hs : size all = Z.to_nat (open_max o)).
  { unfold all. rewrite size_list_to_set by apply NoDup_seqZ. by rewrite length_seqZ. }
  destruct (next_fd_free (fds o)) as (Hf & H0 & Hlt). rewrite <- size_dom. split; intros H.
  - assert (Hsub : dom (fds o) ⊆ all ∖ {[next_fd (fds o)]}).
    { intros i Hi%elem_of_dom. apply elem_of_difference. split.
      - apply elem_of_list_to_set, elem_of_seqZ. specialize (Ht i Hi). lia.
      - intros ->%elem_of_singleton. destruct Hi. congruence. }
    apply subseteq_size in Hsub. rewrite size_difference in Hsub.
    + rewrite size_singleton in Hsub. lia.
    + intros i ->%elem_of_singleton. apply elem_of_list_to_set, elem_of_seqZ. lia.
  - destruct (Z.lt_ge_cases (next_fd (fds o)) (open_max o)) as [|Hge]; [done|]. exfalso.
    assert (Hsub : all ⊆ dom (fds o)).
    { intros i Hi%elem_of_list_to_set%elem_of_seqZ. apply elem_of_dom, Hlt. lia. }
    apply subseteq_size in Hsub. lia.
Qed.

Lemma free_nonneg {P} (o : sockets P) : table_ok o -> 0 <= open_max o -> 0 <= free_fds o.
Proof.
  intros Ht Hm. unfold free_fds. rewrite <- size_dom.
  assert (Hsub : dom (fds o) ⊆ (list_to_set (seqZ 0 (open_max o)) : gset Z)).
  { intros i Hi%elem_of_dom. apply elem_of_list_to_set, elem_of_seqZ. specialize (Ht i Hi). lia. }
  apply subseteq_size in Hsub. rewrite size_list_to_set, length_seqZ in Hsub by apply NoDup_seqZ. lia.
Qed.

Lemma leaked_ok (o : data_os) : table_ok o -> next_fd (fds o) < open_max o ->
  table_ok (leaked o) /\ free_fds (leaked o) = free_fds o - 1.
Proof.
  intros Ht Hm. destruct (next_fd_free (fds o)) as (Hf & H0 & _). split.
  - intros fd. cbn [leaked set_fds fds open_max]. destruct (decide (fd = next_fd (fds o))) as [->|].
    + lia.
    + rewrite lookup_insert_ne by done. apply Ht.
  - unfold free_fds. cbn [leaked set_fds fds open_max]. rewrite map_size_insert_None by done. lia.
Qed.

Lemma sent_ok addr q (o : data_os) : table_ok o ->
  table_ok (sent addr q o) /\ free_fds (sent addr q o) = free_fds o.
Proof.
  destruct (sent_fds addr q o) as (E1 & E2 & _). unfold table_ok, free_fds. by rewrite E1, E2.
Qed.
