(* ===== verification/SocketProps.v ===== *)
(** * Properties of the data bus's sockets

    Messages over sockets are the queues of [DataBus]; what happens when a
    neighbour is not there; the life of the receiving socket. *)
From S2P Require Import Prelude Bus Mem DataBus Transfer Sockets DataSocket DataSocketFacts.
From Stdlib Require Import Ascii String.
#[local] Open Scope Z_scope.

(** The socket at [path] holds the queue of the device. *)
Definition carries (o : data_os) (path : string) (d : device) : Prop :=
  map msg_req <$> inboxes o !! path = Some (inbox d).

(** The messages [qs] sent one after the other, with the return values. *)
Fixpoint send_all (qs : list data_msg) : N (list Z) :=
  match qs with
  | [] => mret []
  | q :: qs =>
      r ← DataSocket.send_msg id id q;
      rs ← send_all qs;
      mret (r :: rs)
  end.

Lemma carries_sent o path q d r :
  carries o path d -> carries (sent path (DataMsg r q) o) path (receive q d).
Proof.
  unfold carries. destruct (inboxes o !! path) as [l|] eqn:E; [|done]. cbn. intros [= <-].
  erewrite sent_inbox by done. rewrite lookup_insert_eq. cbn. by rewrite map_app.
Qed.

Lemma check_bus_inbox d : inbox (check_bus d) = tail (inbox d).
Proof.
  unfold check_bus, handle_req, handle_dati, handle_dato, handle_datob, handle_resp.
  by repeat case_match.
Qed.

(** The device has one neighbour, at [path]. *)
Definition one_neighbour (p : ports) (path : string) : Prop :=
  out_addr_l p = EmptyString /\ out_addr_r p = path \/ out_addr_l p = path /\ out_addr_r p = EmptyString.

Lemma send_to_one p path o q : one_neighbour p path -> reachable o path ->
  exists p', same_ports p p' /\ DataSocket.send_msg id id q (Proc p o) = Done 0 (Proc p' (sent path q o)).
Proof.
  intros Hn Hr. destruct (send_msg_eq p o q) as (p' & Hp & ->). exists p'. split; [done|].
  assert (En : forall o, attempt EmptyString q o = o) by done.
  destruct Hn as [[-> ->]|[-> ->]]; by rewrite En, attempt_reachable.
Qed.

(** A request that is stamped and sent, or a response that is sent. *)
Definition sends (req : data_bus_req) (m : N Z) : Prop :=
  m = issue id id req \/ exists r, m = DataSocket.send_msg id id (DataMsg r req).

Lemma sends_to_one p path o req m : one_neighbour p path -> reachable o path -> sends req m ->
  exists p' r, same_ports p p' /\ m (Proc p o) = Done 0 (Proc p' (sent path (DataMsg r req) o)).
Proof.
  intros Hn Hr [->|[r ->]].
  - set (r := from_field (in_addr p)). destruct (send_to_one p path o (DataMsg r req) Hn Hr) as (p' & H & E).
    exists p', r. split; [done|]. unfold issue, update_from_addr. run idtac. by rewrite bind_ret.
  - destruct (send_to_one p path o (DataMsg r req) Hn Hr) as (p' & H & E). by exists p', r.
Qed.

(** C19: Sockets implement the queues of the transfers.  A device whose one
    neighbour has its socket open, with a descriptor to spare, sends a request or
    a response: the call reports success, the neighbour's socket afterwards holds
    the queue of the device after [Transfer.send_msg], and nothing else of the
    system has changed, no descriptor either.  The neighbour, whatever its own
    descriptors are, then receives the head of that queue and is left with the
    queue [check_bus] leaves. *)
Theorem messages_arrive p path o name d req m :
  one_neighbour p path -> reachable o path -> carries o path d -> sends req m ->
  exists p' o', m (Proc p o) = Done 0 (Proc p' o') /\
    carries o' path (Transfer.send_msg (Some req) (Some name) d) /\
    fds o' = fds o /\ names o' = names o /\
    (forall other, other <> path -> inboxes o' !! other = inboxes o !! other) /\
    forall pd od peer, inboxes od = inboxes o' ->
      fds od !! d_bus_in pd = Some (DSocket (Some path) peer) ->
      exists ev od', receive_event (Proc pd od) = Done ev (Proc pd od') /\
        msg_req <$> ev = head (inbox d ++ [req]) /\
        carries od' path (check_bus (Transfer.send_msg (Some req) (Some name) d)).
Proof.
  intros Hn Hr Hc Hm. destruct (sends_to_one p path o req m Hn Hr Hm) as (p' & r & _ & E).
  pose proof (carries_sent o path req d r Hc) as Hs.
  destruct (sent_fds path (DataMsg r req) o) as (E1 & _ & E3).
  exists p', (sent path (DataMsg r req) o).
  split_and!; [done..| intros; by apply sent_other |].
  intros pd od peer Ei Ed. revert Hs. unfold carries at 1, receive_event. rewrite <- Ei.
  destruct (inboxes od !! path) as [[|ev l]|] eqn:Em; [..|done]; cbn; intros [= Hl]; [by destruct (inbox d)|].
  exists (Some ev), (set_inboxes (<[path := l]> (inboxes od)) od). split_and!.
  - run idtac. apply sys_call_done. unfold recv. by rewrite Ed, Em.
  - by destruct (inbox d); cbn in *; simplify_eq.
  - unfold carries. rewrite check_bus_inbox. cbn [inboxes set_inboxes]. rewrite lookup_insert_eq.
    cbn. by rewrite <- Hl.
Qed.

(** ** An absent neighbour *)

(** One message while the left neighbour is absent and the right one there. *)
Lemma send_msg_absent p (o : data_os) q l :
  table_ok o -> 0 <= open_max o -> out_addr_l p <> EmptyString -> inboxes o !! out_addr_l p = None ->
  inboxes o !! out_addr_r p = Some l -> out_addr_r p <> EmptyString ->
  exists p' o', same_ports p p' /\ DataSocket.send_msg id id q (Proc p o) = Done 0 (Proc p' o') /\
    table_ok o' /\ open_max o' = open_max o /\ free_fds o' = Z.max 0 (free_fds o - 1) /\
    inboxes o' !! out_addr_l p = None /\
    inboxes o' !! out_addr_r p = Some (l ++ if decide (2 <= free_fds o) then [q] else []).
Proof.
  intros Ht Hm Ha Hla Hra Hb. destruct (send_msg_eq p o q) as (p' & Hp & E).
  exists p', (attempt (out_addr_r p) q (attempt (out_addr_l p) q o)). split; [done|]. split; [done|].
  assert (Hne : out_addr_l p <> out_addr_r p) by congruence.
  assert (El : attempt (out_addr_l p) q o = refused (out_addr_l p) o).
  { apply attempt_refused. intros (_ & [? H] & _). congruence. }
  rewrite El. unfold refused. rewrite decide_False by done. pose proof (size_below o Ht Hm) as Hf.
  destruct (Z.ltb_spec (next_fd (fds o)) (open_max o)) as [Hlt|Hge].
  - destruct (leaked_ok o Ht Hlt) as [Htl Hfl]. pose proof (size_below (leaked o) Htl Hm) as Hf'.
    unfold attempt. rewrite decide_False by done. cbn [leaked set_fds inboxes]. rewrite Hra.
    change (set_fds (<[next_fd (fds o):=DSocket None None]> (fds o)) o) with (leaked o).
    case_decide.
    + rewrite (proj2 (Z.ltb_lt _ _)) by (apply Hf'; lia).
      destruct (sent_ok (out_addr_r p) q (leaked o) Htl) as [H1 H2].
      split_and!; [done | by rewrite (proj1 (proj2 (sent_fds _ _ _))) | lia | by rewrite sent_other by done|].
      erewrite sent_inbox by exact Hra. apply lookup_insert_eq.
    + rewrite (proj2 (Z.ltb_ge _ _)) by lia. rewrite app_nil_r. split_and!; [done..|lia|done|done].
  - unfold attempt. rewrite decide_False, (proj2 (Z.ltb_ge _ _)) by done.
    pose proof (free_nonneg o Ht Hm). rewrite decide_False, app_nil_r by lia. split_and!; [done..|lia|done|done].
Qed.

(** C23: A neighbour that is not there starves the other one.  [connect] fails on a
    device whose left neighbour's socket does not exist, and the descriptor made for
    it stays open: with [n] free descriptors the first [n - 1] messages reach the
    right neighbour, in order, and no later one does, although every call of
    [send_msg] reports success. *)
Theorem absent_neighbour_starves qs : forall p (o : data_os) (l : list data_msg),
  table_ok o -> 0 <= open_max o -> out_addr_l p <> EmptyString -> inboxes o !! out_addr_l p = None ->
  inboxes o !! out_addr_r p = Some l -> out_addr_r p <> EmptyString ->
  exists p' o', send_all qs (Proc p o) = Done (replicate (List.length qs) 0) (Proc p' o') /\
    inboxes o' !! out_addr_r p = Some (l ++ firstn (Z.to_nat (free_fds o - 1)) qs)%list /\
    free_fds o' = Z.max 0 (free_fds o - Z.of_nat (List.length qs)).
Proof.
  induction qs as [|q qs IH]; intros p o l Ht Hm Ha Hla Hra Hb; cbn [send_all List.length].
  - exists p, o. rewrite firstn_nil, app_nil_r. pose proof (free_nonneg o Ht Hm). split_and!; [done..|lia].
  - destruct (send_msg_absent p o q l) as (p1 & o1 & Hp & E & Ht1 & Hm1 & Hf1 & Hla1 & Hra1); [done..|].
    destruct Hp as (El & Er & _). rewrite <- El in Ha, Hla1. rewrite <- Er in Hb, Hra1.
    destruct (IH p1 o1 _ Ht1 ltac:(by rewrite Hm1) Ha Hla1 Hra1 Hb) as (p2 & o2 & E2 & Hr2 & Hf2).
    exists p2, o2. rewrite (bind_done _ _ _ _ _ E), (bind_done _ _ _ _ _ E2). split_and!; [done | |lia].
    rewrite <- Er, Hr2, <- app_assoc. do 2 f_equal. rewrite Hf1. case_decide.
    + replace (Z.to_nat (free_fds o - 1)) with (S (Z.to_nat (Z.max 0 (free_fds o - 1) - 1))) by lia. done.
    + replace (Z.to_nat (free_fds o - 1)) with 0%nat by lia.
      by replace (Z.to_nat (Z.max 0 (free_fds o - 1) - 1)) with 0%nat by lia.
Qed.

(** ** A neighbour that goes away between [connect] and [write] *)

(** The error of [write].  If the left neighbour is gone when the message is
    written, [send_msg] returns -1 and stops: the right neighbour gets nothing
    (the system is what the other processes made of it), and the connected
    descriptor stays open.  The next call with the neighbour gone loses one more
    and serves the right one. *)
Theorem gone_neighbour_error p (o : data_os) q env env_r :
  reachable o (out_addr_l p) ->
  fds (env (opened (out_addr_l p) o)) = fds (opened (out_addr_l p) o) ->
  inboxes (env (opened (out_addr_l p) o)) !! out_addr_l p = None ->
  exists p', same_ports p p' /\
    DataSocket.send_msg env env_r q (Proc p o) = Done (-1) (Proc p' (env (opened (out_addr_l p) o))) /\
    fds (env (opened (out_addr_l p) o)) !! next_fd (fds o) = Some (DSocket None (Some (out_addr_l p))) /\
    forall q', exists p2, DataSocket.send_msg id id q' (Proc p' (env (opened (out_addr_l p) o)))
      = Done 0 (Proc p2 (attempt (out_addr_r p) q' (refused (out_addr_l p) (env (opened (out_addr_l p) o))))).
Proof.
  intros Hr Ef Ei. set (o1 := env (opened (out_addr_l p) o)) in *.
  assert (Hfd : fds o1 !! next_fd (fds o) = Some (DSocket None (Some (out_addr_l p)))).
  { rewrite Ef. unfold opened. cbn [fds set_fds]. apply lookup_insert_eq. }
  assert (Hw : (write (next_fd (fds o)) q o1).1 = -1) by (unfold write, deliver; by rewrite Hfd, Ei).
  destruct (send_half_error (S := left_side) p o q env Hr Hw) as (p1 & H1 & E1).
  exists p1. split_and!; [done | | done |].
  - unfold DataSocket.send_msg. by rewrite (bind_done _ _ _ _ _ E1).
  - intros q'. destruct (send_msg_eq p1 o1 q') as (p2 & _ & E2). exists p2. rewrite E2.
    destruct H1 as (-> & -> & _). do 3 f_equal. apply attempt_refused.
    intros (_ & [? H] & _). congruence.
Qed.

(** ** The receiving socket *)
Definition all_fit (l : option string) (sock : string) (r : option string) : Prop :=
  fits (from_option data_path EmptyString l) = true /\
  fits (from_option data_path EmptyString r) = true /\ fits (data_path sock) = true.

(** The socket files of the file system are those of open sockets or left over. *)
Definition names_ok {P} (o : sockets P) : Prop :=
  forall path, is_Some (inboxes o !! path) -> path ∈ names o.

Lemma lifecycle junk l sock r (o : data_os) :
  all_fit l sock r -> names_ok o -> next_fd (fds o) < open_max o ->
  (data_path sock ∉ names o ->
    exists p o1, init_data_state true junk l sock r o = Done (Some p) o1 /\
      out_addr_l p = from_option data_path EmptyString l /\
      out_addr_r p = from_option data_path EmptyString r /\
      inboxes o1 !! data_path sock = Some [] /\
      fds o1 !! d_bus_in p = Some (DSocket (Some (data_path sock)) None) /\
      cleanup (Proc p o1) = Done tt (Proc p o)) /\
  (data_path sock ∈ names o -> init_data_state true junk l sock r o = Done None (leaked o)).
Proof.
  intros (Hl & Hr & Hs) Hn Hm.
  assert (E : forall k, (let '(fd, o) := socket o in k fd o) = k (next_fd (fds o)) (leaked o) :> outcome data_os (option ports))
    by (intros k; by rewrite socket_ok).
  unfold init_data_state. cbn [negb]. rewrite Hl, Hr, Hs. cbn [andb]. rewrite E.
  rewrite (proj2 (Z.eqb_neq _ _) (next_fd_not_none o)).
  unfold bind, leaked. cbn [fds set_fds names inboxes open_max]. rewrite lookup_insert_eq.
  split; intros Hp; [|by rewrite bool_decide_true].
  rewrite bool_decide_false by done. cbn [Z.eqb]. eexists _, _. split; [reflexivity|].
  cbn [out_addr_l out_addr_r in_addr d_bus_in inboxes fds]. rewrite !lookup_insert_eq. split_and!; try done.
  unfold cleanup. run idtac. cbn [id d_bus_in in_addr].
  erewrite sys_call_bind by (unfold close; cbn [fds inboxes names open_max]; by rewrite lookup_insert_eq).
  erewrite sys_call_bind by (unfold unlink; cbn [names]; rewrite bool_decide_true by set_solver; done).
  cbn [fds inboxes names open_max]. unfold mret, M_ret. do 2 f_equal. destruct o as [fs mx ns ib].
  cbn [fds inboxes names open_max] in *. f_equal.
  - by rewrite insert_insert_eq, delete_insert_id by apply next_fd_free.
  - set_solver.
  - apply delete_insert_id. apply eq_None_not_Some. intros H. by apply Hp, (Hn _ H).
Qed.

(** C22: The life of the receiving socket.  Where no socket file of the device's
    name is left, the set-up succeeds, the queue is empty, the neighbours'
    addresses are the documented ones, and the clean-up leaves the system as it
    was before, so that the device can start again; where one is left over, the
    set-up fails and the thread ends, a descriptor the poorer. *)
Theorem socket_lifecycle junk l sock r (o : data_os) :
  all_fit l sock r -> names_ok o -> next_fd (fds o) < open_max o ->
  (data_path sock ∉ names o ->
    exists p o1, init_data_state true junk l sock r o = Done (Some p) o1 /\
      out_addr_l p = from_option data_path EmptyString l /\
      out_addr_r p = from_option data_path EmptyString r /\
      inboxes o1 !! data_path sock = Some [] /\
      fds o1 !! d_bus_in p = Some (DSocket (Some (data_path sock)) None) /\
      cleanup (Proc p o1) = Done tt (Proc p o)) /\
  (data_path sock ∈ names o -> init_data_state true junk l sock r o = Done None (leaked o)).
Proof. apply lifecycle. Qed.

(** ** Witnesses: a processor beside a memory *)
Definition cpu_sock : string := data_path "cpu".
Definition mem_sock : string := data_path "mem".

Definition pair_os : data_os :=
  Os {[3 := DSocket (Some cpu_sock) None]} 8 {[cpu_sock; mem_sock]} {[cpu_sock := []; mem_sock := []]}.

Definition cpu_ports : ports := Ports EmptyString mem_sock cpu_sock 3 (-1) 0.

Definition middle_ports : ports := Ports (data_path "disk") mem_sock cpu_sock 3 0 0.

Definition a_request : data_bus_req := Req DBM_REQ D_DATI 512 0 0 0.

Lemma pair_table : table_ok pair_os.
Proof.
  intros fd [d H]. cbn in H. apply lookup_singleton_Some in H as [<- _]. cbn. lia.
Qed.

Lemma messages_arrive_witness : exists p' o',
  issue id id a_request (Proc cpu_ports pair_os) = Done 0 (Proc p' o') /\
  carries o' mem_sock (receive a_request mem_boot) /\ fds o' = fds pair_os.
Proof.
  destruct (messages_arrive cpu_ports mem_sock pair_os "mem" mem_boot a_request (issue id id a_request))
    as (p' & o' & H1 & H2 & H3 & _).
  - by left.
  - split; [done|]. split; [by exists [] | reflexivity].
  - reflexivity.
  - by left.
  - by exists p', o'.
Defined.

Definition nine_messages : list data_msg := replicate 9 (DataMsg "cpu" a_request).

Lemma absent_neighbour_starves_witness : exists p' o',
  send_all nine_messages (Proc middle_ports pair_os) = Done (replicate 9 0) (Proc p' o') /\
  inboxes o' !! mem_sock = Some (replicate 6 (DataMsg "cpu" a_request)) /\ free_fds o' = 0.
Proof.
  destruct (absent_neighbour_starves nine_messages middle_ports pair_os []) as (p' & o' & H1 & H2 & H3);
    [exact pair_table | cbn; lia | done | reflexivity | reflexivity | done |].
  assert (E : free_fds pair_os = 7) by (vm_compute; reflexivity). rewrite E in H2, H3.
  exists p', o'. split_and!; [exact H1 | exact H2 | exact H3].
Defined.

(** The memory goes away. *)
Definition mem_leaves (o : data_os) : data_os := set_inboxes (delete mem_sock (inboxes o)) o.

Definition flanked : ports := Ports mem_sock cpu_sock cpu_sock 3 0 0.

Lemma gone_neighbour_error_witness : exists p',
  DataSocket.send_msg mem_leaves id (DataMsg "cpu" a_request) (Proc flanked pair_os)
  = Done (-1) (Proc p' (mem_leaves (opened mem_sock pair_os))) /\
  inboxes (mem_leaves (opened mem_sock pair_os)) !! cpu_sock = Some [].
Proof.
  destruct (gone_neighbour_error flanked pair_os (DataMsg "cpu" a_request) mem_leaves id) as (p' & _ & H & _).
  - split; [done|]. split; [by exists [] | reflexivity].
  - done.
  - reflexivity.
  - by exists p'.
Defined.

Lemma socket_lifecycle_witness : exists p o1,
  init_data_state true (0, 0) (Some "cpu"%string) "disk" None pair_os = Done (Some p) o1 /\
  cleanup (Proc p o1) = Done tt (Proc p pair_os).
Proof.
  destruct (socket_lifecycle (0, 0) (Some "cpu"%string) "disk" None pair_os) as [H _].
  - split_and!; reflexivity.
  - intros path H. cbn [names pair_os]. apply elem_of_union. rewrite !elem_of_singleton.
    destruct (decide (path = cpu_sock)); [by left|]. destruct (decide (path = mem_sock)); [by right|].
    exfalso. cbn [inboxes pair_os] in H. rewrite lookup_insert_ne, lookup_singleton_ne in H by done. by destruct H.
  - reflexivity.
  - destruct H as (p & o1 & H1 & _ & _ & _ & _ & H2); [by apply (bool_decide_unpack _) | by exists p, o1].
Defined.
