(* ===== verification/Startup.v ===== *)
(** * The start of a device process

    [libunibus/device_bus_mgr.c]: [init_bus] with its error returns,
    [connect_cpu_bus] and [connect_device_bus], which create the two bus threads
    and wait for each of them; [setup_socket_dir] of [libunibus/util.c]; and the
    command lines of [cpu/cpu.c], [mem/mem.c] and [disk/disk.c].

    A condition variable has no memory: the signal a bus thread gives when its
    set-up is done wakes the main thread if it waits, and is lost otherwise.
    Spurious wake-ups are left out. *)
From S2P Require Import Prelude Digits Bus Cpu Mem Load Disk DataBus.
From Stdlib Require Import Ascii String.
#[local] Open Scope Z_scope.

(** ** The directory of the sockets *)
Inductive stat_result := StatOk | StatErr (errno : Z).

Definition ENOENT : Z := 2.

Definition setup_socket_dir (stat : stat_result) (mkdir : Z) : Z :=
  match stat with
  | StatOk => 0
  | StatErr err =>
      if negb (err =? ENOENT) then -1
      else if negb (mkdir =? 0) then -1
      else 0
  end.

(** [libunibus/debug.c]: standard error behind a trace message, which only a build
    with [DBG_LIBUNIBUS] prints. *)
Definition dbg_bus (DBG_LIBUNIBUS : bool) (bus : bus_state) (msg : string) (stderr : string) : string :=
  if DBG_LIBUNIBUS then (stderr ++ sock bus ++ ": " ++ msg ++ String "010" EmptyString)%string else stderr.

(** What the calls of [init_bus] return: [malloc], [stat] and [mkdir], and the
    [pthread_mutex_init] and [pthread_cond_init] calls in order. *)
Record init_calls := InitCalls {
  bus_malloc_ok : bool; dir_stat : stat_result; dir_mkdir : Z; sync_inits : list Z
}.

(** [init_bus]: [None] is NULL. *)
Definition try_init_bus (e : init_calls) (l : option string) (s : string) (r : option string)
    (local : option (Z -> Z)) : option bus_state :=
  if negb (bus_malloc_ok e) then None
  else if negb (setup_socket_dir (dir_stat e) (dir_mkdir e) =? 0) then None
  else if forallb (fun ret => ret =? 0) (sync_inits e) then Some (init_bus l s r local)
  else None.

(** ** Creating the threads and waiting for them *)

(** The main thread in [connect_cpu_bus] or [connect_device_bus]. *)
Inductive connect_pc :=
| SCreatePr | SEnterPr | SWaitPr    (* the priority bus or the arbiter *)
| SCreateD | SEnterD | SWaitD       (* the data bus *)
| SReady                            (* returns 0 *)
| SFailed (ret : Z).                (* returns something else *)

(** A bus thread: not created, in its set-up, about to signal, in its loop, or
    returned because the set-up failed. *)
Inductive thread_pc := TNone | TInit | TSignal | TLoop | TEnded.

#[export] Instance connect_pc_eq_dec : EqDecision connect_pc.
Proof. solve_decision. Defined.

#[export] Instance thread_pc_eq_dec : EqDecision thread_pc.
Proof. solve_decision. Defined.

(** The results of [pthread_create]; whether the first thread is the arbiter, as in
    [connect_cpu_bus], or [priority_bus_mgr]; whether its state could be allocated
    and its socket set up; and whether the set-up of the data bus thread succeeds. *)
Record start_calls := StartCalls {
  create_pr : Z; create_d : Z;
  with_arbiter : bool; pr_alloc_ok : bool; pr_socket_ok : bool;
  d_setup : bool
}.

(** Whether the first thread goes on to its signal: [bus_arb_mgr] ends when
    [init_arb] returns NULL and does not look at the result of [setup_arb_socket];
    [priority_bus_mgr] ends when [init_pr_state] returns NULL, which it does in both
    cases. *)
Definition pr_setup (e : start_calls) : bool :=
  if with_arbiter e then pr_alloc_ok e else pr_alloc_ok e && pr_socket_ok e.

Record starting := Starting { connecting : connect_pc; pr_thread : thread_pc; d_thread : thread_pc }.

Definition launch : starting := Starting SCreatePr TNone TNone.

Inductive who := Main | PrThread | DThread.

(** [init_bus_arb], [init_pr_bus] and [init_d_bus]: 0 and a new thread, or -1. *)
Definition init_thread (create : Z) : Z * thread_pc :=
  if negb (create =? 0) then (-1, TNone) else (0, TInit).

(** The two [connect] functions have the same steps: the mutex makes entering the
    wait one step. *)
Definition step_connect (e : start_calls) (s : starting) : option starting :=
  match connecting s with
  | SCreatePr =>
      let '(ret, t) := init_thread (create_pr e) in
      Some (if negb (ret =? 0) then Starting (SFailed ret) t (d_thread s) else Starting SEnterPr t (d_thread s))
  | SEnterPr => Some (Starting SWaitPr (pr_thread s) (d_thread s))
  | SCreateD =>
      let '(ret, t) := init_thread (create_d e) in
      Some (if negb (ret =? 0) then Starting (SFailed ret) (pr_thread s) t else Starting SEnterD (pr_thread s) t)
  | SEnterD => Some (Starting SWaitD (pr_thread s) (d_thread s))
  | SWaitPr | SWaitD | SReady | SFailed _ => None
  end.

(** The signals on [cond_pr_ready] and [cond_data_ready]. *)
Definition signal_pr (pc : connect_pc) : connect_pc := match pc with SWaitPr => SCreateD | _ => pc end.
Definition signal_d (pc : connect_pc) : connect_pc := match pc with SWaitD => SReady | _ => pc end.

(** The set-up of a thread: NULL ends it without a signal. *)
Definition set_up (ok : bool) : thread_pc := if ok then TSignal else TEnded.

Definition step_pr (e : start_calls) (s : starting) : option starting :=
  match pr_thread s with
  | TInit => Some (Starting (connecting s) (set_up (pr_setup e)) (d_thread s))
  | TSignal => Some (Starting (signal_pr (connecting s)) TLoop (d_thread s))
  | _ => None
  end.

Definition step_d (e : start_calls) (s : starting) : option starting :=
  match d_thread s with
  | TInit => Some (Starting (connecting s) (pr_thread s) (set_up (d_setup e)))
  | TSignal => Some (Starting (signal_d (connecting s)) (pr_thread s) TLoop)
  | _ => None
  end.

Definition start_step (e : start_calls) (w : who) (s : starting) : option starting :=
  match w with Main => step_connect e s | PrThread => step_pr e s | DThread => step_d e s end.

(** ** The command lines *)

(** An option as [getopt] delivers it: a letter of the option string with its
    argument, or [?]. *)
Inductive opt := Opt (c : ascii) (arg : list Z) | OptUnknown.

(** What a [main] has decided when it starts to connect: it exits with a status, or
    goes on with a value. *)
Inductive decision (A : Type) := Exits (status : Z) | Goes (a : A).
Arguments Exits {A} status.
Arguments Goes {A} a.

Definition EXIT_FAILURE : Z := 1.

(** [cpu/cpu.c], option string [p:l:r:]: the loop of [main] over [getopt]. *)
Fixpoint cpu_options (opts : list opt) (c : cpu) : decision cpu :=
  match opts with
  | [] => Goes c
  | Opt "p" arg :: opts => cpu_options opts (with_reg PC (u16 (strtoul arg)) c)
  | _ :: _ => Exits EXIT_FAILURE
  end.

(** [mem/mem.c], option string [f:o:]: the file and the offset. *)
Fixpoint mem_options (opts : list opt) (file : option (list Z)) (offset : Z) : decision (option (list Z) * Z) :=
  match opts with
  | [] => Goes (file, offset)
  | Opt "f" arg :: opts => mem_options opts (Some arg) offset
  | Opt "o" arg :: opts => mem_options opts file (u32 (strtoul arg))
  | _ :: _ => Exits EXIT_FAILURE
  end.

(** [disk/disk.c], option string [i:]. *)
Fixpoint disk_options (opts : list opt) (image : option (list Z)) : decision (option (list Z)) :=
  match opts with
  | [] => Goes image
  | Opt "i" arg :: opts => disk_options opts (Some arg)
  | _ :: _ => Exits EXIT_FAILURE
  end.

(** [main] of [mem/mem.c] up to [init_bus]; [aout_of] is [aout_read] on a file name. *)
Definition mem_main (aout_of : list Z -> option aout_object) (j : heap_junk) (opts : list opt) :
    outcome mem_dev (decision unit) :=
  match mem_options opts None 0 with
  | Exits st => Done (Exits st) (init_mem j)
  | Goes (None, _) => Done (Exits EXIT_FAILURE) (init_mem j)
  | Goes (Some f, offset) =>
      match aout_of f with
      | None => Done (Exits EXIT_FAILURE) (init_mem j)
      | Some aout => (load_aout aout offset;; mret (Goes tt)) (init_mem j)
      end
  end.

(** [main] of [cpu/cpu.c] up to [init_bus]. *)
Definition cpu_main (alloc_ok : bool) (opts : list opt) : decision cpu :=
  if alloc_ok then cpu_options opts init_cpu else Exits EXIT_FAILURE.

(** [main] of [disk/disk.c]: the image is asked for and then not used. *)
Definition disk_main (opts : list opt) : decision disk_state :=
  match disk_options opts None with
  | Exits st => Exits st
  | Goes None => Exits EXIT_FAILURE
  | Goes (Some _) => Goes init_disk
  end.

(** ** The programs up to their loops *)

(** What the calls of a [main] return: the two [sigaction], the [malloc] of the
    state, the calls of [init_bus] and [connect_cpu_bus] or [connect_device_bus]. *)
Record main_calls := MainCalls {
  sigaction_hup : Z; sigaction_int : Z; state_malloc_ok : bool; main_init : init_calls; main_connect : Z
}.

Definition handlers_set (e : main_calls) : bool := negb (sigaction_hup e =? -1) && negb (sigaction_int e =? -1).

(** [init_bus], and the connection: what the threads are started with. *)
Definition join_bus (e : main_calls) (l : option string) (s : string) (r : option string) (local : option (Z -> Z)) :
    decision bus_state :=
  match try_init_bus (main_init e) l s r local with
  | None => Exits EXIT_FAILURE
  | Some b => if negb (main_connect e =? 0) then Exits EXIT_FAILURE else Goes b
  end.

(** [main] of [cpu/cpu.c] up to [execute]. *)
Definition cpu_start (e : main_calls) (opts : list opt) : decision (cpu * bus_state) :=
  if negb (handlers_set e) then Exits EXIT_FAILURE
  else match cpu_main (state_malloc_ok e) opts with
       | Exits st => Exits st
       | Goes c =>
           match join_bus e None "cpu" (Some "mem") None with
           | Exits st => Exits st
           | Goes b => Goes (c, connect_cpu_bus b)
           end
       end.

(** [main] of [mem/mem.c] up to [execute]; no memory before [init_mem]. *)
Definition mem_start (e : main_calls) (aout_of : list Z -> option aout_object) (j : heap_junk) (opts : list opt) :
    outcome (option mem_dev) (decision bus_state) :=
  if negb (handlers_set e) then Done (Exits EXIT_FAILURE) None
  else if negb (state_malloc_ok e) then Done (Exits EXIT_FAILURE) None
  else match mem_main aout_of j opts with
       | Done (Exits st) m => Done (Exits st) (Some m)
       | Done (Goes tt) m => Done (join_bus e (Some "cpu") "mem" None (Some Mem.is_local_addr)) (Some m)
       | Blocked => Blocked
       | Fault => Fault
       end.

(** [main] of [disk/disk.c] up to [execute]. *)
Definition disk_start (e : main_calls) (opts : list opt) : decision (disk_state * bus_state) :=
  if negb (handlers_set e) then Exits EXIT_FAILURE
  else match disk_main opts with
       | Exits st => Exits st
       | Goes d =>
           match join_bus e (Some "mem") "disk" None (Some Disk.is_local_addr) with
           | Exits st => Exits st
           | Goes b => Goes (d, b)
           end
       end.
