(* ===== verification/Trace.v ===== *)
(** * What the processor prints

    [dump_cpu] of [cpu/cpu.c], which [exec_instruction] calls for every
    instruction, and the lines of [setup_src_addressing] and
    [setup_pc_addressing].  Nothing else in an instruction prints on standard
    output, and all of it is printed before its operands are fetched: [dispatch_sets_up] shows that a
    handler starts with the addressing calls [operands_of] lists for it. *)
From S2P Require Import Prelude Digits Bus Cpu Instr CpuFacts.
From Stdlib Require Import String.
#[local] Open Scope Z_scope.

(** [printf("NAME: %07o\n", v)] *)
Definition register_line (name : string) (v : Z) : list Z := (chars name ++ show_padded 7 8 v ++ [newline])%list.

Definition dump_cpu (c : cpu) : list Z :=
  (register_line "ALU: " (alu c) ++ register_line "PSW: " (psw c) ++ register_line "IR : " (ir c) ++
   register_line "SP : " (sp c) ++ register_line "PC : " (pc c) ++ register_line "R0 : " (r0 c) ++
   register_line "R1 : " (r1 c) ++ register_line "R2 : " (r2 c) ++ register_line "R3 : " (r3 c) ++
   register_line "R4 : " (r4 c) ++ register_line "R5 : " (r5 c) ++ [newline])%list.

(** [printf("reg: %u, mode: %u\n", reg, mode)] *)
Definition source_line (n mode : Z) : list Z :=
  (chars "reg: " ++ show 10 n ++ chars ", mode: " ++ show 10 mode ++ [newline])%list.

(** [printf("loc: 0o%06o\n", *loc)], in case 6 of [setup_pc_addressing] only. *)
Definition location_line (n mode loc : Z) : list Z :=
  if (n =? 7) && (mode =? 6) then (chars "loc: 0o" ++ show_padded 6 8 loc ++ [newline])%list else [].

(** The addressing calls a handler begins with, and their [use_byte_addr]. *)
Inductive operands := NoOperand | DestOperand (use_byte_addr : bool) | BothOperands (use_byte_addr : bool).

Definition operands_of (k : mnemonic) : operands :=
  match k with
  | m_MOV | m_CMP | m_BIT | m_BIC | m_BIS | m_ADD | m_SUB => BothOperands false
  | m_MOVB | m_CMPB | m_BITB | m_BICB | m_BISB => BothOperands true
  | m_JMP | m_JSR | m_SWAB | m_CLR | m_COM | m_COMB | m_INC | m_DEC | m_NEG | m_ADC | m_SBC | m_TST
  | m_ROR | m_ROL | m_ASR | m_ASL | m_MTPS | m_MFPS => DestOperand false
  | m_CLRB | m_INCB | m_DECB | m_NEGB | m_ADCB | m_SBCB | m_TSTB | m_RORB | m_ROLB | m_ASRB | m_ASLB => DestOperand true
  | _ => NoOperand
  end.

Section Trace.
Context {B : Type} {MB : MasterBus B}.

(** The lines of an addressing call: it is carried out, for [*loc]. *)
Definition source_text (use_byte_addr : bool) : M (machine B) (list Z) :=
  i ← rd ir;
  setup_src_addressing use_byte_addr;;
  loc ← rd src_address;
  mret (source_line (src_reg_field i) (src_mode_field i) ++
        location_line (src_reg_field i) (src_mode_field i) loc)%list.

Definition dest_text (use_byte_addr : bool) : M (machine B) (list Z) :=
  i ← rd ir;
  setup_dest_addressing use_byte_addr;;
  loc ← rd dest_address;
  mret (location_line (dest_reg_field i) (dest_mode_field i) loc).

Definition operand_text (o : operands) : M (machine B) (list Z) :=
  match o with
  | NoOperand => mret []
  | DestOperand b => dest_text b
  | BothOperands b => s ← source_text b; d ← dest_text b; mret (s ++ d)%list
  end.

(** What [exec_instruction] prints in a state whose IR holds the instruction; the
    state behind the addressing calls is not used. *)
Definition instruction_text : M (machine B) (list Z) :=
  c ← gets cs;
  t ← operand_text (operands_of (decode (ir c)));
  mret (dump_cpu c ++ t)%list.

(** The two statements of [execute]'s loop before [exec_instruction]. *)
Definition fetch_instruction : M (machine B) unit :=
  p ← rd pc; w ← fetch_data p;
  upd (with_ir w);;
  upd_reg PC (fun v => v + 2).

(** The text of the first [n] rounds of the loop: that of every instruction, in the
    state that fetched it. *)
Fixpoint rounds_text (n : nat) (s : machine B) : list Z :=
  match n with
  | O => []
  | S n =>
      if truth (halted (cs s)) then [] else
      match fetch_instruction s with
      | Done _ s1 =>
          match instruction_text s1, exec_instruction s1 with
          | Done t _, Done _ s2 => (t ++ rounds_text n s2)%list
          | _, _ => []
          end
      | _ => []
      end
  end.

(** ** A handler begins with its addressing calls *)
Definition set_up (o : operands) : M (machine B) unit :=
  match o with
  | NoOperand => mret tt
  | DestOperand b => setup_dest_addressing b
  | BothOperands b => setup_src_addressing b;; setup_dest_addressing b
  end.

Lemma operand_text_set_up o s s1 : set_up o s = Done tt s1 -> exists t, operand_text o s = Done t s1.
Proof.
  destruct o as [|b|b]; unfold operand_text, set_up, source_text, dest_text, mbind, M_bind, rd, gets, mret, M_ret.
  - intros [= <-]. by eexists.
  - destruct (setup_dest_addressing b s) as [[] s2| |]; [|done..]. intros [= <-]. by eexists.
  - destruct (setup_src_addressing b s) as [[] s2| |]; [|done..].
    destruct (setup_dest_addressing b s2) as [[] s3| |]; [|done..]. intros [= <-]. by eexists.
Qed.

Lemma execute_once_split : execute_once ≈ (fetch_instruction;; exec_instruction).
Proof.
  unfold execute_once, fetch_instruction. intros s. unfold mbind, M_bind.
  destruct (rd pc s) as [p s1| |]; [|done..]. by destruct (fetch_data p s1).
Qed.

(** The addressing calls leave IR alone. *)
Definition ir_kept {A} (m : M (machine B) A) : Prop :=
  forall s x s', m s = Done x s' -> ir (cs s') = ir (cs s).

Lemma ir_kept_bind {A A'} (m : M (machine B) A) (f : A -> M (machine B) A') :
  ir_kept m -> (forall a, ir_kept (f a)) -> ir_kept (m ≫= f).
Proof. intros Hm Hf s x s' (a & s1 & E1 & E2)%bind_inv. rewrite (Hf _ _ _ _ E2). eauto. Qed.

Lemma ir_kept_rd {A} (f : cpu -> A) : ir_kept (rd f).
Proof. by intros s x s' [= _ <-]. Qed.

Lemma ir_kept_ret {A} (a : A) : ir_kept (mret a).
Proof. by intros s x s' [= _ <-]. Qed.

Lemma ir_kept_upd f : (forall c, ir (f c) = ir c) -> ir_kept (upd f).
Proof. intros H s x s' [= _ <-]. apply H. Qed.

Lemma ir_kept_bus {A} (m : M B A) : ir_kept (on_bus m).
Proof. intros s x s'. unfold on_bus. destruct (m (bus s)); [|done..]. by intros [= _ <-]. Qed.

Lemma ir_kept_switch {A} x cases (d : M (machine B) A) :
  Forall (fun c => ir_kept c.2) cases -> ir_kept d -> ir_kept (switch x cases d).
Proof. intros Hc Hd. induction Hc as [|[k m] cases Hm Hc IH]; [done|]. simpl. by destruct (x =? k). Qed.

Lemma ir_kept_the {A} (o : option A) : ir_kept (the o : M (machine B) A).
Proof. destruct o; [apply ir_kept_ret | done]. Qed.

Lemma ir_kept_set_reg r f : ir_kept (upd_reg r f).
Proof. apply ir_kept_upd. intros c. apply ir_with_reg. Qed.

Lemma ir_kept_store_reg r v : ir_kept (set_reg r v).
Proof. apply ir_kept_upd. intros c. apply ir_with_reg. Qed.

Lemma ir_kept_set_loc l v : ir_kept (set_loc l v).
Proof. apply ir_kept_upd. intros c. apply ir_with_loc. Qed.

#[local] Hint Resolve ir_kept_rd ir_kept_ret ir_kept_bus ir_kept_the ir_kept_set_reg ir_kept_store_reg
  ir_kept_set_loc : core.

#[local] Ltac ir_walk := repeat first
  [ apply ir_kept_bind; [|intros ?] | apply ir_kept_switch | apply Forall_cons_2; cbn [snd] | apply Forall_nil_2
  | solve [eauto] ].

Lemma ir_kept_fetch a : ir_kept (fetch_data a).
Proof. unfold fetch_data, fetch_data_register. destruct (truth _); ir_walk. Qed.

Lemma ir_kept_store a v : ir_kept (store_data a v).
Proof. unfold store_data, store_data_register. destruct (truth _); ir_walk. Qed.

Lemma ir_kept_contents n : ir_kept (fetch_register_contents n).
Proof. unfold fetch_register_contents. destruct (register_ptr n); ir_walk. Qed.

Lemma ir_kept_inc n b : ir_kept (inc_register n b).
Proof. unfold inc_register. destruct (register_ptr n); [|ir_walk]. destruct b; ir_walk. Qed.

Lemma ir_kept_dec n b : ir_kept (dec_register n b).
Proof. unfold dec_register. destruct (register_ptr n); [|ir_walk]. destruct b; ir_walk. Qed.

#[local] Hint Resolve ir_kept_fetch ir_kept_store ir_kept_contents ir_kept_inc ir_kept_dec : core.

Lemma ir_kept_setup l mode n b : ir_kept (setup_addressing l mode n b).
Proof.
  unfold setup_addressing, setup_pc_addressing, setup_sp_addressing, setup_general_addressing,
    setup_general_byte_addressing, fetch_pc_word.
  destruct b; ir_walk.
Qed.

Lemma ir_kept_dest b : ir_kept (setup_dest_addressing b).
Proof. unfold setup_dest_addressing. apply ir_kept_bind; [auto|]. intros i. apply ir_kept_setup. Qed.

(** A field of IR may be taken before or behind [m]. *)
Lemma ir_after {A} (m : M (machine B) unit) (f : Z -> M (machine B) A) :
  ir_kept m -> (i ← rd ir; m;; f i) ≈ (m;; i ← rd ir; f i).
Proof.
  intros H s. specialize (H s). unfold mbind, M_bind, rd, gets.
  destruct (m s) as [[] s1| |]; [|done..]. by rewrite (H tt s1 eq_refl).
Qed.

Lemma dispatch_sets_up k :
  exists rest : M (machine B) unit, dispatch k ≈ (set_up (operands_of k);; rest).
Proof.
  destruct k; cbn [operands_of set_up dispatch];
    try (by eexists; intros s; symmetry; apply bind_ret);
    try (by eexists; unfold ADCB, ADC, ASLB, ASL, ASRB, ASR, CLRB, CLR, COMB, COM, DECB, DEC, INCB, INC, JMP, MFPS,
           MTPS, NEGB, NEG, ROLB, ROL, RORB, ROR, SBCB, SBC, SWAB, TSTB, TST);
    try (by eexists; intros s; symmetry; etrans; [apply bind_assoc | reflexivity]).
  - eexists. unfold JSR. apply (ir_after _ (fun i => d ← rd dest_address; _)), ir_kept_dest.
  - by exists RTS.
Qed.

(** An instruction that is carried out has printed its text. *)
Lemma executed_prints s s' : exec_instruction s = Done tt s' -> exists t s1, instruction_text s = Done t s1.
Proof.
  unfold exec_instruction, instruction_text. intros H.
  change (dispatch (decode (ir (cs s))) s = Done tt s') in H.
  destruct (dispatch_sets_up (decode (ir (cs s)))) as [rest E]. rewrite (E s) in H.
  apply bind_inv in H as ([] & s1 & [t Ht]%operand_text_set_up & _).
  exists (dump_cpu (cs s) ++ t)%list, s1. unfold mbind, M_bind, gets. by rewrite Ht.
Qed.
End Trace.
