(* ===== verification/Shutdown.v ===== *)
(** * The end of a device process

    [cleanup] and the signal handlers of [cpu/cpu.c], [mem/mem.c] and
    [disk/disk.c], [shutdown_disk], the texts they print, and [cleanup_bus] of
    [libunibus/device_bus_mgr.c] with its joins.  The handler runs in the main
    thread, in the processor between two instructions; a signal that the kernel
    gives to a bus thread is left out. *)
From S2P Require Import Prelude Digits Bus Cpu Instr Mem Trace.
From S2P Require Disk.
From Stdlib Require Import String.
#[local] Open Scope Z_scope.

(** ** [cleanup_bus] *)

(** A bus thread between two turns of its loop: not created yet, at the head of the
    loop, inside [slave_wait], which only a signal of the main thread ends, or
    returned. *)
Inductive bus_thread := NotCreated | Looping | SlaveWait | Ended.

(** The bus of a process as its main thread finds it: [BUS_STATE] is there or
    NULL, the threads [PR_BUS] and [D_BUS], the shutdown flag. *)
Record link := Link { bus_there : bool; pr_thread : bus_thread; d_thread : bus_thread; asked : bool }.

(** The next turn of a thread, which leaves its loop when it reads the flag. *)
Definition thread_turn (asked : bool) (t : bus_thread) : bus_thread :=
  match t with
  | Looping => if asked then Ended else Looping
  | t => t
  end.

(** [pthread_join]: the caller waits while the thread takes its turns.  Nobody else
    sets the flag or signals meanwhile, so that one turn that does not end the
    thread is followed by the same turn for ever; a thread that was never created
    has no valid identifier. *)
Definition join (thread : link -> bus_thread) (set : bus_thread -> link -> link) : M link unit := fun l =>
  match thread l with
  | NotCreated => Fault
  | t => match thread_turn (asked l) t with
         | Ended => Done tt (set Ended l)
         | _ => Blocked
         end
  end.

Definition set_asked (l : link) : link := Link (bus_there l) (pr_thread l) (d_thread l) true.
Definition set_pr_thread (t : bus_thread) (l : link) : link := Link (bus_there l) t (d_thread l) (asked l).
Definition set_d_thread (t : bus_thread) (l : link) : link := Link (bus_there l) (pr_thread l) t (asked l).
Definition forget_bus (l : link) : link := Link false (pr_thread l) (d_thread l) (asked l).

(** The lock of [state_mutex] is behind the pointer; no thread keeps it. *)
Definition cleanup_bus : M link unit :=
  there ← gets bus_there;
  if negb there then fault else
  modify set_asked;;
  join pr_thread set_pr_thread;;
  join d_thread set_d_thread.

(** ** A process: its heap object, its bus, what it has printed *)
Record running (A : Type) := Running { heap : option A; bus_link : link; printed : list Z }.
Arguments Running {A} heap bus_link printed.
Arguments heap {A} r.
Arguments bus_link {A} r.
Arguments printed {A} r.

Section Process.
Context {A : Type}.

Definition put (t : list Z) : M (running A) unit :=
  modify (fun r => Running (heap r) (bus_link r) (printed r ++ t)%list).

Definition set_heap (a : option A) : M (running A) unit :=
  modify (fun r => Running a (bus_link r) (printed r)).

Definition on_link {R} (f : M link R) : M (running A) R := fun r =>
  match f (bus_link r) with
  | Done x l => Done x (Running (heap r) l (printed r))
  | Blocked => Blocked
  | Fault => Fault
  end.
End Process.

(** ** The processor *)
Definition final_state (c : cpu) : list Z :=
  (chars "FINAL STATE" ++ [newline] ++ chars "-----------" ++ [newline] ++ dump_cpu c)%list.

Section Processor.
Context {B : Type} {MB : MasterBus B}.

(** [CPU_STATE] with the bus its transfers go to. *)
Abbreviation P := (M (running (machine B))).

(** [BUS_REF] is reset to NULL behind [cleanup_bus]. *)
Definition cleanup : P unit :=
  m ← gets heap;
  match m with Some m => put (final_state (cs m));; set_heap None | None => mret tt end;;
  there ← gets (fun r => bus_there (bus_link r));
  when there (on_link (cleanup_bus;; modify forget_bus)).

(** A computation on [CPU_STATE], which a NULL pointer stops. *)
Definition on_machine {R} (f : M (machine B) R) : P R := fun r =>
  match heap r with
  | None => Fault
  | Some m =>
      match f m with
      | Done x m => Done x (Running (Some m) (bus_link r) (printed r))
      | Blocked => Blocked
      | Fault => Fault
      end
  end.

(** The result of a computation on a copy of it. *)
Definition of_machine {R} (f : M (machine B) R) : P R := fun r =>
  match on_machine f r with
  | Done x _ => Done x r
  | Blocked => Blocked
  | Fault => Fault
  end.

(** A round of the loop of [execute], which reads [CPU_STATE->halted] first;
    [false] when it ends.  The text of the instruction is printed before what
    [exec_instruction] does behind the addressing. *)
Definition execute_round : P bool :=
  h ← on_machine (rd halted);
  if truth h then mret false else
  on_machine fetch_instruction;;
  t ← of_machine instruction_text; put t;;
  on_machine exec_instruction;;
  mret true.

Inductive event := Instruction | Signal.

(** [main] from [execute] on, the events in the given order: the exit status, or
    [None] if the events are over. *)
Fixpoint run_main (es : list event) : P (option Z) :=
  match es with
  | [] => mret None
  | Instruction :: es => go ← execute_round; if go : bool then run_main es else (cleanup;; mret (Some 0))
  | Signal :: es => cleanup;; run_main es
  end.
End Processor.

(** ** The memory: [exit(EXIT_SUCCESS)] is the result 0 *)
Definition row_text (p : Z * list Z) : list Z :=
  (chars "0o" ++ show_padded 5 8 p.1 ++ chars ": " ++
   (p.2 ≫= fun w => chars "0o" ++ show_padded 7 8 w ++ [space]) ++ [newline])%list.

Definition mem_handler : M (running mem_dev) Z :=
  m ← gets heap;
  match m with
  | Some m =>
      match dump_mem m with
      | Done rows _ => put (rows ≫= row_text);; set_heap None
      | Blocked => block
      | Fault => fault
      end
  | None => mret tt
  end;;
  on_link cleanup_bus;;
  mret 0.

(** ** The disk, whose state is a global: [None] is [disk_media == -1] *)
Definition shutdown_disk : M (running Z) unit := set_heap None.

Definition dump_disk_state (d : Disk.disk_state) : list Z :=
  (register_line "RXCS: " (Disk.rxcs d) ++ register_line "RXDB: " (Disk.rxdb d))%list.

Definition disk_handler (d : Disk.disk_state) : M (running Z) Z :=
  there ← gets (fun r => bus_there (bus_link r));
  when there (on_link cleanup_bus);;
  shutdown_disk;;
  put (dump_disk_state d);;
  mret 0.
