(* ===== verification/EndProps.v ===== *)
(** * Properties of the end of a device process *)
From S2P Require Import Prelude Digits Bus Cpu Instr Mem Trace Shutdown.
From S2P Require Disk CpuProps Programs MemProps.
From Stdlib Require Import String.
#[local] Open Scope Z_scope.

(** A thread that leaves its loop when asked to, and one that never does. *)
Definition leaves (t : bus_thread) : Prop := t = Looping \/ t = Ended.

(** The link of a connected process whose clean-up can go through, and behind it. *)
Definition quiet (l : link) : Prop := bus_there l = true /\ leaves (pr_thread l) /\ leaves (d_thread l).

Definition shut : link := Link false Ended Ended true.

Lemma cleanup_bus_quiet l : quiet l -> cleanup_bus l = Done tt (Link true Ended Ended true).
Proof. destruct l as [a b c d]. intros (H1 & [H2|H2] & [H3|H3]); cbn in *; by subst. Qed.

(** The joins wait for a thread in [slave_wait]. *)
Lemma cleanup_bus_waits l :
  bus_there l = true -> leaves (pr_thread l) -> d_thread l = SlaveWait -> cleanup_bus l = Blocked.
Proof. destruct l as [a b c d]. cbn. intros -> [-> | ->] ->; by destruct d. Qed.

Section Processor.
Context {B : Type} {MB : MasterBus B}.

Lemma cleanup_first (m : machine B) l out : quiet l ->
  cleanup (Running (Some m) l out) = Done tt (Running None shut (out ++ final_state (cs m))%list).
Proof. destruct l as [a b c d]. intros (H1 & [H2|H2] & [H3|H3]); cbn in *; by subst. Qed.

Lemma cleanup_again l (out : list Z) : bus_there l = false ->
  cleanup (Running (@None (machine B)) l out) = Done tt (Running None l out).
Proof. destruct l. intros H. cbn in H. by subst. Qed.

(** A round is an instruction of [execute], and its text. *)
Lemma execute_round_eq (m m' : machine B) l out :
  truth (halted (cs m)) = false -> execute_once m = Done tt m' ->
  exists t, execute_round (Running (Some m) l out) = Done true (Running (Some m') l (out ++ t)%list) /\
    forall n, rounds_text (S n) m = (t ++ rounds_text n m')%list.
Proof.
  intros Hh E. rewrite (execute_once_split m) in E. apply bind_inv in E as ([] & m1 & E1 & E2).
  destruct (executed_prints m1 m' E2) as (t & m2 & Et). exists t. split.
  - unfold execute_round. erewrite bind_done by reflexivity. cbv beta. rewrite Hh.
    erewrite bind_done by (unfold on_machine; cbn [heap]; rewrite E1; reflexivity).
    erewrite bind_done by (unfold of_machine, on_machine; cbn [heap]; rewrite Et; reflexivity).
    erewrite bind_done by reflexivity.
    erewrite bind_done by (unfold on_machine; cbn [heap]; rewrite E2; reflexivity). reflexivity.
  - intros n. cbn [rounds_text]. by rewrite Hh, E1, Et, E2.
Qed.

Lemma execute_round_halted (m : machine B) l out :
  truth (halted (cs m)) = true -> execute_round (Running (Some m) l out) = Done false (Running (Some m) l out).
Proof. intros Hh. unfold execute_round, on_machine, mbind, M_bind. cbn. by rewrite Hh. Qed.

(** [n] instructions without an interrupt are those of [execute]. *)
Lemma run_instructions n : forall m m' l out es,
  execute n m = Done None m' ->
  run_main (replicate n Instruction ++ es) (Running (Some m) l out)
  = run_main es (Running (Some m') l (out ++ rounds_text n m)%list).
Proof.
  induction n as [|n IH]; intros m m' l out es H; cbn [execute] in H; unfold mbind, M_bind, rd, gets in H;
    destruct (truth (halted (cs m))) eqn:Hh; try done.
  - injection H as <-. cbn [rounds_text]. by rewrite app_nil_r.
  - destruct (execute_once m) as [[] m1| |] eqn:E; [|done..].
    destruct (execute_round_eq m m1 l out Hh E) as (t & E1 & Et). rewrite Et, (app_assoc out).
    cbn [replicate app run_main]. rewrite (bind_done _ _ _ _ _ E1). by apply IH.
Qed.

Lemma run_halted n : forall m m' l out es,
  execute n m = Done (Some tt) m' ->
  run_main (replicate (S n) Instruction ++ es) (Running (Some m) l out)
  = (cleanup;; mret (Some 0)) (Running (Some m') l (out ++ rounds_text n m)%list).
Proof.
  induction n as [|n IH]; intros m m' l out es H; cbn [execute] in H; unfold mbind, M_bind, rd, gets in H;
    destruct (truth (halted (cs m))) eqn:Hh; try done;
    try (injection H as <-; cbn [rounds_text]; rewrite ?Hh, app_nil_r; cbn [replicate app run_main];
         by rewrite (bind_done _ _ _ _ _ (execute_round_halted m l out Hh))).
  destruct (execute_once m) as [[] m1| |] eqn:E; [|done..].
  destruct (execute_round_eq m m1 l out Hh E) as (t & E1 & Et). rewrite Et, (app_assoc out).
  change (replicate (S (S n)) Instruction) with (Instruction :: replicate (S n) Instruction).
  cbn [app run_main]. rewrite (bind_done _ _ _ _ _ E1). by apply IH.
Qed.

(** C2: How a processor ends, whose bus threads read the shutdown flag, and what
    it prints on standard output.  A program that halts ends the process: behind the text of its
    instructions ([rounds_text]: for each one the registers as it found them, and
    the lines of its addressing) the final state is printed, the bus is shut down
    with both threads joined, the status is 0.  A signal between two instructions
    does not: the handler prints the state and shuts the bus down but returns to
    the loop, which reads [CPU_STATE->halted] through the NULL it has left; a second
    signal prints nothing. *)
Theorem processor_ends n (m m' : machine B) l out :
  quiet l ->
  (execute n m = Done (Some tt) m' ->
    run_main (replicate (S n) Instruction) (Running (Some m) l out)
    = Done (Some 0) (Running None shut (out ++ rounds_text n m ++ final_state (cs m'))%list)) /\
  (execute n m = Done None m' ->
    (forall k es, run_main (replicate n Instruction ++ replicate (S k) Signal ++ Instruction :: es)
                    (Running (Some m) l out) = Fault) /\
    forall k, run_main (replicate n Instruction ++ replicate (S k) Signal) (Running (Some m) l out)
      = Done None (Running None shut (out ++ rounds_text n m ++ final_state (cs m'))%list)).
Proof.
  intros Hq.
  assert (Hsig : forall k es out, run_main (replicate (S k) Signal ++ es) (Running (Some m') l out)
    = run_main es (Running (@None (machine B)) shut (out ++ final_state (cs m'))%list)).
  { clear out. intros k es out. cbn [replicate app run_main]. rewrite (bind_done _ _ _ _ _ (cleanup_first m' l out Hq)).
    induction k as [|k IH]; [done|]. cbn [replicate app run_main].
    by rewrite (bind_done _ _ _ _ _ (cleanup_again shut _ eq_refl)). }
  rewrite app_assoc. split.
  - intros E. rewrite <- (app_nil_r (replicate _ _)), (run_halted n m m' l out [] E).
    by rewrite (bind_done _ _ _ _ _ (cleanup_first m' l _ Hq)).
  - intros E. split; intros k.
    + intros es. by rewrite (run_instructions n m m' l out _ E), Hsig.
    + rewrite (run_instructions n m m' l out _ E). rewrite <- (app_nil_r (replicate (S k) Signal)). by rewrite Hsig.
Qed.
End Processor.

Definition connected : link := Link true Looping Looping false.

Lemma connected_quiet : quiet connected.
Proof. split_and!; by try left. Qed.

Lemma halt_waits : execute 0 (Machine init_cpu CpuProps.mem0) = Done None (Machine init_cpu CpuProps.mem0).
Proof. reflexivity. Qed.

Lemma halt_runs : execute 1 (Machine init_cpu CpuProps.mem0) = Done (Some tt) Programs.halt_result.
Proof. apply Programs.halts_final. vm_compute. reflexivity. Qed.

Lemma halt_text : rounds_text 1 (Machine init_cpu CpuProps.mem0) = dump_cpu (with_reg PC 2 init_cpu).
Proof. vm_compute. reflexivity. Qed.

(** HALT at address 0: after no instruction a signal, and run to its end; the dump
    of the one instruction shows the PC behind it. *)
Lemma processor_ends_witness :
  run_main [Signal; Instruction] (Running (Some (Machine init_cpu CpuProps.mem0)) connected []) = Fault /\
  run_main [Instruction; Instruction] (Running (Some (Machine init_cpu CpuProps.mem0)) connected [])
  = Done (Some 0) (Running None shut (dump_cpu (with_reg PC 2 init_cpu) ++ final_state (cs Programs.halt_result))%list).
Proof.
  split.
  - destruct (processor_ends 0 (Machine init_cpu CpuProps.mem0) (Machine init_cpu CpuProps.mem0) connected []
      connected_quiet) as (_ & H). destruct (H halt_waits) as [H1 _]. exact (H1 0%nat []).
  - destruct (processor_ends 1 (Machine init_cpu CpuProps.mem0) Programs.halt_result connected []
      connected_quiet) as (H & _). specialize (H halt_runs). rewrite app_nil_l in H.
    rewrite halt_text in H. exact H.
Defined.

(** The memory's handler up to the bus. *)
Lemma mem_handler_eq m rows m' l out : dump_mem m = Done rows m' ->
  mem_handler (Running (Some m) l out)
  = (on_link cleanup_bus;; mret 0) (Running None l (out ++ (rows ≫= row_text))%list).
Proof.
  intros E. unfold mem_handler. rewrite (bind_done _ _ _ (Some m) (Running (Some m) l out)) by done.
  cbv iota. rewrite E. reflexivity.
Qed.

(** The handlers of the memory and of the disk end their processes with status 0,
    what they print behind what was there - unless the signal comes before
    [init_bus], when the memory's handler locks a mutex behind a NULL pointer, or
    before the threads are created, or while the bus thread waits for the main
    thread, whose handler then waits for the bus thread. *)
Theorem device_handlers m l out fd d :
  mem_wf m ->
  exists t,
  (quiet l -> mem_handler (Running (Some m) l out) = Done 0 (Running None (Link true Ended Ended true) (out ++ t)%list)) /\
  (bus_there l = false -> mem_handler (Running (Some m) l out) = Fault) /\
  (pr_thread l = NotCreated -> mem_handler (Running (Some m) l out) = Fault) /\
  (bus_there l = true -> leaves (pr_thread l) -> d_thread l = SlaveWait ->
    mem_handler (Running (Some m) l out) = Blocked) /\
  (quiet l \/ bus_there l = false -> exists l',
     disk_handler d (Running fd l out) = Done 0 (Running None l' (out ++ dump_disk_state d)%list)).
Proof.
  intros Hm. destruct (MemProps.dump_mem_correct m Hm) as (rows & E & _).
  exists (rows ≫= row_text)%list. rewrite (mem_handler_eq m rows m l out E). generalize (rows ≫= row_text).
  clear E. intros t. unfold mbind at 1 2 3 4, M_bind at 1 2 3 4, on_link. split_and!.
  - intros Hq. cbn [bus_link]. by rewrite (cleanup_bus_quiet l Hq).
  - destruct l as [a b c e]. cbn. by intros ->.
  - destruct l as [a b c e]. cbn. intros ->. by destruct a.
  - intros H1 H2 H3. cbn [bus_link]. by rewrite (cleanup_bus_waits l H1 H2 H3).
  - destruct l as [a b c e]. intros [(H1 & [H2|H2] & [H3|H3])|H1]; cbn in *; subst; by eexists.
Qed.
