(* ===== verification/PriorityBus.v ===== *)
(** * The priority bus of a device

    [libunibus/priority_bus.c] and the mastership half of
    [libunibus/device_bus_mgr.c]: the bus thread that passes requests and grants
    along the chain of devices, and the main thread that asks for the bus.

    The bus thread runs on a process ([Sockets.proc]) whose own state is a
    [device]: the shared [bus_state] flags, the [pr_state] of the thread and the
    main thread's place in [req_bus_master] or [release_bus_master].  The flags
    are [uint8_t] with the values 0 and 1.  The trace output is left out. *)
From S2P Require Import Prelude Sockets.
From Stdlib Require Import Ascii String.
#[local] Open Scope Z_scope.

(** ** State *)
Inductive direction := D_LEFT | D_RIGHT | D_NONE.

#[export] Instance direction_eq_dec : EqDecision direction.
Proof. solve_decision. Defined.

Record pr_state := PrState {
  pr_out_addr_l : string; pr_out_addr_r : string; pr_in_addr : string;
  pr_bus_in : Z; pr_bus_out_l : Z; pr_bus_out_r : Z;
  npr_issued : Z; br_issued : Z; sack_asserted : Z; bbsy_asserted : Z
}.

(** The part of [bus_state] the two threads share here. *)
Record mastership := Mastership {
  is_master : Z; req_master : Z; rel_master : Z; shutdown : Z
}.

(** The main thread: outside the two calls, or in one of them before or behind
    the start of its [pthread_cond_wait]. *)
Inductive main_pc :=
| MOut
| MReqEnter | MReqWait      (* [req_bus_master] *)
| MRelEnter | MRelWait.     (* [release_bus_master] *)

#[export] Instance main_pc_eq_dec : EqDecision main_pc.
Proof. solve_decision. Defined.

Record device := Dev { bus : mastership; pr : pr_state; main : main_pc }.

Abbreviation D := (M (proc device)).

(** Assignments to the fields. *)
Definition on_pr (f : pr_state -> pr_state) (d : device) : device := Dev (bus d) (f (pr d)) (main d).
Definition on_bus (f : mastership -> mastership) (d : device) : device :=
  Dev (f (bus d)) (pr d) (main d).

Definition set_out_l (fd : Z) (p : pr_state) : pr_state :=
  PrState (pr_out_addr_l p) (pr_out_addr_r p) (pr_in_addr p) (pr_bus_in p) fd (pr_bus_out_r p)
    (npr_issued p) (br_issued p) (sack_asserted p) (bbsy_asserted p).
Definition set_out_r (fd : Z) (p : pr_state) : pr_state :=
  PrState (pr_out_addr_l p) (pr_out_addr_r p) (pr_in_addr p) (pr_bus_in p) (pr_bus_out_l p) fd
    (npr_issued p) (br_issued p) (sack_asserted p) (bbsy_asserted p).
Definition set_flags (npr br sack bbsy : Z) (p : pr_state) : pr_state :=
  PrState (pr_out_addr_l p) (pr_out_addr_r p) (pr_in_addr p) (pr_bus_in p) (pr_bus_out_l p)
    (pr_bus_out_r p) npr br sack bbsy.
Definition set_npr (v : Z) (p : pr_state) : pr_state :=
  set_flags v (br_issued p) (sack_asserted p) (bbsy_asserted p) p.
Definition set_br (v : Z) (p : pr_state) : pr_state :=
  set_flags (npr_issued p) v (sack_asserted p) (bbsy_asserted p) p.
Definition set_sack (v : Z) (p : pr_state) : pr_state :=
  set_flags (npr_issued p) (br_issued p) v (bbsy_asserted p) p.
Definition set_bbsy (v : Z) (p : pr_state) : pr_state :=
  set_flags (npr_issued p) (br_issued p) (sack_asserted p) v p.

Definition set_is_master (v : Z) (b : mastership) : mastership :=
  Mastership v (req_master b) (rel_master b) (shutdown b).
Definition set_req_master (v : Z) (b : mastership) : mastership :=
  Mastership (is_master b) v (rel_master b) (shutdown b).
Definition set_rel_master (v : Z) (b : mastership) : mastership :=
  Mastership (is_master b) (req_master b) v (shutdown b).
Definition set_shutdown (v : Z) (b : mastership) : mastership :=
  Mastership (is_master b) (req_master b) (rel_master b) v.

(** What [malloc] left in the fields [init_pr_state] does not assign. *)
Record pr_junk := PrJunk { junk_addr_l : string; junk_addr_r : string; junk_out_l : Z; junk_out_r : Z }.

(** [None] if a call fails and the thread ends. *)
Definition init_pr_state (j : pr_junk) (l : option string) (sock : string) (r : option string) :
    M os (option pr_state) := fun o =>
  let path_l := from_option socket_path (junk_addr_l j) l in
  let path_r := from_option socket_path (junk_addr_r j) r in
  let path := socket_path sock in
  if (if l is Some _ then fits path_l else true) && (if r is Some _ then fits path_r else true) && fits path then
    let '(fd, o) := socket o in
    if fd =? -1 then Done None o else
    let '(ret, o) := bind fd path o in
    if ret =? -1 then Done None o else
    Done (Some (PrState path_l path_r path fd
                  (if l is Some _ then junk_out_l j else -1) (if r is Some _ then junk_out_r j else -1) 0 0 0 0)) o
  else Fault.

(** ** Connections *)
Definition pr_connect_l : D Z :=
  fd ← ask (fun d => pr_bus_out_l (pr d));
  if fd =? -1 then mret (-1) else
  fd ← sys_call socket;
  update (on_pr (set_out_l fd));;
  if fd =? -1 then mret (-1) else
  path ← ask (fun d => pr_out_addr_l (pr d));
  sys_call (connect fd path).

Definition pr_connect_r : D Z :=
  fd ← ask (fun d => pr_bus_out_r (pr d));
  if fd =? -1 then mret (-1) else
  fd ← sys_call socket;
  update (on_pr (set_out_r fd));;
  if fd =? -1 then mret (-1) else
  path ← ask (fun d => pr_out_addr_r (pr d));
  sys_call (connect fd path).

Definition pr_connect (dir : direction) : D Z :=
  match dir with D_LEFT => pr_connect_l | D_RIGHT => pr_connect_r | D_NONE => mret (-1) end.

Definition pr_close_l : D Z := fd ← ask (fun d => pr_bus_out_l (pr d)); sys_call (close fd).
Definition pr_close_r : D Z := fd ← ask (fun d => pr_bus_out_r (pr d)); sys_call (close fd).

Definition pr_close (dir : direction) : D Z :=
  match dir with D_LEFT => pr_close_l | D_RIGHT => pr_close_r | D_NONE => mret (-1) end.

Definition get_fd (dir : direction) (p : pr_state) : Z :=
  match dir with D_LEFT => pr_bus_out_l p | D_RIGHT => pr_bus_out_r p | D_NONE => -1 end.

Definition get_fd_direction (req : pr_bus_req) (reply : Z) (p : pr_state) : direction :=
  if (pr_bus_out_l p =? -1) && (pr_bus_out_r p =? -1) then D_NONE
  else if pr_bus_out_l p =? -1 then (if truth reply then D_RIGHT else D_NONE)
  else if pr_bus_out_r p =? -1 then (if truth reply then D_LEFT else D_NONE)
  else if same_name (from req) (pr_out_addr_l p)
  then (if truth reply then D_LEFT else D_RIGHT)
  else (if truth reply then D_RIGHT else D_LEFT).

Definition update_from_addr (p : pr_state) (req : pr_bus_req) : pr_bus_req :=
  PrReq (from_field (pr_in_addr p)) (sig req) (assertion req).

(** ** Sending *)

(** A signal of this device's own, to both neighbours: the middle part of
    [assert_br], [assert_bbsy], [negate_sack] and [negate_bbsy].  [false] where
    these return because a [write] failed. *)
Definition send_side (conn : D Z) (fd : pr_state -> Z) (clo : D Z) (req : pr_bus_req) : D bool :=
  ret ← conn;
  if ret =? -1 then mret true else
  fd ← ask (fun d => fd (pr d));
  ret ← sys_call (write fd req);
  if ret =? -1 then mret false else (clo;; mret true).

Definition send_both (s : pr_signal) (a : Z) : D bool :=
  path ← ask (fun d => pr_in_addr (pr d));
  let req := PrReq (from_field path) s a in
  ok ← send_side pr_connect_l pr_bus_out_l pr_close_l req;
  if ok : bool then send_side pr_connect_r pr_bus_out_r pr_close_r req else mret false.

Definition assert_br : D unit :=
  p ← ask pr;
  if truth (bbsy_asserted p) && (br_issued p =? 0) then mret tt else
  ok ← send_both BR ASSERTED;
  when ok (update (on_pr (set_br 1))).

Definition assert_bbsy : D unit :=
  p ← ask pr;
  if truth (bbsy_asserted p) then mret tt else
  ok ← send_both BBSY ASSERTED;
  when ok (update (on_pr (set_bbsy 1));;
           update (on_bus (fun b => set_req_master 0 (set_is_master 1 b)))).

Definition negate_sack : D unit :=
  p ← ask pr;
  if negb (truth (sack_asserted p)) then mret tt else
  ok ← send_both SACK NEGATED;
  when ok (update (on_pr (set_sack 0));;
           update (on_bus (fun b => set_req_master 0 (set_is_master 0 b)))).

Definition negate_bbsy : D unit :=
  p ← ask pr;
  if negb (truth (bbsy_asserted p)) then mret tt else
  ok ← send_both BBSY NEGATED;
  when ok (update (on_pr (set_bbsy 0));;
           update (on_bus (fun b => set_rel_master 0 (set_req_master 0 (set_is_master 0 b))))).

(** A request in one direction: the descriptor is looked up before the
    connection that replaces it is made.  [false] where the [write] failed. *)
Definition relay (dir : direction) (req : pr_bus_req) : D bool :=
  p ← ask pr;
  let out_fd := get_fd dir p in
  pr_connect dir;;
  ret ← sys_call (write out_fd req);
  if ret =? -1 then mret false else (pr_close dir;; mret true).

Definition pass_on (dir : direction) (req : pr_bus_req) : D unit :=
  if decide (dir = D_NONE) then mret tt else
  p ← ask pr; relay dir (update_from_addr p req);; mret tt.

(** ** Handlers *)
Definition handle_br (req : pr_bus_req) : D unit :=
  dir ← ask (fun d => get_fd_direction req 0 (pr d)); pass_on dir req.

(** [pthread_cond_signal] to the main thread: lost unless it waits. *)
Definition signal_master : D unit :=
  update (fun d => Dev (bus d) (pr d) (match main d with MReqWait => MOut | m => m end)).

Definition signal_released : D unit :=
  update (fun d => Dev (bus d) (pr d) (match main d with MRelWait => MOut | m => m end)).

Definition handle_bg (req : pr_bus_req) : D unit :=
  p ← ask pr;
  if truth (br_issued p) && (assertion req =? ASSERTED) then
    let resp := update_from_addr p (PrReq "" SACK ASSERTED) in
    let dir := get_fd_direction req 1 p in
    if decide (dir = D_NONE) then mret tt else
    ok ← relay dir resp;
    when ok (update (on_pr (set_br 0));; update (on_pr (set_sack 1)))
  else if truth (sack_asserted p) && (assertion req =? NEGATED) then
    assert_bbsy;; signal_master
  else pass_on (get_fd_direction req 0 p) req.

Definition handle_npr (req : pr_bus_req) : D unit :=
  dir ← ask (fun d => get_fd_direction req 0 (pr d)); pass_on dir req.

Definition handle_npg (req : pr_bus_req) : D unit :=
  p ← ask pr;
  if truth (npr_issued p) then
    let resp := update_from_addr p (PrReq "" SACK ASSERTED) in
    let dir := get_fd_direction req 1 p in
    if decide (dir = D_NONE) then mret tt else
    ok ← relay dir resp;
    when ok (update (on_pr (set_npr 0));; update (on_pr (set_sack 1)))
  else pass_on (get_fd_direction req 0 p) req.

Definition handle_sack (req : pr_bus_req) : D unit :=
  dir ← ask (fun d => get_fd_direction req 0 (pr d)); pass_on dir req.

Definition handle_bbsy (req : pr_bus_req) : D unit :=
  dir ← ask (fun d => get_fd_direction req 0 (pr d));
  update (on_pr (set_bbsy (if assertion req =? ASSERTED then 1 else 0)));;
  pass_on dir req.

Definition handle (event : pr_bus_req) : D unit :=
  match sig event with
  | BR => handle_br event
  | BG => handle_bg event
  | NPR => handle_npr event
  | NPG => handle_npg event
  | SACK => handle_sack event
  | BBSY => handle_bbsy event
  end.

Definition process_pr_events : D unit :=
  fd ← ask (fun d => pr_bus_in (pr d));
  event ← sys_call (recv fd);
  match event with None => mret tt | Some event => handle event end.

Definition request_master : D unit :=
  p ← ask pr;
  if truth (bbsy_asserted p) then mret tt else
  assert_br;; update (on_bus (set_req_master 0)).

Definition release_master : D unit := negate_sack;; negate_bbsy;; signal_released.

(** The body of the loop of [priority_bus_mgr]; the result is the value of
    [shutdown] the loop condition tests. *)
Definition iteration : D Z :=
  b ← ask bus;
  (if truth (req_master b) && (is_master b =? 0) then request_master
   else if truth (rel_master b) && (is_master b =? 1) then release_master
   else mret tt);;
  process_pr_events;;
  mret (shutdown b).

Definition pr_cleanup : D Z :=
  p ← ask pr;
  sys_call (close (pr_bus_in p));; sys_call (unlink (pr_in_addr p));; mret 0.

(** The loop, [fuel] iterations at most: [None] if it has not ended; the rest
    of the system acts between two iterations. *)
Fixpoint priority_bus_mgr (env : os -> os) (fuel : nat) : D (option Z) :=
  match fuel with
  | O => mret None
  | S fuel' =>
      halt ← iteration;
      if truth halt then (r ← pr_cleanup; mret (Some r))
      else (modify (fun p => Proc (self p) (env (system p)));; priority_bus_mgr env fuel')
  end.

(** ** The main thread *)

(** [req_bus_master] and [release_bus_master], up to the wait. *)
Definition req_bus_master (d : device) : device :=
  Dev (if is_master (bus d) =? 0 then set_req_master 1 (bus d) else bus d) (pr d) MReqEnter.

Definition release_bus_master (d : device) : device :=
  Dev (if is_master (bus d) =? 1 then set_rel_master 1 (bus d) else bus d) (pr d) MRelEnter.

(** The start of the wait. *)
Definition enter_wait (d : device) : device :=
  Dev (bus d) (pr d) (match main d with MReqEnter => MReqWait | MRelEnter => MRelWait | m => m end).

(** [cleanup_bus], up to the joins. *)
Definition cleanup_bus (d : device) : device := on_bus (set_shutdown 1) d.
