(* ===== verification/Arbiter.v ===== *)
(** * The bus arbiter

    [libunibus/bus_arb.c], the priority thread of the processor: requests are
    answered by grants to [current_client], a grant is withdrawn when SACK comes.
    The arbiter runs on a process ([Sockets.proc]); its return values are those
    of the source. *)
From S2P Require Import Prelude Sockets.
From Stdlib Require Import Ascii String.
#[local] Open Scope Z_scope.

Record arb_state := ArbState {
  priority_socket : Z; client_socket : Z; socket_name : string;
  current_client : string;
  outstanding_bg : Z; outstanding_npg : Z; sack : Z; bbsy : Z
}.

Abbreviation A := (M (proc arb_state)).

Definition NAME : string := "cpu".

(** Assignments to the fields. *)
Definition set_client_socket (fd : Z) (a : arb_state) : arb_state :=
  ArbState (priority_socket a) fd (socket_name a) (current_client a) (outstanding_bg a)
    (outstanding_npg a) (sack a) (bbsy a).
Definition set_signals (bg npg s b : Z) (a : arb_state) : arb_state :=
  ArbState (priority_socket a) (client_socket a) (socket_name a) (current_client a) bg npg s b.
Definition set_outstanding_bg (v : Z) (a : arb_state) : arb_state :=
  set_signals v (outstanding_npg a) (sack a) (bbsy a) a.
Definition set_outstanding_npg (v : Z) (a : arb_state) : arb_state :=
  set_signals (outstanding_bg a) v (sack a) (bbsy a) a.
Definition set_sack (v : Z) (a : arb_state) : arb_state :=
  set_signals (outstanding_bg a) (outstanding_npg a) v (bbsy a) a.
Definition set_bbsy (v : Z) (a : arb_state) : arb_state :=
  set_signals (outstanding_bg a) (outstanding_npg a) (sack a) v a.

Definition update_from_addr (a : arb_state) (req : pr_bus_req) : pr_bus_req :=
  PrReq (from_field (current_client a)) (sig req) (assertion req).

(** [init_arb]; the client's address is the name itself. *)
Definition init_arb (n_sock : string) : arb_state :=
  ArbState (-1) (-1) "" n_sock 0 0 NEGATED NEGATED.

Definition setup_arb_socket : A Z :=
  fd ← sys_call socket;
  update (fun a => ArbState fd (client_socket a) (socket_name a) (current_client a)
                     (outstanding_bg a) (outstanding_npg a) (sack a) (bbsy a));;
  if fd =? -1 then mret (-1) else
  update (fun a => ArbState (priority_socket a) (client_socket a) (socket_path NAME)
                     (current_client a) (outstanding_bg a) (outstanding_npg a) (sack a) (bbsy a));;
  sys_call (bind fd (socket_path NAME)).

Definition client_connect : A Z :=
  fd ← sys_call socket;
  update (set_client_socket fd);;
  if fd =? -1 then mret (-1) else
  path ← ask current_client;
  sys_call (connect fd path).

Definition client_close : A Z := fd ← ask client_socket; sys_call (close fd).

(** A grant to the client: the result of [sendto]; the socket stays open if it
    fails. *)
Definition send_grant (s : pr_signal) (v : Z) : A Z :=
  a ← ask id;
  client_connect;;
  fd ← ask client_socket;
  rv ← sys_call (sendto fd (update_from_addr a (PrReq "" s v)) (current_client a));
  if rv =? -1 then mret rv else (client_close;; mret rv).

Definition assert_bus_grant : A Z :=
  s ← ask sack;
  if s =? ASSERTED then mret (-1) else
  update (set_outstanding_bg 1);; send_grant BG ASSERTED.

Definition negate_bus_grant : A Z := update (set_outstanding_bg 0);; send_grant BG NEGATED.

Definition assert_np_grant : A Z :=
  s ← ask sack;
  if s =? ASSERTED then mret (-1) else
  update (set_outstanding_npg 1);;
  ret ← send_grant NPG ASSERTED; mret (if ret =? -1 then ret else 0).

Definition negate_np_grant : A Z :=
  update (set_outstanding_npg 0);;
  ret ← send_grant NPG NEGATED; mret (if ret =? -1 then -1 else 0).

Definition handle_sack (req : pr_bus_req) : A Z :=
  a ← ask id;
  if (sack a =? NEGATED) && (assertion req =? ASSERTED) then
    update (set_sack (assertion req));;
    (if outstanding_bg a =? 1 then negate_bus_grant
     else if outstanding_npg a =? 1 then negate_np_grant else mret 0)
  else if (sack a =? ASSERTED) && (assertion req =? NEGATED) then
    update (set_sack (assertion req));; mret 0
  else mret 0.

Definition handle_bbsy (req : pr_bus_req) : A Z :=
  a ← ask id;
  if (bbsy a =? ASSERTED) && (assertion req =? NEGATED) then update (set_bbsy NEGATED);; mret 0
  else if (bbsy a =? NEGATED) && (assertion req =? ASSERTED) then update (set_bbsy ASSERTED);; mret 0
  else mret (-1).

Definition dispatch (req : pr_bus_req) : A Z :=
  match sig req with
  | BR => assert_bus_grant
  | NPR => assert_np_grant
  | SACK => handle_sack req
  | BBSY => handle_bbsy req
  | BG | NPG => mret 0
  end.

(** [recv] fails with another error than [EAGAIN]: the descriptor is closed, or is no
    socket. *)
Definition recv_error (a : arb_state) (o : os) : bool :=
  match fds o !! priority_socket a with Some (DSocket _ _) => false | _ => true end.

(** The body of the loop of [listen_priority] if there is no such error; [EAGAIN] and
    [EWOULDBLOCK] are the same number, so an empty queue does not end the loop. *)
Definition listen_once : A unit :=
  fd ← ask priority_socket;
  event ← sys_call (recv fd);
  match event with None => mret tt | Some req => dispatch req;; mret tt end.

Definition cleanup_arb : A unit :=
  a ← ask id; sys_call (close (priority_socket a));; sys_call (unlink (socket_name a));; mret tt.

(** [bus_arb_mgr] while [halts] does not ask for the end: the values of
    [shutdown] the loop reads; between two iterations the rest of the system acts. An
    error of [recv] ends the loop. *)
Fixpoint listen_priority (env : os -> os) (halts : list bool) : A unit :=
  match halts with
  | [] => mret tt
  | halt :: halts' =>
      broken ← gets (fun p => recv_error (self p) (system p));
      if broken : bool then mret tt else
      listen_once;;
      if halt : bool then mret tt
      else (modify (fun p => Proc (self p) (env (system p)));; listen_priority env halts')
  end.

Definition bus_arb_mgr (env : os -> os) (halts : list bool) : M os unit := fun o =>
  match (setup_arb_socket;; listen_priority env halts;; cleanup_arb) (Proc (init_arb NAME) o) with
  | Done _ p => Done tt (system p)
  | Blocked => Blocked
  | Fault => Fault
  end.
