(* ===== verification/StartProps.v ===== *)
(** * Properties of the start of a device *)
From S2P Require Import Prelude Digits Bus Cpu Instr CpuFacts Mem CpuMem Load DataBus Sockets DataSocket.
From S2P Require Import DataSocketFacts Startup.
From S2P Require Import CpuProps MemProps.
From S2P Require Disk SocketProps PriorityBus Arbiter.
From Stdlib Require Import Ascii String.
#[local] Open Scope Z_scope.

(** ** The threads *)

(** The states the three threads reach together. *)
Inductive start_reach (e : start_calls) : starting -> starting -> Prop :=
| start_refl s : start_reach e s s
| start_more s w s1 s2 : start_reach e s s1 -> start_step e w s1 = Some s2 -> start_reach e s s2.

(** The main thread waits, or is about to, for a signal that is not to come. *)
Definition blocked (s : starting) : bool :=
  let gone t := match t with TLoop | TEnded => true | _ => false end in
  match connecting s with
  | SEnterPr | SWaitPr => gone (pr_thread s)
  | SEnterD | SWaitD => gone (d_thread s)
  | _ => false
  end.

Definition all_ok (e : start_calls) : bool :=
  (create_pr e =? 0) && (create_d e =? 0) && pr_setup e && d_setup e.

(** What holds at every point of the start. *)
Definition start_inv (e : start_calls) (s : starting) : bool :=
  let pr_up := (create_pr e =? 0) && pr_setup e && match pr_thread s with TLoop => true | _ => false end in
  let failed t ok := match t with TEnded => negb ok | TSignal | TLoop => ok | _ => true end in
  failed (pr_thread s) (pr_setup e) && failed (d_thread s) (d_setup e) &&
  match connecting s with
  | SCreatePr => match pr_thread s, d_thread s with TNone, TNone => true | _, _ => false end
  | SEnterPr | SWaitPr =>
      (create_pr e =? 0) && match pr_thread s with TNone => false | _ => true end
      && match d_thread s with TNone => true | _ => false end
  | SCreateD => pr_up && match d_thread s with TNone => true | _ => false end
  | SEnterD | SWaitD => pr_up && (create_d e =? 0) && match d_thread s with TNone => false | _ => true end
  | SReady => pr_up && (create_d e =? 0) && d_setup e && match d_thread s with TLoop => true | _ => false end
  | SFailed r =>
      match d_thread s with TNone => true | _ => false end
      && match pr_thread s with TNone => negb (create_pr e =? 0) | TLoop => negb (create_d e =? 0) | _ => false end
      && (r =? -1)
  end.

(** The steps the three threads still have to make, at most. *)
Definition start_left (s : starting) : nat :=
  match connecting s with
  | SCreatePr => 6 | SEnterPr => 5 | SWaitPr => 4 | SCreateD => 3 | SEnterD => 2 | SWaitD => 1
  | SReady | SFailed _ => 0
  end +
  match pr_thread s with TNone => 3 | TInit => 2 | TSignal => 1 | _ => 0 end +
  match d_thread s with TNone => 3 | TInit => 2 | TSignal => 1 | _ => 0 end.

Ltac start_cases e s :=
  destruct s as [c p d]; unfold start_step, step_connect, step_pr, step_d, init_thread,
    set_up, signal_pr, signal_d, start_inv, start_left, blocked in *;
  cbn [connecting pr_thread d_thread] in *;
  destruct c; cbn in *; try done; destruct p; cbn in *; try done; destruct d; cbn in *; try done;
  destruct (create_pr e =? 0), (create_d e =? 0), (pr_setup e), (d_setup e); cbn in *; try done.

Lemma start_inv_step e w s s' :
  start_inv e s = true -> start_step e w s = Some s' -> start_inv e s' = true.
Proof. intros Hi Hs. destruct w; start_cases e s; by injection Hs as <-. Qed.

Lemma start_left_step e w s s' :
  start_inv e s = true -> start_step e w s = Some s' -> (start_left s' < start_left s)%nat.
Proof. intros Hi Hs. destruct w; start_cases e s; injection Hs as <-; cbn; lia. Qed.

Lemma blocked_step e w s s' :
  start_inv e s = true -> blocked s = true -> start_step e w s = Some s' -> blocked s' = true.
Proof. intros Hi Hb Hs. destruct w; start_cases e s; by injection Hs as <-. Qed.

Lemma start_stops e s : start_inv e s = true -> (forall w, start_step e w s = None) ->
  blocked s = true \/ connecting s = SReady \/ exists r, connecting s = SFailed r.
Proof.
  intros Hi Hn. pose proof (Hn Main) as H1. pose proof (Hn PrThread) as H2. pose proof (Hn DThread) as H3.
  clear Hn. start_cases e s; eauto.
Qed.

Lemma start_reach_inv e s s' : start_inv e s = true -> start_reach e s s' -> start_inv e s' = true.
Proof.
  intros H R. induction R as [|s w s1 s2 R IH E]; [done|]. eapply start_inv_step; [by apply IH | exact E].
Qed.

Lemma blocked_reach e s s' : start_inv e s = true -> blocked s = true -> start_reach e s s' -> blocked s' = true.
Proof.
  intros Hi Hb R. induction R as [|s w s1 s2 R IH E]; [done|].
  eapply blocked_step; [by eapply start_reach_inv | by apply IH | exact E].
Qed.

(** A schedule, every step of which is possible. *)
Fixpoint start_run (e : start_calls) (ws : list who) (s : starting) : option starting :=
  match ws with
  | [] => Some s
  | w :: ws => s' ← start_step e w s; start_run e ws s'
  end.

Lemma start_run_length e ws : forall s s', start_inv e s = true -> start_run e ws s = Some s' ->
  (List.length ws <= start_left s)%nat.
Proof.
  induction ws as [|w ws IH]; intros s s' Hi H; [cbn; lia|]. cbn [start_run] in H.
  destruct (start_step e w s) as [s1|] eqn:E; [|done]. cbn in H.
  pose proof (start_left_step _ _ _ _ Hi E). pose proof (IH s1 s' (start_inv_step _ _ _ _ Hi E) H). cbn. lia.
Qed.

Lemma start_run_reach e ws : forall s0 s s', start_reach e s0 s -> start_run e ws s = Some s' -> start_reach e s0 s'.
Proof.
  induction ws as [|w ws IH]; intros s0 s s' R H; cbn [start_run] in H; [by injection H as <-|].
  destruct (start_step e w s) as [s1|] eqn:E; [|done]. by eapply IH; [eapply start_more|].
Qed.

(** The schedule in which every thread waits for the main thread, and the two in
    which a bus thread is faster. *)
Definition patient : list who := [Main; Main; PrThread; PrThread; Main; Main; DThread; DThread].
Definition hasty_pr : list who := [Main; PrThread; PrThread; Main].
Definition hasty_d : list who := [Main; Main; PrThread; PrThread; Main; DThread; DThread; Main].

Lemma start_ends e s : start_inv e s = true -> (forall w, start_step e w s = None) ->
  blocked s = true \/ connecting s = SReady \/ connecting s = SFailed (-1).
Proof.
  intros Hi Hn. destruct (start_stops e s Hi Hn) as [?|[?|[r Hr]]]; [by left | by right; left |].
  right. right. rewrite Hr. f_equal. clear Hn. destruct s as [c p d]. cbn in Hr. subst c.
  unfold start_inv in Hi. cbn [connecting] in Hi. apply andb_prop in Hi as [_ Hi]. apply andb_prop in Hi as [_ Hi]. by apply Z.eqb_eq.
Qed.

Lemma start_ready e s : start_inv e s = true -> connecting s = SReady -> pr_thread s = TLoop /\ d_thread s = TLoop.
Proof. intros Hi Hc. start_cases e s. Qed.

Lemma start_failed e s : start_inv e s = true -> forall r, connecting s = SFailed r -> create_pr e <> 0 \/ create_d e <> 0.
Proof.
  intros Hi r Hc. destruct (Z.eqb_spec (create_pr e) 0) as [E1|]; [|by left].
  destruct (Z.eqb_spec (create_d e) 0) as [E2|]; [|by right]. exfalso.
  destruct s as [c p d]. cbn in Hc. subst c. unfold start_inv in Hi. cbn in Hi. rewrite E1, E2 in Hi. cbn in Hi.
  destruct p, d, (pr_setup e), (d_setup e); done.
Qed.

Lemma blocked_for_good e s : start_inv e s = true -> blocked s = true ->
  forall s', start_reach e s s' -> connecting s' <> SReady /\ forall r, connecting s' <> SFailed r.
Proof.
  intros Hi Hb s' R. pose proof (blocked_reach _ _ _ Hi Hb R) as Hb'. unfold blocked in Hb'.
  by split; [intros E | intros r E]; rewrite E in Hb'.
Qed.

Lemma all_ok_runs e : all_ok e = true ->
  start_run e patient launch = Some (Starting SReady TLoop TLoop) /\
  start_run e hasty_pr launch = Some (Starting SWaitPr TLoop TNone) /\
  start_run e hasty_d launch = Some (Starting SWaitD TLoop TLoop).
Proof.
  unfold all_ok. intros [[[E1 E2]%andb_prop E3]%andb_prop E4]%andb_prop.
  unfold patient, hasty_pr, hasty_d. cbn [start_run start_step launch].
  unfold step_connect, step_pr, step_d, init_thread. cbn.
  repeat (rewrite ?E1, ?E2, ?E3, ?E4; cbn). done.
Qed.

(** With both threads created, a start whose set-ups do not all succeed hangs. *)
Lemma setup_failure_blocks e s : start_inv e s = true -> create_pr e = 0 -> create_d e = 0 ->
  pr_setup e = false \/ d_setup e = false -> (forall w, start_step e w s = None) -> blocked s = true.
Proof.
  intros Hi E1 E2 Hf Hn. destruct (start_ends e s Hi Hn) as [?|[Hc|Hc]]; [done| |].
  - exfalso. clear Hn. start_cases e s; by destruct Hf.
  - destruct (start_failed e s Hi _ Hc); done.
Qed.

(** ** Missed signals *)

(** A thread gives its signal while the main thread does not wait for it. *)
Definition misses (w : who) (s : starting) : bool :=
  match w with
  | Main => false
  | PrThread => bool_decide (pr_thread s = TSignal) && negb (bool_decide (connecting s = SWaitPr))
  | DThread => bool_decide (d_thread s = TSignal) && negb (bool_decide (connecting s = SWaitD))
  end.

(** It does so somewhere in a schedule. *)
Fixpoint missed (e : start_calls) (ws : list who) (s : starting) : bool :=
  match ws with
  | [] => false
  | w :: ws => misses w s || match start_step e w s with Some s' => missed e ws s' | None => false end
  end.

(** The main thread has not gone on although the thread is in its loop. *)
Definition stranded (s : starting) : bool :=
  match connecting s with
  | SEnterPr | SWaitPr => bool_decide (pr_thread s = TLoop)
  | SEnterD | SWaitD => bool_decide (d_thread s = TLoop)
  | _ => false
  end.

Definition ended (s : starting) : Prop := pr_thread s = TEnded \/ d_thread s = TEnded.

Lemma stranded_step e w s s' : start_inv e s = true -> start_step e w s = Some s' ->
  stranded s' = true -> stranded s || misses w s = true.
Proof.
  intros Hi Hs Hd. unfold stranded, misses in *. destruct w; start_cases e s; injection Hs as <-; by cbn in *.
Qed.

Lemma misses_blocks e w s s' : start_inv e s = true -> misses w s = true -> start_step e w s = Some s' -> blocked s' = true.
Proof. intros Hi Hm Hs. unfold misses in *. destruct w; start_cases e s; by injection Hs as <-. Qed.

Lemma ended_blocks e s : start_inv e s = true -> ended s -> blocked s = true.
Proof. intros Hi [H|H]; destruct s as [c p d]; cbn in H; subst; unfold start_inv, blocked in *; cbn in *;
  destruct c, (create_pr e =? 0), (create_d e =? 0), (pr_setup e), (d_setup e); try done; try by destruct p. all: try by destruct d.
Qed.

Lemma blocked_why s : blocked s = true -> stranded s = true \/ ended s.
Proof.
  destruct s as [c p d]. unfold blocked, stranded, ended. cbn. intros H.
  destruct c; try done; [destruct p | destruct p | destruct d | destruct d]; try done; auto.
Qed.

Lemma stranded_missed e ws : forall s s', start_inv e s = true -> start_run e ws s = Some s' ->
  stranded s' = true -> stranded s || missed e ws s = true.
Proof.
  induction ws as [|w ws IH]; intros s s' Hi H Hd; cbn [start_run] in H; [injection H as <-; by rewrite Hd|].
  cbn [missed]. destruct (start_step e w s) as [s1|] eqn:E; [|done]. cbn in H.
  pose proof (IH s1 s' (start_inv_step _ _ _ _ Hi E) H Hd) as H1.
  apply orb_prop in H1 as [H1|H1]; [|by rewrite H1, !orb_true_r].
  pose proof (stranded_step _ _ _ _ Hi E H1) as H2. by rewrite orb_assoc, H2.
Qed.

Lemma missed_blocked e ws : forall s s', start_inv e s = true -> start_run e ws s = Some s' ->
  missed e ws s = true -> blocked s' = true.
Proof.
  induction ws as [|w ws IH]; intros s s' Hi H Hm; cbn [start_run missed] in *; [done|].
  destruct (start_step e w s) as [s1|] eqn:E; [|done]. cbn in H. pose proof (start_inv_step _ _ _ _ Hi E) as Hi1.
  apply orb_prop in Hm as [Hm|Hm]; [|by apply (IH s1)].
  pose proof (misses_blocks _ _ _ _ Hi Hm E) as Hb.
  eapply blocked_reach; [exact Hi1 | exact Hb | eapply start_run_reach; [apply start_refl | exact H]].
Qed.

Lemma blocked_exactly e ws s : start_run e ws launch = Some s ->
  (blocked s = true <-> missed e ws launch = true \/ ended s).
Proof.
  intros H. assert (Hl : start_inv e launch = true) by done. split.
  - intros [Hb|Hb]%blocked_why; [left | by right].
    apply (stranded_missed _ _ _ _ Hl H Hb).
  - intros [Hm|He]; [by eapply missed_blocked|]. apply (ended_blocks e); [|done].
    eapply start_reach_inv; [exact Hl | eapply start_run_reach; [apply start_refl | exact H]].
Qed.

(** ** A socket file that was left over *)

Lemma bind_left_over {P} fd path (o : sockets P) : path ∈ names o -> bind fd path o = (-1, o).
Proof. intros H. unfold bind. destruct (fds o !! fd) as [[[p|] q|]|]; try done. by rewrite bool_decide_true. Qed.

Lemma socket_names {P} (o : sockets P) : names (socket o).2 = names o.
Proof. unfold socket. by destruct (_ <? _). Qed.

(** The set-up of the data bus thread, of the priority bus thread and of the
    arbiter's socket, on the system as it is. *)
Definition data_setup (junk : Z * Z) (l : option string) (sock : string) (r : option string) (o : data_os) : bool :=
  match init_data_state true junk l sock r o with Done (Some _) _ => true | _ => false end.

Definition priority_setup (junk : PriorityBus.pr_junk) (l : option string) (sock : string) (r : option string) (o : os) : bool :=
  match PriorityBus.init_pr_state junk l sock r o with Done (Some _) _ => true | _ => false end.

Definition arbiter_setup (o : os) : bool :=
  match Arbiter.setup_arb_socket (Proc (Arbiter.init_arb Arbiter.NAME) o) with Done ret _ => ret =? 0 | _ => false end.

Lemma data_left_over junk l sock r (o : data_os) :
  SocketProps.all_fit l sock r -> data_path sock ∈ names o ->
  data_setup junk l sock r o = false /\ exists o', init_data_state true junk l sock r o = Done None o'.
Proof.
  intros (H1 & H2 & H3) Hn. unfold data_setup, init_data_state. cbn [negb]. rewrite H1, H2, H3. cbn [andb].
  pose proof (socket_names o) as Hs. destruct (socket o) as [fd o1]. cbn in Hs.
  destruct (fd =? -1); [by eauto|]. rewrite bind_left_over by by rewrite Hs. cbn. by eauto.
Qed.

(** The paths fit into [sun_path]. *)
Definition priority_fit (l : option string) (sock : string) (r : option string) : Prop :=
  (forall s, l = Some s -> fits (socket_path s) = true) /\ (forall s, r = Some s -> fits (socket_path s) = true) /\
  fits (socket_path sock) = true.

Lemma priority_left_over junk l sock r (o : os) : priority_fit l sock r -> socket_path sock ∈ names o ->
  priority_setup junk l sock r o = false /\ exists o', PriorityBus.init_pr_state junk l sock r o = Done None o'.
Proof.
  intros (Hl & Hr & Hs) Hn. unfold priority_setup, PriorityBus.init_pr_state. rewrite Hs.
  assert ((if l is Some _ then fits (from_option socket_path (PriorityBus.junk_addr_l junk) l) else true) = true) as ->
    by (destruct l; [by apply Hl | done]).
  assert ((if r is Some _ then fits (from_option socket_path (PriorityBus.junk_addr_r junk) r) else true) = true) as ->
    by (destruct r; [by apply Hr | done]).
  cbn [andb]. pose proof (socket_names o) as Ho. destruct (socket o) as [fd o1]. cbn in Ho.
  destruct (fd =? -1); [by eauto|]. rewrite bind_left_over by by rewrite Ho. cbn. by eauto.
Qed.

Lemma arbiter_left_over (o : os) : socket_path Arbiter.NAME ∈ names o -> arbiter_setup o = false.
Proof.
  intros Hn. unfold arbiter_setup, Arbiter.setup_arb_socket, sys_call, update, modify, mbind, M_bind.
  pose proof (socket_names o) as Ho. cbn [system self]. destruct (socket o) as [fd o1]. cbn in Ho. cbn [system self].
  destruct (fd =? -1); [done|]. cbn [system self]. by rewrite bind_left_over by by rewrite Ho.
Qed.

(** C21: The start of a device.  No interleaving of the main thread and the two bus
    threads takes more than twelve steps, and it ends in one of three ways: both
    threads run and [connect_cpu_bus] or [connect_device_bus] returns 0; it returns
    -1, only because a thread could not be created; or the main thread waits for
    ever.  It waits for ever exactly when a thread gave its signal while the main
    thread was not waiting for it, or when the set-up of a thread failed.  So a
    left-over socket file of the data bus, or of a device's priority bus, leaves
    every start hanging in which the threads are created.  The arbiter of the
    processor is different: its socket is not set up then either, but the signal
    is given, and the start can go through. *)
Theorem startup_outcomes e :
  (forall ws s, start_run e ws launch = Some s ->
    (List.length ws <= 12)%nat /\
    ((forall w, start_step e w s = None) ->
       blocked s = true \/ connecting s = SReady \/ connecting s = SFailed (-1)) /\
    (connecting s = SReady -> pr_thread s = TLoop /\ d_thread s = TLoop) /\
    (forall r, connecting s = SFailed r -> create_pr e <> 0 \/ create_d e <> 0) /\
    (blocked s = true -> forall s', start_reach e s s' -> connecting s' <> SReady /\ forall r, connecting s' <> SFailed r) /\
    (blocked s = true <-> missed e ws launch = true \/ ended s)) /\
  (all_ok e = true ->
    start_run e patient launch = Some (Starting SReady TLoop TLoop) /\
    start_run e hasty_pr launch = Some (Starting SWaitPr TLoop TNone) /\
    start_run e hasty_d launch = Some (Starting SWaitD TLoop TLoop)) /\
  (create_pr e = 0 -> create_d e = 0 ->
    ((exists junk l sock r o, SocketProps.all_fit l sock r /\ data_path sock ∈ names o /\
        d_setup e = data_setup junk l sock r o) \/
     (exists junk l sock r o, with_arbiter e = false /\ priority_fit l sock r /\ socket_path sock ∈ names o /\
        pr_socket_ok e = priority_setup junk l sock r o)) ->
    forall ws s, start_run e ws launch = Some s -> (forall w, start_step e w s = None) -> blocked s = true) /\
  (forall o, create_pr e = 0 -> create_d e = 0 -> with_arbiter e = true -> pr_alloc_ok e = true -> d_setup e = true ->
    socket_path Arbiter.NAME ∈ names o -> pr_socket_ok e = arbiter_setup o ->
    pr_socket_ok e = false /\ start_run e patient launch = Some (Starting SReady TLoop TLoop)).
Proof.
  assert (Hl : start_inv e launch = true) by done.
  assert (Hok : all_ok e = true ->
    start_run e patient launch = Some (Starting SReady TLoop TLoop) /\
    start_run e hasty_pr launch = Some (Starting SWaitPr TLoop TNone) /\
    start_run e hasty_d launch = Some (Starting SWaitD TLoop TLoop)) by apply all_ok_runs.
  split_and!; [| exact Hok | |].
  - intros ws s E. assert (R : start_reach e launch s) by (eapply start_run_reach; [apply start_refl | exact E]).
    pose proof (start_reach_inv _ _ _ Hl R) as Hi. split_and!.
    + apply (start_run_length e ws launch s Hl E).
    + apply (start_ends e s Hi).
    + apply (start_ready e s Hi).
    + apply (start_failed e s Hi).
    + apply (blocked_for_good e s Hi).
    + by apply blocked_exactly.
  - intros E1 E2 Hleft ws s E Hn.
    assert (R : start_reach e launch s) by (eapply start_run_reach; [apply start_refl | exact E]).
    apply (setup_failure_blocks e s (start_reach_inv _ _ _ Hl R) E1 E2); [|exact Hn].
    destruct Hleft as [(junk & l & sock & r & o & Hf & Hp & Hd)|(junk & l & sock & r & o & Hw & Hf & Hp & Hd)].
    + right. by rewrite Hd, (proj1 (data_left_over junk l sock r o Hf Hp)).
    + left. unfold pr_setup. by rewrite Hw, Hd, (proj1 (priority_left_over junk l sock r o Hf Hp)), andb_false_r.
  - intros o E1 E2 Hw Ha Hd Hp Hs. split; [by rewrite Hs, arbiter_left_over|].
    apply Hok. unfold all_ok, pr_setup. by rewrite E1, E2, Hw, Ha, Hd.
Qed.

(** ** The command lines *)

(** A number on the command line. *)
Lemma strtoul_show w v : 0 <= v <= ULONG_MAX -> strtoul (show_padded w 10 v) = v.
Proof.
  intros Hv. pose proof (scan_show 10 ltac:(lia) [] w v [] ltac:(lia) (Forall_nil_2 _) Hv I) as H.
  rewrite app_nil_l, app_nil_r in H. unfold strtoul. by rewrite H.
Qed.

(** The files of the system as [aout_read] sees them. *)
Definition aout_of (fs : list Z -> option (list Z)) (junk : aout_header) (f : list Z) : option aout_object :=
  match fs f with Some bs => aout_read os_ok junk (file_reader bs) | None => None end.

(** C13: From the command lines to the first instruction.  [mem -f file -o offset],
    with a well-formed a.out file that fits and an offset below 2^31, comes to [init_bus] with the text of the
    file at the offset; [cpu -p address] does with that PC, and what the processor
    then fetches, below 512, is the word of the text at that address.  A file that
    does not fit is written past the array.  Without a file, with one that cannot be
    read, or with an option the program does not know both exit with status 1, the
    processor with [-l] and [-r] too, which its option string has. *)
Theorem command_line_boot fs junk j f a off n w v1 v2 :
  (forall i, is_u8 (junk_byte j i)) -> is_u16 (junk_mar j) -> is_u16 (junk_mbr j) ->
  fs f = Some (aout_image a) -> aout_wf a -> 0 <= off < 2147483648 ->
  let lines := [Opt "f" f; Opt "o" (show_padded v1 10 off)] in
  (off + 2 * Z.of_nat (List.length (text a)) <= MEMBYTES ->
   text a !! n = Some w -> off + 2 * Z.of_nat n < 512 ->
   exists m c, mem_main (aout_of fs junk) j lines = Done (Goes tt) m /\
     cpu_main true [Opt "p" (show_padded v2 10 (off + 2 * Z.of_nat n))] = Goes c /\
     pc c = off + 2 * Z.of_nat n /\
     fetch_data (pc c) (Machine c m) = Done w (Machine c m)) /\
  (MEMBYTES < off + 2 * Z.of_nat (List.length (text a)) -> text a <> [] ->
   mem_main (aout_of fs junk) j lines = Fault) /\
  (forall f' arg, fs f' = None -> mem_main (aout_of fs junk) j [Opt "f" f'] = Done (Exits 1) (init_mem j) /\
     mem_main (aout_of fs junk) j [] = Done (Exits 1) (init_mem j) /\
     mem_main (aout_of fs junk) j [Opt "f" f; OptUnknown] = Done (Exits 1) (init_mem j) /\
     cpu_main true [OptUnknown] = Exits 1 /\ cpu_main true [Opt "l" arg] = Exits 1 /\
     cpu_main true [Opt "r" arg] = Exits 1).
Proof.
  intros Hj Hmar Hmbr Hf Ha Ho lines. pose proof (init_mem_wf j Hmar Hmbr Hj) as Hm.
  assert (Hr : aout_of fs junk f = Some a).
  { unfold aout_of. rewrite Hf, <- (app_nil_r (aout_image a)). by apply aout_read_image. }
  assert (E : mem_main (aout_of fs junk) j lines = (load_words (text a) off;; mret (Goes tt)) (init_mem j)).
  { unfold lines, mem_main. cbn [mem_options]. rewrite strtoul_show by (unfold ULONG_MAX; lia). rewrite Hr.
    unfold mbind, M_bind. rewrite u32_id by lia. by rewrite load_aout_words. }
  split_and!.
  - intros Hl Hn Hlow. destruct (load_words_in (text a) off _ Hm (proj1 (proj2 Ha))) as [El Hwf]; [lia | done |].
    eexists _, _. rewrite E, (bind_done _ _ _ _ _ El). split_and!; [reflexivity | reflexivity | |].
    + cbn. rewrite strtoul_show by (unfold ULONG_MAX; lia). apply u16_id. lia.
    + cbn [pc with_reg init_cpu]. rewrite strtoul_show, u16_id by (unfold ULONG_MAX; lia).
      apply fetch_low; [done | lia |]. apply put_words_at; [apply Ha | done].
  - intros Hl Hne. rewrite E. apply bind_fault. apply load_words_out; [done | apply Ha | lia | done | done].
  - intros f' arg Hf'. unfold mem_main. cbn [mem_options]. unfold aout_of at 1. rewrite Hf'. done.
Qed.

(** ** The programs up to their loops *)

Definition calls_succeed (e : main_calls) : bool :=
  handlers_set e && state_malloc_ok e && bus_malloc_ok (main_init e) &&
  (setup_socket_dir (dir_stat (main_init e)) (dir_mkdir (main_init e)) =? 0) &&
  forallb (fun ret => ret =? 0) (sync_inits (main_init e)) && (main_connect e =? 0).

Lemma join_bus_outcome e l s r local :
  join_bus e l s r local =
  if bus_malloc_ok (main_init e) && (setup_socket_dir (dir_stat (main_init e)) (dir_mkdir (main_init e)) =? 0) &&
     forallb (fun ret => ret =? 0) (sync_inits (main_init e)) && (main_connect e =? 0)
  then Goes (init_bus l s r local) else Exits EXIT_FAILURE.
Proof.
  unfold join_bus, try_init_bus. destruct (bus_malloc_ok _); [|done]. cbn [negb andb].
  destruct (_ =? 0); [|done]. cbn [negb andb]. destruct (forallb _ _); [|done].
  by destruct (main_connect e =? 0).
Qed.

(** Which calls of the three programs have to succeed: with a command line that is
    accepted, the processor and the memory come to their loops exactly when all
    do, the disk whatever the allocation of a state returns, which it does not
    make; otherwise they exit with status 1.  The processor and the memory name each
    other as neighbours; the disk names the memory, which has no right neighbour. *)
Theorem programs_start e aout_of j opts m dopts d copts c :
  mem_main aout_of j opts = Done (Goes tt) m -> cpu_main true copts = Goes c -> disk_main dopts = Goes d ->
  cpu_start e copts = (if calls_succeed e then Goes (c, connect_cpu_bus (init_bus None "cpu" (Some "mem") None))
                       else Exits EXIT_FAILURE) /\
  (exists s, mem_start e aout_of j opts
     = Done (if calls_succeed e then Goes (init_bus (Some "cpu") "mem" None (Some Mem.is_local_addr))
             else Exits EXIT_FAILURE) s /\
     (calls_succeed e = true -> s = Some m)) /\
  (let e' := MainCalls (sigaction_hup e) (sigaction_int e) true (main_init e) (main_connect e) in
   disk_start e dopts = (if calls_succeed e' then Goes (d, init_bus (Some "mem") "disk" None (Some Disk.is_local_addr))
                         else Exits EXIT_FAILURE)).
Proof.
  intros Hm Hc Hd. unfold cpu_start, mem_start, disk_start, calls_succeed.
  rewrite Hm, Hd, !join_bus_outcome. unfold handlers_set. cbn [sigaction_hup sigaction_int state_malloc_ok main_init main_connect].
  destruct (negb (sigaction_hup e =? -1) && negb (sigaction_int e =? -1)); cbn [negb andb];
    [|split_and!; [done | by exists None | done]].
  destruct (state_malloc_ok e); cbn [negb andb].
  - rewrite Hc. split_and!; [by destruct (_ && _) | by exists (Some m) | by destruct (_ && _)].
  - split_and!; [done | by exists None | by destruct (_ && _)].
Qed.

(** ** Witnesses *)
Definition all_succeed : start_calls := StartCalls 0 0 true true true true.

(** The processor's start where the arbiter is too fast, and where a socket file of
    the arbiter is left over. *)
Definition littered : os := Os ∅ 8 {[socket_path Arbiter.NAME]} ∅.

Definition arbiter_unbound : start_calls := StartCalls 0 0 true true false true.

Lemma startup_outcomes_witness :
  (forall s', start_reach all_succeed (Starting SWaitPr TLoop TNone) s' -> connecting s' <> SReady) /\
  missed all_succeed hasty_pr launch = true /\
  start_run arbiter_unbound patient launch = Some (Starting SReady TLoop TLoop).
Proof.
  destruct (startup_outcomes all_succeed) as (H & _).
  destruct (H hasty_pr (Starting SWaitPr TLoop TNone) eq_refl) as (_ & _ & _ & _ & Hb & Hm). split_and!.
  - intros s' R. apply (Hb eq_refl s' R).
  - destruct (proj1 Hm eq_refl) as [H1|[H1|H1]]; [exact H1 | discriminate H1 | discriminate H1].
  - destruct (startup_outcomes arbiter_unbound) as (_ & _ & _ & Ha).
    apply (Ha littered); reflexivity.
Defined.

Lemma command_line_boot_witness : exists m c,
  mem_main (aout_of (fun _ => Some (aout_image tiny_aout)) no_header) (Mem.Junk 0 0 (fun _ => 0))
    [Opt "f" []; Opt "o" [zero_char + 6; zero_char + 4]] = Done (Goes tt) m /\
  cpu_main true [Opt "p" [zero_char + 6; zero_char + 6]] = Goes c /\
  fetch_data (pc c) (Machine c m) = Done (oct! 001376) (Machine c m).
Proof.
  destruct (command_line_boot (fun _ => Some (aout_image tiny_aout)) no_header (Mem.Junk 0 0 (fun _ => 0)) []
    tiny_aout 64 1 (oct! 001376) 0 0) as [(m & c & H1 & H2 & _ & H4) _];
    [cbn; lia | cbn; lia | cbn; lia | reflexivity | exact tiny_aout_wf | lia | unfold MEMBYTES; cbn; lia
    | reflexivity | lia |].
  exists m, c. split_and!; [exact H1 | exact H2 | exact H4].
Defined.
