(* ===== verification/PriorityFacts.v ===== *)
(** * The priority bus: messages to the neighbours

    Every message of the priority bus goes over a socket that is opened and
    closed for it.  With a reachable neighbour and a free descriptor the
    connection leaves no trace but the message. *)
From S2P Require Import Prelude Sockets PriorityBus.
From Stdlib Require Import Ascii String.
#[local] Open Scope Z_scope.

(** ** Neighbours *)

(** One side of a device: absent, or a reachable neighbour.  [Hot] tells that the
    descriptor is the one the next connection gets. *)
Definition side (hot : bool) (o : os) (fd : Z) (addr : string) (nb : option string) : Prop :=
  match nb with
  | None => fd = -1
  | Some p => addr = p /\ is_Some (inboxes o !! p) /\ fd <> -1 /\ (hot = true -> fd = next_fd (fds o))
  end.

Record linked (hot : bool) (l r : option string) (d : device) (o : os) : Prop := {
  link_l : side hot o (pr_bus_out_l (pr d)) (pr_out_addr_l (pr d)) l;
  link_r : side hot o (pr_bus_out_r (pr d)) (pr_out_addr_r (pr d)) r;
  link_limit : next_fd (fds o) < open_max o
}.

(** The descriptors after a message to the side. *)
Definition use_l (l : option string) (o : os) (d : device) : device :=
  if l is Some _ then on_pr (set_out_l (next_fd (fds o))) d else d.
Definition use_r (r : option string) (o : os) (d : device) : device :=
  if r is Some _ then on_pr (set_out_r (next_fd (fds o))) d else d.

Definition to_side (nb : option string) (q : pr_bus_req) : list (string * pr_bus_req) :=
  if nb is Some p then [(p, q)] else [].

Lemma connect_l hot l r d o p :
  linked hot l r d o -> l = Some p ->
  pr_connect_l (Proc d o) = Done 0 (Proc (use_l l o d) (opened p o)).
Proof.
  intros [Hl _ Hm] ->. cbn [side] in Hl. destruct Hl as (Ha & Hp & Hfd & _).
  unfold pr_connect_l. run idtac. destruct (Z.eqb_spec (pr_bus_out_l (pr d)) (-1)); [done|].
  rewrite (sys_call_bind _ _ _ _ _ _ (socket_ok o Hm)). run idtac.
  destruct (Z.eqb_spec (next_fd (fds o)) (-1)) as [E|]; [by destruct (next_fd_not_none o)|].
  run idtac. cbn [pr on_pr set_out_l pr_out_addr_l]. rewrite Ha.
  by apply sys_call_done, connect_ok.
Qed.

Lemma connect_r hot l r d o p :
  linked hot l r d o -> r = Some p ->
  pr_connect_r (Proc d o) = Done 0 (Proc (use_r r o d) (opened p o)).
Proof.
  intros [_ Hr Hm] ->. cbn [side] in Hr. destruct Hr as (Ha & Hp & Hfd & _).
  unfold pr_connect_r. run idtac. destruct (Z.eqb_spec (pr_bus_out_r (pr d)) (-1)); [done|].
  rewrite (sys_call_bind _ _ _ _ _ _ (socket_ok o Hm)). run idtac.
  destruct (Z.eqb_spec (next_fd (fds o)) (-1)) as [E|]; [by destruct (next_fd_not_none o)|].
  run idtac. cbn [pr on_pr set_out_r pr_out_addr_r]. rewrite Ha.
  by apply sys_call_done, connect_ok.
Qed.

Lemma send_side_l hot l r d o q :
  linked hot l r d o ->
  send_side pr_connect_l pr_bus_out_l pr_close_l q (Proc d o)
  = Done true (Proc (use_l l o d) (deliveries (to_side l q) o)).
Proof.
  intros H. unfold send_side. destruct l as [p|].
  - assert (Hp : is_Some (inboxes o !! p)) by (destruct H as [(_ & Hp & _) _ _]; done).
    rewrite (bind_run _ _ _ _ _ (connect_l _ _ _ _ _ _ H eq_refl)). cbn [Z.eqb]. run idtac.
    cbn [use_l pr on_pr set_out_l pr_bus_out_l].
    rewrite (sys_call_bind _ _ _ _ _ _ (write_ok o p q Hp)). cbn [Z.eqb dgram_size pr_datagram sizeof_pr_bus_req].
    unfold pr_close_l. run idtac. cbn [pr on_pr set_out_l pr_bus_out_l].
    by rewrite (sys_call_bind _ _ _ _ _ _ (close_sent o p q)).
  - destruct H as [Hl _ _]. cbn [side] in Hl. unfold pr_connect_l. run idtac. by rewrite Hl.
Qed.

Lemma send_side_r hot l r d o q :
  linked hot l r d o ->
  send_side pr_connect_r pr_bus_out_r pr_close_r q (Proc d o)
  = Done true (Proc (use_r r o d) (deliveries (to_side r q) o)).
Proof.
  intros H. unfold send_side. destruct r as [p|].
  - assert (Hp : is_Some (inboxes o !! p)) by (destruct H as [_ (_ & Hp & _) _]; done).
    rewrite (bind_run _ _ _ _ _ (connect_r _ _ _ _ _ _ H eq_refl)). cbn [Z.eqb]. run idtac.
    cbn [use_r pr on_pr set_out_r pr_bus_out_r].
    rewrite (sys_call_bind _ _ _ _ _ _ (write_ok o p q Hp)). cbn [Z.eqb dgram_size pr_datagram sizeof_pr_bus_req].
    unfold pr_close_r. run idtac. cbn [pr on_pr set_out_r pr_bus_out_r].
    by rewrite (sys_call_bind _ _ _ _ _ _ (close_sent o p q)).
  - destruct H as [_ Hr _]. cbn [side] in Hr. unfold pr_connect_r. run idtac. by rewrite Hr.
Qed.

(** ** The links survive *)
Definition heated (l r : option string) (o : os) (d : device) : device := use_r r o (use_l l o d).

Lemma same_wires hot l r d d' o :
  pr_bus_out_l (pr d') = pr_bus_out_l (pr d) -> pr_bus_out_r (pr d') = pr_bus_out_r (pr d) ->
  pr_out_addr_l (pr d') = pr_out_addr_l (pr d) -> pr_out_addr_r (pr d') = pr_out_addr_r (pr d) ->
  linked hot l r d o -> linked hot l r d' o.
Proof. intros E1 E2 E3 E4 [H1 H2 H3]. split; [by rewrite E1, E3 | by rewrite E2, E4 | done]. Qed.

Lemma side_sent hot o fd addr nb p q : side hot o fd addr nb -> side hot (sent p q o) fd addr nb.
Proof.
  destruct nb as [p'|]; [| done]. cbn [side]. destruct (sent_fds p q o) as [E _]. rewrite E.
  intros (? & H & ? & ?). split; [done|]. split; [by apply sent_inboxes_dom | done].
Qed.

Lemma linked_sent hot l r d o p q : linked hot l r d o -> linked hot l r d (sent p q o).
Proof.
  intros [H1 H2 H3]. destruct (sent_fds p q o) as (E1 & E2 & _).
  split; [by apply side_sent | by apply side_sent | by rewrite E1, E2].
Qed.

Lemma linked_deliveries hot l r d ms o : linked hot l r d o -> linked hot l r d (deliveries ms o).
Proof.
  revert o. induction ms as [|m ms IH]; intros o H; [done|]. apply IH. by apply linked_sent.
Qed.

Lemma deliveries_fds ms o : fds (deliveries ms o) = fds o /\ open_max (deliveries ms o) = open_max o.
Proof.
  revert o. induction ms as [|m ms IH]; intros o; [done|]. cbn [deliveries foldl].
  destruct (IH (sent m.1 m.2 o)) as [E1 E2], (sent_fds m.1 m.2 o) as (E3 & E4 & _).
  split; etransitivity; [apply E1 | done | apply E2 | done].
Qed.

Lemma deliveries_app ms1 ms2 o : deliveries (ms1 ++ ms2) o = deliveries ms2 (deliveries ms1 o).
Proof. apply foldl_app. Qed.

Lemma deliveries_other ms o p :
  (forall m, m ∈ ms -> m.1 <> p) -> inboxes (deliveries ms o) !! p = inboxes o !! p.
Proof.
  revert o. induction ms as [|m ms IH]; intros o H; [done|]. cbn [deliveries foldl].
  etransitivity; [apply IH; intros m' ?; apply H; by right|].
  apply sent_other. intros ->. apply (H m); [by left | done].
Qed.

Lemma linked_use_l hot l r d o : linked hot l r d o -> linked hot l r (use_l l o d) o.
Proof.
  intros [H1 H2 H3]. destruct l as [p|]; [| done].
  split; [| done | done]. cbn [use_l pr on_pr set_out_l pr_bus_out_l pr_out_addr_l side] in *.
  destruct H1 as (? & ? & ? & ?). split; [done|]. split; [done|]. split; [apply next_fd_not_none | done].
Qed.

Lemma linked_heated hot l r d o : linked hot l r d o -> linked true l r (heated l r o d) o.
Proof.
  intros [H1 H2 H3]. unfold heated. split; [| | done].
  - destruct l as [p|], r as [p'|]; try done; cbn [use_l use_r pr on_pr set_out_l set_out_r
      pr_bus_out_l pr_out_addr_l side] in *; destruct H1 as (? & ? & ? & ?);
      (split; [done|]; split; [done|]; split; [apply next_fd_not_none | done]).
  - destruct l as [p|], r as [p'|]; try done; cbn [use_l use_r pr on_pr set_out_l set_out_r
      pr_bus_out_r pr_out_addr_r side] in *; destruct H2 as (? & ? & ? & ?);
      (split; [done|]; split; [done|]; split; [apply next_fd_not_none | done]).
Qed.

Lemma use_l_hot l r d o : linked true l r d o -> use_l l o d = d.
Proof.
  intros [H _ _]. destruct l as [p|]; [| done]. destruct H as (_ & _ & _ & H). specialize (H eq_refl).
  destruct d as [b [al ar ai bi fl fr npr br sk bb] m]. cbn [pr pr_bus_out_l] in H. by subst.
Qed.

Lemma use_r_hot l r d o : linked true l r d o -> use_r r o d = d.
Proof.
  intros [_ H _]. destruct r as [p|]; [| done]. destruct H as (_ & _ & _ & H). specialize (H eq_refl).
  destruct d as [b [al ar ai bi fl fr npr br sk bb] m]. cbn [pr pr_bus_out_r] in H. by subst.
Qed.

Lemma heated_hot l r d o : linked true l r d o -> heated l r o d = d.
Proof. intros H. unfold heated. by rewrite (use_l_hot l r), (use_r_hot l r). Qed.

Lemma send_both_ok hot l r d o s a :
  linked hot l r d o ->
  let q := PrReq (from_field (pr_in_addr (pr d))) s a in
  send_both s a (Proc d o)
  = Done true (Proc (heated l r o d) (deliveries (to_side l q ++ to_side r q) o)).
Proof.
  intros H q. unfold send_both. run idtac. fold q.
  rewrite (bind_run _ _ _ _ _ (send_side_l _ _ _ _ _ q H)).
  rewrite (send_side_r hot l r) by (apply linked_deliveries, linked_use_l, H).
  rewrite deliveries_app. unfold heated, use_r.
  by destruct (deliveries_fds (to_side l q) o) as [-> _].
Qed.

(** The neighbour in a direction. *)
Definition neighbour (l r : option string) (dir : direction) : option string :=
  match dir with D_LEFT => l | D_RIGHT => r | D_NONE => None end.

Lemma relay_ok l r d o dir q p :
  linked true l r d o -> neighbour l r dir = Some p ->
  relay dir q (Proc d o) = Done true (Proc d (sent p q o)).
Proof.
  intros H Hn. unfold relay. run idtac. pose proof H as [Hl Hr _].
  destruct dir; cbn [neighbour get_fd pr_connect pr_close] in *; [| | done].
  - rewrite Hn in Hl. destruct Hl as (_ & Hp & _ & Hf). rewrite Hf by done.
    rewrite (bind_run _ _ _ _ _ (connect_l _ _ _ _ _ _ H Hn)), (use_l_hot l r) by done.
    rewrite (sys_call_bind _ _ _ _ _ _ (write_ok o p q Hp)). cbn [Z.eqb dgram_size pr_datagram sizeof_pr_bus_req].
    unfold pr_close_l. run idtac. by rewrite Hf, (sys_call_bind _ _ _ _ _ _ (close_sent o p q)).
  - rewrite Hn in Hr. destruct Hr as (_ & Hp & _ & Hf). rewrite Hf by done.
    rewrite (bind_run _ _ _ _ _ (connect_r _ _ _ _ _ _ H Hn)), (use_r_hot l r) by done.
    rewrite (sys_call_bind _ _ _ _ _ _ (write_ok o p q Hp)). cbn [Z.eqb dgram_size pr_datagram sizeof_pr_bus_req].
    unfold pr_close_r. run idtac. by rewrite Hf, (sys_call_bind _ _ _ _ _ _ (close_sent o p q)).
Qed.
