(* ===== verification/PrioritySpec.v ===== *)
(** * The priority bus without sockets

    What a device's bus thread does, said without descriptors: a function from
    the flags and an event to the flags and the messages to the neighbours.  The
    lemmas show that the code does this whenever its links work. *)
From S2P Require Import Prelude Sockets PriorityBus PriorityFacts.
From Stdlib Require Import Ascii String.
#[local] Open Scope Z_scope.

(** ** Specification *)
Abbreviation messages := (list (string * pr_bus_req)).

Section Spec.
Context (l r : option string).

(** Where an event goes: on to the far side, a reply to the side it came from. *)
Definition route (e : pr_bus_req) (reply : bool) : direction :=
  match l, r with
  | None, None => D_NONE
  | None, Some _ => if reply then D_RIGHT else D_NONE
  | Some _, None => if reply then D_LEFT else D_NONE
  | Some p, Some _ => if Bool.eqb (same_name (from e) p) reply then D_LEFT else D_RIGHT
  end.

Definition say (d : device) (s : pr_signal) (a : Z) : pr_bus_req :=
  PrReq (from_field (pr_in_addr (pr d))) s a.

Definition say_both (d : device) (s : pr_signal) (a : Z) : messages :=
  to_side l (say d s a) ++ to_side r (say d s a).

Definition spec_pass (e : pr_bus_req) (d : device) : device * messages :=
  (d, to_side (neighbour l r (route e false)) (say d (sig e) (assertion e))).

(** The reply that takes a grant; without a neighbour to reply to, nothing. *)
Definition spec_take (taken : pr_state -> pr_state) (e : pr_bus_req) (d : device) :
    device * messages :=
  match neighbour l r (route e true) with
  | Some p => (on_pr (fun x => set_sack 1 (taken x)) d, [(p, say d SACK ASSERTED)])
  | None => (d, [])
  end.

Definition wake_master (d : device) : device :=
  Dev (bus d) (pr d) (match main d with MReqWait => MOut | m => m end).

Definition become_master (d : device) : device * messages :=
  if truth (bbsy_asserted (pr d)) then (wake_master d, []) else
  (wake_master (on_bus (fun b => set_req_master 0 (set_is_master 1 b)) (on_pr (set_bbsy 1) d)),
   say_both d BBSY ASSERTED).

Definition spec_event (e : pr_bus_req) (d : device) : device * messages :=
  match sig e with
  | BR | NPR | SACK => spec_pass e d
  | BG =>
      if truth (br_issued (pr d)) && (assertion e =? ASSERTED) then spec_take (set_br 0) e d
      else if truth (sack_asserted (pr d)) && (assertion e =? NEGATED) then become_master d
      else spec_pass e d
  | NPG => if truth (npr_issued (pr d)) then spec_take (set_npr 0) e d else spec_pass e d
  | BBSY => spec_pass e (on_pr (set_bbsy (if assertion e =? ASSERTED then 1 else 0)) d)
  end.

Definition spec_request (d : device) : device * messages :=
  if truth (bbsy_asserted (pr d)) then (d, []) else
  (on_bus (set_req_master 0) (on_pr (set_br 1) d), say_both d BR ASSERTED).

Definition drop_sack (d : device) : device * messages :=
  if truth (sack_asserted (pr d)) then
    (on_bus (fun b => set_req_master 0 (set_is_master 0 b)) (on_pr (set_sack 0) d),
     say_both d SACK NEGATED)
  else (d, []).

Definition drop_bbsy (d : device) : device * messages :=
  if truth (bbsy_asserted (pr d)) then
    (on_bus (fun b => set_rel_master 0 (set_req_master 0 (set_is_master 0 b))) (on_pr (set_bbsy 0) d),
     say_both d BBSY NEGATED)
  else (d, []).

Definition wake_released (d : device) : device :=
  Dev (bus d) (pr d) (match main d with MRelWait => MOut | m => m end).

Definition spec_release (d : device) : device * messages :=
  let '(d1, ms1) := drop_sack d in
  let '(d2, ms2) := drop_bbsy d1 in (wake_released d2, ms1 ++ ms2).

(** The first half of an iteration: the main thread's wishes. *)
Definition spec_wish (d : device) : device * messages :=
  if truth (req_master (bus d)) && (is_master (bus d) =? 0) then spec_request d
  else if truth (rel_master (bus d)) && (is_master (bus d) =? 1) then spec_release d
  else (d, []).
End Spec.

(** ** The code follows the specification *)
Section Refinement.
Context (l r : option string).

(** Code that does what a specification says while the links work. *)
Definition follows (m : D unit) (spec : device -> device * messages) : Prop :=
  forall d o, linked true l r d o ->
  m (Proc d o) = Done tt (Proc (spec d).1 (deliveries (spec d).2 o)).

Lemma route_code d o e (reply : bool) :
  linked true l r d o ->
  get_fd_direction e (if reply then 1 else 0) (pr d) = route l r e reply.
Proof.
  intros [Hl Hr _]. unfold get_fd_direction, route.
  destruct l as [p|], r as [p'|]; cbn [side] in Hl, Hr;
    repeat match goal with
    | H : _ /\ _ /\ _ <> _ /\ _ |- _ => destruct H as (? & _ & ? & _)
    end; subst;
    repeat match goal with
    | H : ?x = -1 |- _ => rewrite H; clear H
    | H : ?x <> -1 |- _ => apply Z.eqb_neq in H; rewrite H; clear H
    end; [| by destruct reply..].
  cbn [andb]. by destruct (same_name _ _), reply.
Qed.

Lemma route_forward d o e : linked true l r d o -> get_fd_direction e 0 (pr d) = route l r e false.
Proof. apply (route_code d o e false). Qed.

Lemma route_reply d o e : linked true l r d o -> get_fd_direction e 1 (pr d) = route l r e true.
Proof. apply (route_code d o e true). Qed.

Lemma route_neighbour e reply :
  route l r e reply <> D_NONE -> exists p, neighbour l r (route l r e reply) = Some p.
Proof.
  unfold route. destruct l, r, reply; try done; try (by eexists); destruct (same_name _ _); by eexists.
Qed.

Lemma route_none e reply :
  route l r e reply = D_NONE -> neighbour l r (route l r e reply) = None.
Proof. by intros ->. Qed.

(** *** Passing on *)
Lemma pass_on_ok d o e :
  linked true l r d o ->
  pass_on (route l r e false) e (Proc d o)
  = Done tt (Proc d (deliveries (spec_pass l r e d).2 o)).
Proof.
  intros H. unfold pass_on, spec_pass. cbn [snd]. case_decide as Hd; [by rewrite (route_none _ _ Hd)|].
  destruct (route_neighbour e false Hd) as [p Hp]. run idtac.
  rewrite (bind_run _ _ _ _ _ (relay_ok l r d o _ _ p H Hp)), Hp. done.
Qed.

Lemma forward_follows e :
  follows (dir ← ask (fun d => get_fd_direction e 0 (pr d)); pass_on dir e) (spec_pass l r e).
Proof. intros d o H. run idtac. rewrite (route_forward d o) by done. by apply pass_on_ok. Qed.

Lemma bbsy_follows e :
  follows (handle_bbsy e)
    (fun d => spec_pass l r e (on_pr (set_bbsy (if assertion e =? ASSERTED then 1 else 0)) d)).
Proof.
  intros d o H. unfold handle_bbsy. run idtac. rewrite (route_forward d o) by done.
  by rewrite pass_on_ok by (by apply (same_wires true l r d)).
Qed.

(** *** Taking a grant *)
Lemma take_ok d o e (taken : pr_state -> pr_state) :
  linked true l r d o ->
  (if decide (route l r e true = D_NONE) then mret tt else
   ok ← relay (route l r e true) (update_from_addr (pr d) (PrReq "" SACK ASSERTED));
   when ok (update (on_pr taken);; update (on_pr (set_sack 1)))) (Proc d o)
  = Done tt (Proc (spec_take l r taken e d).1 (deliveries (spec_take l r taken e d).2 o)).
Proof.
  intros H. unfold spec_take. case_decide as Hd; [by rewrite (route_none _ _ Hd)|].
  destruct (route_neighbour e true Hd) as [p Hp].
  by rewrite (bind_run _ _ _ _ _ (relay_ok l r d o _ _ p H Hp)), Hp.
Qed.

(** *** Messages of its own *)
Lemma own_ok d o s a (after : D unit) (f : device -> device) :
  linked true l r d o ->
  (forall o', after (Proc d o') = Done tt (Proc (f d) o')) ->
  (ok ← send_both s a; when ok after) (Proc d o)
  = Done tt (Proc (f d) (deliveries (say_both l r d s a) o)).
Proof.
  intros H Hf. pose proof (send_both_ok true l r d o s a H) as E. cbn zeta in E.
  rewrite (bind_run _ _ _ _ _ E). cbn [when]. rewrite (heated_hot l r) by done. by rewrite Hf.
Qed.

Lemma assert_bbsy_follows :
  follows (assert_bbsy;; signal_master) (become_master l r).
Proof.
  intros d o H. unfold assert_bbsy, become_master. run idtac.
  destruct (truth (bbsy_asserted (pr d))); [done|].
  erewrite bind_run; [| by apply (own_ok _ _ _ _ _ (fun d =>
    on_bus (fun b => set_req_master 0 (set_is_master 1 b)) (on_pr (set_bbsy 1) d)) H)].
  done.
Qed.

Lemma bg_follows e : follows (handle_bg e) (fun d =>
    if truth (br_issued (pr d)) && (assertion e =? ASSERTED) then spec_take l r (set_br 0) e d
    else if truth (sack_asserted (pr d)) && (assertion e =? NEGATED) then become_master l r d
    else spec_pass l r e d).
Proof.
  intros d o H. unfold handle_bg. run idtac. rewrite (route_forward d o), (route_reply d o) by done.
  destruct (truth (br_issued _) && _); [by apply take_ok|].
  destruct (truth (sack_asserted _) && _); [by apply assert_bbsy_follows | by apply pass_on_ok].
Qed.

Lemma npg_follows e : follows (handle_npg e) (fun d =>
    if truth (npr_issued (pr d)) then spec_take l r (set_npr 0) e d else spec_pass l r e d).
Proof.
  intros d o H. unfold handle_npg. run idtac. rewrite (route_forward d o), (route_reply d o) by done.
  destruct (truth (npr_issued _)); [by apply take_ok | by apply pass_on_ok].
Qed.

Lemma handle_follows e : follows (handle e) (spec_event l r e).
Proof.
  unfold handle, spec_event.
  destruct (sig e).
  - exact (forward_follows e).
  - exact (bg_follows e).
  - exact (forward_follows e).
  - exact (npg_follows e).
  - exact (forward_follows e).
  - exact (bbsy_follows e).
Qed.

(** *** The main thread's wishes *)
Lemma request_follows : follows request_master (spec_request l r).
Proof.
  intros d o H. unfold request_master, spec_request, assert_br. run idtac.
  destruct (truth (bbsy_asserted (pr d))) eqn:E; [done|]. run idtac. rewrite E. cbn [andb].
  erewrite bind_run; [| by apply (own_ok _ _ _ _ _ (on_pr (set_br 1)) H)]. done.
Qed.

(** The first request needs no descriptor of an earlier message. *)
Lemma first_request d o :
  linked false l r d o -> truth (bbsy_asserted (pr d)) = false ->
  request_master (Proc d o)
  = Done tt (Proc (heated l r o (spec_request l r d).1) (deliveries (spec_request l r d).2 o)).
Proof.
  intros H E. unfold request_master, spec_request, assert_br. run idtac. rewrite E. run idtac.
  rewrite E. cbn [andb]. run idtac.
  pose proof (send_both_ok false l r d o BR ASSERTED H) as Es. cbn zeta in Es.
  rewrite (bind_run _ _ _ _ _ Es). by destruct l, r.
Qed.

Lemma negate_sack_follows : follows negate_sack (drop_sack l r).
Proof.
  intros d o H. unfold negate_sack, drop_sack. run idtac.
  destruct (truth (sack_asserted (pr d))); [| done]. cbn [negb].
  by apply (own_ok _ _ _ _ _ (fun d =>
    on_bus (fun b => set_req_master 0 (set_is_master 0 b)) (on_pr (set_sack 0) d)) H).
Qed.

Lemma negate_bbsy_follows : follows negate_bbsy (drop_bbsy l r).
Proof.
  intros d o H. unfold negate_bbsy, drop_bbsy. run idtac.
  destruct (truth (bbsy_asserted (pr d))); [| done]. cbn [negb].
  by apply (own_ok _ _ _ _ _ (fun d =>
    on_bus (fun b => set_rel_master 0 (set_req_master 0 (set_is_master 0 b))) (on_pr (set_bbsy 0) d)) H).
Qed.

Lemma drop_sack_linked d o :
  linked true l r d o -> linked true l r (drop_sack l r d).1 (deliveries (drop_sack l r d).2 o).
Proof.
  intros H. apply linked_deliveries. unfold drop_sack.
  destruct (truth (sack_asserted (pr d))); [by apply (same_wires true l r d) | done].
Qed.

Lemma release_follows : follows release_master (spec_release l r).
Proof.
  intros d o H. unfold release_master, spec_release.
  rewrite (bind_run _ _ _ _ _ (negate_sack_follows d o H)).
  pose proof (drop_sack_linked d o H) as H1. destruct (drop_sack l r d) as [d1 ms1]. cbn [fst snd] in *.
  rewrite (bind_run _ _ _ _ _ (negate_bbsy_follows d1 _ H1)).
  destruct (drop_bbsy l r d1) as [d2 ms2]. cbn [fst snd]. by rewrite deliveries_app.
Qed.

Lemma wish_follows :
  follows (b ← ask bus;
           if truth (req_master b) && (is_master b =? 0) then request_master
           else if truth (rel_master b) && (is_master b =? 1) then release_master
           else mret tt) (spec_wish l r).
Proof.
  intros d o H. unfold spec_wish. run idtac.
  destruct (truth (req_master _) && _); [by apply request_follows|].
  destruct (truth (rel_master _) && _); [by apply release_follows | done].
Qed.
End Refinement.

(** ** Inboxes *)
Lemma deliveries_inbox ms o p :
  inboxes (deliveries ms o) !! p
  = (fun q => q ++ (filter (fun m => m.1 = p) ms).*2) <$> inboxes o !! p.
Proof.
  revert o. induction ms as [|m ms IH]; intros o; cbn [deliveries foldl].
  - destruct (inboxes o !! p) as [q|]; cbn; [by rewrite app_nil_r | done].
  - etransitivity; [apply IH|]. rewrite filter_cons. destruct (decide (m.1 = p)) as [<-|Hp].
    + unfold sent, deliver. destruct (inboxes o !! m.1) as [q|] eqn:E; cbn.
      * rewrite lookup_insert_eq. cbn. by rewrite <- app_assoc.
      * by rewrite E.
    + rewrite sent_other by done. done.
Qed.

Lemma filter_none {X} (P : X -> Prop) `{forall x, Decision (P x)} (xs : list X) :
  (forall x, x ∈ xs -> ~ P x) -> filter P xs = [].
Proof.
  induction xs as [|x xs IH]; intros Hx; [done|]. rewrite filter_cons.
  rewrite decide_False by (apply Hx; by left). apply IH. intros y Hy. apply Hx. by right.
Qed.

(** The head of a queue received. *)
Definition popped (path : string) (o : os) : os :=
  set_inboxes (alter (@tail pr_bus_req) path (inboxes o)) o.

Lemma popped_inbox path o p :
  inboxes (popped path o) !! p = if decide (p = path) then (@tail _) <$> inboxes o !! p else inboxes o !! p.
Proof.
  unfold popped. cbn [inboxes set_inboxes].
  case_decide as E; [rewrite E; apply lookup_alter_eq | by apply lookup_alter_ne].
Qed.

Lemma recv_ok fd path peer o q :
  fds o !! fd = Some (DSocket (Some path) peer) -> inboxes o !! path = Some q ->
  recv fd o = (head q, match q with [] => o | _ => popped path o end).
Proof.
  intros Hf Hq. unfold recv. rewrite Hf, Hq. destruct q as [|e q]; [done|]. cbn [head].
  unfold popped. f_equal. f_equal. apply map_eq. intros p.
  destruct (decide (p = path)) as [->|Hp].
  - rewrite lookup_insert_eq. rewrite lookup_alter_eq, Hq. done.
  - by rewrite lookup_insert_ne, lookup_alter_ne by done.
Qed.

Section Iteration.
Context (l r : option string).

Definition spec_iteration (event : option pr_bus_req) (d : device) : device * messages :=
  let x1 := spec_wish l r d in
  let x2 := if event is Some e then spec_event l r e x1.1 else (x1.1, []) in
  (x2.1, x1.2 ++ x2.2).

(** Messages go to the neighbours. *)
Definition to_neighbours (ms : messages) : Prop :=
  forall m, m ∈ ms -> l = Some m.1 \/ r = Some m.1.

Lemma to_neighbours_app ms1 ms2 :
  to_neighbours ms1 -> to_neighbours ms2 -> to_neighbours (ms1 ++ ms2).
Proof. intros H1 H2 m [Hm|Hm]%elem_of_app; [by apply H1 | by apply H2]. Qed.

Lemma to_neighbours_nil : to_neighbours [].
Proof. intros m Hm. by apply not_elem_of_nil in Hm. Qed.

Lemma to_neighbours_side dir q : to_neighbours (to_side (neighbour l r dir) q).
Proof.
  intros m. destruct (neighbour l r dir) as [p|] eqn:E; cbn [to_side].
  - intros ->%list_elem_of_singleton. destruct dir; cbn in *; [by left | by right | done].
  - by intros ?%not_elem_of_nil.
Qed.

Lemma to_neighbours_both d s a : to_neighbours (say_both l r d s a).
Proof.
  apply to_neighbours_app; [apply (to_neighbours_side D_LEFT) | apply (to_neighbours_side D_RIGHT)].
Qed.

(** The wires a transition of the specification leaves alone. *)
Definition same_pr (p p' : pr_state) : Prop :=
  pr_out_addr_l p' = pr_out_addr_l p /\ pr_out_addr_r p' = pr_out_addr_r p /\
  pr_in_addr p' = pr_in_addr p /\ pr_bus_in p' = pr_bus_in p /\
  pr_bus_out_l p' = pr_bus_out_l p /\ pr_bus_out_r p' = pr_bus_out_r p.

Definition proper (d : device) (x : device * messages) : Prop :=
  same_pr (pr d) (pr x.1) /\ to_neighbours x.2.

Lemma spec_event_proper e d : proper d (spec_event l r e d).
Proof.
  unfold spec_event, spec_pass, spec_take, become_master, proper.
  pose proof to_neighbours_both as Hb. pose proof to_neighbours_nil as Hn.
  assert (Ht : forall q p, neighbour l r (route l r e true) = Some p -> to_neighbours [(p, q)]).
  { intros q p Hp. pose proof (to_neighbours_side (route l r e true) q) as H. by rewrite Hp in H. }
  destruct (sig e); repeat case_match; (split; [done|]); cbn [snd];
    eauto using to_neighbours_side.
Qed.

Lemma spec_wish_proper d : proper d (spec_wish l r d).
Proof.
  pose proof to_neighbours_both as Hb. pose proof to_neighbours_nil as Hn.
  unfold spec_wish, spec_request, spec_release, drop_sack, drop_bbsy, proper.
  repeat case_match; simplify_eq; cbn [fst snd]; (split; [done|]); eauto using to_neighbours_app.
Qed.

Lemma proper_linked d o x ms :
  proper d x -> linked true l r d o -> linked true l r x.1 (deliveries ms o).
Proof.
  intros [(E1 & E2 & _ & _ & E5 & E6) _] H. apply linked_deliveries. by apply (same_wires true l r d).
Qed.

(** The device can receive: its queue is [q]. *)
Definition listens (d : device) (o : os) (q : list pr_bus_req) : Prop :=
  (exists peer, fds o !! pr_bus_in (pr d) = Some (DSocket (Some (pr_in_addr (pr d))) peer)) /\
  inboxes o !! pr_in_addr (pr d) = Some q /\
  l <> Some (pr_in_addr (pr d)) /\ r <> Some (pr_in_addr (pr d)).

Lemma linked_popped hot d o path : linked hot l r d o -> linked hot l r d (popped path o).
Proof.
  assert (Hs : forall fd addr nb, side hot o fd addr nb -> side hot (popped path o) fd addr nb).
  { intros fd addr [p|]; [| done]. intros (Ha & [q Hq] & Hr). split; [done|]. split; [| done].
    rewrite popped_inbox, Hq. case_decide; eauto. }
  intros [Hl Hr Hm]. split; [by apply Hs | by apply Hs | done].
Qed.

(** Nothing goes to the device itself. *)
Lemma none_to_self d o q ms :
  listens d o q -> to_neighbours ms ->
  filter (fun m : string * pr_bus_req => m.1 = pr_in_addr (pr d)) ms = [].
Proof.
  intros (_ & _ & Hl & Hr) Hms. apply filter_none. intros m Hm E. destruct (Hms m Hm); congruence.
Qed.

(** Every queue but the device's own grows by the messages to it. *)
Definition grown (d : device) (own : list pr_bus_req) (ms : messages) (o o' : os) : Prop :=
  (fds o' = fds o /\ open_max o' = open_max o) /\
  forall p, inboxes o' !! p =
    if decide (p = pr_in_addr (pr d)) then Some own
    else (fun q => q ++ (filter (fun m => m.1 = p) ms).*2) <$> inboxes o !! p.

Lemma grown_deliveries d o q ms :
  listens d o q -> to_neighbours ms -> grown d q ms o (deliveries ms o).
Proof.
  intros Hd Hms. split; [apply deliveries_fds|]. intros p. rewrite deliveries_inbox.
  case_decide as E; [| done]. rewrite E, (none_to_self d o q) by done.
  destruct Hd as (_ & -> & _). cbn. by rewrite app_nil_r.
Qed.

Lemma grown_listens d d' own ms o o' q :
  listens d o q -> grown d own ms o o' -> same_pr (pr d) (pr d') -> listens d' o' own.
Proof.
  intros ([peer Hf] & Hq & Hl & Hr) [[Ef _] Hi] (_ & _ & Ea & Eb & _). unfold listens.
  rewrite Ea, Eb, Ef, Hi, decide_True by done. eauto.
Qed.

Lemma grown_trans d d' own own' ms ms' o o' o'' :
  pr_in_addr (pr d') = pr_in_addr (pr d) ->
  grown d own ms o o' -> grown d' own' ms' o' o'' -> grown d own' (ms ++ ms') o o''.
Proof.
  intros Ea [[E1 F1] H1] [[E2 F2] H2]. split; [split; congruence|]. intros p. rewrite H2, H1, Ea.
  case_decide; [done|]. rewrite filter_app, fmap_app.
  destruct (inboxes o !! p); cbn; [by rewrite app_assoc | done].
Qed.

Lemma events_follow d o q :
  linked true l r d o -> listens d o q ->
  let x := if head q is Some e then spec_event l r e d else (d, []) in
  exists o', process_pr_events (Proc d o) = Done tt (Proc x.1 o') /\    proper d x /\ linked true l r x.1 o' /\ grown d (tail q) x.2 o o'.
Proof.
  intros H Hd x. pose proof Hd as ([peer Hf] & Hq & _).
  unfold process_pr_events. run idtac. rewrite (sys_call_bind _ _ _ _ _ _ (recv_ok _ _ _ _ q Hf Hq)).
  destruct q as [|e q]; cbn [head tail] in *; subst x.
  - exists o. split; [done|]. split; [split; [done | apply to_neighbours_nil]|]. split; [done|].
    apply (grown_deliveries d o [] []); [done | apply to_neighbours_nil].
  - set (o1 := popped _ o). pose proof (spec_event_proper e d) as Hp.
    assert (H1 : linked true l r d o1) by by apply linked_popped.
    assert (Hg : grown d q [] o o1).
    { split; [done|]. intros p. subst o1. rewrite popped_inbox. case_decide as E; [by rewrite E, Hq|].
      destruct (inboxes o !! p); cbn; [by rewrite app_nil_r | done]. }
    exists (deliveries (spec_event l r e d).2 o1).
    split; [by apply handle_follows|]. split; [done|]. split; [by apply (proper_linked d)|].
    apply (grown_trans d d q q [] _ o o1); [done | done|].
    apply grown_deliveries; [| apply Hp]. by apply (grown_listens d d q [] o o1 (e :: q)).
Qed.

Lemma spec_iteration_proper ev d : proper d (spec_iteration ev d).
Proof.
  unfold spec_iteration. pose proof (spec_wish_proper d) as [(A1 & A2 & A3 & A4 & A5 & A6) Hn].
  destruct ev as [e|]; cbn [fst snd].
  - destruct (spec_event_proper e (spec_wish l r d).1) as [(B1 & B2 & B3 & B4 & B5 & B6) Hm].
    split; [unfold same_pr; cbn [fst]; repeat split; congruence | by apply to_neighbours_app].
  - split; [done | apply to_neighbours_app; [done | apply to_neighbours_nil]].
Qed.

Lemma iteration_follows d o q :
  linked true l r d o -> listens d o q ->
  let x := spec_iteration (head q) d in
  exists o', iteration (Proc d o) = Done (shutdown (bus d)) (Proc x.1 o') /\    linked true l r x.1 o' /\ grown d (tail q) x.2 o o'.
Proof.
  intros H Hd. cbn zeta.
  pose proof (wish_follows l r d o H : _ = _) as Hw. rewrite ask_bind in Hw.
  pose proof (spec_wish_proper d) as Hp. unfold spec_iteration.
  destruct (spec_wish l r d) as [d1 ms1]. cbn zeta. cbn [fst snd] in *.
  pose proof (proper_linked d o (d1, ms1) ms1 Hp H) as H1.
  pose proof (grown_deliveries d o q ms1 Hd (proj2 Hp)) as Hg.
  destruct (events_follow d1 (deliveries ms1 o) q) as (o' & He & Hp2 & Hl & Hg2); [done| |].
  { apply (grown_listens d d1 q ms1 o _ q); [done | done | apply Hp]. }
  exists o'. split; [| split; [done|]].
  - unfold iteration. run idtac. rewrite (bind_run _ _ _ _ _ Hw). by rewrite (bind_run _ _ _ _ _ He).
  - by apply (grown_trans d d1 q (tail q) ms1 _ o (deliveries ms1 o)); [apply Hp | |].
Qed.
End Iteration.
