(* ===== verification/ArbiterFacts.v ===== *)
(** * The bus arbiter without sockets

    The arbiter's transitions as a function from its signals and a request to
    its signals and a grant, and what becomes of the grant: delivered when the
    client's socket can be reached, lost - with a descriptor - when it cannot. *)
From S2P Require Import Prelude Sockets PriorityFacts PrioritySpec Arbiter.
From Stdlib Require Import Ascii String.
#[local] Open Scope Z_scope.

(** ** Specification *)
Abbreviation grant := (option (pr_signal * Z)).

Definition spec_sack (v : Z) (a : arb_state) : arb_state * grant :=
  if (sack a =? NEGATED) && (v =? ASSERTED) then
    if outstanding_bg a =? 1 then (set_outstanding_bg 0 (set_sack v a), Some (BG, NEGATED))
    else if outstanding_npg a =? 1 then (set_outstanding_npg 0 (set_sack v a), Some (NPG, NEGATED))
    else (set_sack v a, None)
  else if (sack a =? ASSERTED) && (v =? NEGATED) then (set_sack v a, None)
  else (a, None).

Definition spec_bbsy (v : Z) (a : arb_state) : arb_state :=
  if (bbsy a =? ASSERTED) && (v =? NEGATED) then set_bbsy NEGATED a
  else if (bbsy a =? NEGATED) && (v =? ASSERTED) then set_bbsy ASSERTED a
  else a.

Definition spec_dispatch (req : pr_bus_req) (a : arb_state) : arb_state * grant :=
  match sig req with
  | BR => if sack a =? ASSERTED then (a, None) else (set_outstanding_bg 1 a, Some (BG, ASSERTED))
  | NPR => if sack a =? ASSERTED then (a, None) else (set_outstanding_npg 1 a, Some (NPG, ASSERTED))
  | SACK => spec_sack (assertion req) a
  | BBSY => (spec_bbsy (assertion req) a, None)
  | BG | NPG => (a, None)
  end.

Definition spec_listen (event : option pr_bus_req) (a : arb_state) : arb_state * grant :=
  if event is Some e then spec_dispatch e a else (a, None).

(** ** A grant *)

(** What the attempt to send leaves: the client's socket number and the system. *)
Definition attempt (client : string) (g : grant) (o : os) : Z * os :=
  match g with
  | None => (-1, o)
  | Some (s, v) =>
      if next_fd (fds o) <? open_max o then
        (next_fd (fds o),
         if inboxes o !! client is Some _ then sent client (PrReq (from_field client) s v) o
         else set_fds (<[next_fd (fds o) := DSocket None None]> (fds o)) o)
      else (-1, o)
  end.

(** The state after an attempt to send [g]. *)
Definition tried (g : grant) (p : proc arb_state) : proc arb_state :=
  if g is Some _ then
    Proc (set_client_socket (attempt (current_client (self p)) g (system p)).1 (self p))
      (attempt (current_client (self p)) g (system p)).2
  else p.

Lemma set_client_same fd a : current_client (set_client_socket fd a) = current_client a.
Proof. done. Qed.

Lemma send_grant_tried a o s v :
  fds o !! (-1) = None ->
  exists rv, send_grant s v (Proc a o) = Done rv (tried (Some (s, v)) (Proc a o)).
Proof.
  intros Hneg. unfold send_grant, client_connect, tried, attempt. cbn [self system fst snd]. run idtac.
  destruct (Z.ltb_spec (next_fd (fds o)) (open_max o)) as [Hm|Hm].
  - rewrite (sys_call_bind _ _ _ _ _ _ (socket_ok o Hm)). run idtac.
    destruct (Z.eqb_spec (next_fd (fds o)) (-1)) as [E|]; [by destruct (next_fd_not_none o)|].
    run idtac. cbn [current_client set_client_socket id].
    set (client := current_client a). destruct (inboxes o !! client) as [q|] eqn:Ec.
    + rewrite (sys_call_bind _ _ _ _ _ _ (connect_ok o client (mk_is_Some _ _ Ec))). run idtac.
      cbn [client_socket set_client_socket].
      rewrite (sys_call_bind _ _ _ _ _ _ (sendto_ok o client _ (mk_is_Some _ _ Ec))).
      cbn [Z.eqb dgram_size pr_datagram sizeof_pr_bus_req]. unfold client_close. run idtac.
      cbn [client_socket set_client_socket].
      rewrite (sys_call_bind _ _ _ _ _ _ (close_sent o client _)). by eexists.
    + rewrite (sys_call_bind _ _ _ _ (-1)
        (set_fds (<[next_fd (fds o) := DSocket None None]> (fds o)) o)); [| unfold connect; cbn [fds inboxes set_fds]; by rewrite lookup_insert_eq, Ec].
      run idtac. cbn [client_socket set_client_socket].
      rewrite (sys_call_bind _ _ _ _ (-1)
        (set_fds (<[next_fd (fds o) := DSocket None None]> (fds o)) o)); [by eexists|].
      unfold sendto, deliver. cbn [fds inboxes set_fds]. by rewrite lookup_insert_eq, Ec.
  - assert (Es : socket o = (-1, o))
      by (unfold socket; by destruct (Z.ltb_spec (next_fd (fds o)) (open_max o)); [lia|]).
    rewrite (sys_call_bind _ _ _ _ _ _ Es). run idtac.
    rewrite (bind_run _ _ _ (-1) (Proc (set_client_socket (-1) a) o)) by done. run idtac.
    cbn [client_socket set_client_socket].
    assert (Et : forall q client, sendto (-1) q client o = (-1, o))
      by (intros; unfold sendto; by rewrite Hneg).
    rewrite (sys_call_bind _ _ _ _ _ _ (Et _ _)). by eexists.
Qed.

Lemma dispatch_tried req a o :
  fds o !! (-1) = None ->
  exists rv, dispatch req (Proc a o)
    = Done rv (tried (spec_dispatch req a).2 (Proc (spec_dispatch req a).1 o)).
Proof.
  intros Hneg.
  assert (Hg : forall a s v, exists rv, send_grant s v (Proc a o) = Done rv (tried (Some (s, v)) (Proc a o)))
    by (intros; by apply send_grant_tried).
  assert (Hg' : forall a s v (f : Z -> Z), exists rv,
    (ret ← send_grant s v; mret (f ret)) (Proc a o) = Done rv (tried (Some (s, v)) (Proc a o))).
  { intros a' s v f. destruct (Hg a' s v) as [rv E]. rewrite (bind_run _ _ _ _ _ E). by eexists. }
  unfold dispatch, spec_dispatch, spec_sack, spec_bbsy.
  destruct (sig req); unfold assert_bus_grant, assert_np_grant, handle_sack, handle_bbsy,
    negate_bus_grant, negate_np_grant; run idtac; cbn [id]; try (by eexists).
  - destruct (sack a =? ASSERTED); [by eexists|]. run idtac. by apply Hg.
  - destruct (sack a =? ASSERTED); [by eexists|]. run idtac. by apply (Hg' _ _ _ (fun ret => if ret =? -1 then ret else 0)).
  - destruct ((sack a =? NEGATED) && _).
    + run idtac. destruct (outstanding_bg a =? 1); [run idtac; by apply Hg|].
      destruct (outstanding_npg a =? 1); [run idtac; by apply (Hg' _ _ _ (fun ret => if ret =? -1 then -1 else 0)) | by eexists].
    + destruct ((sack a =? ASSERTED) && _); by eexists.
  - destruct ((bbsy a =? ASSERTED) && _); [by eexists|].
    destruct ((bbsy a =? NEGATED) && _); by eexists.
Qed.

(** ** One iteration *)
Definition hears (a : arb_state) (own : string) (o : os) (q : list pr_bus_req) : Prop :=
  (exists peer, fds o !! priority_socket a = Some (DSocket (Some own) peer)) /\
  inboxes o !! own = Some q /\ fds o !! (-1) = None.

Definition received (own : string) (q : list pr_bus_req) (o : os) : os :=
  match q with [] => o | _ => popped own o end.

Lemma listen_follows a o own q :
  hears a own o q ->
  listen_once (Proc a o)
  = Done tt (tried (spec_listen (head q) a).2 (Proc (spec_listen (head q) a).1 (received own q o))).
Proof.
  intros ([peer Hf] & Hq & Hneg). unfold listen_once. run idtac.
  rewrite (sys_call_bind _ _ _ _ _ _ (recv_ok _ _ _ _ q Hf Hq)). fold (received own q o).
  destruct q as [|e q]; [done|]. cbn [head spec_listen received].
  destruct (dispatch_tried e a (popped own o) Hneg) as [rv E]. by rewrite (bind_run _ _ _ _ _ E).
Qed.

(** ** A grant that reaches nobody *)

(** An attempt changes no field but the client's socket. *)
Lemma tried_field {X} (f : Arbiter.arb_state -> X) g a o :
  (forall fd b, f (set_client_socket fd b) = f b) -> f (self (tried g (Proc a o))) = f a.
Proof. intros Hf. unfold tried. destruct g; [by apply Hf | done]. Qed.

(** No descriptor is closed, and none below zero is opened. *)
Lemma tried_keeps_fd g a o k d :
  inboxes o !! current_client a = None -> fds o !! k = d -> (k = -1 \/ d <> None) ->
  fds (system (tried g (Proc a o))) !! k = d.
Proof.
  intros Hc Hd Hk. unfold tried, attempt. cbn [self system]. rewrite Hc.
  destruct g as [[s v]|]; [| done]. pose proof (next_fd_free (fds o)) as (Hfree & Hpos & _).
  cbn [system]. destruct (next_fd (fds o) <? open_max o); [| done]. cbn [snd set_fds fds].
  rewrite lookup_insert_ne; [done|]. destruct Hk as [->|Hk]; [lia | congruence].
Qed.

Lemma tried_lost g a o :
  inboxes o !! current_client a = None -> inboxes (system (tried g (Proc a o))) = inboxes o.
Proof.
  intros Hc. unfold tried, attempt. cbn [self system]. rewrite Hc.
  destruct g as [[s v]|]; [| done]. by destruct (_ <? _).
Qed.

Lemma received_fds own q o :
  fds (received own q o) = fds o /\ open_max (received own q o) = open_max o /\
  names (received own q o) = names o.
Proof. by destruct q. Qed.

Lemma received_inbox own q o p :
  inboxes o !! own = Some q ->
  inboxes (received own q o) !! p = if decide (p = own) then Some (tail q) else inboxes o !! p.
Proof.
  intros Hq. destruct q as [|e q]; cbn [received tail].
  - case_decide as E; [by rewrite E | done].
  - rewrite popped_inbox. case_decide as E; [by rewrite E, Hq | done].
Qed.

(** What an event leaves alone. *)
Lemma listen_wires a ev :
  current_client (spec_listen ev a).1 = current_client a /\
  priority_socket (spec_listen ev a).1 = priority_socket a /\
  socket_name (spec_listen ev a).1 = socket_name a.
Proof.
  destruct ev as [e|]; [| done]. cbn [spec_listen]. unfold spec_dispatch, spec_sack, spec_bbsy.
  destruct (sig e); repeat case_match; done.
Qed.
