(* ===== verification/Handshake.v ===== *)
(** * The arbiter and a device

    The bus arbiter and the bus thread of one device, each in its process,
    joined by their two queues; either may take the next step.  Provided the
    arbiter addresses its grants to the device, the two processes do what a
    machine of two state machines and two queues does ([represents]), so that a
    handshake can be computed. *)
From S2P Require Import Prelude Sockets PriorityBus PriorityFacts PrioritySpec.
From S2P Require Arbiter ArbiterFacts.
From Stdlib Require Import Ascii String.
#[local] Open Scope Z_scope.

(** ** Two processes *)
Record world := World {
  w_arb : Arbiter.arb_state; w_arb_fds : gmap Z descriptor;
  w_dev : device; w_dev_fds : gmap Z descriptor;
  w_max : Z; w_names : gset string; w_inboxes : gmap string (list pr_bus_req)
}.

Inductive agent := TheArbiter | TheDevice.

#[export] Instance agent_eq_dec : EqDecision agent.
Proof. solve_decision. Defined.

Definition os_of (t : gmap Z descriptor) (w : world) : os := Os t (w_max w) (w_names w) (w_inboxes w).

Definition world_step (t : agent) (w : world) : option world :=
  match t with
  | TheArbiter =>
      match Arbiter.listen_once (Proc (w_arb w) (os_of (w_arb_fds w) w)) with
      | Done _ (Proc a o) =>
          Some (World a (fds o) (w_dev w) (w_dev_fds w) (w_max w) (names o) (inboxes o))
      | _ => None
      end
  | TheDevice =>
      match iteration (Proc (w_dev w) (os_of (w_dev_fds w) w)) with
      | Done _ (Proc d o) =>
          Some (World (w_arb w) (w_arb_fds w) d (fds o) (w_max w) (names o) (inboxes o))
      | _ => None
      end
  end.

Fixpoint world_run (ts : list agent) (w : world) : option world :=
  match ts with [] => Some w | t :: ts' => w' ← world_step t w; world_run ts' w' end.

(** The main thread of the device acts. *)
Definition main_acts (f : device -> device) (w : world) : world :=
  World (w_arb w) (w_arb_fds w) (f (w_dev w)) (w_dev_fds w) (w_max w) (w_names w) (w_inboxes w).

(** ** The specification: two state machines and two queues *)
Record pair := Pair {
  p_arb : Arbiter.arb_state; p_dev : device; to_arb : list pr_bus_req; to_dev : list pr_bus_req
}.

Definition grant_message (client : string) (g : option (pr_signal * Z)) : list pr_bus_req :=
  match g with Some (s, v) => [PrReq (from_field client) s v] | None => [] end.

Section Pair.
Context (pa pd : string).

Definition pair_step (t : agent) (s : pair) : pair :=
  match t with
  | TheArbiter =>
      let x := ArbiterFacts.spec_listen (head (to_arb s)) (p_arb s) in
      Pair x.1 (p_dev s) (tail (to_arb s)) (to_dev s ++ grant_message pd x.2)
  | TheDevice =>
      let x := spec_iteration (Some pa) None (head (to_dev s)) (p_dev s) in
      Pair (p_arb s) x.1 (to_arb s ++ x.2.*2) (tail (to_dev s))
  end.

Definition pair_run (ts : list agent) (s : pair) : pair := foldl (fun s t => pair_step t s) s ts.

(** The arbiter's signals. *)
Definition signals (a : Arbiter.arb_state) : Z * Z * Z * Z :=
  (Arbiter.outstanding_bg a, Arbiter.outstanding_npg a, Arbiter.sack a, Arbiter.bbsy a).

Record represents (w : world) (s : pair) : Prop := {
  rep_dev : w_dev w = p_dev s;
  rep_arb : signals (w_arb w) = signals (p_arb s);
  rep_client : Arbiter.current_client (w_arb w) = pd;
  rep_names : pr_in_addr (pr (w_dev w)) = pd /\ pa <> pd;
  rep_linked : linked true (Some pa) None (w_dev w) (os_of (w_dev_fds w) w);
  rep_listens : listens (Some pa) None (w_dev w) (os_of (w_dev_fds w) w) (to_dev s);
  rep_hears : ArbiterFacts.hears (w_arb w) pa (os_of (w_arb_fds w) w) (to_arb s);
  rep_limit : next_fd (w_arb_fds w) < w_max w
}.

Lemma signals_listen a a' ev :
  signals a = signals a' ->
  signals (ArbiterFacts.spec_listen ev a).1 = signals (ArbiterFacts.spec_listen ev a').1 /\
  (ArbiterFacts.spec_listen ev a).2 = (ArbiterFacts.spec_listen ev a').2.
Proof.
  unfold signals. intros [= E1 E2 E3 E4]. destruct ev as [e|]; cbn [ArbiterFacts.spec_listen fst snd]; [| by rewrite E1, E2, E3, E4].
  unfold ArbiterFacts.spec_dispatch, ArbiterFacts.spec_sack, ArbiterFacts.spec_bbsy.
  rewrite E1, E2, E3, E4. destruct (sig e); repeat case_match; cbn; by rewrite ?E1, ?E2, ?E3, ?E4.
Qed.

Lemma tried_reachable a g o :
  reaches o (Arbiter.current_client a) ->
  let p := ArbiterFacts.tried g (Proc a o) in
  signals (self p) = signals a /\ Arbiter.current_client (self p) = Arbiter.current_client a /\
  Arbiter.priority_socket (self p) = Arbiter.priority_socket a /\
  system p = deliveries (map (fun q => (Arbiter.current_client a, q))
               (grant_message (Arbiter.current_client a) g)) o.
Proof.
  intros [[q Hq] Hm]. destruct g as [[s v]|]; [| done].
  unfold ArbiterFacts.tried, ArbiterFacts.attempt. cbn [self system fst snd].
  destruct (Z.ltb_spec (next_fd (fds o)) (open_max o)); [|lia]. cbn [fst snd]. by rewrite Hq.
Qed.

Lemma linked_inboxes hot l r d o o' :
  fds o' = fds o -> open_max o' = open_max o ->
  (forall p, is_Some (inboxes o !! p) -> is_Some (inboxes o' !! p)) ->
  linked hot l r d o -> linked hot l r d o'.
Proof.
  intros Ef Em Hi [H1 H2 H3].
  assert (Hs : forall fd addr nb, side hot o fd addr nb -> side hot o' fd addr nb).
  { intros fd addr [p|]; [| done]. cbn [side]. rewrite Ef. intros (? & ? & ? & ?). auto. }
  split; [by apply Hs | by apply Hs | by rewrite Ef, Em].
Qed.

(** The descriptors of both processes are the same. *)
Definition same_fds (w w' : world) : Prop := w_arb_fds w' = w_arb_fds w /\ w_dev_fds w' = w_dev_fds w.

Lemma arbiter_step_represents w s :
  represents w s -> exists w', world_step TheArbiter w = Some w' /\ same_fds w w' /\ represents w' (pair_step TheArbiter s).
Proof.
  intros [Ed Ea Ec [En Hne] Hl Hd Hh Hm]. set (o := os_of (w_arb_fds w) w) in *.
  set (q := to_arb s) in *. set (x := ArbiterFacts.spec_listen (head q) (w_arb w)).
  pose proof (ArbiterFacts.received_fds pa q o) as (Rf & Rm & _).
  assert (Ri : forall p, inboxes (ArbiterFacts.received pa q o) !! p
    = if decide (p = pa) then Some (tail q) else inboxes o !! p)
    by (intros; by apply ArbiterFacts.received_inbox, Hh).
  destruct (ArbiterFacts.listen_wires (w_arb w) (head q)) as (Wc & Wp & _). fold x in Wc, Wp.
  assert (Hd' : inboxes o !! pd = Some (to_dev s)) by (destruct Hd as (_ & Hd & _); by rewrite En in Hd).
  assert (Hr : reaches (ArbiterFacts.received pa q o) (Arbiter.current_client x.1)).
  { split; [| by rewrite Rf, Rm]. rewrite Wc, Ec, Ri, decide_False by done. eauto. }
  destruct (tried_reachable x.1 x.2 _ Hr) as (Ts & Tc & Tp & To).
  destruct (ArbiterFacts.tried x.2 (Proc x.1 (ArbiterFacts.received pa q o))) as [a' o'] eqn:Et.
  cbn [self system] in Ts, Tc, Tp, To. rewrite Wc, Ec in Tc, To. rewrite Wp in Tp.
  unfold world_step. fold o. rewrite (ArbiterFacts.listen_follows _ _ _ _ Hh). fold x. rewrite Et.
  eexists; split; [done|].
  destruct (signals_listen (w_arb w) (p_arb s) (head q) Ea) as [Es Eg]. fold x in Es, Eg.
  assert (Hi : forall p, inboxes o' !! p = if decide (p = pa) then Some (tail q)
    else if decide (p = pd) then Some (to_dev s ++ grant_message pd x.2) else inboxes o !! p).
  { intros p. rewrite To, deliveries_inbox, Ri. destruct (decide (p = pa)) as [->|].
    - rewrite (filter_none _ (map _ _)); [cbn; by rewrite app_nil_r|].
      intros m (y & -> & _)%list_elem_of_fmap. cbn. congruence.
    - destruct (decide (p = pd)) as [->|].
      + rewrite Hd'. cbn. f_equal. f_equal. destruct x.2 as [[]|]; [| done]. cbn. by rewrite decide_True.
      + rewrite (filter_none _ (map _ _)); [destruct (inboxes o !! p); cbn; by rewrite ?app_nil_r|].
        intros m (y & -> & _)%list_elem_of_fmap. cbn. congruence. }
  assert (Ho' : fds o' = w_arb_fds w /\ open_max o' = w_max w).
  { rewrite To. destruct (deliveries_fds (map (fun q => (pd, q)) (grant_message pd x.2))
      (ArbiterFacts.received pa q o)) as [-> ->]. by rewrite Rf, Rm. }
  destruct Ho' as [Of Om]. split; [by split|].
  split; cbn [w_arb w_dev w_arb_fds w_dev_fds w_max w_inboxes pair_step p_dev p_arb to_arb to_dev].
  - done.
  - by rewrite Ts.
  - done.
  - done.
  - eapply linked_inboxes; [| | | exact Hl]; [done..|]. intros p Hp. cbn [os_of inboxes w_inboxes].
    rewrite Hi. repeat case_decide; eauto.
  - destruct Hd as (Hf & _ & Hl1 & Hl2). split; [done|]. split; [| done]. cbn [os_of inboxes w_inboxes].
    rewrite En, Hi, decide_False, decide_True by done. fold q. by rewrite <- Eg.
  - destruct Hh as ([peer Hf] & _ & Hneg). unfold ArbiterFacts.hears. cbn [os_of fds inboxes w_inboxes].
    rewrite Tp, Of, Hi, decide_True by done. eauto.
  - by rewrite Of.
Qed.

Lemma to_left_filter ms :
  to_neighbours (Some pa) None ms -> filter (fun m : string * pr_bus_req => m.1 = pa) ms = ms.
Proof.
  induction ms as [|m ms IH]; intros H; [done|]. rewrite filter_cons.
  destruct (H m) as [E|E]; [by left | injection E as E | done].
  rewrite decide_True by done. f_equal. apply IH. intros m' ?. apply H. by right.
Qed.

Lemma device_step_represents w s :
  represents w s -> exists w', world_step TheDevice w = Some w' /\ same_fds w w' /\ represents w' (pair_step TheDevice s).
Proof.
  intros [Ed Ea Ec [En Hne] Hl Hd Hh Hm]. set (o := os_of (w_dev_fds w) w) in *.
  destruct (iteration_follows (Some pa) None (w_dev w) o (to_dev s) Hl Hd) as (o' & Hrun & Hl' & Hg).
  pose proof (spec_iteration_proper (Some pa) None (head (to_dev s)) (w_dev w)) as [Hp Hn].
  set (x := spec_iteration (Some pa) None (head (to_dev s)) (w_dev w)) in *.
  unfold world_step. fold o. rewrite Hrun. eexists; split; [done|].
  destruct Hg as [[Gf Gm] Gi]. rewrite En in Gi.
  assert (Hi : forall p, inboxes o' !! p = if decide (p = pd) then Some (tail (to_dev s))
    else if decide (p = pa) then Some (to_arb s ++ x.2.*2)
    else inboxes o !! p).
  { intros p. rewrite Gi. case_decide; [done|]. case_decide as E.
    - rewrite E, to_left_filter by done. destruct Hh as (_ & Hq & _). cbn [os_of inboxes] in Hq.
      cbn [o os_of inboxes]. by rewrite Hq.
    - rewrite (filter_none _ x.2); [destruct (inboxes o !! p); cbn; by rewrite ?app_nil_r|].
      intros m Hm' Em. destruct (Hn m Hm'); congruence. }
  split; [by split|].
  split; cbn [w_arb w_dev w_arb_fds w_dev_fds w_max w_inboxes pair_step p_dev p_arb to_arb to_dev].
  - by rewrite <- Ed.
  - done.
  - done.
  - destruct Hp as (_ & _ & -> & _). done.
  - eapply linked_inboxes; [| | | exact Hl']; [done | by rewrite Gm | done].
  - eapply (grown_listens (Some pa) None (w_dev w) x.1 (tail (to_dev s)) x.2 o); [exact Hd | | exact Hp].
    split; [done|]. cbn [os_of inboxes]. rewrite En. exact Gi.
  - destruct Hh as (Hf & _ & Hneg). split; [done|]. split; [| done]. cbn [os_of inboxes w_inboxes].
    rewrite Hi, decide_False, decide_True by done. by rewrite <- Ed.
  - done.
Qed.

Lemma world_run_represents ts w s :
  represents w s -> exists w', world_run ts w = Some w' /\ same_fds w w' /\ represents w' (pair_run ts s).
Proof.
  revert w s. induction ts as [|t ts IH]; intros w s H; [by exists w|].
  assert (exists w', world_step t w = Some w' /\ same_fds w w' /\ represents w' (pair_step t s)) as (w' & E & [F1 F2] & H').
  { destruct t; [by apply arbiter_step_represents | by apply device_step_represents]. }
  destruct (IH w' _ H') as (w'' & E' & [F1' F2'] & H''). exists w''. split_and!; [| | done].
  - cbn [world_run]. by rewrite E.
  - split; congruence.
Qed.

(** ** Schedules *)

(** What is left of a plan after a schedule: the steps of a plan are made in its
    order, whatever else happens in between. *)
Fixpoint remaining (plan ts : list agent) : list agent :=
  match ts, plan with
  | [], _ => plan
  | _, [] => []
  | t :: ts', u :: plan' => remaining (if decide (t = u) then plan' else plan) ts'
  end.

Lemma remaining_sublist ts : forall plan, remaining plan ts = [] <-> plan `sublist_of` ts.
Proof.
  induction ts as [|t ts IH]; intros plan.
  - cbn [remaining]. split; [by intros -> | apply sublist_nil_r].
  - destruct plan as [|u plan]; cbn [remaining]; [split; [intros _; apply sublist_nil_l | done]|].
    case_decide as E; rewrite IH; split.
    + subst. apply sublist_skip.
    + subst. intros H. inversion H; subst; [done|]. by apply (sublist_cons_l u) in H2 as (? & ? & -> & H2); apply sublist_inserts_l, sublist_cons.
    + apply sublist_cons.
    + intros H. by inversion H; subst.
Qed.

(** A schedule of rounds, in each of which both take a turn, contains every plan of
    at most as many steps. *)
Lemma rounds_contain plan : forall rounds : list (list agent),
  Forall (fun r => forall t, t ∈ r) rounds -> (List.length plan <= List.length rounds)%nat ->
  plan `sublist_of` List.concat rounds.
Proof.
  induction plan as [|t plan IH]; intros rounds Hf Hl; [apply sublist_nil_l|].
  destruct Hf as [|r rounds Hr Hf]; [cbn in Hl; lia|]. cbn [List.concat].
  change (t :: plan) with ([t] ++ plan). apply sublist_app; [by apply singleton_sublist_l|].
  apply IH; [done | cbn in Hl; lia].
Qed.

(** A plan whose every step is the only one that changes anything, and whose end
    alone is in [F]. *)
Inductive ladder (F : pair -> Prop) : list agent -> pair -> pair -> Prop :=
| ladder_end s : F s -> (forall t, pair_step t s = s) -> ladder F [] s s
| ladder_next t plan s s' :
    ~ F s -> (forall u, u <> t -> pair_step u s = s) -> ladder F plan (pair_step t s) s' ->
    ladder F (t :: plan) s s'.

Lemma ladder_run F ts : forall plan s s', ladder F plan s s' ->
  (F (pair_run ts s) <-> remaining plan ts = []) /\ (remaining plan ts = [] -> pair_run ts s = s').
Proof.
  induction ts as [|t ts IH]; intros plan s s' H.
  - destruct H as [s HF Hs | u plan s s' HF Hs H]; cbn; [done | split; [split|]; done].
  - cbn [pair_run foldl]. destruct H as [s HF Hs | u plan s s' HF Hs H].
    + rewrite Hs. destruct (IH [] s s ltac:(by constructor)) as [H1 H2].
      assert (R : remaining [] ts = []) by by destruct ts.
      split; [split; [done|] |]; intros _; [by apply H1 | by apply H2].
    + cbn [remaining]. case_decide as E; [subst; by apply (IH plan)|].
      rewrite Hs by done. apply (IH (u :: plan)). by constructor.
Qed.

Lemma represents_main f w s :
  (forall d, pr (f d) = pr d) -> represents w s ->
  represents (main_acts f w) (Pair (p_arb s) (f (p_dev s)) (to_arb s) (to_dev s)).
Proof.
  intros Hf [Ed Ea Ec En Hl Hd Hh Hm]. split; cbn [main_acts w_dev w_arb p_dev p_arb to_arb to_dev];
    rewrite ?Hf; [by rewrite Ed | done..| | | done | done].
  - apply (same_wires true _ _ (w_dev w)); rewrite ?Hf; done.
  - unfold listens. rewrite Hf. exact Hd.
Qed.

(** ** The handshake *)
Definition idle_device (d : device) : Prop :=
  is_master (bus d) = 0 /\ req_master (bus d) = 0 /\ rel_master (bus d) = 0 /\ main d = MOut /\
  br_issued (pr d) = 0 /\ sack_asserted (pr d) = 0 /\ bbsy_asserted (pr d) = 0.

Definition master_device (d : device) : Prop :=
  is_master (bus d) = 1 /\ req_master (bus d) = 0 /\ rel_master (bus d) = 0 /\ main d = MOut /\
  br_issued (pr d) = 0 /\ sack_asserted (pr d) = 1 /\ bbsy_asserted (pr d) = 1.

Definition request_plan : list agent :=
  [TheDevice; TheArbiter; TheDevice; TheArbiter; TheDevice; TheArbiter].
Definition release_plan : list agent := [TheDevice; TheArbiter; TheArbiter].

(** Where the handshakes end: no message on the way. *)
Definition settled (Q : device -> Prop) (sig : Z * Z * Z * Z) (s : pair) : Prop :=
  to_arb s = [] /\ to_dev s = [] /\ signals (p_arb s) = sig /\ Q (p_dev s).

#[local] Ltac climb :=
  repeat (apply ladder_next;
    [ unfold settled, signals, master_device, idle_device; cbn; intros (H1 & H2 & H3 & H4); destruct_and?; congruence
    | intros [] Hu; by first [destruct (Hu eq_refl) | reflexivity] | cbn ]);
  apply ladder_end; [by split_and! | by intros []].

Lemma request_ladder a d :
  signals a = (0, 0, 0, 0) -> idle_device d -> pr_in_addr (pr d) = pd ->
  exists a' d', ladder (settled master_device (0, 0, 1, 1)) request_plan
      (Pair a (enter_wait (req_bus_master d)) [] []) (Pair a' d' [] []) /\
    signals a' = (0, 0, 1, 1) /\ master_device d' /\ pr_in_addr (pr d') = pd.
Proof.
  destruct a as [ps cs sn cc bg npg sk bb], d as [[im rq rl sd] [al ar ai bi fl fr np br ss bs] mn].
  unfold signals, idle_device. cbn. intros [= -> -> -> ->] (-> & -> & -> & -> & -> & -> & ->) ->.
  do 2 eexists. split; [unfold request_plan; climb | done].
Qed.

Lemma release_ladder a d :
  signals a = (0, 0, 1, 1) -> master_device d ->
  exists a' d', ladder (settled idle_device (0, 0, 0, 0)) release_plan
      (Pair a (enter_wait (release_bus_master d)) [] []) (Pair a' d' [] []) /\
    signals a' = (0, 0, 0, 0) /\ idle_device d'.
Proof.
  destruct a as [ps cs sn cc bg npg sk bb], d as [[im rq rl sd] [al ar ai bi fl fr np br ss bs] mn].
  unfold signals, master_device. cbn. intros [= -> -> -> ->] (-> & -> & -> & -> & -> & -> & ->).
  do 2 eexists. split; [unfold release_plan; climb | done].
Qed.

(** The same for the two processes. *)
Definition at_rest (Q : device -> Prop) (sig : Z * Z * Z * Z) (w : world) : Prop :=
  Q (w_dev w) /\ signals (w_arb w) = sig /\ exists a d, represents w (Pair a d [] []).

Lemma at_rest_settled Q sig w s : represents w s -> (at_rest Q sig w <-> settled Q sig s).
Proof.
  intros R. pose proof R as [Ed Ea _ _ _ (_ & Hd & _) (_ & Hh & _) _]. unfold at_rest, settled. split.
  - intros (HQ & Hs & a & d & [_ _ _ _ _ (_ & Hd' & _) (_ & Hh' & _) _]). cbn [to_arb to_dev] in Hd', Hh'.
    rewrite Hd in Hd'. rewrite Hh in Hh'. injection Hd' as ->. injection Hh' as ->.
    split_and!; [done..| by rewrite <- Ea | by rewrite <- Ed].
  - intros (E1 & E2 & Hs & HQ). split_and!; [by rewrite Ed | by rewrite Ea |].
    exists (p_arb s), (p_dev s). rewrite <- E1, <- E2 at 1. by destruct s.
Qed.

Lemma handshake_run Q sig plan s s' ts w :
  represents w s -> ladder (settled Q sig) plan s s' ->
  exists w', world_run ts w = Some w' /\ same_fds w w' /\ (at_rest Q sig w' <-> plan `sublist_of` ts).
Proof.
  intros R L. destruct (world_run_represents ts w s R) as (w' & E & F & R'). exists w'. split; [done|]. split; [done|].
  rewrite (at_rest_settled Q sig w' _ R'), <- remaining_sublist. apply (ladder_run _ _ _ _ _ L).
Qed.
End Pair.
