(* ===== verification/PriorityProps.v ===== *)
(** * The priority bus and the arbiter: properties

    A device's bus thread and the arbiter refine state machines without sockets;
    the handshake over both hands the bus over and takes it back, if the arbiter
    addresses the device; the address the arbiter has reaches nobody. *)
From S2P Require Import Prelude Sockets PriorityBus PriorityFacts PrioritySpec Handshake.
From S2P Require Arbiter ArbiterFacts.
From Stdlib Require Import Ascii String.
#[local] Open Scope Z_scope.

(** C24: An iteration of a device's priority bus thread does what the machine
    [spec_iteration] without sockets does.  While the neighbours' sockets can be
    reached and the descriptors of the last messages are closed, it takes the
    main thread's wish and at most one event, moves the flags as the machine
    does, appends exactly the machine's messages to the neighbours' queues in
    order, takes the event off its own queue, changes no other queue and leaves
    every descriptor as it was; a device that never sent before gets to such a
    state with its first request. *)
Theorem iteration_refines (l r : option string) (d : device) (o : os) :
  (forall q, linked true l r d o -> listens l r d o q ->
     let x := spec_iteration l r (head q) d in
     exists o', iteration (Proc d o) = Done (shutdown (bus d)) (Proc x.1 o') /\
       linked true l r x.1 o' /\ listens l r x.1 o' (tail q) /\ grown d (tail q) x.2 o o') /\
  (linked false l r d o -> truth (bbsy_asserted (pr d)) = false ->
     let x := spec_request l r d in
     exists d' o', request_master (Proc d o) = Done tt (Proc d' o') /\
       linked true l r d' o' /\ bus d' = bus x.1 /\ main d' = main x.1 /\
       br_issued (pr d') = 1 /\ o' = deliveries x.2 o).
Proof.
  split.
  - intros q H Hd x. destruct (iteration_follows l r d o q H Hd) as (o' & Hrun & Hl & Hg).
    exists o'. split; [done|]. split; [done|]. split; [| done].
    eapply grown_listens; [exact Hd | exact Hg | apply spec_iteration_proper].
  - intros H Hb x. exists (heated l r o x.1), (deliveries x.2 o).
    split; [by apply first_request|]. split.
    { apply linked_deliveries, (linked_heated false). subst x. unfold spec_request. rewrite Hb.
      by apply (same_wires false l r d). }
    subst x. unfold spec_request. rewrite Hb. by destruct l, r.
Qed.

(** C25: An iteration of the arbiter moves its signals as the machine
    [spec_listen] does: a request is granted unless SACK is asserted, SACK
    withdraws the outstanding grant (a bus grant first), BBSY is followed.  If
    the client's socket can be reached, the grant is appended to the client's
    queue and nothing else changes but the arbiter's own queue.  If it cannot,
    no queue receives anything, the signals move all the same, and the
    descriptor opened for the grant stays open for ever. *)
Theorem arbiter_refines (a : Arbiter.arb_state) (o : os) (own : string) (q : list pr_bus_req) :
  ArbiterFacts.hears a own o q -> Arbiter.current_client a <> own ->
  let x := ArbiterFacts.spec_listen (head q) a in
  exists a' o', Arbiter.listen_once (Proc a o) = Done tt (Proc a' o') /\
    signals a' = signals x.1 /\ Arbiter.current_client a' = Arbiter.current_client a /\
    (reaches o (Arbiter.current_client a) ->
       fds o' = fds o /\
       forall p, inboxes o' !! p =
         if decide (p = own) then Some (tail q)
         else if decide (p = Arbiter.current_client a)
         then (fun c => c ++ grant_message p x.2) <$> inboxes o !! p
         else inboxes o !! p) /\
    (inboxes o !! Arbiter.current_client a = None ->
       fds o' = (match x.2 with
                 | Some _ => if next_fd (fds o) <? open_max o
                             then <[next_fd (fds o) := DSocket None None]> (fds o) else fds o
                 | None => fds o
                 end) /\
       forall p, inboxes o' !! p = if decide (p = own) then Some (tail q) else inboxes o !! p).
Proof.
  intros Hh Hne x. pose proof Hh as (_ & Hq & _).
  pose proof (ArbiterFacts.received_fds own q o) as (Rf & Rm & _).
  pose proof (fun p => ArbiterFacts.received_inbox own q o p Hq) as Ri.
  destruct (ArbiterFacts.listen_wires a (head q)) as (Wc & _ & _). fold x in Wc.
  set (o1 := ArbiterFacts.received own q o) in *.
  set (p' := ArbiterFacts.tried x.2 (Proc x.1 o1)).
  exists (self p'), (system p'). split; [|split; [|split; [|split]]].
  - rewrite (ArbiterFacts.listen_follows a o own q Hh). fold x. fold o1. fold p'. by destruct p'.
  - unfold p', ArbiterFacts.tried. by destruct x.2.
  - unfold p', ArbiterFacts.tried. by destruct x.2.
  - intros [[c Hc] Hm].
    assert (Hr : reaches o1 (Arbiter.current_client x.1)).
    { split; [| by rewrite Rf, Rm]. rewrite Wc, Ri, decide_False by done. eauto. }
    destruct (tried_reachable x.1 x.2 o1 Hr) as (_ & _ & _ & To). fold p' in To. rewrite Wc in To.
    rewrite To. split; [by rewrite (proj1 (deliveries_fds _ _))|]. intros p.
    rewrite deliveries_inbox, Ri. destruct (decide (p = own)) as [->|].
    + rewrite (filter_none _ (map _ _)); [cbn; by rewrite app_nil_r|].
      intros m (y & -> & _)%list_elem_of_fmap. cbn. congruence.
    + destruct (decide (p = Arbiter.current_client a)) as [->|].
      * rewrite Hc. cbn. do 2 f_equal. destruct x.2 as [[]|]; [| done]. cbn. by rewrite decide_True.
      * rewrite (filter_none _ (map _ _)); [destruct (inboxes o !! p); cbn; by rewrite ?app_nil_r|].
        intros m (y & -> & _)%list_elem_of_fmap. cbn. congruence.
  - intros Hc. unfold p', ArbiterFacts.tried. destruct x.2 as [[s v]|]; cbn [self system];
      [| by rewrite Rf; split].
    unfold ArbiterFacts.attempt. rewrite Rf, Rm, Wc, Ri, decide_False, Hc by done.
    by destruct (next_fd (fds o) <? open_max o).
Qed.

(** C26: The handshake over the priority bus, if the arbiter's grants are addressed
    to the device.  From idle, once the main thread has asked for the bus and
    waits, the two bus threads take their turns in some order.  The device is the
    bus master, the main thread running again, with SACK and BBSY asserted at the
    arbiter, no grant outstanding and no message on its way, exactly when the order
    contains device, arbiter, device, arbiter, device, arbiter as a subsequence.
    From there the release ends in the idle state again exactly when the order
    contains device, arbiter, arbiter.  Six rounds, and three for the release, in
    each of which both take a turn, always do.  In every order the descriptors of
    both processes are those of before. *)
Theorem mastership_handshake (pa pd : string) (w : world) (a : Arbiter.arb_state) (d : device) :
  represents pa pd w (Pair a d [] []) -> signals a = (0, 0, 0, 0) -> idle_device d ->
  (forall ts, exists w1, world_run ts (main_acts (fun d => enter_wait (req_bus_master d)) w) = Some w1 /\
    same_fds w w1 /\ (at_rest pa pd master_device (0, 0, 1, 1) w1 <-> request_plan `sublist_of` ts)) /\
  (forall w1, at_rest pa pd master_device (0, 0, 1, 1) w1 -> forall ts,
    exists w2, world_run ts (main_acts (fun d => enter_wait (release_bus_master d)) w1) = Some w2 /\
    same_fds w1 w2 /\ (at_rest pa pd idle_device (0, 0, 0, 0) w2 <-> release_plan `sublist_of` ts)) /\
  (forall rounds, Forall (fun r => forall t, t ∈ r) rounds ->
    ((6 <= List.length rounds)%nat -> request_plan `sublist_of` List.concat rounds) /\
    ((3 <= List.length rounds)%nat -> release_plan `sublist_of` List.concat rounds)).
Proof.
  intros H Ha Hi.
  assert (Hpd : pr_in_addr (pr d) = pd) by (destruct H as [E _ _ [En _] _ _ _ _]; cbn in E; by rewrite <- E).
  split_and!.
  - intros ts. destruct (request_ladder pa pd a d Ha Hi Hpd) as (a1 & d1 & L & _).
    apply (represents_main _ _ (fun d => enter_wait (req_bus_master d))) in H; [| done].
    exact (handshake_run pa pd _ _ _ _ _ ts _ H L).
  - intros w1 (HQ & Hs & a1 & d1 & R) ts. pose proof R as [Ed Ea _ _ _ _ _ _]. cbn in Ed, Ea. rewrite Ed in HQ. rewrite Ea in Hs.
    destruct (release_ladder pa pd a1 d1 Hs HQ) as (a2 & d2 & L & _).
    apply (represents_main _ _ (fun d => enter_wait (release_bus_master d))) in R; [| done].
    exact (handshake_run pa pd _ _ _ _ _ ts _ R L).
  - intros rounds Hr. split; intros Hl; by apply rounds_contain.
Qed.

(** What the other processes can do between two iterations, if all they do is
    send to the arbiter. *)
Definition only_requests (own : string) (env : os -> os) : Prop :=
  forall o, fds (env o) = fds o /\
    (forall p, p <> own -> inboxes (env o) !! p = inboxes o !! p) /\
    (is_Some (inboxes o !! own) -> is_Some (inboxes (env o) !! own)).

(** The arbiter in a system where its grants reach nobody. *)
Definition deaf (o0 : os) (p : proc Arbiter.arb_state) : Prop :=
  Arbiter.current_client (self p) = Arbiter.NAME /\
  Arbiter.socket_name (self p) = socket_path Arbiter.NAME /\
  (exists q, ArbiterFacts.hears (self p) (socket_path Arbiter.NAME) (system p) q) /\
  forall x, x <> socket_path Arbiter.NAME -> inboxes (system p) !! x = inboxes o0 !! x.

Lemma name_not_path : Arbiter.NAME <> socket_path Arbiter.NAME.
Proof. done. Qed.

Lemma deaf_listen o0 p :
  inboxes o0 !! Arbiter.NAME = None -> deaf o0 p ->
  exists p', Arbiter.listen_once p = Done tt p' /\ deaf o0 p'.
Proof.
  intros Hn (Hc & Hs & [q Hh] & Ho). destruct p as [a o]. cbn [self system] in *.
  set (own := socket_path Arbiter.NAME) in *. pose proof name_not_path as Hne. fold own in Hne.
  eexists. split; [by rewrite (ArbiterFacts.listen_follows a o own q Hh)|].
  destruct (ArbiterFacts.listen_wires a (head q)) as (Wc & Wp & Ws).
  set (x := ArbiterFacts.spec_listen (head q) a) in *.
  pose proof (ArbiterFacts.received_fds own q o) as (Rf & Rm & _).
  pose proof (fun p => ArbiterFacts.received_inbox own q o p (proj1 (proj2 Hh))) as Ri.
  set (o1 := ArbiterFacts.received own q o) in *.
  assert (Hin : inboxes o1 !! Arbiter.current_client x.1 = None)
    by (rewrite Wc, Hc, Ri, decide_False, Ho by done; done).
  destruct Hh as ([peer Hf] & Hq & Hneg).
  split; [by rewrite (ArbiterFacts.tried_field Arbiter.current_client), Wc|].
  split; [by rewrite (ArbiterFacts.tried_field Arbiter.socket_name), Ws|]. split.
  - exists (tail q). split; [| split].
    + exists peer. rewrite (ArbiterFacts.tried_field Arbiter.priority_socket), Wp by done.
      apply ArbiterFacts.tried_keeps_fd; [done | by rewrite Rf | by right].
    + by rewrite ArbiterFacts.tried_lost, Ri, decide_True.
    + apply ArbiterFacts.tried_keeps_fd; [done | by rewrite Rf | by left].
  - intros k Hk'. rewrite ArbiterFacts.tried_lost, Ri, decide_False by done. by apply Ho.
Qed.

Lemma deaf_env o0 p env :
  only_requests (socket_path Arbiter.NAME) env -> deaf o0 p -> deaf o0 (Proc (self p) (env (system p))).
Proof.
  intros He (Hc & Hs & (q & Hf & Hq & Hneg) & Ho). destruct (He (system p)) as (Ef & Ei & Es).
  destruct (Es (mk_is_Some _ _ Hq)) as [q' Hq'].
  split; [done|]. split; [done|]. split.
  - exists q'. unfold ArbiterFacts.hears. cbn [self system]. rewrite Ef. done.
  - intros x Hx. cbn [system]. rewrite Ei by done. by apply Ho.
Qed.

Lemma deaf_loop o0 env halts p :
  inboxes o0 !! Arbiter.NAME = None -> only_requests (socket_path Arbiter.NAME) env -> deaf o0 p ->
  exists p', Arbiter.listen_priority env halts p = Done tt p' /\ deaf o0 p'.
Proof.
  intros Hn He. revert p. induction halts as [|h halts IH]; intros p Hp; [by eexists|].
  cbn [Arbiter.listen_priority]. destruct (deaf_listen o0 p Hn Hp) as (p1 & E & H1).
  rewrite (bind_run _ _ _ false p) by (destruct Hp as (_ & _ & (q & [peer Hf] & _) & _); unfold gets, Arbiter.recv_error; by rewrite Hf).
  rewrite (bind_run _ _ _ _ _ E). destruct h; [by eexists|].
  destruct (IH _ (deaf_env o0 p1 env He H1)) as (p2 & E2 & H2). by exists p2.
Qed.

(** C27: The grants of the arbiter reach nobody.  [init_arb] makes the arbiter's
    own bare name the client's address, while every priority socket is bound
    under [/tmp/xmachine].  Unless some process binds a socket to that bare name,
    the whole run of the arbiter, for any number of iterations and whatever
    requests arrive between them, ends without undefined behaviour and leaves
    every other queue in the system as it was: no device is ever granted the
    bus. *)
Theorem grants_reach_nobody (env : os -> os) (halts : list bool) (o : os) :
  inboxes o !! Arbiter.NAME = None -> only_requests (socket_path Arbiter.NAME) env ->
  socket_path Arbiter.NAME ∉ names o -> fds o !! (-1) = None -> next_fd (fds o) < open_max o ->
  exists o', Arbiter.bus_arb_mgr env halts o = Done tt o' /\
    forall p, p <> socket_path Arbiter.NAME -> inboxes o' !! p = inboxes o !! p.
Proof.
  intros Hn He Hnames Hneg Hm. set (own := socket_path Arbiter.NAME) in *.
  set (n := next_fd (fds o)). pose proof (next_fd_free (fds o)) as (Hfree & Hpos & _). fold n in Hfree, Hpos.
  set (o1 := Os (<[n := DSocket (Some own) None]> (fds o)) (open_max o) ({[own]} ∪ names o)
    (<[own := []]> (inboxes o))).
  set (a1 := Arbiter.ArbState n (-1) own Arbiter.NAME 0 0 NEGATED NEGATED).
  assert (Hset : Arbiter.setup_arb_socket (Proc (Arbiter.init_arb Arbiter.NAME) o) = Done 0 (Proc a1 o1)).
  { unfold Arbiter.setup_arb_socket. rewrite (sys_call_bind _ _ _ _ _ _ (socket_ok o Hm)). run idtac.
    fold n. destruct (Z.eqb_spec n (-1)); [lia|]. run idtac.
    apply sys_call_done. unfold bind. cbn [fds set_fds names open_max inboxes].
    rewrite lookup_insert_eq, bool_decide_eq_false_2, insert_insert_eq by done. done. }
  assert (H1 : deaf o (Proc a1 o1)).
  { split; [done|]. split; [done|]. split.
    - exists []. split; [exists None; cbn; by rewrite lookup_insert_eq|].
      split; [cbn; by rewrite lookup_insert_eq|].
      change (<[n := DSocket (Some own) None]> (fds o) !! (-1) = None).
      by rewrite lookup_insert_ne by lia.
    - intros x Hx. cbn. by rewrite lookup_insert_ne. }
  destruct (deaf_loop o env halts _ Hn He H1) as (p2 & E2 & (Hc & Hs & (q & [peer Hf] & Hq & _) & Ho)).
  unfold Arbiter.bus_arb_mgr. rewrite (bind_run _ _ _ _ _ Hset), (bind_run _ _ _ _ _ E2).
  unfold Arbiter.cleanup_arb. destruct p2 as [a2 o2]. cbn [self system] in *. run idtac. cbn [id].
  assert (Ec : close (Arbiter.priority_socket a2) o2 = (0, Os (delete (Arbiter.priority_socket a2) (fds o2))
    (open_max o2) (names o2) (delete own (inboxes o2)))) by (unfold close; by rewrite Hf).
  rewrite (sys_call_bind _ _ _ _ _ _ Ec). rewrite Hs.
  match goal with |- context [Proc a2 ?y] => destruct (unlink own y) as [r o3] eqn:Eu end.
  rewrite (sys_call_bind _ _ _ _ _ _ Eu). exists o3. split; [done|]. intros p Hp. cbn [system].
  assert (Ei : inboxes o3 = delete own (inboxes o2))
    by (unfold unlink in Eu; case_bool_decide; by inversion Eu).
  rewrite Ei, lookup_delete_ne by done. by apply Ho.
Qed.

(** The first message a device passes on to the right is lost: the descriptor is
    looked up before the connection exists, so [write] gets what [malloc] left in
    the field, and the new connection stays open. *)
Lemma first_forward_lost l p d o e :
  linked false l (Some p) d o -> fds o !! pr_bus_out_r (pr d) = None ->
  pr_bus_out_r (pr d) <> next_fd (fds o) ->
  relay D_RIGHT e (Proc d o) = Done false (Proc (use_r (Some p) o d) (opened p o)).
Proof.
  intros H Hf Hne. unfold relay. run idtac. cbn [get_fd pr_connect].
  rewrite (bind_run _ _ _ _ _ (connect_r _ _ _ _ _ _ H eq_refl)).
  assert (Ew : write (pr_bus_out_r (pr d)) e (opened p o) = (-1, opened p o))
    by (unfold write, opened; cbn [fds set_fds]; by rewrite lookup_insert_ne, Hf).
  by rewrite (sys_call_bind _ _ _ _ _ _ Ew).
Qed.

(** ** Concrete systems for the witnesses *)
Definition cpu_path : string := socket_path "cpu".
Definition mem_path : string := socket_path "mem".

(** Standard input, output and error, and the bound socket. *)
Definition usual_fds (own : string) : gmap Z descriptor :=
  <[3 := DSocket (Some own) None]> (<[2 := DOther]> (<[1 := DOther]> (<[0 := DOther]> ∅))).

Definition usual_os (own : string) (to_cpu to_mem : list pr_bus_req) : os :=
  Os (usual_fds own) 1024 {[cpu_path; mem_path]}
    (<[cpu_path := to_cpu]> (<[mem_path := to_mem]> ∅)).

Definition mem_device (br : Z) : device :=
  Dev (Mastership 0 0 0 0) (PrState cpu_path "" mem_path 3 4 (-1) 0 br 0 0) MOut.

Definition mem_client : Arbiter.arb_state :=
  Arbiter.ArbState 3 (-1) cpu_path mem_path 0 0 0 0.

Lemma usual_next own : next_fd (usual_fds own) = 4.
Proof. done. Qed.

Lemma mem_linked hot br q q' : linked hot (Some cpu_path) None (mem_device br) (usual_os mem_path q q').
Proof. split; [| done | done]. repeat split; [by eexists | done..]. Qed.

Lemma mem_listens br q q' : listens (Some cpu_path) None (mem_device br) (usual_os mem_path q q') q'.
Proof. split; [by eexists | done]. Qed.

Lemma cpu_hears q q' : ArbiterFacts.hears mem_client cpu_path (usual_os cpu_path q q') q.
Proof. split; [by eexists | done]. Qed.

Definition handshake_world : world :=
  World mem_client (usual_fds cpu_path) (mem_device 0) (usual_fds mem_path) 1024
    {[cpu_path; mem_path]} (inboxes (usual_os cpu_path [] [])).

Lemma handshake_represents :
  represents cpu_path mem_path handshake_world (Pair mem_client (mem_device 0) [] []).
Proof.
  split; [done | done | done | done | apply (mem_linked true 0 [] []) | apply (mem_listens 0 [] []) |
    apply (cpu_hears [] []) | done].
Qed.

Lemma iteration_refines_witness :
  let q := [PrReq "" BG ASSERTED] in
  exists o', iteration (Proc (mem_device 1) (usual_os mem_path [] q))
      = Done 0 (Proc (spec_iteration (Some cpu_path) None (head q) (mem_device 1)).1 o') /\
    inboxes o' !! cpu_path = Some [PrReq mem_path SACK ASSERTED] /\
    inboxes o' !! mem_path = Some [].
Proof.
  intros q.
  destruct (proj1 (iteration_refines (Some cpu_path) None (mem_device 1) (usual_os mem_path [] q)) q
    (mem_linked true 1 [] q) (mem_listens 1 [] q)) as (o' & E & _ & _ & [_ Hi]).
  exists o'. split; [exact E|]. split; rewrite Hi; reflexivity.
Defined.

Lemma arbiter_refines_witness :
  exists a' o', Arbiter.listen_once (Proc mem_client (usual_os cpu_path [PrReq mem_path BR ASSERTED] []))
      = Done tt (Proc a' o') /\ signals a' = (1, 0, 0, 0) /\
    inboxes o' !! mem_path = Some [PrReq mem_path BG ASSERTED].
Proof.
  destruct (arbiter_refines mem_client (usual_os cpu_path [PrReq mem_path BR ASSERTED] []) cpu_path _
    (cpu_hears [PrReq mem_path BR ASSERTED] []) ltac:(discriminate)) as (a' & o' & E & Es & _ & Hr & _).
  exists a', o'. split; [exact E|]. split; [rewrite Es; reflexivity|].
  destruct Hr as [_ Hi]; [split; [by eexists | reflexivity]|]. rewrite Hi. reflexivity.
Defined.

Lemma mastership_handshake_witness :
  let ts := [TheArbiter; TheDevice; TheDevice; TheArbiter; TheDevice; TheArbiter; TheDevice; TheArbiter] in
  exists w1 w2,
    world_run ts (main_acts (fun d => enter_wait (req_bus_master d)) handshake_world) = Some w1 /\
    master_device (w_dev w1) /\
    world_run ts (main_acts (fun d => enter_wait (release_bus_master d)) w1) = Some w2 /\
    idle_device (w_dev w2) /\
    exists w3, world_run [TheArbiter; TheArbiter; TheDevice] (main_acts (fun d => enter_wait (release_bus_master d)) w1)
      = Some w3 /\ ~ at_rest cpu_path mem_path idle_device (0, 0, 0, 0) w3.
Proof.
  intros ts.
  destruct (mastership_handshake cpu_path mem_path handshake_world mem_client (mem_device 0)
    handshake_represents eq_refl ltac:(repeat split)) as (H1 & H2 & _).
  destruct (H1 ts) as (w1 & E1 & _ & [_ R1]).
  specialize (R1 (proj1 (remaining_sublist ts request_plan) eq_refl)).
  destruct (H2 w1 R1 ts) as (w2 & E2 & _ & [_ R2]).
  specialize (R2 (proj1 (remaining_sublist ts release_plan) eq_refl)).
  destruct (H2 w1 R1 [TheArbiter; TheArbiter; TheDevice]) as (w3 & E3 & _ & [R3 _]).
  exists w1, w2. split; [exact E1|]. split; [exact (proj1 R1)|]. split; [exact E2|]. split; [exact (proj1 R2)|].
  exists w3. split; [exact E3|]. intros H. apply R3, remaining_sublist in H. discriminate H.
Defined.

(** A device that sends a bus request between two iterations. *)
Definition requesting (o : os) : os := (deliver cpu_path (PrReq mem_path BR ASSERTED) o).2.

Lemma requesting_only : only_requests cpu_path requesting.
Proof.
  intros o. split; [by apply (sent_fds cpu_path)|]. split.
  - intros p Hp. by apply (sent_other cpu_path).
  - intros H. by apply (sent_inboxes_dom cpu_path).
Qed.

Definition start_os : os :=
  Os (<[2 := DOther]> (<[1 := DOther]> (<[0 := DOther]> ∅))) 1024 {[mem_path]} (<[mem_path := []]> ∅).

Lemma grants_reach_nobody_witness :
  exists o', Arbiter.bus_arb_mgr requesting [false; false; false; true] start_os = Done tt o' /\
    inboxes o' !! mem_path = Some [].
Proof.
  destruct (grants_reach_nobody requesting [false; false; false; true] start_os) as (o' & E & Hi);
    [reflexivity | exact requesting_only | | reflexivity | reflexivity |].
  - apply (bool_decide_unpack _). vm_compute. exact I.
  - exists o'. split; [exact E|]. rewrite Hi; [reflexivity | discriminate].
Defined.
