(* ===== verification/AtticOpcodes.v ===== *)
(** * The retired emulator: the operation codes

    The constants of [enum op_codes] of [attic/src/include/opcodes.h]. *)
From S2P Require Import Prelude.

Definition BR_op : Z := oct! 0000400.
Definition BNE_op : Z := oct! 0001000.
Definition BEQ_op : Z := oct! 0001400.
Definition BGE_op : Z := oct! 0002000.
Definition BLT_op : Z := oct! 0002400.
Definition BGT_op : Z := oct! 0003000.
Definition BLE_op : Z := oct! 0003400.
Definition BPL_op : Z := oct! 0100000.
Definition BMI_op : Z := oct! 0100400.
Definition BHI_op : Z := oct! 0101000.
Definition BLOS_op : Z := oct! 0101400.
Definition BVC_op : Z := oct! 0102000.
Definition BVS_op : Z := oct! 0102400.
Definition BCC_op : Z := oct! 0103000.
Definition BCS_op : Z := oct! 0103400.
Definition MUL_op : Z := oct! 0070000.
Definition DIV_op : Z := oct! 0071000.
Definition ASH_op : Z := oct! 0072000.
Definition ASHC_op : Z := oct! 0073000.
Definition XOR_op : Z := oct! 0074000.
Definition JSR_op : Z := oct! 0004000.
Definition RTS_op : Z := oct! 0000200.
Definition MOV_op : Z := oct! 0010000.
Definition MOVB_op : Z := oct! 0110000.
Definition CMP_op : Z := oct! 0020000.
Definition CMPB_op : Z := oct! 0120000.
Definition BIT_op : Z := oct! 0030000.
Definition BITB_op : Z := oct! 0130000.
Definition BIC_op : Z := oct! 0040000.
Definition BICB_op : Z := oct! 0140000.
Definition BIS_op : Z := oct! 0050000.
Definition BISB_op : Z := oct! 0150000.
Definition ADD_op : Z := oct! 0060000.
Definition SUB_op : Z := oct! 0160000.
Definition JMP_op : Z := oct! 0000100.
Definition SWAB_op : Z := oct! 0000300.
Definition CLR_op : Z := oct! 0005000.
Definition CLRB_op : Z := oct! 0105000.
Definition COM_op : Z := oct! 0005100.
Definition COMB_op : Z := oct! 0105100.
Definition INC_op : Z := oct! 0005200.
Definition INCB_op : Z := oct! 0105200.
Definition DEC_op : Z := oct! 0005300.
Definition DECB_op : Z := oct! 0105300.
Definition NEG_op : Z := oct! 0005400.
Definition NEGB_op : Z := oct! 0105400.
Definition ADC_op : Z := oct! 0005500.
Definition ADCB_op : Z := oct! 0105500.
Definition SBC_op : Z := oct! 0005600.
Definition SBCB_op : Z := oct! 0105600.
Definition TST_op : Z := oct! 0005700.
Definition TSTB_op : Z := oct! 0105700.
Definition ROR_op : Z := oct! 0006000.
Definition RORB_op : Z := oct! 0106000.
Definition ROL_op : Z := oct! 0006100.
Definition ROLB_op : Z := oct! 0106100.
Definition ASR_op : Z := oct! 0006200.
Definition ASRB_op : Z := oct! 0106200.
Definition ASL_op : Z := oct! 0006300.
Definition ASLB_op : Z := oct! 0106300.
Definition MTPS_op : Z := oct! 0106400.
Definition MFPI_op : Z := oct! 0006500.
Definition MFPD_op : Z := oct! 0106500.
Definition MTPI_op : Z := oct! 0006600.
Definition MTPD_op : Z := oct! 0106600.
Definition SXT_op : Z := oct! 0006700.
Definition MFPS_op : Z := oct! 0106700.
