(* ===== verification/AtticMemory.v ===== *)
(** * The retired emulator: memory

    [attic/src/memory.c], with the side-effect handlers of [attic/src/tty.c] and
    [attic/src/disk.c] that it calls through function pointers.  In this machine
    the registers, the terminal and the disk are words of one byte array; reading
    or writing a location runs the handler registered for it.

    A function pointer is one of the four handlers the program registers
    ([effect]), NULL is [None].  The array is a finite map with the indices 0 to
    65534: an access outside it is a [Fault].  A handler uses the memory's
    functions and may so run handlers again, nested to any depth: the nesting is
    counted down from [nesting] and running out is a stack overflow, a [Fault]
    ([AtticFacts] shows that the registered handlers nest once).  The mutex makes
    every function one step. *)
From S2P Require Import Prelude.

Definition MEMBYTES : Z := 65535.
Definition MEMWORDS : Z := 32767.
Definition MAX_HANDLERS : nat := 20.
Definition INACTIVE_HANDLER_LOC : Z := 65535.

Definition R0 : Z := oct! 017400.
Definition R1 : Z := oct! 017402.
Definition R2 : Z := oct! 017404.
Definition R3 : Z := oct! 017406.
Definition R4 : Z := oct! 017410.
Definition R5 : Z := oct! 017412.
Definition R6 : Z := oct! 017414.
Definition R7 : Z := oct! 017416.
Definition R8 : Z := oct! 017420.

Definition R_SP : Z := 6.
Definition R_PC : Z := 7.
Definition R_PS : Z := 8.

(** Registers of the terminal and of the disk. *)
Definition TKS_LOC : Z := oct! 017500.
Definition TKB_LOC : Z := oct! 017502.
Definition TPS_LOC : Z := oct! 017504.
Definition TPB_LOC : Z := oct! 017506.
Definition TPS_READY : Z := oct! 0000200.
Definition RXCS : Z := oct! 0177170.
Definition RXDB : Z := oct! 0177172.
Definition RXCS_XFER : Z := oct! 0000200.

(** ** State *)
Inductive effect := E_read_TKB | E_clear_TPB | E_clear_RXDB | E_clear_RXCS.

#[export] Instance effect_eq_dec : EqDecision effect.
Proof. solve_decision. Defined.

Record side_effect := SideEffect { loc : Z; handler : option effect }.

Record memory := Memory {
  dest : Z; src : Z;
  read_side_effects : list side_effect; write_side_effects : list side_effect;
  bytes : gmap Z Z; bus_shutdown : bool
}.

Definition set_dest (a : Z) (m : memory) : memory :=
  Memory (u16 a) (src m) (read_side_effects m) (write_side_effects m) (bytes m) (bus_shutdown m).
Definition set_src (a : Z) (m : memory) : memory :=
  Memory (dest m) (u16 a) (read_side_effects m) (write_side_effects m) (bytes m) (bus_shutdown m).
Definition set_effects (r w : list side_effect) (m : memory) : memory :=
  Memory (dest m) (src m) r w (bytes m) (bus_shutdown m).
Definition set_bytes (b : gmap Z Z) (m : memory) : memory :=
  Memory (dest m) (src m) (read_side_effects m) (write_side_effects m) b (bus_shutdown m).
Definition set_bus_shutdown (v : bool) (m : memory) : memory :=
  Memory (dest m) (src m) (read_side_effects m) (write_side_effects m) (bytes m) v.

Definition initialize_memory : memory :=
  Memory 0 0 (repeat (SideEffect INACTIVE_HANDLER_LOC None) MAX_HANDLERS)
    (repeat (SideEffect INACTIVE_HANDLER_LOC None) MAX_HANDLERS)
    (array (Z.to_nat MEMBYTES) (fun _ => 0)) false.

(** [_memory[i]], as a value and as the target of an assignment. *)
Definition byte_read (i : Z) : M memory Z := fun m =>
  match bytes m !! i with Some b => Done b m | None => Fault end.

Definition byte_write (i b : Z) : M memory unit := fun m =>
  match bytes m !! i with
  | Some _ => Done tt (set_bytes (<[i := u8 b]> (bytes m)) m)
  | None => Fault
  end.

Definition word_read (a : Z) : M memory Z :=
  lo ← byte_read a; hi ← byte_read (a + 1); mret (u16 (Z.lor lo (Z.shiftl hi 8))).

Definition word_write (a w : Z) : M memory unit :=
  byte_write a (Z.land w (oct! 0377));;
  byte_write (a + 1) (Z.shiftr (Z.land w (oct! 0177400)) 8).

(** ** Registers *)
Definition translate_register (reg : Z) : Z :=
  switch reg [(0, R0); (1, R1); (2, R2); (3, R3); (4, R4); (5, R5); (6, R6); (7, R7)] R8.

Definition set_r (r val : Z) : M memory unit := word_write (translate_register r) val.
Definition get_r (r : Z) : M memory Z := word_read (translate_register r).

(** A word changed in place. *)
Definition word_add (a n : Z) : M memory unit := val ← word_read a; word_write a (u16 (val + n)).

Definition word_advance (a : Z) : M memory unit := word_add a 2.
Definition byte_advance (a : Z) : M memory unit := word_add a 1.
Definition word_decrease (a : Z) : M memory unit := word_add a (-2).
Definition byte_decrease (a : Z) : M memory unit := word_add a (-1).
Definition word_advance_r (r : Z) : M memory unit := word_add (translate_register r) 2.
Definition byte_advance_r (r : Z) : M memory unit := word_add (translate_register r) 1.
Definition word_decrease_r (r : Z) : M memory unit := word_add (translate_register r) (-2).
Definition byte_decrease_r (r : Z) : M memory unit := word_add (translate_register r) (-1).

(** ** Accesses without side effects *)
Definition direct_read_word_n (a : Z) : M memory Z := word_read a.
Definition direct_read_byte_n (a : Z) : M memory Z := byte_read a.
Definition direct_write_word_n (a v : Z) : M memory unit := word_write a v.
Definition direct_write_byte_n (a v : Z) : M memory unit := byte_write a v.

Definition direct_write_word_OR (a v : Z) : M memory unit :=
  lo ← byte_read a; byte_write a (Z.lor lo (Z.land v (oct! 0377)));;
  hi ← byte_read (a + 1); byte_write (a + 1) (Z.lor hi (Z.shiftr (Z.land v (oct! 0177400)) 8)).

(** ** Side effects *)

(** The first entry for the location. *)
Definition registered (table : list side_effect) (a : Z) : option (option effect) :=
  handler <$> head (filter (fun e => loc e = a) table).

Section Effects.
(** What the nested accesses do behind them. *)
Context (after_read after_write : Z -> M memory unit).

Definition read_word_at (a : Z) : M memory Z := w ← word_read a; after_read a;; mret w.
Definition read_byte_at (a : Z) : M memory Z := b ← byte_read a; after_read a;; mret b.
Definition write_word_at (a v : Z) : M memory unit := word_write a v;; after_write a.
Definition write_byte_at (a v : Z) : M memory unit := byte_write a v;; after_write a.

(** [clear_TKB], [clear_flags_TKS] and [read_TKB]. *)
Definition clear_TKB : M memory unit := write_word_at TKB_LOC 0.
Definition clear_flags_TKS : M memory unit := write_word_at TKS_LOC 0.
Definition read_TKB : M memory unit := clear_TKB;; clear_flags_TKS.

Definition clear_TPB : M memory unit :=
  TPS ← read_word_at TPS_LOC;
  write_word_at TPB_LOC 0;;
  write_word_at TPS_LOC (Z.lor TPS TPS_READY).

Definition clear_transfer (flags : Z) : Z :=
  if truth (Z.land flags RXCS_XFER) then Z.lxor flags RXCS_XFER else flags.

Definition clear_RXDB : M memory unit :=
  direct_write_word_n RXDB 0;;
  flags ← read_word_at RXCS;
  direct_write_word_n RXCS (clear_transfer flags).

Definition clear_RXCS : M memory unit :=
  flags ← read_word_at RXCS;
  direct_write_word_n RXCS (clear_transfer flags).

Definition run_effect (e : effect) : M memory unit :=
  match e with
  | E_read_TKB => read_TKB
  | E_clear_TPB => clear_TPB
  | E_clear_RXDB => clear_RXDB
  | E_clear_RXCS => clear_RXCS
  end.
End Effects.

Definition nesting : nat := 3.

Fixpoint process_side_effects (n : nat) (table : memory -> list side_effect) (a : Z) :
    M memory unit :=
  match n with
  | O => fault
  | S n' =>
      t ← gets table;
      match registered t a with
      | None => mret tt
      | Some None => fault
      | Some (Some e) =>
          run_effect (process_side_effects n' read_side_effects)
            (process_side_effects n' write_side_effects) e
      end
  end.

Definition process_read_side_effects : Z -> M memory unit :=
  process_side_effects nesting read_side_effects.
Definition process_write_side_effects : Z -> M memory unit :=
  process_side_effects nesting write_side_effects.

(** ** Accesses with side effects *)
Definition direct_read_word (a : Z) : M memory Z := read_word_at process_read_side_effects a.
Definition direct_read_byte (a : Z) : M memory Z := read_byte_at process_read_side_effects a.
Definition direct_write_word (a v : Z) : M memory unit :=
  write_word_at process_write_side_effects a v.
Definition direct_write_byte (a v : Z) : M memory unit :=
  write_byte_at process_write_side_effects a v.

Definition read_word : M memory Z := a ← gets src; direct_read_word a.
Definition read_byte : M memory Z := a ← gets src; direct_read_byte a.
Definition write_word (w : Z) : M memory unit := a ← gets dest; direct_write_word a (u16 w).
Definition write_byte (b : Z) : M memory unit := a ← gets dest; direct_write_byte a (u8 b).

(** The first inactive entry is taken; [false] if there is none. *)
Fixpoint activate (a : Z) (h : effect) (table : list side_effect) : option (list side_effect) :=
  match table with
  | [] => None
  | e :: rest =>
      if loc e =? INACTIVE_HANDLER_LOC then Some (SideEffect a (Some h) :: rest)
      else cons e <$> activate a h rest
  end.

Definition register_read_side_effect (a : Z) (h : effect) : M memory bool := fun m =>
  match activate a h (read_side_effects m) with
  | Some t => Done true (set_effects t (write_side_effects m) m)
  | None => Done false m
  end.

Definition register_write_side_effect (a : Z) (h : effect) : M memory bool := fun m =>
  match activate a h (write_side_effects m) with
  | Some t => Done true (set_effects (read_side_effects m) t m)
  | None => Done false m
  end.
