(* ===== verification/AtticAddressing.v ===== *)
(** * The retired emulator: operands

    The addressing half of [attic/src/handlers.c].  The four families exist
    twice for words and twice for bytes, for the source and for the destination;
    the copies that are equal up to the field they set are one definition here,
    with the field as an argument.  A mode without a case leaves the field with
    the address of an earlier instruction. *)
From S2P Require Import Prelude AtticMemory.

(** [machine_state_t], without the threads and the single-step flag. *)
Record machine := Machine { ALU : Z; IR : Z; HALTED : bool; mem : memory }.

Abbreviation A := (M machine).

Definition set_alu (v : Z) : A unit :=
  modify (fun m => Machine (u16 v) (IR m) (HALTED m) (mem m)).
Definition upd_alu (f : Z -> Z) : A unit :=
  modify (fun m => Machine (u16 (f (ALU m))) (IR m) (HALTED m) (mem m)).
Definition set_ir (v : Z) : A unit :=
  modify (fun m => Machine (ALU m) (u16 v) (HALTED m) (mem m)).
Definition set_halted (b : bool) : A unit :=
  modify (fun m => Machine (ALU m) (IR m) b (mem m)).

(** A function of the memory. *)
Definition on_mem {R} (f : M memory R) : A R := fun m =>
  match f (mem m) with
  | Done r x => Done r (Machine (ALU m) (IR m) (HALTED m) x)
  | Blocked => Blocked
  | Fault => Fault
  end.

(** The operand field to set: [memory->dest] or [memory->src]. *)
Inductive operand := Dest | Src.

Definition set_operand (o : operand) (a : Z) : A unit :=
  on_mem (modify (match o with Dest => set_dest a | Src => set_src a end)).

Definition mode_of (o : operand) (ir : Z) : Z :=
  match o with
  | Dest => Z.shiftr (Z.land ir (oct! 070)) 3
  | Src => Z.shiftr (Z.land ir (oct! 07000)) 9
  end.

Definition reg_of (o : operand) (ir : Z) : Z :=
  match o with
  | Dest => Z.land ir (oct! 007)
  | Src => Z.shiftr (Z.land ir (oct! 00700)) 6
  end.

(** Calls of the memory's functions; an address argument is a [uint16_t]. *)
Definition reg_get (r : Z) : A Z := on_mem (get_r r).
Definition reg_set (r v : Z) : A unit := on_mem (set_r r (u16 v)).
Definition reg_word_advance (r : Z) : A unit := on_mem (word_advance_r r).
Definition read_word_from (a : Z) : A Z := on_mem (direct_read_word (u16 a)).
Definition read_byte_from (a : Z) : A Z := on_mem (direct_read_byte (u16 a)).

(** The word at the PC, which moves on behind it. *)
Definition next_word : A Z :=
  pc ← reg_get R_PC; reg_word_advance R_PC;; read_word_from pc.

Definition next_byte : A Z :=
  pc ← reg_get R_PC; reg_word_advance R_PC;; read_byte_from pc.

(** [setup_pc_dest_addressing], [setup_pc_dest_byte_addressing],
    [setup_pc_src_addressing] and [setup_pc_src_byte_addressing]. *)
Definition setup_pc_addressing (o : operand) : A unit :=
  ir ← gets IR;
  switch (mode_of o ir)
    [(0, set_operand o (translate_register (Z.land ir (oct! 007))));
     (2, pc ← reg_get R_PC; reg_word_advance R_PC;; set_operand o pc);
     (3, a ← next_word; set_operand o a);
     (6, pc ← reg_get R_PC;
         relative ← read_word_from pc;
         reg_word_advance R_PC;;
         pc ← reg_get R_PC;
         set_operand o (pc + relative))]
    (mret tt).

(** [setup_sp_dest_addressing] and [setup_sp_src_addressing]; only the first one
    moves the PC behind an index word. *)
Definition index_word (o : operand) : A Z :=
  match o with
  | Dest => next_word
  | Src => pc ← reg_get R_PC; read_word_from pc
  end.

Definition setup_sp_addressing (o : operand) : A unit :=
  ir ← gets IR;
  let reg := reg_of o ir in
  switch (mode_of o ir)
    [(0, set_operand o (translate_register reg));
     (1, a ← reg_get reg; set_operand o a);
     (2, a ← reg_get reg; set_operand o a;; reg_word_advance reg);
     (3, deferred ← reg_get reg;
         addr ← read_word_from deferred;
         reg_word_advance reg;;
         set_operand o addr);
     (4, on_mem (word_decrease_r reg);; addr ← reg_get reg; set_operand o addr);
     (6, index ← index_word o; addr ← reg_get reg; set_operand o (addr + index));
     (7, index ← index_word o;
         addr ← reg_get reg;
         a ← read_word_from (addr + index); set_operand o a)]
    (mret tt).

(** [setup_general_dest_addressing] and [setup_general_src_addressing]; they
    differ in mode 5. *)
Definition deferred_decrement (o : operand) (reg : Z) : A unit :=
  match o with
  | Dest =>
      deferred ← reg_get reg;
      index ← read_word_from deferred;
      a ← read_word_from index; set_operand o a;;
      on_mem (word_decrease deferred)
  | Src =>
      on_mem (word_decrease_r reg);;
      deferred ← reg_get reg;
      index ← read_word_from deferred;
      set_operand o index
  end.

Definition setup_general_addressing (o : operand) : A unit :=
  ir ← gets IR;
  let reg := reg_of o ir in
  switch (mode_of o ir)
    [(0, set_operand o (translate_register reg));
     (1, a ← reg_get reg; set_operand o a);
     (2, a ← reg_get reg; set_operand o a;; reg_word_advance reg);
     (3, deferred ← reg_get reg;
         index ← read_word_from deferred;
         on_mem (word_advance deferred);;
         a ← read_word_from index; set_operand o a);
     (4, a ← reg_get reg; set_operand o a;; on_mem (word_decrease_r reg));
     (5, deferred_decrement o reg);
     (6, index ← next_word;
         base ← reg_get reg;
         a ← read_word_from (base + index); set_operand o a);
     (7, index ← next_word;
         deferred ← reg_get reg;
         base ← read_word_from deferred;
         a ← read_word_from (base + index); set_operand o a)]
    (mret tt).

(** [setup_general_dest_byte_addressing] and [setup_general_src_byte_addressing]. *)
Definition setup_general_byte_addressing (o : operand) : A unit :=
  ir ← gets IR;
  let reg := reg_of o ir in
  switch (mode_of o ir)
    [(0, set_operand o (translate_register reg));
     (1, a ← reg_get reg; set_operand o a);
     (2, a ← reg_get reg; set_operand o a;; on_mem (byte_advance_r reg));
     (3, deferred ← reg_get reg;
         index ← read_byte_from deferred;
         on_mem (byte_advance deferred);;
         a ← read_byte_from index; set_operand o a);
     (4, a ← reg_get reg; set_operand o a;; on_mem (byte_decrease_r reg));
     (5, deferred ← reg_get reg;
         index ← read_byte_from deferred;
         a ← read_byte_from index; set_operand o a;;
         on_mem (byte_decrease deferred));
     (6, index ← next_byte;
         base ← reg_get reg;
         a ← read_byte_from (base + index); set_operand o a);
     (7, index ← next_byte;
         deferred ← reg_get reg;
         base ← read_byte_from deferred;
         a ← read_byte_from (base + index); set_operand o a)]
    (mret tt).

(** ** The functions of the source *)
Definition setup_pc_dest_addressing : A unit := setup_pc_addressing Dest.
Definition setup_pc_dest_byte_addressing : A unit := setup_pc_addressing Dest.
Definition setup_pc_src_addressing : A unit := setup_pc_addressing Src.
Definition setup_pc_src_byte_addressing : A unit := setup_pc_addressing Src.
Definition setup_sp_dest_addressing : A unit := setup_sp_addressing Dest.
Definition setup_sp_src_addressing : A unit := setup_sp_addressing Src.
Definition setup_general_dest_addressing : A unit := setup_general_addressing Dest.
Definition setup_general_src_addressing : A unit := setup_general_addressing Src.
Definition setup_general_dest_byte_addressing : A unit := setup_general_byte_addressing Dest.
Definition setup_general_src_byte_addressing : A unit := setup_general_byte_addressing Src.

Definition setup_dest_addressing : A unit :=
  ir ← gets IR;
  switch (reg_of Dest ir) [(7, setup_pc_dest_addressing); (6, setup_sp_dest_addressing)]
    setup_general_dest_addressing.

Definition setup_dest_byte_addressing : A unit :=
  ir ← gets IR;
  switch (reg_of Dest ir) [(7, setup_pc_dest_byte_addressing); (6, setup_sp_dest_addressing)]
    setup_general_dest_byte_addressing.

Definition setup_src_addressing : A unit :=
  ir ← gets IR;
  switch (reg_of Src ir) [(7, setup_pc_src_addressing); (6, setup_sp_src_addressing)]
    setup_general_src_addressing.

Definition setup_src_byte_addressing : A unit :=
  ir ← gets IR;
  switch (reg_of Src ir) [(7, setup_pc_src_byte_addressing); (6, setup_sp_src_addressing)]
    setup_general_src_byte_addressing.
