(* ===== verification/AtticInstr.v ===== *)
(** * The retired emulator: instructions

    The second half of [attic/src/handlers.c]: one definition per handler, under
    the handler's name, and the nested [switch] of [exec_instruction], whose
    cases are the opcodes of [attic/src/include/opcodes.h].  [mnemonic] names the
    instructions as in [Instr]. *)
From S2P Require Import Prelude AtticOpcodes AtticMemory AtticAddressing.
From S2P Require Instr.

Definition NEGATIVEFLAG : Z := oct! 0000010.
Definition ZEROFLAG : Z := oct! 0000004.
Definition OVERFLOWFLAG : Z := oct! 0000002.
Definition CARRYFLAG : Z := oct! 0000001.

(** ** Flags *)

(** The flag set or cleared in the status word. *)
Definition put_flag (flag : Z) (on : bool) : A unit :=
  PS ← reg_get R_PS;
  reg_set R_PS (if on then Z.lor PS flag else if truth (Z.land PS flag) then Z.lxor PS flag else PS).

Definition set_zero_flag (value : Z) : A unit := put_flag ZEROFLAG (value =? 0).
Definition set_negative_flag_b (value : Z) : A unit :=
  put_flag NEGATIVEFLAG (truth (Z.land (u8 value) (oct! 0200))).
Definition set_negative_flag_w (value : Z) : A unit :=
  put_flag NEGATIVEFLAG (truth (Z.land value (oct! 0100000))).

Definition get_branch_offset : A Z := ir ← gets IR; mret (i8 (Z.land ir (oct! 0377))).

(** ** Shared forms *)

(** [memory->direct_read_word(memory, memory->dest)] *)
Definition dest_word : A Z := a ← on_mem (gets dest); read_word_from a.
Definition dest_byte : A Z := a ← on_mem (gets dest); read_byte_from a.

Definition src_word : A Z := on_mem read_word.
Definition src_byte : A Z := on_mem read_byte.

Definition put_word (w : Z) : A unit := on_mem (write_word w).
Definition put_byte (b : Z) : A unit := on_mem (write_byte b).
Definition put_alu : A unit := v ← gets ALU; put_word v.
Definition put_alu_b : A unit := v ← gets ALU; put_byte v.

Definition zero_of_alu : A unit := v ← gets ALU; set_zero_flag v.
Definition negative_of_alu_w : A unit := v ← gets ALU; set_negative_flag_w v.
Definition negative_of_alu_b : A unit := v ← gets ALU; set_negative_flag_b v.

(** The registers a branch reads, and the new PC. *)
Definition branch_to (pc offset : Z) : A unit := reg_set R_PC (pc + 2 * offset).

(** ** Handlers *)
Definition NOP : A unit := mret tt.

Definition BR : A unit :=
  pc ← reg_get R_PC; offset ← get_branch_offset; branch_to pc offset.

(** The displacement is cut to eight bits, and the sum passes through [int16_t]. *)
Definition BNE : A unit :=
  pc ← reg_get R_PC; ps ← reg_get R_PS; offset ← get_branch_offset;
  let NEW_PC := pc + i8 (u8 (2 * offset)) in
  set_alu (Z.land ps ZEROFLAG);;
  a ← gets ALU; when (a =? 0) (reg_set R_PC (u16 NEW_PC)).

Definition BEQ : A unit :=
  pc ← reg_get R_PC; ps ← reg_get R_PS; offset ← get_branch_offset;
  set_alu (Z.land ps ZEROFLAG);;
  a ← gets ALU; when (a =? ZEROFLAG) (branch_to pc offset).

Definition BGE : A unit :=
  pc ← reg_get R_PC; ps ← reg_get R_PS; offset ← get_branch_offset;
  set_alu (Z.shiftr (Z.land ps NEGATIVEFLAG) 3);;
  upd_alu (fun a => Z.lxor a (Z.shiftr (Z.land ps OVERFLOWFLAG) 1));;
  a ← gets ALU; when (a =? 0) (branch_to pc offset).

Definition BLT : A unit :=
  pc ← reg_get R_PC; ps ← reg_get R_PS; offset ← get_branch_offset;
  set_alu (Z.shiftr (Z.land ps NEGATIVEFLAG) 3);;
  upd_alu (fun a => Z.lxor a (Z.shiftr (Z.land ps OVERFLOWFLAG) 1));;
  a ← gets ALU; when (truth a) (branch_to pc offset).

Definition BGT : A unit :=
  pc ← reg_get R_PC; ps ← reg_get R_PS; offset ← get_branch_offset;
  set_alu (Z.shiftr (Z.land ps ZEROFLAG) 2);;
  upd_alu (fun a => Z.lor a (Z.lxor (Z.shiftr (Z.land ps NEGATIVEFLAG) 3)
                               (Z.shiftr (Z.land ps OVERFLOWFLAG) 1)));;
  a ← gets ALU; when (a =? 0) (branch_to pc offset).

Definition BLE : A unit :=
  pc ← reg_get R_PC; ps ← reg_get R_PS; offset ← get_branch_offset;
  set_alu (Z.shiftr (Z.land ps ZEROFLAG) 2);;
  upd_alu (fun a => Z.lor a (Z.lxor (Z.shiftr (Z.land ps NEGATIVEFLAG) 3)
                               (Z.shiftr (Z.land ps OVERFLOWFLAG) 1)));;
  a ← gets ALU; when (truth a) (branch_to pc offset).

Definition BPL : A unit :=
  pc ← reg_get R_PC; ps ← reg_get R_PS; offset ← get_branch_offset;
  when (Z.land ps NEGATIVEFLAG =? 0) (branch_to pc offset).

Definition BMI : A unit :=
  pc ← reg_get R_PC; ps ← reg_get R_PS; offset ← get_branch_offset;
  when (truth (Z.land ps NEGATIVEFLAG)) (branch_to pc offset).

Definition BHI : A unit :=
  pc ← reg_get R_PC; ps ← reg_get R_PS; offset ← get_branch_offset;
  set_alu (Z.land ps CARRYFLAG);;
  upd_alu (fun a => Z.lor a (Z.shiftr (Z.land ps ZEROFLAG) 2));;
  a ← gets ALU; when (a =? 0) (branch_to pc offset).

Definition BLOS : A unit :=
  pc ← reg_get R_PC; ps ← reg_get R_PS; offset ← get_branch_offset;
  set_alu (Z.land ps CARRYFLAG);;
  upd_alu (fun a => Z.lor a (Z.shiftr (Z.land ps ZEROFLAG) 2));;
  a ← gets ALU; when (truth a) (branch_to pc offset).

Definition BVC : A unit :=
  pc ← reg_get R_PC; ps ← reg_get R_PS; offset ← get_branch_offset;
  set_alu (Z.land ps OVERFLOWFLAG);;
  a ← gets ALU; when (a =? 0) (branch_to pc offset).

Definition BVS : A unit :=
  pc ← reg_get R_PC; ps ← reg_get R_PS; offset ← get_branch_offset;
  set_alu (Z.land ps OVERFLOWFLAG);;
  a ← gets ALU; when (truth a) (branch_to pc offset).

Definition BCC : A unit :=
  pc ← reg_get R_PC; ps ← reg_get R_PS; offset ← get_branch_offset;
  set_alu (Z.land ps CARRYFLAG);;
  a ← gets ALU; when (a =? 0) (branch_to pc offset).

Definition BCS : A unit :=
  pc ← reg_get R_PC; ps ← reg_get R_PS; offset ← get_branch_offset;
  set_alu (Z.land ps CARRYFLAG);;
  a ← gets ALU; when (truth a) (branch_to pc offset).

Definition MOV : A unit :=
  setup_src_addressing;; setup_dest_addressing;;
  w ← src_word; set_alu w;;
  put_alu;;
  zero_of_alu;; negative_of_alu_w.

Definition MOVB : A unit :=
  setup_src_byte_addressing;; setup_dest_byte_addressing;;
  b ← src_byte; set_alu b;;
  put_alu_b;;
  zero_of_alu;; negative_of_alu_b.

Definition CMP : A unit :=
  setup_src_addressing;; setup_dest_addressing;;
  w ← dest_word; set_alu w;;
  v ← src_word; upd_alu (fun a => a - v);;
  zero_of_alu.

Definition CMPB : A unit :=
  setup_src_byte_addressing;; setup_dest_byte_addressing;;
  w ← dest_byte; set_alu w;;
  v ← src_byte; upd_alu (fun a => a - v);;
  zero_of_alu.

Definition BIT : A unit :=
  setup_src_addressing;; setup_dest_addressing;;
  v ← src_word; set_alu v;;
  w ← dest_word; upd_alu (fun a => Z.land a w);;
  zero_of_alu.

Definition BITB : A unit :=
  NOP.

Definition BIC : A unit :=
  setup_src_addressing;; setup_dest_addressing;;
  w ← dest_word; set_alu w;;
  v ← src_word; upd_alu (fun a => Z.land a (Z.lnot v));;
  put_alu.

Definition BICB : A unit :=
  NOP.

Definition BIS : A unit :=
  setup_src_addressing;; setup_dest_addressing;;
  w ← dest_word; set_alu w;;
  v ← src_word; upd_alu (fun a => Z.lor a v);;
  put_alu.

Definition BISB : A unit :=
  NOP.

Definition ADD : A unit :=
  setup_src_addressing;; setup_dest_addressing;;
  w ← dest_word; set_alu w;;
  v ← src_word; upd_alu (fun a => a + v);;
  put_alu.

Definition SUB : A unit :=
  setup_src_addressing;; setup_dest_addressing;;
  w ← dest_word; set_alu w;;
  v ← src_word; upd_alu (fun a => a - v);;
  put_alu;;
  zero_of_alu.

Definition JMP : A unit :=
  setup_dest_addressing;;
  w ← dest_word; reg_set R_PC w.

Definition SWAB : A unit :=
  setup_dest_addressing;;
  word ← dest_word; put_word (Z.lor (Z.shiftr (Z.land word (oct! 0177400)) 8)
                                  (Z.shiftl (Z.land word (oct! 0377)) 8)).

Definition CLR : A unit :=
  setup_dest_addressing;;
  put_word 0.

Definition CLRB : A unit :=
  setup_dest_addressing;;
  put_byte 0.

Definition COM : A unit :=
  setup_dest_addressing;;
  w ← dest_word; put_word (Z.lnot w).

Definition COMB : A unit :=
  setup_dest_addressing;;
  b ← dest_byte; put_byte (Z.lnot b).

Definition INC : A unit :=
  setup_dest_addressing;;
  word ← dest_word; put_word (u16 (word + 1)).

Definition INCB : A unit :=
  setup_dest_addressing;;
  byte ← dest_byte; put_byte (u8 (byte + 1)).

Definition DEC : A unit :=
  setup_dest_addressing;;
  word ← dest_word;
  let word := u16 (word - 1) in
  put_word word;;
  set_zero_flag word.

Definition DECB : A unit :=
  setup_dest_byte_addressing;;
  byte ← dest_byte;
  let byte := u8 (byte - 1) in
  put_byte byte;;
  set_zero_flag byte.

Definition NEG : A unit :=
  setup_dest_addressing;;
  v ← dest_word; set_alu v;;
  upd_alu (fun a => Z.lnot a + 1);;
  put_alu;;
  zero_of_alu.

Definition NEGB : A unit :=
  setup_dest_byte_addressing;;
  byte ← dest_byte;
  let byte := u8 (Z.lnot byte + 1) in
  put_byte byte;;
  set_zero_flag byte.

Definition ADC : A unit :=
  setup_dest_addressing;;
  word ← dest_word;
  ps ← reg_get R_PS;
  let word := u16 (word + Z.land ps CARRYFLAG) in
  put_word word;;
  set_zero_flag word.

Definition ADCB : A unit :=
  setup_dest_byte_addressing;;
  byte ← dest_byte;
  ps ← reg_get R_PS;
  let byte := u8 (byte + Z.land ps CARRYFLAG) in
  put_byte byte;;
  set_zero_flag byte.

Definition SBC : A unit :=
  setup_dest_addressing;;
  word ← dest_word;
  ps ← reg_get R_PS;
  let word := u16 (word - Z.land ps CARRYFLAG) in
  put_word word;;
  set_zero_flag word.

Definition SBCB : A unit :=
  setup_dest_byte_addressing;;
  byte ← dest_byte;
  ps ← reg_get R_PS;
  let byte := u8 (byte - Z.land ps CARRYFLAG) in
  put_byte byte;;
  set_zero_flag byte.

Definition TST : A unit :=
  setup_dest_addressing;;
  w ← dest_word; set_alu w;;
  zero_of_alu;; negative_of_alu_w.

Definition TSTB : A unit :=
  setup_dest_byte_addressing;;
  b ← dest_byte; set_alu b;;
  zero_of_alu;; negative_of_alu_b.

Definition ROR : A unit :=
  setup_dest_addressing;;
  word ← dest_word;
  let word := u16 (Z.lor (Z.shiftl word 1) (Z.shiftr word 15)) in
  put_word word;;
  set_zero_flag word.

Definition RORB : A unit :=
  setup_dest_byte_addressing;;
  byte ← dest_byte;
  let byte := u8 (Z.lor (Z.shiftl byte 1) (Z.shiftr byte 7)) in
  put_byte byte;;
  set_zero_flag byte.

Definition ROL : A unit :=
  setup_dest_addressing;;
  word ← dest_word;
  let word := u16 (Z.lor (Z.shiftl word 15) (Z.shiftr word 1)) in
  put_word word;;
  set_zero_flag word.

Definition ROLB : A unit :=
  setup_dest_byte_addressing;;
  byte ← dest_byte;
  let byte := u8 (Z.lor (Z.shiftl byte 7) (Z.shiftr byte 1)) in
  put_byte byte;;
  set_zero_flag byte.

Definition ASR : A unit :=
  setup_dest_addressing;;
  v ← dest_word; set_alu v;;
  upd_alu (fun a => Z.shiftr a 1);;
  put_alu;;
  zero_of_alu.

Definition ASRB : A unit :=
  setup_dest_byte_addressing;;
  v ← dest_byte; set_alu v;;
  upd_alu (fun a => Z.shiftr a 1);;
  put_alu_b;;
  zero_of_alu.

Definition ASL : A unit :=
  setup_dest_addressing;;
  v ← dest_word; set_alu v;;
  upd_alu (fun a => Z.shiftl a 1);;
  put_alu;;
  zero_of_alu.

Definition ASLB : A unit :=
  setup_dest_byte_addressing;;
  v ← dest_byte; set_alu v;;
  upd_alu (fun a => Z.shiftl a 1);;
  put_alu_b;;
  zero_of_alu.

Definition MTPS : A unit :=
  setup_dest_addressing;;
  w ← dest_word; reg_set R_PS w.

Definition MFPI : A unit :=
  NOP.

Definition MFPD : A unit :=
  NOP.

Definition MTPI : A unit :=
  NOP.

Definition MTPD : A unit :=
  NOP.

Definition SXT : A unit :=
  NOP.

Definition MFPS : A unit :=
  setup_dest_addressing;;
  ps ← reg_get R_PS; put_word ps.

Definition MUL : A unit :=
  NOP.

Definition DIV : A unit :=
  NOP.

Definition ASH : A unit :=
  NOP.

Definition ASHC : A unit :=
  NOP.

Definition XOR : A unit :=
  ir ← gets IR;
  let reg := Z.shiftr (Z.land ir (oct! 0700)) 6 in
  setup_dest_addressing;;
  r ← reg_get reg; set_alu r;;
  w ← dest_word; upd_alu (fun a => Z.lxor a w);;
  put_alu;;
  zero_of_alu.

Definition JSR : A unit :=
  ir ← gets IR;
  let reg := Z.shiftr (Z.land ir (oct! 0700)) 6 in
  setup_dest_addressing;;
  tmp ← dest_word;
  reg_contents ← reg_get reg;
  sp ← reg_get R_SP;
  on_mem (direct_write_word sp reg_contents);;
  on_mem (word_decrease_r R_SP);;
  pc ← reg_get R_PC;
  reg_set reg pc;;
  reg_set R_PC tmp.

Definition RTS : A unit :=
  ir ← gets IR;
  let reg := Z.land ir (oct! 07) in
  reg_contents ← reg_get reg;
  reg_set R_PC reg_contents;;
  reg_word_advance R_SP;;
  sp ← reg_get R_SP;
  top_stack ← read_word_from sp;
  reg_set reg top_stack.

Definition HALT : A unit :=
  set_halted true.

(** ** Decoding *)
Definition branch_cases : list (Z * Instr.mnemonic) :=
  [(BR_op, Instr.m_BR); (BNE_op, Instr.m_BNE); (BEQ_op, Instr.m_BEQ); (BGE_op, Instr.m_BGE);
   (BLT_op, Instr.m_BLT); (BGT_op, Instr.m_BGT); (BLE_op, Instr.m_BLE); (BPL_op, Instr.m_BPL);
   (BMI_op, Instr.m_BMI); (BHI_op, Instr.m_BHI); (BLOS_op, Instr.m_BLOS); (BVC_op, Instr.m_BVC);
   (BVS_op, Instr.m_BVS); (BCC_op, Instr.m_BCC); (BCS_op, Instr.m_BCS)].

Definition register_source_cases : list (Z * Instr.mnemonic) :=
  [(MUL_op, Instr.m_MUL); (DIV_op, Instr.m_DIV); (ASH_op, Instr.m_ASH); (ASHC_op, Instr.m_ASHC);
   (XOR_op, Instr.m_XOR); (JSR_op, Instr.m_JSR)].

Definition double_op_cases : list (Z * Instr.mnemonic) :=
  [(MOV_op, Instr.m_MOV); (MOVB_op, Instr.m_MOVB); (CMP_op, Instr.m_CMP);
   (CMPB_op, Instr.m_CMPB); (BIT_op, Instr.m_BIT); (BITB_op, Instr.m_BITB);
   (BIC_op, Instr.m_BIC); (BICB_op, Instr.m_BICB); (BIS_op, Instr.m_BIS);
   (BISB_op, Instr.m_BISB); (ADD_op, Instr.m_ADD); (SUB_op, Instr.m_SUB)].

Definition single_op_cases : list (Z * Instr.mnemonic) :=
  [(JMP_op, Instr.m_JMP); (SWAB_op, Instr.m_SWAB); (CLR_op, Instr.m_CLR);
   (CLRB_op, Instr.m_CLRB); (COM_op, Instr.m_COM); (COMB_op, Instr.m_COMB);
   (INC_op, Instr.m_INC); (INCB_op, Instr.m_INCB); (DEC_op, Instr.m_DEC);
   (DECB_op, Instr.m_DECB); (NEG_op, Instr.m_NEG); (NEGB_op, Instr.m_NEGB);
   (ADC_op, Instr.m_ADC); (ADCB_op, Instr.m_ADCB); (SBC_op, Instr.m_SBC);
   (SBCB_op, Instr.m_SBCB); (TST_op, Instr.m_TST); (TSTB_op, Instr.m_TSTB);
   (ROR_op, Instr.m_ROR); (RORB_op, Instr.m_RORB); (ROL_op, Instr.m_ROL);
   (ROLB_op, Instr.m_ROLB); (ASR_op, Instr.m_ASR); (ASRB_op, Instr.m_ASRB);
   (ASL_op, Instr.m_ASL); (ASLB_op, Instr.m_ASLB); (MTPS_op, Instr.m_MTPS);
   (MFPI_op, Instr.m_MFPI); (MFPD_op, Instr.m_MFPD); (MTPI_op, Instr.m_MTPI);
   (MTPD_op, Instr.m_MTPD); (SXT_op, Instr.m_SXT); (MFPS_op, Instr.m_MFPS);
   (RTS_op, Instr.m_RTS)].

Definition decode (ir : Z) : Instr.mnemonic :=
  switch (Z.land ir (oct! 0177400)) branch_cases
    (switch (Z.land ir (oct! 0177000)) register_source_cases
      (switch (Z.land ir (oct! 0170000)) double_op_cases
        (switch (Z.land ir (oct! 0177700)) single_op_cases Instr.m_HALT))).

Definition dispatch (m : Instr.mnemonic) : A unit :=
  match m with
  | Instr.m_BR => BR | Instr.m_BNE => BNE | Instr.m_BEQ => BEQ | Instr.m_BGE => BGE
  | Instr.m_BLT => BLT | Instr.m_BGT => BGT | Instr.m_BLE => BLE | Instr.m_BPL => BPL
  | Instr.m_BMI => BMI | Instr.m_BHI => BHI | Instr.m_BLOS => BLOS | Instr.m_BVC => BVC
  | Instr.m_BVS => BVS | Instr.m_BCC => BCC | Instr.m_BCS => BCS | Instr.m_MUL => MUL
  | Instr.m_DIV => DIV | Instr.m_ASH => ASH | Instr.m_ASHC => ASHC | Instr.m_XOR => XOR
  | Instr.m_JSR => JSR | Instr.m_MOV => MOV | Instr.m_MOVB => MOVB | Instr.m_CMP => CMP
  | Instr.m_CMPB => CMPB | Instr.m_BIT => BIT | Instr.m_BITB => BITB | Instr.m_BIC => BIC
  | Instr.m_BICB => BICB | Instr.m_BIS => BIS | Instr.m_BISB => BISB | Instr.m_ADD => ADD
  | Instr.m_SUB => SUB | Instr.m_JMP => JMP | Instr.m_SWAB => SWAB | Instr.m_CLR => CLR
  | Instr.m_CLRB => CLRB | Instr.m_COM => COM | Instr.m_COMB => COMB | Instr.m_INC => INC
  | Instr.m_INCB => INCB | Instr.m_DEC => DEC | Instr.m_DECB => DECB | Instr.m_NEG => NEG
  | Instr.m_NEGB => NEGB | Instr.m_ADC => ADC | Instr.m_ADCB => ADCB | Instr.m_SBC => SBC
  | Instr.m_SBCB => SBCB | Instr.m_TST => TST | Instr.m_TSTB => TSTB | Instr.m_ROR => ROR
  | Instr.m_RORB => RORB | Instr.m_ROL => ROL | Instr.m_ROLB => ROLB | Instr.m_ASR => ASR
  | Instr.m_ASRB => ASRB | Instr.m_ASL => ASL | Instr.m_ASLB => ASLB | Instr.m_MTPS => MTPS
  | Instr.m_MFPI => MFPI | Instr.m_MFPD => MFPD | Instr.m_MTPI => MTPI | Instr.m_MTPD => MTPD
  | Instr.m_SXT => SXT | Instr.m_MFPS => MFPS | Instr.m_RTS => RTS | Instr.m_HALT => HALT
  end.

Definition exec_instruction : A unit := ir ← gets IR; dispatch (decode ir).
