(* ===== verification/AtticMachine.v ===== *)
(** * The retired emulator: terminal and machine loop

    [attic/src/tty.c] and [attic/src/machine.c]: the machine with its standard
    input and output.  At the end of the input [fgetc] returns [EOF], which is
    [0177777] as a [uint16_t].  The terminal's mode settings are not part of the
    state; [AtticDump] and [AtticMain] have the dump and the command line. *)
From S2P Require Import Prelude AtticMemory AtticAddressing AtticInstr.

Definition TKS_RDRENB : Z := oct! 0000001.
Definition TKS_DONE : Z := oct! 0000200.
Definition TKS_BUSY : Z := oct! 0004000.

Record console := Console { cpu : machine; stdin : list Z; stdout : list Z }.

Abbreviation C := (M console).

Definition on_cpu {R} (f : M machine R) : C R := fun c =>
  match f (cpu c) with
  | Done r m => Done r (Console m (stdin c) (stdout c))
  | Blocked => Blocked
  | Fault => Fault
  end.

Definition on_memory {R} (f : M memory R) : C R := on_cpu (on_mem f).

Definition EOF : Z := -1.

Definition fgetc : C Z := fun c =>
  match stdin c with
  | [] => Done EOF c
  | b :: rest => Done b (Console (cpu c) rest (stdout c))
  end.

Definition fputc (b : Z) : C unit := modify (fun c => Console (cpu c) (stdin c) (stdout c ++ [u8 b])).

(** ** Keyboard *)
Definition fill_buffer_TKB : C unit := ch ← fgetc; on_memory (direct_write_word TKB_LOC (u16 ch)).

Definition exec_tty_kb : C unit :=
  on_memory (modify (set_src TKS_LOC));;
  on_memory (modify (set_dest TKS_LOC));;
  TKS ← on_memory read_word;
  when (truth (Z.land TKS TKS_RDRENB)) (
    let TKS := Z.lxor TKS TKS_BUSY in
    on_memory (write_word TKS);;
    fill_buffer_TKB;;
    let TKS := Z.lxor TKS TKS_DONE in
    let TKS := Z.lxor TKS TKS_BUSY in
    let TKS := Z.lxor TKS TKS_RDRENB in
    on_memory (write_word TKS)).

(** ** Printer *)
Definition buffer_filled_TPB : C bool :=
  buffer ← on_memory (direct_read_byte TPB_LOC); mret (negb (buffer =? 0)).

Definition clear_flags_TPS : C unit := on_memory (direct_write_word TPS_LOC 0).

Definition fetch_buffer_TPB : C Z := on_memory (direct_read_byte TPB_LOC).

Definition exec_tty_print : C unit :=
  TPS ← on_memory (direct_read_word TPS_LOC);
  when (truth (Z.land TPS TPS_READY)) (
    clear_flags_TPS;;
    c ← fetch_buffer_TPB;
    when (negb (c =? 0)) (fputc c)).

(** ** Start and loop *)
Definition init_tty_subsystem : M memory unit :=
  register_read_side_effect TKB_LOC E_read_TKB;;
  register_read_side_effect TPB_LOC E_clear_TPB;;
  direct_write_word TPS_LOC TPS_READY.

(** The start of the disk thread, [start_disk_subsystem]. *)
Definition start_disk_subsystem : M memory unit :=
  register_read_side_effect RXDB E_clear_RXDB;;
  register_write_side_effect RXDB E_clear_RXCS;; mret tt.

Definition init_machine : outcome memory unit :=
  (init_tty_subsystem;; start_disk_subsystem) initialize_memory.

(** One round of the loop of [run_machine]. *)
Definition machine_round : C unit :=
  on_cpu (
    PC ← reg_get R_PC;
    on_mem (modify (set_src PC));;
    ir ← on_mem read_word; set_ir ir;;
    reg_word_advance R_PC;;
    exec_instruction);;
  exec_tty_kb;;
  exec_tty_print.

(** [run_machine], [fuel] rounds at most; [false] if it has not halted. *)
Fixpoint run_machine (fuel : nat) : C bool :=
  halted ← gets (fun c => HALTED (cpu c));
  if halted : bool then on_memory (modify (set_bus_shutdown true));; mret true
  else match fuel with
       | O => mret false
       | S fuel' => machine_round;; run_machine fuel'
       end.
