(* ===== verification/AtticLoad.v ===== *)
(** * The retired emulator: object files

    [attic/src/objreader.c], which loads the first text block of an RT-11 object
    file, and [load_program_from_mcode] of [attic/src/machine.c].  The files
    are those of [Files].  The values the variables of the object
    reader have before they are read into are the argument [junk]. *)
From S2P Require Import Prelude Files AtticMemory.

(** [n] bytes read into one variable. *)
Fixpoint skip (n : nat) (old : Z) (f : file) : file :=
  match n with
  | O => f
  | S n' => let '(b, f) := fread1 old f in skip n' b f
  end.

Record junk := Junk { j_byte : Z; j_len : Z; j_data : Z }.

Definition is_text_block (j : junk) (f : file) : bool * file :=
  let '(byte01, f) := fread1 (j_byte j) f in
  let '(_, f) := fread1 (j_byte j) f in
  let '(len, f) := fread2 (j_len j) f in
  let '(byte01, f) := fread1 byte01 f in
  if negb (byte01 =? 3) then
    let f := skip (Z.to_nat (len - 5)) (j_data j) f in
    let '(_, f) := fread1 (j_data j) f in
    (false, f)
  else (true, fseek_back 5 f).

(** The words of the block into the memory, [n] of them. *)
Fixpoint load_words (n : nat) (byte01 byte02 : Z) (a : Z) (f : file) : M memory file :=
  match n with
  | O => mret f
  | S n' =>
      let '(byte01, f) := fread1 byte01 f in
      let '(byte02, f) := fread1 byte02 f in
      direct_write_word a (u16 (Z.lor (Z.shiftl byte02 8) byte01));;
      load_words n' byte01 byte02 (u16 (a + 2)) f
  end.

Definition load_text_block (j : junk) (f : file) : M memory file :=
  let '(byte01, f) := fread1 (j_byte j) f in
  let '(byte02, f) := fread1 (j_byte j) f in
  let '(len, f) := fread2 (j_len j) f in
  let '(_, f) := fread1 (j_byte j) f in
  let '(load_offset, f) := fread2 (j_len j) f in
  let '(_, f) := fread1 (j_byte j) f in
  let len := u16 (len - 8) in
  set_r R_PC load_offset;;
  load_words (Z.to_nat ((len + 1) / 2)) byte01 byte02 load_offset f.

(** The loop over the blocks, [fuel] of them at most; [None] if it has not ended. *)
Fixpoint find_text_block (fuel : nat) (j : junk) (f : file) : option file :=
  match fuel with
  | O => None
  | S fuel' =>
      let '(found, f) := is_text_block j f in
      if found || feof f then Some f else find_text_block fuel' j f
  end.

(** Every round but the last takes at least one byte. *)
Definition load_program_from_obj (j : junk) (bs : list Z) : M memory unit :=
  match find_text_block (S (length bs)) j (File bs 0 false) with
  | None => block
  | Some f => if feof f then mret tt else (load_text_block j f;; mret tt)
  end.

(** ** Raw machine code *)

(** The bytes from [i] up to [program_length]. *)
Fixpoint load_bytes (n : nat) (byte i : Z) (f : file) : M memory file :=
  match n with
  | O => mret f
  | S n' =>
      let '(byte, f) := fread1 byte f in
      direct_write_byte i byte;;
      load_bytes n' byte (i + 1) f
  end.

Definition load_program_from_mcode (bs : list Z) : M memory unit :=
  let '(len, f) := fread2 0 (File bs 0 false) in
  let '(load_offset, f) := fread2 0 f in
  let program_length := u16 (load_offset + len * 2) in
  load_bytes (Z.to_nat (program_length - load_offset)) 0 load_offset f;;
  set_r R_PC load_offset.
