(* ===== verification/AtticDisk.v ===== *)
(** * The retired emulator: floppy disk

    [attic/src/disk.c]: the controller's thread, which shares the memory with
    the processor and polls RXCS.  One round of the loop of [exec_disk] is one
    step here; the processor's accesses come between the rounds.  Within a round
    the code only acts on RXDB while the transfer flag is clear, and a driver
    that keeps the protocol touches RXDB only while it is set.

    The open image is the list of its bytes ([None] is the NULL stream), on which
    [fseek], [fread] and [fwrite] act as [Disk.file_read] and [Disk.file_write]
    say.  Traces and sleeping are left out. *)
From S2P Require Import Prelude AtticMemory.
From S2P Require Disk.

Definition RXCS_GO : Z := oct! 0000001.
Definition RXCS_FS : Z := oct! 0000016.
Definition RXCS_DONE : Z := oct! 0000040.
Definition SECTOR_SIZE : Z := 128.

Inductive disk_func :=
| F_FILL_BUFFER | F_EMPTY_BUFFER | F_WRITE_SECTOR | F_READ_SECTOR | F_NOT_USED
| F_READ_STATUS | F_WRITE_DEL | F_READ_ERR | F_IDLE.

Inductive disk_state :=
| S_BEGIN | S_SECTOR | S_TRACK | S_FILL | S_EMPTY | S_WRITE | S_READ | S_DONE.

#[export] Instance disk_func_eq_dec : EqDecision disk_func.
Proof. solve_decision. Defined.

#[export] Instance disk_state_eq_dec : EqDecision disk_state.
Proof. solve_decision. Defined.

Record disk := Disk {
  buffer : list Z; index : Z; track : Z; sector : Z;
  current_func : disk_func; state : disk_state; disk_drive : option (list Z)
}.

Definition new_disk (disk_image : option (list Z)) : disk :=
  Disk (replicate (Z.to_nat SECTOR_SIZE) 0) 0 0 0 F_IDLE S_BEGIN disk_image.

(** [disk_subsystem_t] *)
Record controller := Controller { drive : disk; memory_of : memory }.

Abbreviation D := (M controller).

Definition on_bus {R} (f : M memory R) : D R := fun c =>
  match f (memory_of c) with
  | Done r m => Done r (Controller (drive c) m)
  | Blocked => Blocked
  | Fault => Fault
  end.

Definition upd_drive (f : disk -> disk) : D unit :=
  modify (fun c => Controller (f (drive c)) (memory_of c)).

Definition set_state (s : disk_state) (d : disk) : disk :=
  Disk (buffer d) (index d) (track d) (sector d) (current_func d) s (disk_drive d).
Definition set_func (f : disk_func) (d : disk) : disk :=
  Disk (buffer d) (index d) (track d) (sector d) f (state d) (disk_drive d).
Definition set_index (i : Z) (d : disk) : disk :=
  Disk (buffer d) (u8 i) (track d) (sector d) (current_func d) (state d) (disk_drive d).
Definition set_track (t : Z) (d : disk) : disk :=
  Disk (buffer d) (index d) t (sector d) (current_func d) (state d) (disk_drive d).
Definition set_sector (s : Z) (d : disk) : disk :=
  Disk (buffer d) (index d) (track d) s (current_func d) (state d) (disk_drive d).
Definition set_buffer (b : list Z) (d : disk) : disk :=
  Disk b (index d) (track d) (sector d) (current_func d) (state d) (disk_drive d).
Definition set_drive (o : option (list Z)) (d : disk) : disk :=
  Disk (buffer d) (index d) (track d) (sector d) (current_func d) (state d) o.

(** [disk->buffer[i] = b] *)
Definition buffer_write (i b : Z) : D unit := fun c =>
  if i <? SECTOR_SIZE
  then Done tt (Controller (set_buffer (<[Z.to_nat i := b]> (buffer (drive c))) (drive c)) (memory_of c))
  else Fault.

Definition is_done (d : disk) : disk := set_func F_IDLE (set_state S_DONE d).

Definition transfer_flag (flags : Z) : bool := Z.land flags RXCS_XFER =? RXCS_XFER.

(** The end of a byte of [fill_buffer] and of [empty_buffer]. *)
Definition next_index (flags : Z) : D unit :=
  upd_drive (fun d => set_index (index d + 1) d);;
  i ← gets (fun c => index (drive c));
  on_bus (direct_write_word_OR RXCS
            (Z.lxor flags (if negb (i =? SECTOR_SIZE) then RXCS_XFER else RXCS_DONE))).

Definition fill_buffer : D unit :=
  flags ← on_bus (direct_read_word RXCS);
  i ← gets (fun c => index (drive c));
  if i =? SECTOR_SIZE then upd_drive (fun d => is_done (set_index 0 d))
  else when (negb (transfer_flag flags)) (
    on_bus (direct_write_word_OR RXCS flags);;
    data ← on_bus (direct_read_byte_n RXDB);
    buffer_write i data;;
    next_index flags).

(** The byte given to the driver is the index. *)
Definition empty_buffer : D unit :=
  flags ← on_bus (direct_read_word RXCS);
  i ← gets (fun c => index (drive c));
  if i =? SECTOR_SIZE then upd_drive (fun d => is_done (set_index 0 d))
  else when (negb (transfer_flag flags)) (
    on_bus (direct_write_word_OR RXCS flags);;
    on_bus (direct_write_byte_n RXDB i);;
    next_index flags).

Definition disk_offset (d : disk) : Z := u32 (u32 (3328 * track d) + 128 * sector d).

(** The body that [read_sector] and [write_sector] share: the state of the
    transfer and what it does to an open image. *)
Definition sector_function (transfer : disk_state) (f : list Z -> disk -> disk) : D unit :=
  flags ← on_bus (direct_read_word RXCS);
  d ← gets drive;
  if bool_decide (state d = S_SECTOR) && negb (transfer_flag flags) then
    s ← on_bus (direct_read_byte_n RXDB);
    upd_drive (fun d => set_state S_TRACK (set_sector s d));;
    on_bus (direct_write_word_OR RXCS (Z.lxor flags RXCS_XFER))
  else if bool_decide (state d = S_TRACK) && negb (transfer_flag flags) then
    t ← on_bus (direct_read_byte_n RXDB);
    upd_drive (fun d => set_state transfer (set_track t d))
  else when (bool_decide (state d = transfer)) (
    upd_drive (fun d => match disk_drive d with Some img => f img d | None => d end);;
    upd_drive (fun d => set_track 0 (set_sector 0 (is_done d)))).

Definition write_sector : D unit :=
  sector_function S_WRITE (fun img d =>
    set_drive (Some (Disk.file_write (disk_offset d) (buffer d) img)) d).

(** A short [fread] leaves the end of the buffer as it was. *)
Definition read_sector : D unit :=
  sector_function S_READ (fun img d =>
    let bs := Disk.file_read (disk_offset d) 128 img in
    set_buffer (bs ++ drop (length bs) (buffer d)) d).

(** A command: the word of RXCS with the GO bit. *)
Definition start_function (R_RXCS : Z) : D unit :=
  on_bus (direct_write_word RXCS 0);;
  switch (Z.shiftr (Z.land RXCS_FS R_RXCS) 1)
    [(0, upd_drive (fun d => set_func F_FILL_BUFFER (set_state S_FILL d));;
         on_bus (direct_write_word RXCS RXCS_XFER));
     (1, upd_drive (fun d => set_func F_EMPTY_BUFFER (set_state S_EMPTY d)));
     (2, upd_drive (fun d => set_func F_WRITE_SECTOR (set_state S_SECTOR d));;
         on_bus (direct_write_word RXCS RXCS_XFER));
     (3, upd_drive (fun d => set_func F_READ_SECTOR (set_state S_SECTOR d));;
         on_bus (direct_write_word RXCS RXCS_XFER))]
    (mret tt).

(** One round of the loop of [exec_disk]. *)
Definition disk_round : D unit :=
  R_RXCS ← on_bus (direct_read_word RXCS);
  d ← gets drive;
  if truth (Z.land RXCS_GO R_RXCS)
     && (bool_decide (state d = S_BEGIN) || bool_decide (state d = S_DONE)) then
    start_function R_RXCS
  else if bool_decide (state d = S_FILL) && bool_decide (current_func d = F_FILL_BUFFER) then
    fill_buffer
  else if bool_decide (state d = S_EMPTY) && bool_decide (current_func d = F_EMPTY_BUFFER) then
    empty_buffer
  else if bool_decide (current_func d = F_READ_SECTOR) then read_sector
  else if bool_decide (current_func d = F_WRITE_SECTOR) then write_sector
  else when (bool_decide (state d = S_DONE)) (
    upd_drive (set_state S_BEGIN);;
    on_bus (direct_write_word_OR RXCS (Z.lor R_RXCS RXCS_DONE))).

(** [exec_disk], [fuel] rounds at most; [false] if the bus has not been shut down. *)
Fixpoint exec_disk (fuel : nat) : D bool :=
  down ← gets (fun c => bus_shutdown (memory_of c));
  if down : bool then mret true
  else match fuel with
       | O => mret false
       | S fuel' => disk_round;; exec_disk fuel'
       end.
