(* ===== verification/AtticHeap.v ===== *)
(** * The retired emulator: what the machine allocates and releases

    The blocks behind [machine->memory] and [machine->disk_ss.disk]:
    [initialize_memory], [free_memory] and [destroy_memory_mtx] of
    [attic/src/memory.c], [new_disk] and [free_disk] of [attic/src/disk.c],
    [init_machine] and [shutdown_machine] of [attic/src/machine.c].  What the
    blocks hold while the machine runs is in [AtticMemory] and [AtticDisk]; here
    they are blocks of the heap with the pointers between them.  No [malloc] is
    checked: with a failing one the next access goes through NULL. *)
From S2P Require Import Prelude Digits Heap.
From S2P Require AtticDisk.
From Stdlib Require Import String.
#[local] Open Scope Z_scope.

(** [memory_t] with its three arrays, the arrays, [disk_t], a stream. *)
Inductive block :=
| BMemory (_memory read_side_effects write_side_effects : ptr)
| BBytes | BHandlers
| BDisk (buffer : list Z) (disk_drive : ptr)
| BFile.

Inductive mutex := MtxNone | MtxInit | MtxDestroyed.

(** The pointers of [machine_state_t]. *)
Record machine := Machine { memory : ptr; ss_disk : ptr; ss_memory : ptr }.

Record world := World { hp : heap block; mtx : mutex; state : machine; printed : list Z }.

Abbreviation W := (M world).

Definition on_heap {A} (m : M (heap block) A) : W A := fun w =>
  match m (hp w) with
  | Done a h => Done a (World h (mtx w) (state w) (printed w))
  | Blocked => Blocked
  | Fault => Fault
  end.

Definition set_mtx (m : mutex) : W unit := modify (fun w => World (hp w) m (state w) (printed w)).
Definition set_memory (p : ptr) : W unit :=
  modify (fun w => World (hp w) (mtx w) (Machine p (ss_disk (state w)) (ss_memory (state w))) (printed w)).
Definition set_ss_disk (p : ptr) : W unit :=
  modify (fun w => World (hp w) (mtx w) (Machine (memory (state w)) p (ss_memory (state w))) (printed w)).
Definition set_ss_memory (p : ptr) : W unit :=
  modify (fun w => World (hp w) (mtx w) (Machine (memory (state w)) (ss_disk (state w)) p) (printed w)).
Definition print (t : list Z) : W unit :=
  modify (fun w => World (hp w) (mtx w) (state w) (printed w ++ t)%list).

(** The three pointers of a [memory_t]. *)
Definition arrays (b : block) : M (heap block) (ptr * ptr * ptr) :=
  match b with BMemory x y z => mret (x, y, z) | _ => fault end.

(** ** Start *)
Record allocs := Allocs {
  memory_ok : bool; bytes_ok : bool; reads_ok : bool; writes_ok : bool; disk_ok : bool
}.

(** [initialize_memory(m)]: the new value of [*m]; [junk] is what the fields hold
    before they are written. *)
Definition initialize_memory (e : allocs) (junk : ptr) : W ptr :=
  m ← on_heap (malloc (memory_ok e) (BMemory junk junk junk));
  bytes ← on_heap (malloc (bytes_ok e) BBytes);
  on_heap (assign m (BMemory bytes junk junk));;
  on_heap (assign bytes BBytes);;
  reads ← on_heap (malloc (reads_ok e) BHandlers);
  on_heap (assign m (BMemory bytes reads junk));;
  on_heap (assign reads BHandlers);;
  writes ← on_heap (malloc (writes_ok e) BHandlers);
  on_heap (assign m (BMemory bytes reads writes));;
  on_heap (assign writes BHandlers);;
  set_mtx MtxInit;;
  mret m.

(** [new_disk]; [image] says whether an image is named and [fopen] opens it. *)
Definition new_disk (e : allocs) (junk : list Z) (image : option bool) : W ptr :=
  d ← on_heap (malloc (disk_ok e) (BDisk junk None));
  on_heap (assign d (BDisk (replicate (Z.to_nat AtticDisk.SECTOR_SIZE) 0) None));;
  drive ← match image with None => mret None | Some opens => on_heap (malloc opens BFile) end;
  on_heap (assign d (BDisk (replicate (Z.to_nat AtticDisk.SECTOR_SIZE) 0) drive));;
  mret d.

Definition init_machine (e : allocs) (junk : ptr) (junk_buffer : list Z) (image : option bool) : W unit :=
  set_memory None;;
  m ← initialize_memory e junk; set_memory m;;
  on_heap (deref m);;                              (* [bus_shutdown = false] *)
  d ← new_disk e junk_buffer image; set_ss_disk d;;
  s ← gets state; set_ss_memory (memory s).

(** ** Release *)

(** [free_memory]: its last statement sets the parameter, not what it points to. *)
Definition free_memory (m : ptr) : M (heap block) unit :=
  b ← deref m; '(x, y, z) ← arrays b;
  free x;; assign m (BMemory None y z);;
  free y;; assign m (BMemory None None z);;
  free z;; assign m (BMemory None None None);;
  free m.

Definition hex_char (d : Z) : Z := if d <? 10 then zero_char + d else 87 + d.

(** ["%02x "] of a byte. *)
Definition hex_byte (b : Z) : list Z := [hex_char (b / 16); hex_char (b mod 16); space].

(** The loop of [free_disk] over the buffer, from index [i]. *)
Fixpoint dump_buffer (i : Z) (bs : list Z) : list Z :=
  match bs with
  | [] => [newline]
  | b :: bs' =>
      (hex_byte b ++ (if ((i + 1) mod 16 =? 0) && negb (i =? 0) then [newline] else []) ++ dump_buffer (i + 1) bs')%list
  end.

(** The new value of [*disk]. *)
Definition free_disk (disk : ptr) : W ptr :=
  b ← on_heap (deref disk);
  match b with
  | BDisk buffer drive =>
      print (dump_buffer 0 buffer);;
      on_heap (free drive);;                       (* [fclose], when there is a stream *)
      on_heap (free disk);;
      mret None
  | _ => fault
  end.

(** [shutdown_machine], the disk's thread having ended ([joined]) or not. *)
Definition shutdown_machine (joined : bool) : W unit :=
  (if joined then mret tt else Prelude.block);;
  set_mtx MtxDestroyed;;
  s ← gets state; on_heap (free_memory (memory s));;
  set_memory None;;
  d ← free_disk (ss_disk s); set_ss_disk d.

(** ** Ownership *)

(** The blocks of a machine; the buffer changes while it runs. *)
Definition image_block (f : ptr) : gmap positive block :=
  match f with Some f => {[f := BFile]} | None => ∅ end.

(** The disk with its stream next to the blocks [h0], and the memory next to both. *)
Definition disk_blocks (d : positive) (buffer : list Z) (f : ptr) (h0 : gmap positive block) :=
  <[d := BDisk buffer f]> (image_block f ∪ h0).

Definition owns (w : world) (h0 : gmap positive block) (buffer : list Z) : Prop :=
  exists m x y z d f,
    let rest := disk_blocks d buffer f h0 in
    state w = Machine (Some m) (Some d) (Some m) /\
    (forall g, f = Some g -> h0 !! g = None) /\ (image_block f ∪ h0) !! d = None /\
    NoDup [m; x; y; z] /\ (forall l, l ∈ [m; x; y; z] -> rest !! l = None) /\
    blocks (hp w) = <[m := BMemory (Some x) (Some y) (Some z)]> (<[x := BBytes]> (<[y := BHandlers]>
      (<[z := BHandlers]> rest))).

(** ** Lemmas *)
Definition with_hp (h : heap block) (w : world) : world := World h (mtx w) (state w) (printed w).

Lemma heap_step {A} (m : M (heap block) A) a h w :
  m (hp w) = Done a h -> on_heap m w = Done a (with_hp h w).
Proof. intros H. unfold on_heap. by rewrite H. Qed.

Lemma free_memory_eq m x y z h :
  NoDup [m; x; y; z] -> blocks h !! m = Some (BMemory (Some x) (Some y) (Some z)) ->
  is_Some (blocks h !! x) -> is_Some (blocks h !! y) -> is_Some (blocks h !! z) ->
  free_memory (Some m) h
  = Done tt (with_blocks (delete m (delete z (delete y (delete x (blocks h))))) h).
Proof.
  rewrite !NoDup_cons, !not_elem_of_cons. intros (H1 & H2 & H3 & _) Lm [bx Lx] [by_ Ly] [bz Lz].
  destruct_and!. unfold free_memory.
  rewrite (bind_done _ _ _ _ _ (deref_live _ _ _ Lm)). cbn [arrays].
  rewrite (bind_done _ _ _ (Some x, Some y, Some z) h) by done.
  rewrite (bind_done _ _ _ _ _ (free_live _ _ _ Lx)).
  erewrite bind_done by (eapply assign_live; cbn; by simplify_map_eq).
  erewrite bind_done by (eapply (free_live y); cbn; by simplify_map_eq).
  erewrite bind_done by (eapply assign_live; cbn; by simplify_map_eq).
  erewrite bind_done by (eapply (free_live z); cbn; by simplify_map_eq).
  erewrite bind_done by (eapply assign_live; cbn; by simplify_map_eq).
  erewrite free_live by (cbn; by simplify_map_eq).
  unfold with_blocks. cbn. do 2 f_equal. apply map_eq. intros i.
  rewrite ?lookup_delete, ?lookup_insert, ?lookup_delete, ?lookup_insert.
  repeat (rewrite ?lookup_delete, ?lookup_insert; case_decide); by subst.
Qed.

Lemma malloc_eq v w :
  on_heap (malloc true v) w
  = Done (Some (next (hp w)))
      (with_hp (Heap (<[next (hp w) := v]> (blocks (hp w))) (Pos.succ (next (hp w))) (open_fds (hp w)) (next_fd (hp w))) w).
Proof. done. Qed.

(** A [malloc], and a write to a block that is live. *)
Ltac after_malloc :=
  erewrite bind_done by apply malloc_eq;
  cbn [hp with_hp with_blocks next blocks open_fds next_fd mtx state printed].
Ltac after_assign :=
  erewrite bind_done by (apply heap_step; eapply assign_live; cbn; by simplify_map_eq).

Section Start.
Context (junk : ptr) (junk_buffer : list Z) (image : option bool) (w : world).

Lemma unchecked_malloc e :
  memory_ok e && bytes_ok e && reads_ok e && writes_ok e && disk_ok e = false ->
  init_machine e junk junk_buffer image w = Fault.
Proof.
  intros H. destruct e as [[] [] [] [] []]; try discriminate;
    unfold init_machine, initialize_memory, new_disk, set_memory, set_mtx, modify, malloc, on_heap,
      mbind, M_bind, mret, M_ret; cbn [memory_ok bytes_ok reads_ok writes_ok disk_ok hp mtx state printed];
    unfold assign, deref; cbn [mbind option_bind];
    repeat (case_decide; cbn [hp mtx state printed with_blocks blocks next open_fds next_fd mbind option_bind];
      try done);
    repeat case_match; done.
Qed.

(** The blocks [initialize_memory] and [new_disk] leave. *)
Lemma blocks_of_memory e :
  memory_ok e = true -> bytes_ok e = true -> reads_ok e = true -> writes_ok e = true ->
  let m := next (hp w) in
  let x := Pos.succ m in let y := Pos.succ x in let z := Pos.succ y in
  exists w', initialize_memory e junk w = Done (Some m) w' /\
    mtx w' = MtxInit /\ state w' = state w /\ printed w' = printed w /\ next (hp w') = Pos.succ z /\
    blocks (hp w') = <[m := BMemory (Some x) (Some y) (Some z)]> (<[x := BBytes]> (<[y := BHandlers]>
      (<[z := BHandlers]> (blocks (hp w))))).
Proof.
  intros E1 E2 E3 E4 m x y z. unfold initialize_memory. rewrite E1, E2, E3, E4.
  assert (m <> x /\ m <> y /\ m <> z /\ x <> y /\ x <> z /\ y <> z) as Hn by (subst x y z; lia).
  destruct_and! Hn.
  after_malloc. fold m.
  after_malloc. fold x.
  after_assign.
  after_assign.
  after_malloc. fold y.
  after_assign.
  after_assign.
  after_malloc. fold z.
  after_assign.
  after_assign.
  eexists. split; [reflexivity|]. split_and!; [done..|]. cbn. fold m x y z.
  apply map_eq. intros i. rewrite !lookup_insert. repeat case_decide; congruence.
Qed.

Lemma new_disk_eq e :
  disk_ok e = true ->
  let d := next (hp w) in
  let f := match image with Some true => Some (Pos.succ d) | _ => None end in
  exists w', new_disk e junk_buffer image w = Done (Some d) w' /\
    mtx w' = mtx w /\ state w' = state w /\ printed w' = printed w /\
    blocks (hp w') = <[d := BDisk (replicate (Z.to_nat AtticDisk.SECTOR_SIZE) 0) f]> (image_block f ∪ blocks (hp w)).
Proof.
  intros E1 d f. unfold new_disk. rewrite E1.
  after_malloc. fold d.
  after_assign.
  assert (d <> Pos.succ d) by lia.
  destruct image as [[]|]; subst f; cbn [image_block].
  1: after_malloc; fold d.
  2: rewrite (bind_done _ _ _ None _ (heap_step (malloc false _) _ _ _ eq_refl)).
  3: erewrite (bind_done (mret None)) by reflexivity.
  all: after_assign.
  all: eexists; split; [reflexivity|]; split_and!; [done..|]; cbn; fold d.
  all: apply map_eq; intros i; rewrite ?lookup_insert, ?lookup_union, ?lookup_singleton, ?lookup_empty;
    repeat (case_decide; subst; rewrite ?lookup_insert); try congruence.
  all: by match goal with |- context [blocks (hp w) !! ?k] => destruct (blocks (hp w) !! k) end.
Qed.
End Start.

(** ** Releasing what is owned *)
Lemma free_memory_owned m x y z rest h :
  NoDup [m; x; y; z] -> (forall l, l ∈ [m; x; y; z] -> rest !! l = None) ->
  blocks h = <[m := BMemory (Some x) (Some y) (Some z)]> (<[x := BBytes]> (<[y := BHandlers]>
    (<[z := BHandlers]> rest))) ->
  free_memory (Some m) h = Done tt (with_blocks rest h).
Proof.
  intros Hnd Hf E. pose proof Hnd as Hn. rewrite !NoDup_cons, !not_elem_of_cons in Hn. destruct_and! Hn.
  rewrite (free_memory_eq m x y z), E; [| done | rewrite E; by simplify_map_eq; eauto ..].
  f_equal. unfold with_blocks. f_equal. apply map_eq. intros i.
  destruct (decide (i ∈ [m; x; y; z])) as [Hi|Hi].
  - rewrite (Hf i Hi). rewrite !elem_of_cons in Hi.
    repeat (rewrite ?lookup_delete, ?lookup_insert; case_decide; try done).
    exfalso. destruct_or! Hi; [congruence..|by apply not_elem_of_nil in Hi].
  - rewrite !not_elem_of_cons in Hi. destruct_and! Hi. by simplify_map_eq.
Qed.

Lemma free_disk_owned d buffer f h0 w :
  (forall g, f = Some g -> h0 !! g = None) -> (image_block f ∪ h0) !! d = None ->
  blocks (hp w) = disk_blocks d buffer f h0 ->
  free_disk (Some d) w
  = Done None (World (with_blocks h0 (hp w)) (mtx w) (state w) (printed w ++ dump_buffer 0 buffer)%list).
Proof.
  intros Hg Hd E. unfold disk_blocks in E. unfold free_disk, print, modify.
  erewrite bind_done by (apply heap_step, deref_live; rewrite E; by rewrite lookup_insert_eq).
  cbv beta iota. rewrite (bind_done _ _ _ tt (World (hp w) (mtx w) (state w) (printed w ++ dump_buffer 0 buffer)%list)) by done.
  destruct f as [g|]; cbn [image_block] in *.
  - apply lookup_union_None in Hd as [Hn Hd]. apply lookup_singleton_None in Hn.
    erewrite (bind_done (on_heap (free (Some g)))).
    2: { apply heap_step. apply (free_live g BFile). cbn [hp]. rewrite E.
      rewrite lookup_insert_ne by done. apply lookup_union_Some_l. by rewrite lookup_singleton_eq. }
    erewrite (bind_done (on_heap (free (Some d)))).
    2: { apply heap_step. apply (free_live d (BDisk buffer (Some g))). cbn. rewrite E.
      rewrite lookup_delete_ne by done. by rewrite lookup_insert_eq. }
    unfold with_hp, with_blocks. cbn. rewrite E. unfold mret, M_ret. do 3 f_equal. apply map_eq. intros i.
    specialize (Hg g eq_refl).
    repeat (rewrite ?lookup_delete, ?lookup_insert, ?lookup_union; case_decide; subst; try done).
    rewrite lookup_singleton_ne by done. by destruct (h0 !! i).
  - erewrite (bind_done (on_heap (free None))) by (by apply (heap_step (free None))).
    erewrite (bind_done (on_heap (free (Some d)))).
    2: { apply heap_step. apply (free_live d (BDisk buffer None)). cbn. rewrite E. by rewrite lookup_insert_eq. }
    unfold with_hp, with_blocks. cbn. rewrite E. unfold mret, M_ret. do 3 f_equal.
    rewrite delete_insert_eq, delete_id by done. by rewrite (left_id_L ∅ _).
Qed.

Lemma shutdown_eq w h0 buffer : owns w h0 buffer ->
  exists w', shutdown_machine true w = Done tt w' /\ blocks (hp w') = h0 /\
    mtx w' = MtxDestroyed /\ printed w' = (printed w ++ dump_buffer 0 buffer)%list /\
    state w' = Machine None None (memory (state w)).
Proof.
  intros (m & x & y & z & d & f & Es & Hg & Hd & Hnd & Hf & Eb). destruct w as [h mt st out]. cbn in *. subst st.
  unfold shutdown_machine, set_mtx, set_memory, set_ss_disk.
  rewrite (bind_done _ _ _ tt (World h mt (Machine (Some m) (Some d) (Some m)) out)) by done.
  rewrite (bind_done _ _ _ tt (World h MtxDestroyed (Machine (Some m) (Some d) (Some m)) out)) by done.
  erewrite (bind_done (gets state)) by done. cbn [state memory ss_disk].
  erewrite (bind_done (on_heap (free_memory (Some m))))
    by (apply heap_step; exact (free_memory_owned m x y z _ h Hnd Hf Eb)).
  erewrite bind_done by done.
  erewrite bind_done by (apply (free_disk_owned d buffer f h0); [exact Hg | exact Hd | reflexivity]).
  eexists. by split.
Qed.

(** A machine whose allocations all succeed owns what [init_machine] allocates. *)
Lemma init_machine_owns e junk junk_buffer image w :
  heap_wf (hp w) ->
  memory_ok e && bytes_ok e && reads_ok e && writes_ok e && disk_ok e = true ->
  exists w', init_machine e junk junk_buffer image w = Done tt w' /\
    owns w' (blocks (hp w)) (replicate (Z.to_nat AtticDisk.SECTOR_SIZE) 0) /\
    mtx w' = MtxInit /\ printed w' = printed w.
Proof.
  intros [Hwf _] H. rewrite !andb_true_iff in H. destruct H as [[[[E1 E2] E3] E4] E5].
  unfold init_machine, set_memory, set_ss_disk, set_ss_memory.
  erewrite (bind_done (modify _)) by done.
  match goal with |- context [(initialize_memory _ _ ≫= _) ?w0] => set (w1 := w0) end.
  destruct (blocks_of_memory junk w1 e E1 E2 E3 E4) as (w2 & I2 & M2 & S2 & P2 & N2 & B2).
  change (hp w1) with (hp w) in *. set (m := next (hp w)) in *.
  rewrite (bind_done _ _ _ _ _ I2). erewrite (bind_done (modify _)) by done. unfold modify.
  erewrite (bind_done (on_heap _))
    by (apply heap_step; apply (deref_live m (BMemory (Some (Pos.succ m)) (Some (Pos.succ (Pos.succ m)))
          (Some (Pos.succ (Pos.succ (Pos.succ m)))))); cbn; rewrite B2; by rewrite lookup_insert_eq).
  match goal with |- context [(new_disk _ _ _ ≫= _) ?w0] => set (w3 := w0) end.
  destruct (new_disk_eq junk_buffer image w3 e E5) as (w4 & I4 & M4 & S4 & P4 & B4).
  change (hp w3) with (hp w2) in *.
  rewrite (bind_done _ _ _ _ _ I4). eexists. split; [reflexivity|].
  cbn [mtx printed hp]. split; [|split; [by rewrite M4 | by rewrite P4]].
  eexists m, (Pos.succ m), (Pos.succ (Pos.succ m)), (Pos.succ (Pos.succ (Pos.succ m))), (next (hp w2)),
    (match image with Some true => Some (Pos.succ (next (hp w2))) | _ => None end).
  cbn [state hp]. split; [rewrite S4; reflexivity|].
  assert (F : forall l, (m <= l)%positive -> blocks (hp w) !! l = None) by exact Hwf.
  rewrite N2 in *. split_and!.
  - intros g Hg. apply F. destruct image as [[]|]; simplify_eq; lia.
  - apply lookup_union_None. split; [|apply F; lia].
    destruct image as [[]|]; try done. apply lookup_singleton_None. lia.
  - rewrite !NoDup_cons, !not_elem_of_cons. split_and!; try apply not_elem_of_nil; try apply NoDup_nil_2; lia.
  - intros l Hl. rewrite !elem_of_cons in Hl. unfold disk_blocks.
    assert (m <= l < Pos.succ (Pos.succ (Pos.succ (Pos.succ m))))%positive as Hr
      by (destruct_or! Hl; subst; try lia; by apply not_elem_of_nil in Hl).
    rewrite lookup_insert_ne by lia. apply lookup_union_None. split; [|apply F; lia].
    destruct image as [[]|]; try done. apply lookup_singleton_None. lia.
  - rewrite B4, B2. unfold disk_blocks.
    destruct image as [[]|]; cbn [image_block];
      apply map_eq; intros i;
      repeat (rewrite ?lookup_insert, ?lookup_union, ?lookup_singleton, ?lookup_empty; case_decide; subst; try lia; try done);
      try (rewrite ?lookup_union, ?lookup_singleton, ?lookup_empty; repeat case_decide; subst; try lia; done).
Qed.
