(* ===== verification/HeapProps.v ===== *)
(** * Properties of allocation and release *)
From S2P Require Import Prelude Digits Mem Load MemProps Heap.
From S2P Require Listing LoadHeap AtticHeap AtticDisk.
#[local] Open Scope Z_scope.

(** C34: The listing tool on the heap.  For every file, every failing system call and
    whatever [malloc] leaves in a block, the tool touches no memory it does not own,
    prints and returns what the pure reader and listing give, and frees every block
    it allocated, exactly once; the descriptor is closed on every path but one, the
    failure of [malloc] behind the successful [open]. *)
Theorem listing_releases e junk junk_text w :
  heap_wf (LoadHeap.hp w) ->
  exists st w', LoadHeap.main e junk junk_text w = Done st w' /\
    Listing.main (Some (aout_read e junk (LoadHeap.file w))) (LoadHeap.printed w) = Done st (LoadHeap.printed w') /\
    blocks (LoadHeap.hp w') = blocks (LoadHeap.hp w) /\
    open_fds (LoadHeap.hp w') =
      (if open_ok e && negb (malloc_ok e) then {[next_fd (LoadHeap.hp w)]} ∪ open_fds (LoadHeap.hp w)
       else open_fds (LoadHeap.hp w)).
Proof. exact (LoadHeap.main_refines e junk junk_text w). Qed.

(** C35: The blocks of the retired emulator.  With every [malloc] succeeding,
    [init_machine] leaves a machine that owns its memory, its tables, its disk and,
    when the image opens, its stream; with any of the five failing it runs through
    NULL.  A machine that owns its blocks and whose disk thread has ended gives all
    of them back in [shutdown_machine], prints the sector buffer, and keeps one
    pointer to freed memory, the one in [disk_ss]; before that the join waits. *)
Theorem machine_releases :
  (forall e junk junk_buffer image w, heap_wf (AtticHeap.hp w) ->
     let all_ok := AtticHeap.memory_ok e && AtticHeap.bytes_ok e && AtticHeap.reads_ok e &&
       AtticHeap.writes_ok e && AtticHeap.disk_ok e in
     (all_ok = true -> exists w', AtticHeap.init_machine e junk junk_buffer image w = Done tt w' /\
        AtticHeap.owns w' (blocks (AtticHeap.hp w)) (replicate (Z.to_nat AtticDisk.SECTOR_SIZE) 0)) /\
     (all_ok = false -> AtticHeap.init_machine e junk junk_buffer image w = Fault)) /\
  (forall w h0 buffer, AtticHeap.owns w h0 buffer ->
     AtticHeap.shutdown_machine false w = Blocked /\
     exists w', AtticHeap.shutdown_machine true w = Done tt w' /\
       blocks (AtticHeap.hp w') = h0 /\ AtticHeap.mtx w' = AtticHeap.MtxDestroyed /\
       AtticHeap.printed w' = AtticHeap.printed w ++ AtticHeap.dump_buffer 0 buffer /\
       AtticHeap.state w' = AtticHeap.Machine None None (AtticHeap.memory (AtticHeap.state w))).
Proof.
  split.
  - intros e junk junk_buffer image w Hwf all_ok. split; intros H.
    + destruct (AtticHeap.init_machine_owns e junk junk_buffer image w Hwf H) as (w' & E & O & _).
      by exists w'.
    + by apply AtticHeap.unchecked_malloc.
  - intros w h0 buffer O. split; [done | by apply AtticHeap.shutdown_eq].
Qed.

(** [free_memory] leaves its caller's pointer to the freed block: its last statement
    assigns its own parameter.  Another call with that pointer is undefined, and so
    is another access. *)
Theorem free_memory_dangles m x y z rest h :
  NoDup [m; x; y; z] -> (forall l, l ∈ [m; x; y; z] -> rest !! l = None) ->
  blocks h = <[m := AtticHeap.BMemory (Some x) (Some y) (Some z)]> (<[x := AtticHeap.BBytes]>
    (<[y := AtticHeap.BHandlers]> (<[z := AtticHeap.BHandlers]> rest))) ->
  exists h', AtticHeap.free_memory (Some m) h = Done tt h' /\ deref (Some m) h' = Fault /\
    AtticHeap.free_memory (Some m) h' = Fault.
Proof.
  intros Hnd Hf E. rewrite (AtticHeap.free_memory_owned m x y z rest h Hnd Hf E).
  eexists. split; [done|]. assert (D : deref (Some m) (with_blocks rest h) = Fault).
  { apply (dead_faults m AtticHeap.BBytes). apply Hf. apply elem_of_cons. by left. }
  split; [done|]. unfold AtticHeap.free_memory, mbind, M_bind. by rewrite D.
Qed.

(** ** Witnesses *)
Lemma listing_releases_witness : exists w',
  LoadHeap.main os_ok no_header None (LoadHeap.World empty_heap (file_reader (aout_image tiny_aout)) []) = Done 0 w' /\
  blocks (LoadHeap.hp w') = ∅ /\ open_fds (LoadHeap.hp w') = ∅.
Proof.
  destruct (listing_releases os_ok no_header None (LoadHeap.World empty_heap (file_reader (aout_image tiny_aout)) []))
    as (st & w' & E & L & B & F); [apply empty_heap_wf|].
  exists w'. cbn [LoadHeap.hp] in *.
  assert (st = 0) as ->.
  { revert L. cbn [LoadHeap.file LoadHeap.printed].
    assert (H : match Listing.main (Some (aout_read os_ok no_header (file_reader (aout_image tiny_aout)))) [] with
      | Done st _ => st = 0 | _ => False end) by (vm_compute; reflexivity).
    revert H. generalize (Listing.main (Some (aout_read os_ok no_header (file_reader (aout_image tiny_aout)))) []).
    intros [st' out'| |] H; [|done..]. by intros [= <- _]. }
  split; [exact E|]. split; [exact B | exact F].
Defined.

Definition all_succeed : AtticHeap.allocs := AtticHeap.Allocs true true true true true.

Lemma machine_releases_witness : exists w w',
  AtticHeap.init_machine all_succeed None [] (Some true)
    (AtticHeap.World empty_heap AtticHeap.MtxNone (AtticHeap.Machine None None None) []) = Done tt w /\
  AtticHeap.shutdown_machine true w = Done tt w' /\ blocks (AtticHeap.hp w') = ∅.
Proof.
  destruct machine_releases as [H1 H2].
  destruct (H1 all_succeed None [] (Some true)
    (AtticHeap.World empty_heap AtticHeap.MtxNone (AtticHeap.Machine None None None) []) empty_heap_wf) as [H _].
  destruct (H eq_refl) as (w & E & O). destruct (H2 _ _ _ O) as (_ & w' & E' & B & _).
  exists w, w'. split; [exact E | split; [exact E' | exact B]].
Defined.
