(* ===== verification/AtticFacts.v ===== *)
(** * The retired emulator: facts about the memory

    The well-formed memories, the closed forms of the accesses and of the
    handlers that run behind them, and the walk through computations that may
    leave the array but otherwise keep a state well-formed. *)
From S2P Require Import Prelude AtticMemory.

(** ** Words of the array *)
Definition peek (a : Z) (m : memory) : Z := default 0 (bytes m !! a).

Definition word (a : Z) (m : memory) : Z := peek a m + 256 * peek (a + 1) m.

Definition poke_byte (a b : Z) (m : memory) : memory := set_bytes (<[a := u8 b]> (bytes m)) m.

Definition poke (a w : Z) (m : memory) : memory :=
  poke_byte (a + 1) (w / 256) (poke_byte a w m).

Lemma bytes_poke_other a w m x : x <> a -> x <> a + 1 -> bytes (poke a w m) !! x = bytes m !! x.
Proof. intros H1 H2. unfold poke, poke_byte. cbn. by rewrite !lookup_insert_ne. Qed.

(** The tables after [init_machine]. *)
Definition installed (table : list side_effect) : list side_effect :=
  table ++ repeat (SideEffect INACTIVE_HANDLER_LOC None) (MAX_HANDLERS - length table).

Definition read_handlers : list side_effect :=
  installed [SideEffect TKB_LOC (Some E_read_TKB); SideEffect TPB_LOC (Some E_clear_TPB);
             SideEffect RXDB (Some E_clear_RXDB)].

Definition write_handlers : list side_effect := installed [SideEffect RXDB (Some E_clear_RXCS)].

Record mem_ok (m : memory) : Prop := MemOk {
  ok_dom : forall i, is_Some (bytes m !! i) <-> 0 <= i < MEMBYTES;
  ok_byte : forall i b, bytes m !! i = Some b -> is_u8 b;
  ok_dest : is_u16 (dest m);
  ok_src : is_u16 (src m);
  ok_reads : read_side_effects m = read_handlers;
  ok_writes : write_side_effects m = write_handlers
}.

Lemma peek_u8 m a : mem_ok m -> is_u8 (peek a m).
Proof.
  intros H. unfold peek. destruct (bytes m !! a) eqn:E; cbn; [by apply (ok_byte m H a) | lia].
Qed.

Lemma word_u16 m a : mem_ok m -> is_u16 (word a m).
Proof. intros H. unfold word. pose proof (peek_u8 m a H). pose proof (peek_u8 m (a + 1) H). lia. Qed.

Lemma bytes_peek m a : mem_ok m -> 0 <= a < MEMBYTES -> bytes m !! a = Some (peek a m).
Proof. intros H [b E]%(ok_dom m H). unfold peek. by rewrite E. Qed.

Lemma poke_byte_ok a b m : 0 <= a < MEMBYTES -> mem_ok m -> mem_ok (poke_byte a b m).
Proof.
  intros Ha [Hd Hb ? ? ? ?]. split; try done; unfold poke_byte; cbn.
  - intros i. rewrite lookup_insert_is_Some. rewrite Hd.
    destruct (decide (a = i)); lia || tauto.
  - intros i c. rewrite lookup_insert_Some. intros [[_ <-]|[_ ?]]; [apply u8_range | eauto].
Qed.

Lemma poke_ok a w m : 0 <= a < MEMBYTES - 1 -> mem_ok m -> mem_ok (poke a w m).
Proof. intros Ha Hm. apply poke_byte_ok; [unfold MEMBYTES in *; lia|]. by apply poke_byte_ok; [lia|]. Qed.

Lemma set_dest_ok a m : mem_ok m -> mem_ok (set_dest a m).
Proof. intros []. split; try done. apply u16_range. Qed.

Lemma set_src_ok a m : mem_ok m -> mem_ok (set_src a m).
Proof. intros []. split; try done. apply u16_range. Qed.

Lemma peek_poke_byte a b i m : peek i (poke_byte a b m) = if decide (i = a) then u8 b else peek i m.
Proof.
  unfold peek, poke_byte. cbn. case_decide; subst.
  - by rewrite lookup_insert_eq.
  - by rewrite lookup_insert_ne.
Qed.

Lemma word_poke a w m : is_u16 w -> word a (poke a w m) = w.
Proof.
  intros Hw. unfold word, poke. rewrite !peek_poke_byte.
  rewrite (decide_False (P := a = a + 1)), !decide_True by lia. mod_lia.
Qed.

Lemma word_poke_ne a b w m : a + 2 <= b \/ b + 2 <= a -> word b (poke a w m) = word b m.
Proof.
  intros Hab. unfold word, poke. rewrite !peek_poke_byte. rewrite !decide_False by lia. done.
Qed.

Lemma peek_word a m : mem_ok m -> peek a m = u8 (word a m).
Proof. intros H. unfold word. pose proof (peek_u8 m a H). mod_lia. Qed.

(** ** Closed forms of the accesses without handlers *)
Section Closed.
Context (m : memory) (Hm : mem_ok m).

Lemma byte_read_eq a : 0 <= a < MEMBYTES -> byte_read a m = Done (peek a m) m.
Proof. intros Ha. unfold byte_read. by rewrite bytes_peek. Qed.

Lemma byte_write_eq a b : 0 <= a < MEMBYTES -> byte_write a b m = Done tt (poke_byte a b m).
Proof. intros Ha. unfold byte_write. by rewrite bytes_peek. Qed.

Lemma byte_read_fault a : MEMBYTES <= a -> byte_read a m = Fault.
Proof.
  intros Ha. unfold byte_read. destruct (bytes m !! a) eqn:E; [|done].
  assert (0 <= a < MEMBYTES) by (by apply (ok_dom m Hm); rewrite E). lia.
Qed.

Lemma word_read_eq a : 0 <= a < MEMBYTES - 1 -> word_read a m = Done (word a m) m.
Proof.
  intros Ha. pose proof (peek_u8 m a Hm). pose proof (peek_u8 m (a + 1) Hm).
  unfold word_read. rewrite (bind_done _ _ _ _ _ (byte_read_eq a ltac:(lia))).
  rewrite (bind_done _ _ _ _ _ (byte_read_eq (a + 1) ltac:(lia))).
  unfold word, mret, M_ret. f_equal. rewrite Z.lor_comm, (lor_shiftl_add _ _ 8) by lia.
  rewrite u16_id; lia.
Qed.
End Closed.

Lemma word_write_eq m a w :
  mem_ok m -> 0 <= a < MEMBYTES - 1 -> is_u16 w -> word_write a w m = Done tt (poke a w m).
Proof.
  intros Hm Ha Hw. unfold word_write.
  rewrite (bind_done _ _ _ _ _ (byte_write_eq m Hm a _ ltac:(lia))).
  rewrite byte_write_eq; [| apply poke_byte_ok; [lia | done] | lia].
  unfold poke. rewrite high_byte by done. rewrite u8_land.
  unfold poke_byte. cbn. by rewrite (u8_id (u8 w)) by apply u8_range.
Qed.

(** ** Handlers *)
Lemma registered_cons e t a :
  registered (e :: t) a = if decide (loc e = a) then Some (handler e) else registered t a.
Proof. unfold registered. rewrite filter_cons. by case_decide. Qed.

Lemma registered_inactive n a :
  a <> INACTIVE_HANDLER_LOC -> registered (repeat (SideEffect INACTIVE_HANDLER_LOC None) n) a = None.
Proof.
  intros Ha. induction n as [|n IH]; [done|]. cbn [repeat]. rewrite registered_cons.
  by rewrite decide_False by (cbn; congruence).
Qed.

Definition plain_read (a : Z) : Prop :=
  a <> TKB_LOC /\ a <> TPB_LOC /\ a <> RXDB /\ a <> INACTIVE_HANDLER_LOC.

Definition plain_write (a : Z) : Prop := a <> RXDB /\ a <> INACTIVE_HANDLER_LOC.

Lemma registered_read a : plain_read a -> registered read_handlers a = None.
Proof.
  intros (H1 & H2 & H3 & H4). unfold read_handlers, installed. cbn [app].
  rewrite !registered_cons, !decide_False by (cbn; congruence). by apply registered_inactive.
Qed.

Lemma registered_write a : plain_write a -> registered write_handlers a = None.
Proof.
  intros (H1 & H2). unfold write_handlers, installed. cbn [app].
  rewrite !registered_cons, !decide_False by (cbn; congruence). by apply registered_inactive.
Qed.

Lemma no_read_effect n m a :
  mem_ok m -> plain_read a -> process_side_effects (S n) read_side_effects a m = Done tt m.
Proof.
  intros Hm Ha. cbn [process_side_effects]. unfold mbind, M_bind, gets.
  by rewrite (ok_reads m Hm), registered_read.
Qed.

Lemma no_write_effect n m a :
  mem_ok m -> plain_write a -> process_side_effects (S n) write_side_effects a m = Done tt m.
Proof.
  intros Hm Ha. cbn [process_side_effects]. unfold mbind, M_bind, gets.
  by rewrite (ok_writes m Hm), registered_write.
Qed.

Lemma read_word_at_plain n m a :
  mem_ok m -> 0 <= a < MEMBYTES - 1 -> plain_read a ->
  read_word_at (process_side_effects (S n) read_side_effects) a m = Done (word a m) m.
Proof.
  intros Hm Ha Hp. unfold read_word_at. rewrite (bind_done _ _ _ _ _ (word_read_eq m Hm a Ha)).
  by rewrite (bind_done _ _ _ _ _ (no_read_effect n m a Hm Hp)).
Qed.

Lemma read_byte_at_plain n m a :
  mem_ok m -> 0 <= a < MEMBYTES -> plain_read a ->
  read_byte_at (process_side_effects (S n) read_side_effects) a m = Done (peek a m) m.
Proof.
  intros Hm Ha Hp. unfold read_byte_at. rewrite (bind_done _ _ _ _ _ (byte_read_eq m Hm a Ha)).
  by rewrite (bind_done _ _ _ _ _ (no_read_effect n m a Hm Hp)).
Qed.

Lemma write_word_at_plain n m a w :
  mem_ok m -> 0 <= a < MEMBYTES - 1 -> plain_write a -> is_u16 w ->
  write_word_at (process_side_effects (S n) write_side_effects) a w m = Done tt (poke a w m).
Proof.
  intros Hm Ha Hp Hw. unfold write_word_at. rewrite (bind_done _ _ _ _ _ (word_write_eq m a w Hm Ha Hw)).
  apply no_write_effect; [by apply poke_ok | done].
Qed.

Lemma write_byte_at_plain n m a b :
  mem_ok m -> 0 <= a < MEMBYTES -> plain_write a ->
  write_byte_at (process_side_effects (S n) write_side_effects) a b m = Done tt (poke_byte a b m).
Proof.
  intros Hm Ha Hp. unfold write_byte_at. rewrite (bind_done _ _ _ _ _ (byte_write_eq m Hm a b Ha)).
  apply no_write_effect; [by apply poke_byte_ok | done].
Qed.

(** The handler of a location, run at any depth of at least one further level. *)
Definition read_effect (a : Z) (m : memory) : memory :=
  if decide (a = TKB_LOC) then poke TKS_LOC 0 (poke TKB_LOC 0 m)
  else if decide (a = TPB_LOC) then
    poke TPS_LOC (Z.lor (word TPS_LOC m) TPS_READY) (poke TPB_LOC 0 m)
  else if decide (a = RXDB) then
    poke RXCS (clear_transfer (word RXCS m)) (poke RXDB 0 m)
  else m.

Definition write_effect (a : Z) (m : memory) : memory :=
  if decide (a = RXDB) then poke RXCS (clear_transfer (word RXCS m)) m else m.

Lemma clear_transfer_u16 f : is_u16 f -> is_u16 (clear_transfer f).
Proof.
  intros Hf. unfold clear_transfer. destruct (truth _); [|done].
  apply lxor_u16; [done | unfold RXCS_XFER; lia].
Qed.

Ltac plain := unfold plain_read, plain_write, TKB_LOC, TKS_LOC, TPB_LOC, TPS_LOC, RXDB, RXCS,
  INACTIVE_HANDLER_LOC, MEMBYTES in *; lia.

Lemma read_effect_eq n m a :
  mem_ok m -> a <> INACTIVE_HANDLER_LOC ->
  process_side_effects (S (S n)) read_side_effects a m = Done tt (read_effect a m).
Proof.
  intros Hm Hi. unfold read_effect.
  assert (Hr : forall x, registered read_handlers a = x ->
    process_side_effects (S (S n)) read_side_effects a m =
    match x with None => Done tt m | Some None => Fault
    | Some (Some e) => run_effect (process_side_effects (S n) read_side_effects)
                         (process_side_effects (S n) write_side_effects) e m end).
  { intros x <-. cbn [process_side_effects]. unfold mbind, M_bind, gets. rewrite (ok_reads m Hm).
    by destruct (registered read_handlers a) as [[]|]. }
  repeat case_decide; subst.
  - rewrite (Hr (Some (Some E_read_TKB)) eq_refl). cbn [run_effect]. unfold read_TKB, clear_TKB.
    rewrite (bind_done _ _ _ _ _ (write_word_at_plain n m TKB_LOC 0 Hm ltac:(plain) ltac:(plain) ltac:(lia))).
    apply write_word_at_plain; [apply poke_ok; [plain | done] | plain | plain | lia].
  - rewrite (Hr (Some (Some E_clear_TPB)) eq_refl). cbn [run_effect]. unfold clear_TPB.
    rewrite (bind_done _ _ _ _ _ (read_word_at_plain n m TPS_LOC Hm ltac:(plain) ltac:(plain))).
    rewrite (bind_done _ _ _ _ _ (write_word_at_plain n m TPB_LOC 0 Hm ltac:(plain) ltac:(plain) ltac:(lia))).
    apply write_word_at_plain; [apply poke_ok; [plain | done] | plain | plain |].
    apply lor_u16; [by apply word_u16 | unfold TPS_READY; lia].
  - rewrite (Hr (Some (Some E_clear_RXDB)) eq_refl). cbn [run_effect].
    unfold clear_RXDB, direct_write_word_n.
    rewrite (bind_done _ _ _ _ _ (word_write_eq m RXDB 0 Hm ltac:(plain) ltac:(lia))).
    assert (Hm' : mem_ok (poke RXDB 0 m)) by (apply poke_ok; [plain | done]).
    rewrite (bind_done _ _ _ _ _ (read_word_at_plain n _ RXCS Hm' ltac:(plain) ltac:(plain))).
    rewrite word_poke_ne by plain.
    apply word_write_eq; [done | plain |]. by apply clear_transfer_u16, word_u16.
  - rewrite (Hr None); [done|]. by apply registered_read.
Qed.

Lemma write_effect_eq n m a :
  mem_ok m -> a <> INACTIVE_HANDLER_LOC ->
  process_side_effects (S (S n)) write_side_effects a m = Done tt (write_effect a m).
Proof.
  intros Hm Hi. unfold write_effect. case_decide as Ha.
  - subst. cbn [process_side_effects]. unfold mbind, M_bind, gets. rewrite (ok_writes m Hm).
    change (clear_RXCS (process_side_effects (S n) read_side_effects) m
      = Done tt (poke RXCS (clear_transfer (word RXCS m)) m)). unfold clear_RXCS.
    rewrite (bind_done _ _ _ _ _ (read_word_at_plain n m RXCS Hm ltac:(plain) ltac:(plain))).
    apply word_write_eq; [done | plain |]. by apply clear_transfer_u16, word_u16.
  - by apply no_write_effect.
Qed.

Lemma read_effect_ok a m : mem_ok m -> mem_ok (read_effect a m).
Proof.
  intros Hm. unfold read_effect. repeat case_decide; try done;
    (apply poke_ok; [plain|]; apply poke_ok; [plain | done]).
Qed.

Lemma write_effect_ok a m : mem_ok m -> mem_ok (write_effect a m).
Proof. intros Hm. unfold write_effect. case_decide; [apply poke_ok; [plain | done] | done]. Qed.

(** The handlers nest once: a deeper nesting bound changes nothing. *)
Lemma nesting_enough n m a :
  mem_ok m -> a <> INACTIVE_HANDLER_LOC ->
  process_side_effects (S (S n)) read_side_effects a m = process_read_side_effects a m /\
  process_side_effects (S (S n)) write_side_effects a m = process_write_side_effects a m.
Proof.
  intros Hm Ha. unfold process_read_side_effects, process_write_side_effects, nesting.
  by rewrite !read_effect_eq, !write_effect_eq.
Qed.

(** ** Closed forms of the accesses with handlers *)
Section Direct.
Context (m : memory) (Hm : mem_ok m).

Lemma direct_read_word_eq a :
  0 <= a < MEMBYTES - 1 -> direct_read_word a m = Done (word a m) (read_effect a m).
Proof.
  intros Ha. unfold direct_read_word, read_word_at.
  rewrite (bind_done _ _ _ _ _ (word_read_eq m Hm a Ha)).
  unfold process_read_side_effects, nesting.
  rewrite (bind_done _ _ _ _ _ (read_effect_eq 1 m a Hm ltac:(plain))). done.
Qed.

Lemma direct_read_byte_eq a :
  0 <= a < MEMBYTES -> direct_read_byte a m = Done (peek a m) (read_effect a m).
Proof.
  intros Ha. unfold direct_read_byte, read_byte_at.
  rewrite (bind_done _ _ _ _ _ (byte_read_eq m Hm a Ha)).
  unfold process_read_side_effects, nesting.
  rewrite (bind_done _ _ _ _ _ (read_effect_eq 1 m a Hm ltac:(plain))). done.
Qed.

Lemma direct_write_word_eq a w :
  0 <= a < MEMBYTES - 1 -> is_u16 w ->
  direct_write_word a w m = Done tt (write_effect a (poke a w m)).
Proof.
  intros Ha Hw. unfold direct_write_word, write_word_at.
  rewrite (bind_done _ _ _ _ _ (word_write_eq m a w Hm Ha Hw)).
  unfold process_write_side_effects, nesting.
  apply (write_effect_eq 1); [by apply poke_ok | plain].
Qed.

Lemma direct_write_byte_eq a b :
  0 <= a < MEMBYTES -> direct_write_byte a b m = Done tt (write_effect a (poke_byte a b m)).
Proof.
  intros Ha. unfold direct_write_byte, write_byte_at.
  rewrite (bind_done _ _ _ _ _ (byte_write_eq m Hm a b Ha)).
  unfold process_write_side_effects, nesting.
  apply (write_effect_eq 1); [by apply poke_byte_ok | plain].
Qed.

(** Outside the array: a word at 65534, a byte at 65535 and everything above. *)
Lemma word_read_fault a : MEMBYTES - 1 <= a -> word_read a m = Fault.
Proof using Hm.
  intros Ha. unfold word_read. destruct (bytes m !! a) as [lo|] eqn:E.
  - rewrite (bind_done _ _ m lo m) by (unfold byte_read; by rewrite E).
    apply bind_fault, byte_read_fault; [done | unfold MEMBYTES in *; lia].
  - apply bind_fault. unfold byte_read. by rewrite E.
Qed.

Lemma byte_write_fault a b : MEMBYTES <= a -> byte_write a b m = Fault.
Proof using Hm.
  intros Ha. pose proof (byte_read_fault m Hm a Ha) as H. unfold byte_read, byte_write in *.
  by destruct (bytes m !! a).
Qed.

Lemma direct_read_word_fault a : MEMBYTES - 1 <= a -> direct_read_word a m = Fault.
Proof using Hm. intros Ha. by apply bind_fault, word_read_fault. Qed.

Lemma direct_read_byte_fault a : MEMBYTES <= a -> direct_read_byte a m = Fault.
Proof using Hm. intros Ha. by apply bind_fault, byte_read_fault. Qed.

Lemma direct_write_byte_fault a b : MEMBYTES <= a -> direct_write_byte a b m = Fault.
Proof using Hm. intros Ha. by apply bind_fault, byte_write_fault. Qed.
End Direct.

Lemma direct_write_word_fault m a w :
  mem_ok m -> 0 <= a -> MEMBYTES - 1 <= a -> direct_write_word a w m = Fault.
Proof.
  intros Hm H0 Ha. apply bind_fault. unfold word_write.
  destruct (decide (a < MEMBYTES)) as [H|H].
  - rewrite (bind_done _ _ _ _ _ (byte_write_eq m Hm a _ (conj H0 H))).
    apply byte_write_fault; [apply poke_byte_ok; [lia | done] | lia].
  - apply bind_fault, byte_write_fault; [done | lia].
Qed.

(** A word OR-ed into the array. *)
Lemma word_lor_bytes lo hi v :
  is_u8 lo -> is_u8 hi -> is_u16 v ->
  u8 (Z.lor lo (Z.land v 255)) = u8 (Z.lor (lo + 256 * hi) v) /\
  u8 (Z.lor hi (v / 256)) = u8 (Z.lor (lo + 256 * hi) v / 256).
Proof.
  intros Hl Hh Hv.
  assert (E : lo + 256 * hi = Z.lor (Z.shiftl hi 8) lo) by (rewrite lor_shiftl_add by lia; lia).
  rewrite E, u8_land. change 256 with (2 ^ 8). rewrite <- !Z.shiftr_div_pow2 by done.
  split; apply Z.bits_inj'; intros n Hn; rewrite !u8_testbit by done;
    destruct (Z.ltb_spec n 8); try done; cbn [andb].
  - rewrite !Z.lor_spec, u8_testbit, Z.shiftl_spec_low by done.
    by destruct (Z.ltb_spec n 8); [|lia].
  - rewrite Z.shiftr_spec, !Z.lor_spec, Z.shiftr_spec, Z.shiftl_spec by lia.
    rewrite (small_testbit lo 8) by lia. rewrite orb_false_r. by replace (n + 8 - 8) with n by lia.
Qed.

Lemma word_or_eq m a v :
  mem_ok m -> 0 <= a < MEMBYTES - 1 -> is_u16 v ->
  direct_write_word_OR a v m = Done tt (poke a (Z.lor (word a m) v) m).
Proof.
  intros Hm Ha Hv. unfold direct_write_word_OR.
  rewrite (bind_done _ _ _ _ _ (byte_read_eq m Hm a ltac:(lia))).
  rewrite (bind_done _ _ _ _ _ (byte_write_eq m Hm a _ ltac:(lia))).
  set (m1 := poke_byte a _ m).
  assert (H1 : mem_ok m1) by (apply poke_byte_ok; [lia | done]).
  rewrite (bind_done _ _ _ _ _ (byte_read_eq m1 H1 (a + 1) ltac:(lia))).
  rewrite byte_write_eq by (done || lia). rewrite high_byte by done.
  unfold m1. rewrite peek_poke_byte, decide_False by lia. unfold poke, word.
  destruct (word_lor_bytes (peek a m) (peek (a + 1) m) v) as [E1 E2];
    [by apply peek_u8 | by apply peek_u8 | done |].
  unfold poke_byte. cbn. by rewrite E1, E2.
Qed.

(** ** Computations that keep an invariant or leave the array

    [partial P m phi]: from a state of [P], [m] runs into an access outside the
    array, or returns a result of [phi] in a state of [P]. *)
Definition partial {S R} (P : S -> Prop) (m : M S R) (phi : R -> Prop) : Prop :=
  forall s, P s ->
    match m s with Done a s' => phi a /\ P s' | Blocked => False | Fault => True end.

Section Partial.
Context {S : Type} (P : S -> Prop).

Lemma partial_bind {R R'} (m : M S R) (f : R -> M S R') phi psi :
  partial P m phi -> (forall a, phi a -> partial P (f a) psi) -> partial P (m ≫= f) psi.
Proof.
  intros Hm Hf s Hs. specialize (Hm s Hs). unfold mbind, M_bind.
  destruct (m s) as [a s'| |]; [|done..]. destruct Hm. by apply (Hf a).
Qed.

Lemma partial_ret {R} (a : R) (phi : R -> Prop) : phi a -> partial P (mret a) phi.
Proof. by intros Ha s Hs. Qed.

Lemma partial_gets {R} (f : S -> R) (phi : R -> Prop) :
  (forall s, P s -> phi (f s)) -> partial P (gets f) phi.
Proof. intros H s Hs. split; [by apply H | done]. Qed.

Lemma partial_modify (f : S -> S) :
  (forall s, P s -> P (f s)) -> partial P (modify f) (fun _ => True).
Proof. intros H s Hs. split; [done | by apply H]. Qed.

Lemma partial_weaken {R} (m : M S R) (phi psi : R -> Prop) :
  partial P m phi -> (forall a, phi a -> psi a) -> partial P m psi.
Proof. intros H Hi s Hs. specialize (H s Hs). destruct (m s); [|done..]. destruct H; auto. Qed.

Lemma partial_if {R} (b : bool) (m1 m2 : M S R) phi :
  (b = true -> partial P m1 phi) -> (b = false -> partial P m2 phi) ->
  partial P (if b then m1 else m2) phi.
Proof. destruct b; auto. Qed.

Lemma partial_switch {R} x cases (d : M S R) phi :
  Forall (fun c => partial P c.2 phi) cases -> partial P d phi ->
  partial P (switch x cases d) phi.
Proof.
  intros Hc Hd. induction Hc as [|[k m] cases H Hc IH]; [done|]. simpl. by apply partial_if.
Qed.
End Partial.

Ltac partial_walk solver :=
  lazymatch goal with
  | |- partial _ (_ ≫= _) _ =>
      eapply partial_bind; [partial_walk solver | cbv beta; intros ? ?; partial_walk solver]
  | |- partial _ (switch _ _ _) _ => apply partial_switch; partial_walk solver
  | |- Forall _ (_ :: _) => apply Forall_cons_2; [cbn [snd]; partial_walk solver | partial_walk solver]
  | |- Forall _ [] => apply Forall_nil_2
  | |- partial _ (if _ then _ else _) _ => apply partial_if; intros _; partial_walk solver
  | |- partial _ (when _ _) _ => apply partial_if; intros _; partial_walk solver
  | |- partial _ (let _ := _ in _) _ => cbv zeta; partial_walk solver
  | |- _ => solver
  end.

Create HintDb attic.

(** ** The memory's functions *)
Lemma partial_byte_read a : partial mem_ok (byte_read a) (fun b => is_u8 b).
Proof.
  intros m Hm. unfold byte_read. destruct (bytes m !! a) eqn:E; [|done].
  split; [by apply (ok_byte m Hm a) | done].
Qed.

Lemma partial_byte_write a b : partial mem_ok (byte_write a b) (fun _ => True).
Proof.
  intros m Hm. unfold byte_write. destruct (bytes m !! a) eqn:E; [|done].
  split; [done|]. apply poke_byte_ok; [|done]. apply (ok_dom m Hm). by rewrite E.
Qed.
#[export] Hint Resolve partial_byte_read partial_byte_write : attic.

Ltac mem_walk := partial_walk ltac:(idtac; first
  [ solve [eauto with attic]
  | solve [apply partial_ret; auto with words]
  | solve [eapply partial_weaken; [solve [eauto with attic] | cbv beta; auto with words]]
  | idtac ]).

Lemma partial_word_read a : partial mem_ok (word_read a) (fun w => is_u16 w).
Proof. unfold word_read. mem_walk. Qed.

Lemma partial_word_write a w : partial mem_ok (word_write a w) (fun _ => True).
Proof. unfold word_write. mem_walk. Qed.
#[export] Hint Resolve partial_word_read partial_word_write : attic.

Lemma partial_word_add a n : partial mem_ok (word_add a n) (fun _ => True).
Proof. unfold word_add. mem_walk. Qed.

Lemma partial_word_or a v : partial mem_ok (direct_write_word_OR a v) (fun _ => True).
Proof. unfold direct_write_word_OR. mem_walk. Qed.
#[export] Hint Resolve partial_word_add partial_word_or : attic.

Section Handlers.
Context (r w : Z -> M memory unit).
Context (Hr : forall a, partial mem_ok (r a) (fun _ => True)).
Context (Hw : forall a, partial mem_ok (w a) (fun _ => True)).

Lemma partial_read_word_at a : partial mem_ok (read_word_at r a) (fun w => is_u16 w).
Proof using Hr. unfold read_word_at. mem_walk. Qed.

Lemma partial_read_byte_at a : partial mem_ok (read_byte_at r a) (fun b => is_u8 b).
Proof using Hr. unfold read_byte_at. mem_walk. Qed.

Lemma partial_write_word_at a v : partial mem_ok (write_word_at w a v) (fun _ => True).
Proof using Hw. unfold write_word_at. mem_walk. Qed.

Lemma partial_write_byte_at a v : partial mem_ok (write_byte_at w a v) (fun _ => True).
Proof using Hw. unfold write_byte_at. mem_walk. Qed.

Lemma partial_run_effect e : partial mem_ok (run_effect r w e) (fun _ => True).
Proof using Hr Hw.
  pose proof partial_read_word_at. pose proof partial_write_word_at.
  destruct e; cbn [run_effect];
    unfold read_TKB, clear_TKB, clear_flags_TKS, clear_TPB, clear_RXDB, clear_RXCS,
      direct_write_word_n; mem_walk.
Qed.
End Handlers.
#[export] Hint Resolve partial_read_word_at partial_read_byte_at
  partial_write_word_at partial_write_byte_at : attic.

Lemma partial_effects n t a : partial mem_ok (process_side_effects n t a) (fun _ => True).
Proof.
  revert t a. induction n as [|n IH]; intros t a; [done|]. cbn [process_side_effects].
  eapply partial_bind; [by apply (partial_gets _ _ (fun _ => True))|]. intros tb _.
  destruct (registered tb a) as [[e|]|]; [by apply partial_run_effect | done | by apply partial_ret].
Qed.
#[export] Hint Resolve partial_effects : attic.

Lemma partial_direct_read_word a : partial mem_ok (direct_read_word a) (fun w => is_u16 w).
Proof. apply partial_read_word_at. intros. apply partial_effects. Qed.

Lemma partial_direct_read_byte a : partial mem_ok (direct_read_byte a) (fun b => is_u8 b).
Proof. apply partial_read_byte_at. intros. apply partial_effects. Qed.

Lemma partial_direct_write_word a w : partial mem_ok (direct_write_word a w) (fun _ => True).
Proof. apply partial_write_word_at. intros. apply partial_effects. Qed.

Lemma partial_direct_write_byte a w : partial mem_ok (direct_write_byte a w) (fun _ => True).
Proof. apply partial_write_byte_at. intros. apply partial_effects. Qed.
#[export] Hint Resolve partial_direct_read_word partial_direct_read_byte
  partial_direct_write_word partial_direct_write_byte : attic.

Lemma partial_any {S R} (P : S -> Prop) (f : S -> R) : partial P (gets f) (fun _ => True).
Proof. by apply partial_gets. Qed.
#[export] Hint Resolve partial_any : attic.

Lemma partial_read_word : partial mem_ok read_word (fun w => is_u16 w).
Proof. unfold read_word. mem_walk. Qed.

Lemma partial_read_byte : partial mem_ok read_byte (fun b => is_u8 b).
Proof. unfold read_byte. mem_walk. Qed.

Lemma partial_write_word w : partial mem_ok (write_word w) (fun _ => True).
Proof. unfold write_word. mem_walk. Qed.

Lemma partial_write_byte b : partial mem_ok (write_byte b) (fun _ => True).
Proof. unfold write_byte. mem_walk. Qed.

Lemma partial_get_r r : partial mem_ok (get_r r) (fun w => is_u16 w).
Proof. apply partial_word_read. Qed.

Lemma partial_set_r r v : partial mem_ok (set_r r v) (fun _ => True).
Proof. apply partial_word_write. Qed.

Lemma partial_set_dest a : partial mem_ok (modify (set_dest a)) (fun _ => True).
Proof. apply partial_modify. intros m. apply set_dest_ok. Qed.

Lemma partial_set_src a : partial mem_ok (modify (set_src a)) (fun _ => True).
Proof. apply partial_modify. intros m. apply set_src_ok. Qed.
#[export] Hint Resolve partial_read_word partial_read_byte partial_write_word partial_write_byte
  partial_get_r partial_set_r partial_set_dest partial_set_src : attic.
