(* ===== verification/AtticSafe.v ===== *)
(** * The retired emulator: what every instruction keeps

    The fields of the machine stay in the ranges of their C types, the array
    keeps its indices and the handler tables stay as the start left them, in
    every instruction and in every round of the machine's loop. *)
From S2P Require Import Prelude AtticMemory AtticAddressing AtticInstr AtticMachine AtticFacts.
From S2P Require Instr.

Record machine_ok (m : machine) : Prop := MachineOk {
  ok_alu : is_u16 (ALU m);
  ok_ir : is_u16 (IR m);
  ok_mem : mem_ok (mem m)
}.

Record console_ok (c : console) : Prop := ConsoleOk {
  ok_cpu : machine_ok (cpu c);
  ok_stdin : Forall (fun b => is_u8 b) (stdin c);
  ok_stdout : Forall (fun b => is_u8 b) (stdout c)
}.

Lemma partial_on_mem {R} (f : M memory R) phi :
  partial mem_ok f phi -> partial machine_ok (on_mem f) phi.
Proof.
  intros H s [Ha Hi Hs]. unfold on_mem. specialize (H _ Hs). destruct (f (mem s)); [|done..].
  destruct H. split; [done | by split].
Qed.

Lemma partial_on_cpu {R} (f : M machine R) phi :
  partial machine_ok f phi -> partial console_ok (on_cpu f) phi.
Proof.
  intros H s [Hs ??]. unfold on_cpu. specialize (H _ Hs). destruct (f (cpu s)); [|done..].
  destruct H. split; [done | by split].
Qed.

Lemma partial_set_alu v : partial machine_ok (set_alu v) (fun _ => True).
Proof. apply partial_modify. intros m []. split; [apply u16_range | done..]. Qed.

Lemma partial_upd_alu f : partial machine_ok (upd_alu f) (fun _ => True).
Proof. apply partial_modify. intros m []. split; [apply u16_range | done..]. Qed.

Lemma partial_set_ir v : partial machine_ok (set_ir v) (fun _ => True).
Proof. apply partial_modify. intros m []. split; [done | apply u16_range | done]. Qed.

Lemma partial_set_halted b : partial machine_ok (set_halted b) (fun _ => True).
Proof. apply partial_modify. by intros m []. Qed.
#[export] Hint Resolve partial_on_mem partial_set_alu partial_upd_alu partial_set_ir
  partial_set_halted : attic.

Ltac machine_walk := partial_walk ltac:(idtac; first
  [ solve [eauto with attic]
  | solve [apply partial_ret; auto]
  | solve [eapply partial_weaken; [solve [eauto with attic] | done]]
  | idtac ]).

(** ** Operands *)
Lemma partial_set_operand o a : partial machine_ok (set_operand o a) (fun _ => True).
Proof. apply partial_on_mem. destruct o; eauto with attic. Qed.

Lemma partial_reg_get r : partial machine_ok (reg_get r) (fun w => is_u16 w).
Proof. apply partial_on_mem. eauto with attic. Qed.

Lemma partial_reg_set r v : partial machine_ok (reg_set r v) (fun _ => True).
Proof. apply partial_on_mem. eauto with attic. Qed.

Lemma partial_reg_add (f : Z -> M memory unit) : (forall a, exists b n, f a = word_add b n) ->
  forall a, partial machine_ok (on_mem (f a)) (fun _ => True).
Proof. intros H a. destruct (H a) as (b & n & ->). apply partial_on_mem. eauto with attic. Qed.

Lemma partial_reg_word_advance r : partial machine_ok (reg_word_advance r) (fun _ => True).
Proof. apply (partial_reg_add word_advance_r). unfold word_advance_r. eauto. Qed.

Lemma partial_word_decrease_r r : partial machine_ok (on_mem (word_decrease_r r)) (fun _ => True).
Proof. apply (partial_reg_add word_decrease_r). unfold word_decrease_r. eauto. Qed.

Lemma partial_byte_advance_r r : partial machine_ok (on_mem (byte_advance_r r)) (fun _ => True).
Proof. apply (partial_reg_add byte_advance_r). unfold byte_advance_r. eauto. Qed.

Lemma partial_byte_decrease_r r : partial machine_ok (on_mem (byte_decrease_r r)) (fun _ => True).
Proof. apply (partial_reg_add byte_decrease_r). unfold byte_decrease_r. eauto. Qed.

Lemma partial_word_advance a : partial machine_ok (on_mem (word_advance a)) (fun _ => True).
Proof. apply (partial_reg_add word_advance). unfold word_advance. eauto. Qed.

Lemma partial_word_decrease a : partial machine_ok (on_mem (word_decrease a)) (fun _ => True).
Proof. apply (partial_reg_add word_decrease). unfold word_decrease. eauto. Qed.

Lemma partial_byte_advance a : partial machine_ok (on_mem (byte_advance a)) (fun _ => True).
Proof. apply (partial_reg_add byte_advance). unfold byte_advance. eauto. Qed.

Lemma partial_byte_decrease a : partial machine_ok (on_mem (byte_decrease a)) (fun _ => True).
Proof. apply (partial_reg_add byte_decrease). unfold byte_decrease. eauto. Qed.

Lemma partial_read_word_from a : partial machine_ok (read_word_from a) (fun w => is_u16 w).
Proof. apply partial_on_mem. eauto with attic. Qed.

Lemma partial_read_byte_from a : partial machine_ok (read_byte_from a) (fun b => is_u8 b).
Proof. apply partial_on_mem. eauto with attic. Qed.
#[export] Hint Resolve partial_set_operand partial_reg_get partial_reg_set
  partial_reg_word_advance partial_word_decrease_r partial_byte_advance_r partial_byte_decrease_r
  partial_word_advance partial_word_decrease partial_byte_advance partial_byte_decrease
  partial_read_word_from partial_read_byte_from : attic.

Lemma partial_next_word : partial machine_ok next_word (fun w => is_u16 w).
Proof. unfold next_word. machine_walk. Qed.

Lemma partial_next_byte : partial machine_ok next_byte (fun b => is_u8 b).
Proof. unfold next_byte. machine_walk. Qed.
#[export] Hint Resolve partial_next_word partial_next_byte : attic.

Lemma partial_index_word o : partial machine_ok (index_word o) (fun w => is_u16 w).
Proof. destruct o; cbn [index_word]; machine_walk. Qed.

Lemma partial_deferred_decrement o r : partial machine_ok (deferred_decrement o r) (fun _ => True).
Proof. destruct o; cbn [deferred_decrement]; machine_walk. Qed.
#[export] Hint Resolve partial_index_word partial_deferred_decrement : attic.

Lemma partial_pc_addressing o : partial machine_ok (setup_pc_addressing o) (fun _ => True).
Proof. unfold setup_pc_addressing. machine_walk. Qed.

Lemma partial_sp_addressing o : partial machine_ok (setup_sp_addressing o) (fun _ => True).
Proof. unfold setup_sp_addressing. machine_walk. Qed.

Lemma partial_general_addressing o : partial machine_ok (setup_general_addressing o) (fun _ => True).
Proof. unfold setup_general_addressing. machine_walk. Qed.

Lemma partial_general_byte_addressing o :
  partial machine_ok (setup_general_byte_addressing o) (fun _ => True).
Proof. unfold setup_general_byte_addressing. machine_walk. Qed.
#[export] Hint Resolve partial_pc_addressing partial_sp_addressing partial_general_addressing
  partial_general_byte_addressing : attic.

#[export] Hint Extern 1 (partial _ ?f _) =>
  progress unfold setup_pc_dest_addressing, setup_pc_dest_byte_addressing, setup_pc_src_addressing,
    setup_pc_src_byte_addressing, setup_sp_dest_addressing, setup_sp_src_addressing,
    setup_general_dest_addressing, setup_general_src_addressing,
    setup_general_dest_byte_addressing, setup_general_src_byte_addressing : attic.

Lemma partial_dest_addressing : partial machine_ok setup_dest_addressing (fun _ => True).
Proof. unfold setup_dest_addressing. machine_walk. Qed.

Lemma partial_src_addressing : partial machine_ok setup_src_addressing (fun _ => True).
Proof. unfold setup_src_addressing. machine_walk. Qed.

Lemma partial_dest_byte_addressing : partial machine_ok setup_dest_byte_addressing (fun _ => True).
Proof. unfold setup_dest_byte_addressing. machine_walk. Qed.

Lemma partial_src_byte_addressing : partial machine_ok setup_src_byte_addressing (fun _ => True).
Proof. unfold setup_src_byte_addressing. machine_walk. Qed.
#[export] Hint Resolve partial_dest_addressing partial_src_addressing
  partial_dest_byte_addressing partial_src_byte_addressing : attic.

(** ** Instructions *)
Lemma partial_put_flag f b : partial machine_ok (put_flag f b) (fun _ => True).
Proof. unfold put_flag. machine_walk. Qed.

Lemma partial_zero_flag v : partial machine_ok (set_zero_flag v) (fun _ => True).
Proof. apply partial_put_flag. Qed.

Lemma partial_negative_flag_b v : partial machine_ok (set_negative_flag_b v) (fun _ => True).
Proof. apply partial_put_flag. Qed.

Lemma partial_negative_flag_w v : partial machine_ok (set_negative_flag_w v) (fun _ => True).
Proof. apply partial_put_flag. Qed.

Lemma partial_dest_word : partial machine_ok dest_word (fun w => is_u16 w).
Proof. unfold dest_word. machine_walk. Qed.

Lemma partial_dest_byte : partial machine_ok dest_byte (fun w => is_u8 w).
Proof. unfold dest_byte. machine_walk. Qed.

Lemma partial_src_word : partial machine_ok src_word (fun w => is_u16 w).
Proof. apply partial_on_mem. eauto with attic. Qed.

Lemma partial_src_byte : partial machine_ok src_byte (fun w => is_u8 w).
Proof. apply partial_on_mem. eauto with attic. Qed.

Lemma partial_put_word w : partial machine_ok (put_word w) (fun _ => True).
Proof. apply partial_on_mem. eauto with attic. Qed.

Lemma partial_put_byte w : partial machine_ok (put_byte w) (fun _ => True).
Proof. apply partial_on_mem. eauto with attic. Qed.
#[export] Hint Resolve partial_put_flag partial_zero_flag partial_negative_flag_b
  partial_negative_flag_w partial_dest_word partial_dest_byte partial_src_word partial_src_byte
  partial_put_word partial_put_byte : attic.

Lemma partial_put_alu : partial machine_ok put_alu (fun _ => True).
Proof. unfold put_alu. machine_walk. Qed.

Lemma partial_put_alu_b : partial machine_ok put_alu_b (fun _ => True).
Proof. unfold put_alu_b. machine_walk. Qed.

Lemma partial_zero_of_alu : partial machine_ok zero_of_alu (fun _ => True).
Proof. unfold zero_of_alu. machine_walk. Qed.

Lemma partial_negative_of_alu_w : partial machine_ok negative_of_alu_w (fun _ => True).
Proof. unfold negative_of_alu_w. machine_walk. Qed.

Lemma partial_negative_of_alu_b : partial machine_ok negative_of_alu_b (fun _ => True).
Proof. unfold negative_of_alu_b. machine_walk. Qed.

Lemma partial_branch_offset : partial machine_ok get_branch_offset (fun _ => True).
Proof. unfold get_branch_offset. machine_walk. Qed.

Lemma partial_branch_to p o : partial machine_ok (branch_to p o) (fun _ => True).
Proof. apply partial_reg_set. Qed.
#[export] Hint Resolve partial_put_alu partial_put_alu_b partial_zero_of_alu
  partial_negative_of_alu_w partial_negative_of_alu_b partial_branch_offset partial_branch_to : attic.

Lemma partial_dispatch i : partial machine_ok (dispatch i) (fun _ => True).
Proof.
  destruct i; cbn [dispatch];
    lazymatch goal with |- partial _ ?h _ => unfold h | _ => idtac end; machine_walk.
Qed.
#[export] Hint Resolve partial_dispatch : attic.

Lemma partial_exec_instruction : partial machine_ok exec_instruction (fun _ => True).
Proof. unfold exec_instruction. machine_walk. Qed.
#[export] Hint Resolve partial_exec_instruction : attic.

(** ** The console *)
Lemma partial_fgetc : partial console_ok fgetc (fun _ => True).
Proof.
  intros c [Hc Hi Ho]. unfold fgetc. destruct (stdin c) as [|b l] eqn:E; [by split; [|split; rewrite ?E]|].
  split; [done|]. apply Forall_cons_1 in Hi as [_ Hi]. by split.
Qed.

Lemma partial_fputc b : partial console_ok (fputc b) (fun _ => True).
Proof.
  apply partial_modify. intros c [Hc Hi Ho]. split; [done..|]. apply Forall_app_2; [done|].
  apply Forall_singleton, u8_range.
Qed.

Lemma partial_on_memory {R} (f : M memory R) phi :
  partial mem_ok f phi -> partial console_ok (on_memory f) phi.
Proof. intros H. by apply partial_on_cpu, partial_on_mem. Qed.
#[export] Hint Resolve partial_fgetc partial_fputc partial_on_cpu partial_on_memory : attic.

Lemma partial_fill_buffer_TKB : partial console_ok fill_buffer_TKB (fun _ => True).
Proof. unfold fill_buffer_TKB. machine_walk. Qed.
#[export] Hint Resolve partial_fill_buffer_TKB : attic.

Lemma partial_exec_tty_kb : partial console_ok exec_tty_kb (fun _ => True).
Proof. unfold exec_tty_kb. machine_walk. Qed.

Lemma partial_exec_tty_print : partial console_ok exec_tty_print (fun _ => True).
Proof. unfold exec_tty_print, clear_flags_TPS, fetch_buffer_TPB. machine_walk. Qed.
#[export] Hint Resolve partial_exec_tty_kb partial_exec_tty_print : attic.

Lemma partial_machine_round : partial console_ok machine_round (fun _ => True).
Proof.
  unfold machine_round. eapply partial_bind; [apply partial_on_cpu; machine_walk|].
  intros. machine_walk.
Qed.

(** ** The machine after the start *)
Lemma initial_bytes i : bytes initialize_memory !! i = if decide (0 <= i < MEMBYTES) then Some 0 else None.
Proof. unfold initialize_memory. cbn [bytes]. by rewrite array_lookup. Qed.

(** The memory that [init_machine] leaves. *)
Definition started : memory :=
  poke TPS_LOC TPS_READY (set_effects read_handlers write_handlers initialize_memory).

Lemma set_effects_bytes r w m : bytes (set_effects r w m) = bytes m.
Proof. done. Qed.

Lemma started_ok : mem_ok started.
Proof.
  apply poke_ok; [plain|].
  assert (H : forall i, bytes (set_effects read_handlers write_handlers initialize_memory) !! i
    = if decide (0 <= i < MEMBYTES) then Some 0 else None).
  { intros i. rewrite set_effects_bytes. apply initial_bytes. }
  split; [| | cbn [set_effects dest src initialize_memory]; lia..
    | reflexivity | reflexivity].
  - intros i. rewrite H. by case_decide; rewrite ?is_Some_alt.
  - intros i b. rewrite H. case_decide; [intros [= <-]; lia | done].
Qed.

(** The start, on any array: the terminal's handlers, the READY bit, the disk's
    handlers. *)
Lemma start_on b x y :
  b !! TPS_LOC = Some x -> b !! (TPS_LOC + 1) = Some y ->
  (init_tty_subsystem;; start_disk_subsystem)
    (Memory 0 0 (installed []) (installed []) b false)
  = Done tt (poke TPS_LOC TPS_READY (Memory 0 0 read_handlers write_handlers b false)).
Proof.
  intros Hx Hy.
  set (reads := installed [SideEffect TKB_LOC (Some E_read_TKB); SideEffect TPB_LOC (Some E_clear_TPB)]).
  assert (H1 : register_read_side_effect TKB_LOC E_read_TKB (Memory 0 0 (installed []) (installed []) b false)
    = Done true (Memory 0 0 (installed [SideEffect TKB_LOC (Some E_read_TKB)]) (installed []) b false))
    by reflexivity.
  assert (H2 : register_read_side_effect TPB_LOC E_clear_TPB
      (Memory 0 0 (installed [SideEffect TKB_LOC (Some E_read_TKB)]) (installed []) b false)
    = Done true (Memory 0 0 reads (installed []) b false)) by reflexivity.
  assert (H3 : direct_write_word TPS_LOC TPS_READY (Memory 0 0 reads (installed []) b false)
    = Done tt (poke TPS_LOC TPS_READY (Memory 0 0 reads (installed []) b false))).
  { unfold direct_write_word, write_word_at, word_write, byte_write, mbind, M_bind. cbn [bytes].
    rewrite Hx. cbn [bytes set_bytes]. by rewrite lookup_insert_ne, Hy by done. }
  unfold init_tty_subsystem. rewrite (bind_done _ _ _ tt (poke TPS_LOC TPS_READY (Memory 0 0 reads (installed []) b false))).
  - reflexivity.
  - by rewrite (bind_done _ _ _ _ _ H1), (bind_done _ _ _ _ _ H2).
Qed.

Lemma initialize_memory_eq :
  initialize_memory
  = Memory 0 0 (installed []) (installed []) (array (Z.to_nat MEMBYTES) (fun _ => 0)) false.
Proof. unfold initialize_memory. f_equal. Qed.

Lemma init_machine_eq : init_machine = Done tt started.
Proof.
  assert (H : forall i, 0 <= i < MEMBYTES -> array (Z.to_nat MEMBYTES) (fun _ => 0) !! i = Some 0).
  { intros i Hi. rewrite array_lookup. by rewrite decide_True. }
  pose proof (H TPS_LOC ltac:(plain)) as Hx. pose proof (H (TPS_LOC + 1) ltac:(plain)) as Hy.
  clear H. unfold init_machine, started. rewrite initialize_memory_eq. revert Hx Hy.
  generalize (array (Z.to_nat MEMBYTES) (fun _ => 0)). intros b Hx Hy.
  rewrite (start_on b 0 0 Hx Hy). reflexivity.
Qed.
