(* ===== verification/AtticRegs.v ===== *)
(** * The retired emulator: instructions on plain operands

    Closed forms of the machine's primitives, of the branches, and of the word
    instructions whose operands are words of the array without a handler - the
    registers in particular, which have addresses of their own.  What an operand
    instruction computes is the row of [CpuSpec] that the processor of
    [cpu/cpu.c] computes too. *)
From S2P Require Import Prelude AtticMemory AtticAddressing AtticInstr AtticFacts AtticSafe.
From S2P Require Cpu Instr CpuSpec CpuRegs.

(** A word without handlers that is not the status word. *)
Definition plain_word (a : Z) : Prop :=
  0 <= a < MEMBYTES - 1 /\ plain_read a /\ plain_write a.

Definition apart (a b : Z) : Prop := a + 2 <= b \/ b + 2 <= a.

Lemma translate_register_eq n : 0 <= n <= 8 -> translate_register n = R0 + 2 * n.
Proof.
  intros Hn.
  assert (n = 0 \/ n = 1 \/ n = 2 \/ n = 3 \/ n = 4 \/ n = 5 \/ n = 6 \/ n = 7 \/ n = 8) as H by lia.
  by destruct_or! H; subst.
Qed.

Lemma register_plain n : plain_word (translate_register n).
Proof.
  assert (H : R0 <= translate_register n <= R8).
  { unfold translate_register. cbn [switch].
    repeat match goal with |- context [n =? ?k] => destruct (n =? k); [unfold R0, R1, R2, R3, R4, R5, R6, R7, R8; lia|] end.
    unfold R0, R8; lia. }
  unfold plain_word, R0, R8 in *. split; [plain | split; plain].
Qed.

Lemma registers_apart n k :
  0 <= n <= 8 -> 0 <= k <= 8 -> n <> k -> apart (translate_register n) (translate_register k).
Proof. intros. unfold apart. rewrite !translate_register_eq by done. lia. Qed.

(** ** Closed forms of the primitives *)
Lemma on_mem_done {R} (f : M memory R) al i h m r x :
  f m = Done r x -> on_mem f (Machine al i h m) = Done r (Machine al i h x).
Proof. intros E. unfold on_mem. cbn [mem]. by rewrite E. Qed.

Lemma read_effect_plain a m : plain_read a -> read_effect a m = m.
Proof. intros (?&?&?&?). unfold read_effect. by rewrite !decide_False. Qed.

Lemma write_effect_plain a m : plain_write a -> write_effect a m = m.
Proof. intros [? ?]. unfold write_effect. by rewrite decide_False. Qed.

Section Primitives.
Context (al i : Z) (h : bool) (m : memory) (Hm : mem_ok m).
Abbreviation st := (Machine al i h m).

Lemma reg_get_eq r : reg_get r st = Done (word (translate_register r) m) st.
Proof using Hm.
  apply on_mem_done. pose proof (register_plain r) as [? _]. by apply word_read_eq.
Qed.

Lemma reg_set_eq r v :
  reg_set r v st = Done tt (Machine al i h (poke (translate_register r) (u16 v) m)).
Proof using Hm.
  apply on_mem_done. pose proof (register_plain r) as [? _].
  apply word_write_eq; [done | done | apply u16_range].
Qed.

Lemma dest_word_eq : plain_word (dest m) -> dest_word st = Done (word (dest m) m) st.
Proof using Hm.
  intros (Ha & Hr & _). unfold dest_word, read_word_from.
  rewrite (bind_done _ _ _ _ _ (on_mem_done (gets dest) al i h m (dest m) m eq_refl)).
  apply on_mem_done. rewrite u16_id by apply (ok_dest m Hm).
  rewrite direct_read_word_eq by done. by rewrite read_effect_plain.
Qed.

Lemma src_word_eq : plain_word (src m) -> src_word st = Done (word (src m) m) st.
Proof using Hm.
  intros (Ha & Hr & _). apply on_mem_done. unfold read_word.
  rewrite (bind_done (gets src) _ _ (src m) m eq_refl).
  rewrite direct_read_word_eq by done. by rewrite read_effect_plain.
Qed.

Lemma put_word_eq w :
  plain_word (dest m) -> put_word w st = Done tt (Machine al i h (poke (dest m) (u16 w) m)).
Proof using Hm.
  intros (Ha & _ & Hw). apply on_mem_done. unfold write_word.
  rewrite (bind_done (gets dest) _ _ (dest m) m eq_refl).
  rewrite direct_write_word_eq by (done || apply u16_range). by rewrite write_effect_plain.
Qed.

Lemma put_alu_eq :
  plain_word (dest m) -> put_alu st = Done tt (Machine al i h (poke (dest m) (u16 al) m)).
Proof using Hm. intros H. unfold put_alu. by apply (put_word_eq al). Qed.

Lemma zero_flag_eq v :
  set_zero_flag v st
  = Done tt (Machine al i h (poke R8 (u16 (Cpu.set_zero_flag_psw v (word R8 m))) m)).
Proof using Hm.
  unfold set_zero_flag, put_flag. rewrite (bind_done _ _ _ _ _ (reg_get_eq R_PS)). apply reg_set_eq.
Qed.

Lemma negative_flag_eq v :
  set_negative_flag_w v st
  = Done tt (Machine al i h
      (poke R8 (u16 (Cpu.set_negative_flag_psw (truth (Z.land v (oct! 0100000))) (word R8 m))) m)).
Proof using Hm.
  unfold set_negative_flag_w, put_flag. rewrite (bind_done _ _ _ _ _ (reg_get_eq R_PS)). apply reg_set_eq.
Qed.

Lemma zero_of_alu_eq :
  zero_of_alu st
  = Done tt (Machine al i h (poke R8 (u16 (Cpu.set_zero_flag_psw al (word R8 m))) m)).
Proof using Hm. unfold zero_of_alu. apply (zero_flag_eq al). Qed.

Lemma negative_of_alu_eq :
  negative_of_alu_w st
  = Done tt (Machine al i h
      (poke R8 (u16 (Cpu.set_negative_flag_psw (truth (Z.land al (oct! 0100000))) (word R8 m))) m)).
Proof using Hm. unfold negative_of_alu_w. apply (negative_flag_eq al). Qed.

Lemma set_operand_eq o a :
  set_operand o a st
  = Done tt (Machine al i h (match o with Dest => set_dest a m | Src => set_src a m end)).
Proof. by destruct o. Qed.

(** Mode 0. *)
Lemma setup_dest_mode0 :
  mode_of Dest i = 0 ->
  setup_dest_addressing st
  = Done tt (Machine al i h (set_dest (translate_register (reg_of Dest i)) m)).
Proof.
  intros Hmode. unfold setup_dest_addressing. rewrite (bind_done (gets IR) _ st i st eq_refl). cbn [switch].
  destruct (reg_of Dest i =? 7); [|destruct (reg_of Dest i =? 6)];
    [ unfold setup_pc_dest_addressing, setup_pc_addressing
    | unfold setup_sp_dest_addressing, setup_sp_addressing
    | unfold setup_general_dest_addressing, setup_general_addressing ];
    rewrite (bind_done (gets IR) _ st i st eq_refl), Hmode; cbn [switch];
    change (0 =? 0) with true; cbv iota zeta; apply set_operand_eq.
Qed.

(** A source in the PC is excluded: its register is the destination's. *)
Lemma setup_src_mode0 :
  mode_of Src i = 0 -> reg_of Src i <> 7 ->
  setup_src_addressing st
  = Done tt (Machine al i h (set_src (translate_register (reg_of Src i)) m)).
Proof.
  intros Hmode H. unfold setup_src_addressing. rewrite (bind_done (gets IR) _ st i st eq_refl). cbn [switch].
  rewrite (proj2 (Z.eqb_neq _ _) H).
  destruct (reg_of Src i =? 6);
    [ unfold setup_sp_src_addressing, setup_sp_addressing
    | unfold setup_general_src_addressing, setup_general_addressing ];
    rewrite (bind_done (gets IR) _ st i st eq_refl), Hmode; cbn [switch];
    change (0 =? 0) with true; cbv iota zeta; apply set_operand_eq.
Qed.
End Primitives.

Lemma poke_plain_ok a w m : plain_word a -> mem_ok m -> mem_ok (poke a w m).
Proof. intros [? _]. by apply poke_ok. Qed.

Ltac ok_side :=
  lazymatch goal with
  | |- mem_ok (poke _ _ _) => apply poke_plain_ok; ok_side
  | |- mem_ok (set_dest _ _) => apply set_dest_ok; ok_side
  | |- mem_ok (set_src _ _) => apply set_src_ok; ok_side
  | |- plain_word R8 => exact (register_plain 8)
  | |- plain_word (translate_register _) => apply register_plain
  | |- _ => eassumption
  end.

(** The next primitive of a computation on a machine in constructor form. *)
Ltac prim :=
  lazymatch goal with
  | |- set_alu _ _ = _ => reflexivity
  | |- upd_alu _ _ = _ => reflexivity
  | |- gets _ _ = _ => reflexivity
  | |- on_mem (gets _) _ = _ => reflexivity
  | |- reg_get _ _ = _ => apply reg_get_eq; ok_side
  | |- reg_set _ _ _ = _ => apply reg_set_eq; ok_side
  | |- branch_to _ _ _ = _ => apply reg_set_eq; ok_side
  | |- get_branch_offset _ = _ => reflexivity
  | |- dest_word _ = _ => apply dest_word_eq; ok_side
  | |- src_word _ = _ => apply src_word_eq; ok_side
  | |- put_word _ _ = _ => apply put_word_eq; ok_side
  | |- put_alu _ = _ => apply put_alu_eq; ok_side
  | |- set_zero_flag _ _ = _ => apply zero_flag_eq; ok_side
  | |- set_negative_flag_w _ _ = _ => apply negative_flag_eq; ok_side
  | |- zero_of_alu _ = _ => apply zero_of_alu_eq; ok_side
  | |- negative_of_alu_w _ = _ => apply negative_of_alu_eq; ok_side
  end.

Ltac step := erewrite bind_done; [| prim]; cbv beta zeta; cbn [ALU IR HALTED mem].
Ltac steps := repeat step.

(** ** Branches *)

(** What BNE makes of the displacement, and the other branches. *)
Definition displacement (k : Instr.mnemonic) (offset : Z) : Z :=
  match k with Instr.m_BNE => i8 (u8 (2 * offset)) | _ => 2 * offset end.

Lemma branch_closed k f al i h m :
  mem_ok m -> CpuSpec.branch_condition k = Some f ->
  exists al', dispatch k (Machine al i h m) = Done tt (Machine al' i h
    (let ps := word R8 m in
     if f (CpuSpec.negative ps) (CpuSpec.zero ps) (CpuSpec.overflow ps) (CpuSpec.carry ps)
     then poke R7 (u16 (word R7 m + displacement k (i8 (Z.land i 255)))) m else m)).
Proof.
  intros Hm Hk. destruct (CpuSpec.flag_bits (word R8 m)) as (Hc & Hv & Hz & Hn).
  cbv zeta. destruct k; try discriminate; injection Hk as <-; cbn [dispatch];
    unfold BR, BNE, BEQ, BGE, BLT, BGT, BLE, BPL, BMI, BHI, BLOS, BVC, BVS, BCC, BCS; steps;
    change (translate_register R_PS) with R8 in *; change (translate_register R_PC) with R7 in *;
    unfold when, CARRYFLAG, OVERFLOWFLAG, ZEROFLAG, NEGATIVEFLAG;
    rewrite ?Hc, ?Hv, ?Hz, ?Hn;
    repeat match goal with |- context [if ?x (word R8 m) then _ else _] => destruct (x (word R8 m)) end;
    decide_closed; (eexists; first [ reflexivity | etransitivity; [prim | by rewrite ?u16_u16] ]).
Qed.

(** ** Operand instructions *)

(** The instructions that compute the same result in both emulators, and
    whether the retired one sets Z. *)
Definition agreed (k : Instr.mnemonic) : option bool :=
  match k with
  | Instr.m_CLR | Instr.m_COM | Instr.m_INC | Instr.m_SWAB
  | Instr.m_BIC | Instr.m_BIS | Instr.m_ADD => Some false
  | Instr.m_DEC | Instr.m_NEG | Instr.m_ADC | Instr.m_SBC | Instr.m_TST
  | Instr.m_ROR | Instr.m_ROL | Instr.m_ASR | Instr.m_ASL
  | Instr.m_MOV | Instr.m_CMP | Instr.m_BIT => Some true
  | _ => None
  end.

(** The operand [a] has become [x] if [stores], Z says whether [x] is zero if
    [sets_z], and nothing but [a] and the status word has changed. *)
Record operand_effect (a x : Z) (stores sets_z : bool) (m m' : memory) : Prop := OperandEffect {
  oe_ok : mem_ok m';
  oe_value : word a m' = if stores then x else word a m;
  oe_other : forall b, apart a b -> apart R8 b -> word b m' = word b m;
  oe_zero : sets_z = true -> Z.testbit (word R8 m') 2 = (x =? 0)
}.

Lemma zero_psw_bit v w : Z.testbit (u16 (Cpu.set_zero_flag_psw v w)) 2 = (v =? 0).
Proof.
  rewrite CpuSpec.set_zero_flag_psw_eq, u16_testbit by done.
  destruct (v =? 0); [by rewrite Z.setbit_eqb | by rewrite Z.clearbit_eqb, andb_false_r].
Qed.

Lemma negative_psw_keeps_zero s w :
  Z.testbit (u16 (Cpu.set_negative_flag_psw s w)) 2 = Z.testbit w 2.
Proof.
  rewrite CpuSpec.set_negative_flag_psw_eq, u16_testbit by done.
  destruct s; [by rewrite Z.setbit_eqb | by rewrite Z.clearbit_eqb, andb_true_r].
Qed.

Lemma effect_none a x m : mem_ok m -> operand_effect a x false false m m.
Proof. by split. Qed.

Lemma effect_store a x y m :
  plain_word a -> is_u16 x -> mem_ok m -> y = x -> operand_effect a x true false m (poke a y m).
Proof.
  intros Ha Hx Hm ->. split; [by apply poke_plain_ok | by apply word_poke | | done].
  intros b Hb _. by apply word_poke_ne.
Qed.

(** The status word written behind an effect. *)
Lemma effect_zero a x y st m m' :
  apart a R8 -> y = x -> operand_effect a x st false m m' ->
  operand_effect a x st true m (poke R8 (u16 (Cpu.set_zero_flag_psw y (word R8 m'))) m').
Proof.
  intros Ha -> [Hok Hv Ho _]. split.
  - apply poke_plain_ok; [exact (register_plain 8) | done].
  - by rewrite word_poke_ne by (unfold apart in Ha; tauto).
  - intros b H1 H2. rewrite word_poke_ne by done. auto.
  - intros _. rewrite word_poke by apply u16_range. apply zero_psw_bit.
Qed.

Lemma effect_negative a x st z s m m' :
  apart a R8 -> operand_effect a x st z m m' ->
  operand_effect a x st z m (poke R8 (u16 (Cpu.set_negative_flag_psw s (word R8 m'))) m').
Proof.
  intros Ha [Hok Hv Ho Hz]. split.
  - apply poke_plain_ok; [exact (register_plain 8) | done].
  - by rewrite word_poke_ne by (unfold apart in Ha; tauto).
  - intros b H1 H2. rewrite word_poke_ne by done. auto.
  - intros E. rewrite word_poke by apply u16_range. rewrite negative_psw_keeps_zero. auto.
Qed.

(** Leaves the equations between the values written and the result. *)
Ltac effects :=
  repeat first [ apply effect_negative; [assumption|] | apply effect_zero; [assumption| |] ];
  first [ apply effect_store; [assumption | apply u16_range | assumption |]
        | apply effect_none; assumption | idtac ].

(** Such an equation: shifts as products and quotients. *)
Ltac result_arith :=
  unfold Z.lnot; rewrite ?(Z.shiftr_div_pow2 _ 15), ?shiftr_1 by done;
  rewrite ?lor_shiftl_add by (cbn; mod_lia); rewrite ?shiftl_1; mod_lia.

Definition stores_result (r : CpuSpec.result) : bool :=
  match r with CpuSpec.Discard => false | _ => true end.

Lemma single_closed k e z al i h m0 m :
  CpuSpec.single_table k = Some e -> agreed k = Some z ->
  mem_ok m -> plain_word (dest m) -> apart (dest m) R8 ->
  setup_dest_addressing (Machine al i h m0) = Done tt (Machine al i h m) ->
  let x := u16 (CpuSpec.so_fn e (Z.land (word R8 m) 1)
                  (if CpuSpec.so_fetches e then word (dest m) m else 0)) in
  exists al' m', dispatch k (Machine al i h m0) = Done tt (Machine al' i h m') /\
    operand_effect (dest m) x (stores_result (CpuSpec.so_result e)) z m m'.
Proof.
  intros He Hz Hm Ha Hps Hsetup x.
  pose proof (word_u16 m (dest m) Hm) as Hw. pose proof (word_u16 m R8 Hm) as Hp.
  destruct k; try discriminate; injection He as <-; injection Hz as <-;
    cbn [CpuSpec.so_fetches CpuSpec.so_result CpuSpec.so_fn stores_result] in *; cbn [dispatch];
    match goal with |- context [?f (Machine al i h m0)] => unfold f end;
    rewrite (bind_done _ _ _ _ _ Hsetup); steps;
    change (translate_register R_PS) with R8 in *; unfold CARRYFLAG.
  all: do 2 eexists; (split; [first [prim | reflexivity] | effects]).
  all: unfold x; rewrite ?u16_u16, ?CpuSpec.swab_word by done; try reflexivity.
  all: revert Hw Hp; generalize (word (dest m) m), (word R8 m); intros v p Hw Hp.
  all: result_arith.
Qed.

Lemma double_closed k e z al i h m0 m1 m :
  CpuSpec.double_table k = Some e -> agreed k = Some z ->
  mem_ok m -> plain_word (dest m) -> apart (dest m) R8 -> plain_word (src m) ->
  setup_src_addressing (Machine al i h m0) = Done tt (Machine al i h m1) ->
  setup_dest_addressing (Machine al i h m1) = Done tt (Machine al i h m) ->
  let y := match CpuSpec.do_order e with CpuSpec.SrcOnly => 0 | _ => word (dest m) m end in
  let x := u16 (CpuSpec.do_fn e (word (src m) m) y) in
  exists al' m', dispatch k (Machine al i h m0) = Done tt (Machine al' i h m') /\
    operand_effect (dest m) x (CpuSpec.do_stores e) z m m'.
Proof.
  intros He Hz Hm Ha Hps Hsrc Hs Hd y x.
  pose proof (word_u16 m (dest m) Hm) as Hw. pose proof (word_u16 m (src m) Hm) as Hv.
  destruct k; try discriminate; injection He as <-; injection Hz as <-;
    cbn [CpuSpec.do_order CpuSpec.do_stores CpuSpec.do_fn] in *; cbn [dispatch];
    match goal with |- context [?f (Machine al i h m0)] => unfold f end;
    rewrite (bind_done _ _ _ _ _ Hs), (bind_done _ _ _ _ _ Hd); steps.
  all: do 2 eexists; (split; [first [prim | reflexivity] | effects]).
  all: unfold x, y; rewrite ?u16_u16; try reflexivity.
  all: rewrite !(u16_id (word _ m)) by done; try (f_equal; lia).
  - f_equal. symmetry. apply Z.ldiff_land.
  - f_equal. apply Z.lor_comm.
Qed.

(** ** Register operands *)

(** Both emulators read the same fields of the same instruction word. *)
Lemma decode_same : decode = Instr.decode.
Proof. reflexivity. Qed.

Lemma fields_same i :
  mode_of Dest i = Cpu.dest_mode_field i /\ reg_of Dest i = Cpu.dest_reg_field i /\
  mode_of Src i = Cpu.src_mode_field i /\ reg_of Src i = Cpu.src_reg_field i.
Proof. done. Qed.

Definition reg_word (n : Z) (m : memory) : Z := word (translate_register n) m.

Lemma reg_of_dest_range i : 0 <= reg_of Dest i <= 7.
Proof. apply (land_le i 7). lia. Qed.

(** The registers after an effect on register [d]. *)
Lemma effect_registers d x st z m m' :
  0 <= d <= 7 -> operand_effect (translate_register d) x st z m m' ->
  forall n, 0 <= n <= 7 ->
    reg_word n m' = if decide (n = d) then (if st then x else reg_word n m) else reg_word n m.
Proof.
  intros Hd [_ Hv Ho _] n Hn. unfold reg_word. case_decide as E; [by subst|].
  apply Ho; [| change R8 with (translate_register 8)]; apply registers_apart; lia.
Qed.

Lemma dest_apart i : apart (translate_register (reg_of Dest i)) R8.
Proof.
  change R8 with (translate_register 8). pose proof (reg_of_dest_range i).
  apply registers_apart; lia.
Qed.

Lemma translate_u16 n : u16 (translate_register n) = translate_register n.
Proof. destruct (register_plain n) as [H _]. apply u16_id. plain. Qed.

(** A single-operand instruction on a register. *)
Lemma single_register k e z al i h m :
  CpuSpec.single_table k = Some e -> agreed k = Some z -> mem_ok m -> mode_of Dest i = 0 ->
  let d := reg_of Dest i in
  let x := u16 (CpuSpec.so_fn e (Z.land (reg_word 8 m) 1)
                  (if CpuSpec.so_fetches e then reg_word d m else 0)) in
  exists al' m', dispatch k (Machine al i h m) = Done tt (Machine al' i h m') /\
    operand_effect (translate_register d) x (stores_result (CpuSpec.so_result e)) z m m'.
Proof.
  intros He Hz Hm Hd d x. set (a := translate_register d).
  destruct (single_closed k e z al i h m (set_dest a m) He Hz) as (al' & m' & E & F);
    cbn [dest set_dest] in *; rewrite ?(translate_u16 d : u16 a = a) in *.
  - by apply set_dest_ok.
  - apply register_plain.
  - apply dest_apart.
  - by apply setup_dest_mode0.
  - exists al', m'. split; [exact E|]. destruct F as [F1 F2 F3 F4]. by split.
Qed.

(** A double-operand instruction between registers. *)
Lemma double_register k e z al i h m :
  CpuSpec.double_table k = Some e -> agreed k = Some z -> mem_ok m ->
  mode_of Dest i = 0 -> mode_of Src i = 0 -> reg_of Src i <> 7 ->
  let d := reg_of Dest i in
  let y := match CpuSpec.do_order e with CpuSpec.SrcOnly => 0 | _ => reg_word d m end in
  let x := u16 (CpuSpec.do_fn e (reg_word (reg_of Src i) m) y) in
  exists al' m', dispatch k (Machine al i h m) = Done tt (Machine al' i h m') /\
    operand_effect (translate_register d) x (CpuSpec.do_stores e) z m m'.
Proof.
  intros He Hz Hm Hd Hs H7 d y x. set (a := translate_register d).
  set (b := translate_register (reg_of Src i)).
  destruct (double_closed k e z al i h m (set_src b m) (set_dest a (set_src b m)) He Hz)
    as (al' & m' & E & F); cbn [dest src set_dest set_src] in *;
    rewrite ?(translate_u16 d : u16 a = a), ?(translate_u16 (reg_of Src i) : u16 b = b) in *.
  - by apply set_dest_ok, set_src_ok.
  - apply register_plain.
  - apply dest_apart.
  - apply register_plain.
  - by apply setup_src_mode0.
  - by apply (setup_dest_mode0 al i h (set_src b m)).
  - exists al', m'. split; [exact E|]. destruct F as [F1 F2 F3 F4]. by split.
Qed.

Lemma reg_word_poke n k v m :
  0 <= n <= 8 -> 0 <= k <= 8 -> is_u16 v ->
  reg_word n (poke (translate_register k) v m) = if decide (n = k) then v else reg_word n m.
Proof.
  intros Hn Hk Hv. unfold reg_word. case_decide; subst; [by apply word_poke|].
  apply word_poke_ne. by apply registers_apart.
Qed.

Lemma register_ptr_inj n r k q :
  Cpu.register_ptr n = Some r -> Cpu.register_ptr k = Some q -> (r = q <-> n = k).
Proof.
  intros Hr Hq. split; [intros -> | intros ->; congruence].
  revert Hr Hq. unfold Cpu.register_ptr. cbn [switch].
  repeat match goal with
  | |- context [?x =? ?y] => destruct (Z.eqb_spec x y); [subst | ]
  end; congruence.
Qed.
