(* ===== verification/AtticTty.v ===== *)
(** * The retired emulator: the terminal's protocol

    A program reads a byte by setting RDRENB in TKS, waiting and reading TKB; it
    prints one by writing TPB.  The closed forms of the two device routines and
    of such a program's accesses between them. *)
From S2P Require Import Prelude AtticMemory AtticAddressing AtticInstr AtticMachine AtticFacts.

Lemma on_memory_done {R} (f : M memory R) al i h m inp out r x :
  f m = Done r x ->
  on_memory f (Console (Machine al i h m) inp out) = Done r (Console (Machine al i h x) inp out).
Proof. intros E. unfold on_memory, on_cpu, on_mem. cbn [cpu mem]. by rewrite E. Qed.

(** The byte that [fgetc] gives, as the word it is stored in. *)
Definition next_input (inp : list Z) : Z := match inp with [] => u16 EOF | b :: _ => b end.

(** The memory behind the keyboard routine, and behind the printer routine. *)
Definition after_keyboard (ch : Z) (m : memory) : memory :=
  poke TKS_LOC TKS_DONE
    (poke TKB_LOC ch (poke TKS_LOC (oct! 004001) (set_dest TKS_LOC (set_src TKS_LOC m)))).

Definition after_printer (m : memory) : memory :=
  poke TPS_LOC TPS_READY (poke TPB_LOC 0 (poke TPS_LOC 0 m)).

Ltac tty_plain := unfold TKB_LOC, TKS_LOC, TPB_LOC, TPS_LOC, RXDB, MEMBYTES in *; lia.
Ltac tty_ok := repeat first [assumption | apply set_dest_ok | apply set_src_ok | apply poke_ok; [tty_plain|]].

Section Tty.
Context (al i : Z) (h : bool).

Lemma write_tty m a w :
  mem_ok m -> is_u16 w -> TKS_LOC <= a <= TPB_LOC ->
  direct_write_word a w m = Done tt (poke a w m).
Proof.
  intros Hm Hw Ha. rewrite direct_write_word_eq by (done || tty_plain).
  unfold write_effect. by rewrite decide_False by tty_plain.
Qed.

Lemma read_status m a :
  mem_ok m -> a = TKS_LOC \/ a = TPS_LOC -> direct_read_word a m = Done (word a m) m.
Proof.
  intros Hm Ha. rewrite direct_read_word_eq by (done || destruct Ha; subst; tty_plain).
  unfold read_effect. by rewrite !decide_False by (destruct Ha; subst; tty_plain).
Qed.

Lemma keyboard_closed m inp out :
  mem_ok m -> Forall (fun b => is_u8 b) inp -> word TKS_LOC m = TKS_RDRENB ->
  exec_tty_kb (Console (Machine al i h m) inp out)
  = Done tt (Console (Machine al i h (after_keyboard (next_input inp) m)) (tail inp) out).
Proof.
  intros Hm Hi Hs. unfold exec_tty_kb.
  rewrite (bind_done _ _ _ _ _ (on_memory_done (modify (set_src TKS_LOC)) _ _ _ _ _ _ _ _ eq_refl)).
  rewrite (bind_done _ _ _ _ _ (on_memory_done (modify (set_dest TKS_LOC)) _ _ _ _ _ _ _ _ eq_refl)).
  set (m1 := set_dest TKS_LOC (set_src TKS_LOC m)).
  assert (H1 : mem_ok m1) by (unfold m1; tty_ok).
  rewrite (bind_done _ _ _ TKS_RDRENB (Console (Machine al i h m1) inp out))
    by (apply on_memory_done; unfold read_word;
        rewrite (bind_done (gets src) _ m1 TKS_LOC m1 eq_refl), read_status by auto; by rewrite <- Hs).
  cbv zeta. change (truth (Z.land TKS_RDRENB TKS_RDRENB)) with true. unfold when.
  change (Z.lxor TKS_RDRENB TKS_BUSY) with (oct! 004001).
  change (Z.lxor (Z.lxor (Z.lxor (oct! 004001) TKS_DONE) TKS_BUSY) TKS_RDRENB) with TKS_DONE.
  assert (W : forall w m', mem_ok m' -> is_u16 w -> dest m' = TKS_LOC ->
    write_word w m' = Done tt (poke TKS_LOC w m')).
  { intros w m' Hm' Hw Hd. unfold write_word. rewrite (bind_done (gets dest) _ m' TKS_LOC m') by (unfold gets; by rewrite Hd).
    rewrite u16_id by done. apply write_tty; [done | done | tty_plain]. }
  rewrite (bind_done _ _ _ _ _ (on_memory_done _ _ _ _ _ _ _ _ _ (W (oct! 004001) m1 H1 ltac:(lia) eq_refl))).
  set (m2 := poke TKS_LOC (oct! 004001) m1). assert (H2 : mem_ok m2) by (unfold m2; tty_ok).
  assert (Hn : is_u16 (next_input inp))
    by (destruct inp as [|b l]; cbn; [apply u16_range | apply Forall_cons_1 in Hi as [??]; lia]).
  rewrite (bind_done _ _ _ tt (Console (Machine al i h (poke TKB_LOC (next_input inp) m2)) (tail inp) out)).
  2:{ unfold fill_buffer_TKB.
      rewrite (bind_done fgetc _ _ (match inp with [] => EOF | b :: _ => b end)
        (Console (Machine al i h m2) (tail inp) out)) by by destruct inp.
      apply on_memory_done. destruct inp as [|b l]; cbn [next_input] in *.
      - apply write_tty; [done | apply u16_range | tty_plain].
      - rewrite u16_id by done. apply write_tty; [done | done | tty_plain]. }
  apply on_memory_done, W; [tty_ok | done | done].
Qed.

Lemma printer_closed m inp out :
  mem_ok m -> Z.testbit (word TPS_LOC m) 7 = true ->
  exec_tty_print (Console (Machine al i h m) inp out)
  = Done tt (Console (Machine al i h (after_printer m)) inp
      (out ++ if peek TPB_LOC m =? 0 then [] else [peek TPB_LOC m])).
Proof.
  intros Hm Hr. unfold exec_tty_print.
  rewrite (bind_done _ _ _ _ _ (on_memory_done _ _ _ _ _ _ _ _ _ (read_status m TPS_LOC Hm (or_intror eq_refl)))).
  change TPS_READY with (2 ^ 7). rewrite truth_land_bit, Hr by done. unfold when, clear_flags_TPS.
  rewrite (bind_done _ _ _ _ _ (on_memory_done _ _ _ _ _ _ _ _ _
    (write_tty m TPS_LOC 0 Hm ltac:(lia) ltac:(tty_plain)))).
  set (m1 := poke TPS_LOC 0 m). assert (H1 : mem_ok m1) by (unfold m1; tty_ok).
  assert (Hp : peek TPB_LOC m1 = peek TPB_LOC m).
  { rewrite !peek_word by done. unfold m1. by rewrite word_poke_ne by tty_plain. }
  unfold fetch_buffer_TPB.
  rewrite (bind_done _ _ _ (peek TPB_LOC m) (Console (Machine al i h (after_printer m)) inp out)).
  2:{ apply on_memory_done. rewrite direct_read_byte_eq by (done || tty_plain). rewrite Hp.
      unfold read_effect. rewrite decide_False, decide_True by (done || tty_plain).
      unfold m1. rewrite word_poke by lia. done. }
  pose proof (peek_u8 m TPB_LOC Hm).
  destruct (peek TPB_LOC m =? 0); cbn [negb]; [by rewrite app_nil_r|].
  unfold fputc, modify. cbn [cpu stdin stdout]. by rewrite u8_id.
Qed.
End Tty.

(** ** A program that echoes its input *)
Definition echo_once : C unit :=
  on_memory (direct_write_word TKS_LOC TKS_RDRENB);;
  exec_tty_kb;;
  w ← on_memory (direct_read_word TKB_LOC);
  on_memory (direct_write_word TPB_LOC w);;
  exec_tty_print.

Fixpoint echo (n : nat) : C unit :=
  match n with O => mret tt | S n' => echo_once;; echo n' end.

(** The terminal between two bytes. *)
Definition tty_idle (m : memory) : Prop :=
  mem_ok m /\ Z.testbit (word TPS_LOC m) 7 = true.

Lemma echo_once_closed al i h m inp out :
  tty_idle m -> Forall (fun b => is_u8 b) inp ->
  exists m', tty_idle m' /\ word TKS_LOC m' = 0 /\ word TKB_LOC m' = 0 /\
    echo_once (Console (Machine al i h m) inp out)
    = Done tt (Console (Machine al i h m') (tail inp)
        (out ++ if u8 (next_input inp) =? 0 then [] else [u8 (next_input inp)])).
Proof.
  intros [Hm Hr] Hi. unfold echo_once. set (ch := next_input inp).
  assert (Hn : is_u16 ch)
    by (unfold ch; destruct inp as [|b l]; cbn; [apply u16_range | apply Forall_cons_1 in Hi as [??]; lia]).
  rewrite (bind_done _ _ _ _ _ (on_memory_done _ _ _ _ _ _ _ _ _
    (write_tty m TKS_LOC TKS_RDRENB Hm ltac:(unfold TKS_RDRENB; lia) ltac:(tty_plain)))).
  set (m1 := poke TKS_LOC TKS_RDRENB m). assert (H1 : mem_ok m1) by (unfold m1; tty_ok).
  rewrite (bind_done _ _ _ _ _ (keyboard_closed al i h m1 inp out H1 Hi ltac:(by apply word_poke))).
  fold ch. set (m2 := after_keyboard ch m1).
  assert (H2 : mem_ok m2) by (unfold m2, after_keyboard; tty_ok).
  set (m3 := poke TKS_LOC 0 (poke TKB_LOC 0 m2)). assert (H3 : mem_ok m3) by (unfold m3; tty_ok).
  rewrite (bind_done _ _ _ ch (Console (Machine al i h m3) (tail inp) out)).
  2:{ apply on_memory_done. rewrite direct_read_word_eq by (done || tty_plain).
      unfold m2, after_keyboard. rewrite word_poke_ne by tty_plain. by rewrite word_poke. }
  rewrite (bind_done _ _ _ _ _ (on_memory_done _ _ _ _ _ _ _ _ _
    (write_tty m3 TPB_LOC ch H3 Hn ltac:(tty_plain)))).
  set (m4 := poke TPB_LOC ch m3). assert (H4 : mem_ok m4) by (unfold m4; tty_ok).
  exists (after_printer m4). split_and!.
  - split; [unfold after_printer; tty_ok|]. unfold after_printer. by rewrite word_poke.
  - unfold after_printer, m4. rewrite !word_poke_ne by tty_plain. by apply word_poke.
  - unfold after_printer, m4, m3. rewrite !word_poke_ne by tty_plain. by apply word_poke.
  - rewrite printer_closed; [|done|].
    + rewrite peek_word by done. unfold m4. by rewrite word_poke.
    + unfold m4, m3, m2, after_keyboard, m1.
      rewrite !word_poke_ne by tty_plain.
      change (word TPS_LOC (set_dest _ (set_src _ ?x))) with (word TPS_LOC x).
      by rewrite word_poke_ne by tty_plain.
Qed.

Lemma echo_closed al i h inp : forall m out,
  tty_idle m -> Forall (fun b => is_u8 b) inp ->
  exists m', tty_idle m' /\ echo (length inp) (Console (Machine al i h m) inp out)
    = Done tt (Console (Machine al i h m') [] (out ++ List.filter (fun b => negb (b =? 0)) inp)).
Proof.
  induction inp as [|b inp IH]; intros m out Hm Hi; cbn [length echo].
  - exists m. by rewrite app_nil_r.
  - destruct (echo_once_closed al i h m (b :: inp) out Hm Hi) as (m1 & H1 & _ & _ & E).
    apply Forall_cons_1 in Hi as [Hb Hi]. cbn [tail next_input] in E. rewrite u8_id in E by done.
    destruct (IH m1 (out ++ if b =? 0 then [] else [b]) H1 Hi) as (m' & H' & E').
    exists m'. split; [done|]. rewrite (bind_done _ _ _ _ _ E), E', <- app_assoc.
    cbn [List.filter]. by destruct (b =? 0).
Qed.
