(* ===== verification/AtticPlaces.v ===== *)
(** * The retired emulator: operands as places

    The places of [CpuPlaces] in the retired emulator, where the registers are words
    of the memory: the addressing modes 0, 1, 2 and 4 leave the address of the same
    place and take the same step of the register. *)
From S2P Require Import Prelude AtticMemory AtticAddressing AtticInstr AtticFacts AtticSafe AtticRegs.
From S2P Require Cpu CpuRegs CpuPlaces.
Import CpuPlaces(place, PReg, PMem, valid, low_even, operand_place).

Definition attic_at (p : place) : Z :=
  match p with PReg n => translate_register n | PMem a => a end.

Lemma attic_at_plain p : valid p -> plain_word (attic_at p).
Proof.
  destruct p as [n|a]; cbn [valid attic_at]; [intros _; apply register_plain|].
  intros [Ha _]%CpuPlaces.low_even_range. unfold plain_word, MEMBYTES. split; [plain | split; plain].
Qed.

Lemma attic_at_range p : valid p -> 0 <= attic_at p < R8.
Proof.
  destruct p as [n|a]; cbn [valid attic_at].
  - intros Hn. rewrite translate_register_eq by lia. unfold R0, R8. lia.
  - intros [Ha _]%CpuPlaces.low_even_range. unfold R8. lia.
Qed.

Lemma attic_at_apart p q : valid p -> valid q -> p <> q -> apart (attic_at p) (attic_at q).
Proof.
  intros Hp Hq Hne. unfold apart. destruct p as [n|a], q as [k|b]; cbn [valid attic_at] in *.
  - rewrite !translate_register_eq by lia. assert (n <> k) by congruence. lia.
  - apply CpuPlaces.low_even_range in Hq as [Hq _]. rewrite translate_register_eq by lia. unfold R0. lia.
  - apply CpuPlaces.low_even_range in Hp as [Hp _]. rewrite translate_register_eq by lia. unfold R0. lia.
  - destruct (CpuPlaces.places_apart a b Hp Hq); [congruence | lia..].
Qed.

(** The words a program's places leave alone: the status word and the terminal. *)
Lemma attic_at_above p b : valid p -> R8 <= b -> apart (attic_at p) b.
Proof.
  intros Hp Hb. unfold apart. destruct p as [n|a]; cbn [valid attic_at] in *.
  - rewrite translate_register_eq by lia. unfold R0, R8 in *. lia.
  - apply CpuPlaces.low_even_range in Hp as [Hp _]. unfold R8 in Hb. lia.
Qed.

Lemma apart_sym a b : apart a b -> apart b a.
Proof. unfold apart. lia. Qed.

(** ** Setting up an operand *)
Definition move_mem (n : Z) (upd : option Z) (m : memory) : memory :=
  match upd with Some v => poke (translate_register n) v m | None => m end.

Lemma word_add_eq a n m : plain_word a -> mem_ok m -> word_add a n m = Done tt (poke a (u16 (word a m + n)) m).
Proof.
  intros [Ha _] Hm. unfold word_add. rewrite (bind_done _ _ _ _ _ (word_read_eq m Hm a Ha)).
  apply word_write_eq; [done | done | apply u16_range].
Qed.

Section Setup.
Context (al i : Z) (h : bool) (m : memory) (Hm : mem_ok m).
Abbreviation st := (Machine al i h m).

Lemma set_operand_move o a n upd :
  set_operand o a (Machine al i h (move_mem n upd m))
  = Done tt (Machine al i h (match o with
      | Dest => set_dest a (move_mem n upd m) | Src => set_src a (move_mem n upd m) end)).
Proof. apply set_operand_eq. Qed.

(** A step of a register behind the field that was set. *)
Lemma advance_behind o a n k :
  on_mem (word_add (translate_register n) k)
    (Machine al i h (match o with Dest => set_dest a m | Src => set_src a m end))
  = Done tt (Machine al i h (match o with
      | Dest => set_dest a (move_mem n (Some (u16 (word (translate_register n) m + k))) m)
      | Src => set_src a (move_mem n (Some (u16 (word (translate_register n) m + k))) m) end)).
Proof using Hm.
  apply on_mem_done. rewrite word_add_eq; [by destruct o | apply register_plain |].
  destruct o; [by apply set_dest_ok | by apply set_src_ok].
Qed.

Lemma advance_eq n k :
  on_mem (word_add (translate_register n) k) st
  = Done tt (Machine al i h (move_mem n (Some (u16 (word (translate_register n) m + k))) m)).
Proof using Hm. apply on_mem_done. apply word_add_eq; [apply register_plain | done]. Qed.

Lemma move_ok n upd : mem_ok m -> mem_ok (move_mem n upd m).
Proof. intros. destruct upd; [|done]. apply poke_plain_ok; [apply register_plain | done]. Qed.

Definition setup_of (o : operand) : A unit :=
  match o with Dest => setup_dest_addressing | Src => setup_src_addressing end.

(** The registers' families, by the number of the register. *)
Lemma setup_of_eq o (s := st) :
  0 <= reg_of o i <= 7 ->
  setup_of o s = (if reg_of o i =? 7 then setup_pc_addressing o else if reg_of o i =? 6 then setup_sp_addressing o
                  else setup_general_addressing o) s.
Proof.
  intros Hr. destruct o; unfold setup_of, setup_dest_addressing, setup_src_addressing;
    rewrite (bind_done (gets IR) _ s i s eq_refl); cbn [switch];
    destruct (reg_of _ i =? 7); [done | | done |]; by destruct (reg_of _ i =? 6).
Qed.

Lemma attic_setup_place o p upd :
  0 <= reg_of o i <= 7 -> (o = Src -> mode_of o i = 0 -> reg_of o i <> 7) ->
  operand_place (mode_of o i) (reg_of o i) (word (translate_register (reg_of o i)) m) = Some (p, upd) ->
  setup_of o st = Done tt (Machine al i h (match o with
    | Dest => set_dest (attic_at p) (move_mem (reg_of o i) upd m)
    | Src => set_src (attic_at p) (move_mem (reg_of o i) upd m) end)).
Proof using Hm.
  intros Hr Hs. rewrite setup_of_eq by done. set (n := reg_of o i) in *. set (v := word (translate_register n) m).
  pose proof (word_u16 m (translate_register n) Hm : is_u16 v) as Hv.
  assert (Em : forall x, u16 (x + -2) = u16 (x - 2)) by done.
  unfold operand_place. cbn [switch].
  assert (n <= 5 \/ n = 6 \/ n = 7) as [H5|[H6|H7]] by lia.
  - rewrite (proj2 (Z.eqb_neq n 7)), (proj2 (Z.eqb_neq n 6)), (proj2 (Z.leb_le n 6)), (proj2 (Z.ltb_lt n 6)) by lia.
    unfold setup_general_addressing. rewrite (bind_done (gets IR) _ st i st eq_refl). fold n. cbv zeta. cbn [switch].
    generalize (mode_of o i). intros mode. CpuPlaces.mode_cases mode;
      try (destruct (low_even v); try discriminate); intros [= <- <-]; cbn [attic_at];
      try (rewrite (bind_done _ _ _ _ _ (reg_get_eq al i h m Hm n)); fold v);
      try apply set_operand_eq;
      rewrite (bind_done _ _ _ _ _ (set_operand_eq al i h m o v)); exact (advance_behind o v n _).
  - rewrite ?(proj2 (Z.eqb_neq n 7)), (proj2 (Z.eqb_eq n 6) H6), (proj2 (Z.leb_le n 6)) by lia. change (6 =? 7) with false. change (6 =? 6) with true. change (6 <=? 6) with true. cbv iota.
    unfold setup_sp_addressing. rewrite (bind_done (gets IR) _ st i st eq_refl). fold n. clearbody n. subst n.
    cbv zeta. cbn [switch]. generalize (mode_of o i). intros mode. CpuPlaces.mode_cases mode;
      try (match goal with |- context [low_even ?x] => destruct (low_even x) end; try discriminate);
      intros [= <- <-]; cbn [attic_at];
      try (rewrite (bind_done _ _ _ _ _ (reg_get_eq al i h m Hm 6)); fold v);
      try apply set_operand_eq.
    + rewrite (bind_done _ _ _ _ _ (set_operand_eq al i h m o v)). exact (advance_behind o v 6 _).
    + rewrite (bind_done _ _ _ _ _ (advance_eq 6 (-2))).
      rewrite (bind_done _ _ _ _ _ (reg_get_eq al i h _ (move_ok _ _ Hm) 6)).
      cbn [move_mem]. rewrite word_poke by apply u16_range. rewrite Em. apply (set_operand_move o _ 6 (Some _)).
  - rewrite H7. change (7 =? 7) with true. change (7 =? 6) with false. change (7 <=? 6) with false.
    change (7 <? 6) with false. cbv iota.
    unfold setup_pc_addressing. rewrite (bind_done (gets IR) _ st i st eq_refl).
    cbn [switch]. specialize (fun e => Hs e). revert Hs. unfold n in H7.
    assert (Hd : o = Dest -> Z.land i (oct! 007) = 7) by (intros ->; exact H7).
    fold n in H7. generalize (mode_of o i). intros mode Hs. CpuPlaces.mode_cases mode.
    + intros [= <- <-]. cbn [attic_at].
      destruct o; [rewrite (Hd eq_refl); apply set_operand_eq | by destruct (Hs eq_refl eq_refl)].
    + destruct (low_even v); [|discriminate]. intros [= <- <-]. cbn [attic_at].
      rewrite (bind_done _ _ _ _ _ (reg_get_eq al i h m Hm 7)).
      rewrite (bind_done _ _ _ _ _ (advance_eq 7 2)).
      change (translate_register R_PC) with (translate_register 7). unfold v. rewrite H7.
      apply (set_operand_move o _ 7 (Some _)).
Qed.
End Setup.
