(* ===== verification/Agree.v ===== *)
(** * The two emulators side by side

    A program is [portable] at a state of [cpu/cpu.c]'s processor if the instruction
    it comes to is one both emulators carry out alike: HALT, BR, BEQ and BNE, or one
    of seventeen word instructions with operands of the modes 0, 1, 2 and 4 in
    registers and in the first 512 bytes.  Seven of them set Z in the processor and
    not in the retired emulator; [z] says whether Z is the same in both, which BEQ
    and BNE need.  [same] is the relation between the two emulators that such
    instructions keep. *)
From S2P Require Import Prelude AtticMemory AtticAddressing AtticInstr AtticMachine.
From S2P Require Import AtticFacts AtticSafe AtticRegs AtticTty AtticPlaces.
From S2P Require Bus Cpu Instr CpuFacts CpuSpec CpuRegs Mem CpuMem CpuPlaces.
Import CpuPlaces(place, PReg, PMem, valid, low_even, operand_place, get, move, bus_at).
#[local] Existing Instances Mem.mem_bus Mem.mem_bus_ok CpuPlaces.place_eq_dec.

(** The terminal is idle: no byte is asked for, none is to be printed. *)
Definition quiet (m : memory) : Prop :=
  word TKS_LOC m = 0 /\ Z.testbit (word TPS_LOC m) 7 = true /\ word TPB_LOC m = 0.

Record same (z : bool) (m : memory) (c : Cpu.cpu) (d : Mem.mem_dev) : Prop := Same {
  same_ok : mem_ok m; same_cpu : CpuFacts.cpu_wf c; same_mem : Mem.mem_wf d;
  same_places : forall p, valid p -> word (attic_at p) m = get p c d;
  same_zero : z = true -> Z.testbit (word R8 m) 2 = CpuSpec.zero (Cpu.psw c);
  same_quiet : quiet m
}.

(** ** Portable instructions *)

(** The place of an operand and its register's step; a source in the PC is
    excluded, which the retired emulator takes from another register. *)
Definition operand_of (o : operand) (i : Z) (c : Cpu.cpu) (d : Mem.mem_dev) : option (place * option Z) :=
  let n := reg_of o i in
  if (match o with Src => (mode_of o i =? 0) && (n =? 7) | Dest => false end) then None
  else operand_place (mode_of o i) n (get (PReg n) c d).

Definition uses_carry (k : Instr.mnemonic) : bool :=
  match k with Instr.m_ADC | Instr.m_SBC => true | _ => false end.

Definition portable_operands (k : Instr.mnemonic) (i : Z) (c : Cpu.cpu) (d : Mem.mem_dev) : bool :=
  match CpuSpec.double_table k with
  | Some _ =>
      match operand_of Src i c d with
      | None => false
      | Some (_, upd) => bool_decide (is_Some (operand_of Dest i (move (reg_of Src i) upd c) d))
      end
  | None => bool_decide (is_Some (operand_of Dest i c d))
  end.

(** An instruction [i] of a state whose PC is behind it: whether Z is the same
    afterwards, or [None] if it is not portable. *)
Definition portable_instruction (z : bool) (i : Z) (c : Cpu.cpu) (d : Mem.mem_dev) : option bool :=
  match Instr.decode i with
  | Instr.m_HALT | Instr.m_BR => Some z
  | Instr.m_BEQ => if z then Some z else None
  | Instr.m_BNE =>
      let offset := i8 (Z.land i 255) in
      if z && (-64 <=? offset) && (offset <? 64) then Some z else None
  | k =>
      if uses_carry k then None
      else match agreed k with
           | Some z' => if portable_operands k i c d then Some z' else None
           | None => None
           end
  end.

(** The state of the processor that has fetched the word at PC. *)
Definition fetched (c : Cpu.cpu) (d : Mem.mem_dev) : Cpu.cpu :=
  Cpu.with_reg Cpu.PC (u16 (Cpu.pc c + 2)) (Cpu.with_ir (get (PMem (Cpu.pc c)) c d) c).

Definition portable (z : bool) (c : Cpu.cpu) (d : Mem.mem_dev) : option bool :=
  if low_even (Cpu.pc c) then portable_instruction z (get (PMem (Cpu.pc c)) c d) (fetched c d) d else None.

(** The instructions of a run, [fuel] at most, are portable. *)
Fixpoint portable_run (fuel : nat) (z : bool) (s : Cpu.machine Mem.mem_dev) : bool :=
  if truth (Cpu.halted (Cpu.cs s)) then true
  else match fuel with
       | O => true
       | S fuel' =>
           match portable z (Cpu.cs s) (Cpu.bus s), Instr.execute_once s with
           | Some z', Done _ s' => portable_run fuel' z' s'
           | _, _ => false
           end
       end.

(** ** The relation and its steps *)
Lemma attic_at_psw p : valid p -> apart (attic_at p) R8.
Proof. intros Hp. by apply attic_at_above. Qed.

Lemma quiet_poke p w m : valid p -> quiet m -> quiet (poke (attic_at p) w m).
Proof.
  intros Hp (Q1 & Q2 & Q3). unfold quiet.
  assert (A : forall b, R8 <= b -> word b (poke (attic_at p) w m) = word b m).
  { intros b Hb. apply word_poke_ne. pose proof (attic_at_above p b Hp Hb) as H. unfold apart in H. lia. }
  rewrite !A; [done | unfold R8, TPB_LOC, TPS_LOC, TKS_LOC; lia..].
Qed.

Lemma get_move n upd p c d : 0 <= n <= 7 -> valid p ->
  get p (move n upd c) d
  = match upd with Some v => if decide (p = PReg n) then v else get p c d | None => get p c d end.
Proof.
  intros Hn Hp. destruct upd as [v|]; [|done]. destruct p as [k|a]; [|done]. cbn [get valid] in *.
  unfold move. destruct (CpuRegs.register_ptr_some n) as [r Hr]; [lia|].
  destruct (CpuRegs.register_ptr_some k) as [q Hq]; [lia|]. rewrite Hr, Hq, CpuFacts.get_with_reg.
  destruct (decide (q = r)) as [->|E].
  - pose proof (CpuPlaces.register_ptr_injective _ _ _ Hr Hq) as ->. by rewrite decide_True.
  - rewrite decide_False; [done|]. intros [= ->]. congruence.
Qed.

Lemma move_fields n upd c : 0 <= n <= 7 ->
  Cpu.ir (move n upd c) = Cpu.ir c /\ Cpu.psw (move n upd c) = Cpu.psw c /\ Cpu.halted (move n upd c) = Cpu.halted c.
Proof.
  intros Hn. unfold move. destruct upd as [v|]; [|done]. destruct (Cpu.register_ptr n) as [r|] eqn:E; [|done].
  pose proof (CpuRegs.field_ptr_not_psw _ _ E Hn). by destruct c, r.
Qed.

(** The step of an operand's register, on both sides. *)
Lemma same_move z n upd m c d :
  0 <= n <= 7 -> (forall v, upd = Some v -> is_u16 v) -> same z m c d ->
  same z (move_mem n upd m) (move n upd c) d.
Proof.
  intros Hn Hu [Hok Hc Hd Hp Hz Hq]. destruct upd as [v|]; [|done]. cbn [move_mem].
  assert (Hr : valid (PReg n)) by done. specialize (Hu v eq_refl).
  change (translate_register n) with (attic_at (PReg n)). split.
  - apply poke_plain_ok; [by apply attic_at_plain | done].
  - apply CpuPlaces.move_wf; [by intros x [= <-] | done].
  - done.
  - intros p Hv. rewrite get_move by done. case_decide as E; [subst p; by apply word_poke|].
    rewrite word_poke_ne; [by apply Hp|]. pose proof (attic_at_apart _ _ Hr Hv (not_eq_sym E)) as H.
    unfold apart in H. lia.
  - intros E. rewrite word_poke_ne.
    + destruct (move_fields n (Some v) c Hn) as (_ & -> & _). by apply Hz.
    + pose proof (attic_at_psw _ Hr) as H. unfold apart in H. lia.
  - by apply quiet_poke.
Qed.

(** What is no place can be anything. *)
Lemma same_ext z m c d m' c' :
  same z m c d -> bytes m' = bytes m -> mem_ok m' -> CpuFacts.cpu_wf c' ->
  (forall p, valid p -> get p c' d = get p c d) -> Cpu.psw c' = Cpu.psw c -> same z m' c' d.
Proof.
  intros [Hok Hc Hd Hp Hz Hq] Eb Ho Hc' Hg Ep.
  assert (E : forall a, word a m' = word a m) by (intros a; unfold word, peek; by rewrite Eb).
  split; try done.
  - intros p Hv. by rewrite E, Hg; [apply Hp|].
  - rewrite E, Ep. exact Hz.
  - unfold quiet. by rewrite !E.
Qed.

(** The result of an instruction, on both sides. *)
Lemma same_stored z z' p x st m m' c d c' d' :
  same z m c d -> valid p -> is_u16 x ->
  operand_effect (attic_at p) x st z' m m' -> CpuPlaces.stored p x st c d c' d' -> same z' m' c' d'.
Proof.
  intros [Hok Hc Hd Hp Hz Hq] Hv Hx [Ho Hval Hoth Hze] [Wc Wm _ Hpsw Hpl]. split; try done.
  - intros q Hq'. rewrite Hpl by done. case_decide as E.
    + subst q. rewrite Hval. destruct st; [done | by apply Hp].
    + rewrite Hoth; [by apply Hp | apply attic_at_apart; [done | done | congruence] | apply apart_sym, attic_at_psw; done].
  - intros E. rewrite (Hze E), Hpsw. unfold CpuRegs.nz_psw, CpuSpec.zero.
    rewrite CpuSpec.set_zero_flag_psw_eq. destruct (x =? 0); [by rewrite Z.setbit_eqb | by rewrite Z.clearbit_eqb, andb_false_r].
  - destruct Hq as (Q1 & Q2 & Q3). unfold quiet.
    assert (A : forall b, R8 + 2 <= b -> word b m' = word b m).
    { intros b Hb. apply Hoth; [apply attic_at_above; [done | lia] | unfold apart; lia]. }
    rewrite !A; [done | unfold R8, TPB_LOC, TPS_LOC, TKS_LOC; lia..].
Qed.

(** ** Operands *)
Definition locref_of (o : operand) : Cpu.locref := match o with Dest => Cpu.DestAddress | Src => Cpu.SrcAddress end.

Definition cpu_setup_of (o : operand) : M (Cpu.machine Mem.mem_dev) unit :=
  match o with Dest => Cpu.setup_dest_addressing false | Src => Cpu.setup_src_addressing false end.

Definition set_field (o : operand) (a : Z) (m : memory) : memory :=
  match o with Dest => set_dest a m | Src => set_src a m end.

Lemma reg_of_range o i : 0 <= reg_of o i <= 7.
Proof. destruct o; [apply reg_of_dest_range | apply CpuRegs.src_reg_field_range]. Qed.

Lemma cpu_setup_eq o c d n :
  n = reg_of o (Cpu.ir c) ->
  cpu_setup_of o (Cpu.Machine c d) = Cpu.setup_addressing (locref_of o) (mode_of o (Cpu.ir c)) n false (Cpu.Machine c d).
Proof. intros ->. by destruct o. Qed.

Lemma operand_agrees o z al h m c d p upd :
  let i := Cpu.ir c in let n := reg_of o i in
  same z m c d -> operand_of o i c d = Some (p, upd) ->
  setup_of o (Machine al i h m) = Done tt (Machine al i h (set_field o (attic_at p) (move_mem n upd m))) /\
  cpu_setup_of o (Cpu.Machine c d) = Done tt (Cpu.Machine (Cpu.with_loc (locref_of o) (bus_at p) (move n upd c)) d) /\
  valid p /\ same z (move_mem n upd m) (move n upd c) d.
Proof.
  intros i n Hs Ho. pose proof (reg_of_range o i) as Hn. fold n in Hn. unfold operand_of in Ho. fold n in Ho.
  destruct (match o with Src => _ | Dest => false end) eqn:Ex; [discriminate|].
  pose proof (same_places _ _ _ _ Hs (PReg n) Hn) as Hv. cbn [attic_at] in Hv.
  assert (Hg : exists r, Cpu.register_ptr n = Some r /\ get (PReg n) c d = Cpu.get_reg r c).
  { destruct (CpuRegs.register_ptr_some n) as [r Hr]; [lia|]. exists r. cbn [get]. by rewrite Hr. }
  destruct Hg as (r & Hr & Hg). split_and!.
  - apply (AtticPlaces.attic_setup_place al i h m (same_ok _ _ _ _ Hs) o p upd Hn).
    + intros -> E1 E2. fold n in E2. by rewrite E1, E2 in Ex.
    + fold n. by rewrite Hv.
  - rewrite (cpu_setup_eq o c d n eq_refl). fold i. rewrite Hg in Ho.
    by apply (CpuPlaces.setup_place _ _ n c d r p upd Hn (same_cpu _ _ _ _ Hs) Hr).
  - by eapply CpuPlaces.operand_place_valid.
  - apply same_move; [done | | done]. intros v Hu. by eapply CpuPlaces.operand_place_u16.
Qed.

(** The fields of the operands are no places. *)
Lemma same_fields z m c d o a l b :
  same z m c d -> is_u32 b -> same z (set_field o a m) (Cpu.with_loc l b c) d.
Proof.
  intros Hs Hb. eapply same_ext; [exact Hs | by destruct o | | | |].
  - destruct o; [apply set_dest_ok | apply set_src_ok]; apply Hs.
  - apply CpuFacts.with_loc_wf; [done | apply Hs].
  - intros p _. apply CpuPlaces.get_with_loc.
  - by destruct c, l.
Qed.

(** ** Instructions *)

(** What is left of the two machines, apart from the places. *)
Definition agree_after (z : bool) (h : bool) (c : Cpu.cpu) (a : outcome machine unit)
    (b : outcome (Cpu.machine Mem.mem_dev) unit) : Prop :=
  exists al' i' h' m' c' d', a = Done tt (Machine al' i' h' m') /\ b = Done tt (Cpu.Machine c' d') /\
    same z m' c' d' /\ (h' = h /\ Cpu.halted c' = Cpu.halted c \/ h' = true /\ Cpu.halted c' = 1).

Lemma attic_at_u16 p : valid p -> u16 (attic_at p) = attic_at p.
Proof. intros Hp. apply u16_id. pose proof (attic_at_range p Hp). unfold R8 in *. lia. Qed.

Lemma single_agrees k z z' al h m c d e p upd :
  let i := Cpu.ir c in
  same z m c d -> CpuSpec.single_table k = Some e -> agreed k = Some z' -> uses_carry k = false ->
  operand_of Dest i c d = Some (p, upd) ->
  agree_after z' h c (dispatch k (Machine al i h m)) (Instr.dispatch k (Cpu.Machine c d)).
Proof.
  intros i Hs He Hz Hk Ho. set (n := reg_of Dest i).
  destruct (operand_agrees Dest z al h m c d p upd Hs Ho) as (Ea & Ec & Hp & Hs1). fold i n in Ea, Ec, Hs1.
  set (m1 := move_mem n upd m) in *. set (c1 := move n upd c) in *.
  set (c2 := Cpu.with_loc (locref_of Dest) (bus_at p) c1) in *. set (m2 := set_field Dest (attic_at p) m1) in *.
  assert (Hs2 : same z m2 c2 d) by (apply same_fields; [done | by apply CpuPlaces.bus_at_u32]).
  assert (Hdest : dest m2 = attic_at p) by exact (attic_at_u16 p Hp).
  destruct (single_closed k e z' al i h m m2 He Hz (same_ok _ _ _ _ Hs2)) as (al' & m' & E & F);
    [rewrite Hdest; by apply attic_at_plain | rewrite Hdest; by apply attic_at_psw | exact Ea |].
  assert (Hd : Cpu.dest_address c2 = bus_at p) by by destruct c1.
  assert (Hshape : CpuSpec.so_byte_addressing e = false /\ CpuSpec.so_width e = CpuSpec.W16 /\
      CpuSpec.so_result e <> CpuSpec.StoreByte /\ stores_result (CpuSpec.so_result e) = CpuPlaces.stores_word (CpuSpec.so_result e) /\
      forall a b v, CpuSpec.so_fn e a v = CpuSpec.so_fn e b v).
  { clear -He Hz Hk. destruct k; try discriminate; injection He as <-; done. }
  destruct Hshape as (H1 & H2 & H3 & H4 & H5).
  destruct (CpuPlaces.exec_single_place e p c c2 d Ec Hd (same_cpu _ _ _ _ Hs2) (same_mem _ _ _ _ Hs2) Hp H1 H2 H3)
    as (c' & d' & E' & St).
  rewrite Hdest, (same_places _ _ _ _ Hs2 p Hp), (H5 _ (Z.land (Cpu.psw c2) 1)), H4 in F.
  exists al', i, h, m', c', d'. split_and!.
  - exact E.
  - by rewrite (CpuSpec.single_op_refines k e He).
  - exact (same_stored _ _ _ _ _ _ _ _ _ _ _ Hs2 Hp (u16_range _) F St).
  - left. split; [done|]. rewrite (CpuPlaces.st_halted _ _ _ _ _ _ _ St).
    etransitivity; [apply CpuFacts.halted_with_loc | apply (move_fields n upd c), reg_of_range].
Qed.

Lemma double_agrees k z z' al h m c d e ps us pd ud :
  let i := Cpu.ir c in
  same z m c d -> CpuSpec.double_table k = Some e -> agreed k = Some z' ->
  operand_of Src i c d = Some (ps, us) -> operand_of Dest i (move (reg_of Src i) us c) d = Some (pd, ud) ->
  agree_after z' h c (dispatch k (Machine al i h m)) (Instr.dispatch k (Cpu.Machine c d)).
Proof.
  intros i Hs He Hz Hos Hod. set (ns := reg_of Src i) in *. set (nd := reg_of Dest i).
  destruct (operand_agrees Src z al h m c d ps us Hs Hos) as (Ea & Ec & Hps & Hs1).
  fold i ns in Ea, Ec, Hs1. set (c1 := move ns us c) in *. set (m1 := move_mem ns us m) in *.
  set (c1' := Cpu.with_loc (locref_of Src) (bus_at ps) c1) in *. set (m1' := set_field Src (attic_at ps) m1) in *.
  assert (Hs1' : same z m1' c1' d) by (apply same_fields; [done | by apply CpuPlaces.bus_at_u32]).
  assert (Hi : Cpu.ir c1' = i)
    by (etransitivity; [apply CpuFacts.ir_with_loc | apply (move_fields ns us c), reg_of_range]).
  assert (Hod' : operand_of Dest (Cpu.ir c1') c1' d = Some (pd, ud))
    by (rewrite Hi; unfold operand_of, c1'; rewrite CpuPlaces.get_with_loc; exact Hod).
  destruct (operand_agrees Dest z al h m1' c1' d pd ud Hs1' Hod') as (Ea2 & Ec2 & Hpd & Hs2).
  rewrite Hi in Ea2, Ec2, Hs2. fold nd in Ea2, Ec2, Hs2.
  set (c2 := Cpu.with_loc (locref_of Dest) (bus_at pd) (move nd ud c1')) in *.
  set (m2 := set_field Dest (attic_at pd) (move_mem nd ud m1')) in *.
  assert (Hs2' : same z m2 c2 d) by (apply same_fields; [done | by apply CpuPlaces.bus_at_u32]).
  assert (Hdest : dest m2 = attic_at pd) by exact (attic_at_u16 pd Hpd).
  assert (Hsrc : src m2 = attic_at ps).
  { transitivity (src m1'); [by destruct ud | exact (attic_at_u16 ps Hps)]. }
  destruct (double_closed k e z' al i h m m1' m2 He Hz (same_ok _ _ _ _ Hs2')) as (al' & m' & E & F);
    [rewrite Hdest; by apply attic_at_plain | rewrite Hdest; by apply attic_at_psw
    | rewrite Hsrc; by apply attic_at_plain | exact Ea | exact Ea2 |].
  assert (Hd2 : Cpu.dest_address c2 = bus_at pd) by apply CpuFacts.dest_with_loc.
  assert (Hs2a : Cpu.src_address c2 = bus_at ps).
  { etransitivity; [apply CpuFacts.src_with_dest|]. transitivity (Cpu.src_address c1'); [|apply CpuFacts.src_with_loc].
    unfold move. destruct ud as [x|]; [|done]. destruct (Cpu.register_ptr nd); [apply CpuFacts.src_with_reg | done]. }
  assert (Hw : CpuSpec.do_width e = CpuSpec.W16)
    by (clear -He Hz; destruct k; try discriminate; injection He as <-; done).
  destruct (CpuPlaces.exec_double_place e ps pd c c1' c2 d Ec Ec2 Hs2a Hd2 (same_cpu _ _ _ _ Hs2') (same_mem _ _ _ _ Hs2')
    Hps Hpd Hw) as (c' & d' & E' & St).
  rewrite Hdest, Hsrc, !(same_places _ _ _ _ Hs2' _ Hps), !(same_places _ _ _ _ Hs2' _ Hpd) in F.
  exists al', i, h, m', c', d'. split_and!.
  - exact E.
  - by rewrite (CpuSpec.double_op_refines k e He).
  - exact (same_stored _ _ _ _ _ _ _ _ _ _ _ Hs2' Hpd (u16_range _) F St).
  - left. split; [done|]. rewrite (CpuPlaces.st_halted _ _ _ _ _ _ _ St).
    etransitivity; [apply CpuFacts.halted_with_loc|]. etransitivity; [apply (move_fields nd ud c1'), reg_of_range|].
    etransitivity; [apply CpuFacts.halted_with_loc | apply (move_fields ns us c), reg_of_range].
Qed.

(** Branches: the same target when both take it. *)
Lemma branch_agrees k f z al h m c d :
  let i := Cpu.ir c in let offset := i8 (Z.land i 255) in
  same z m c d -> CpuSpec.branch_condition k = Some f -> displacement k offset = 2 * offset ->
  (forall n v cy n' v' cy' b b', (z = true -> b = b') -> f n b v cy = f n' b' v' cy') ->
  agree_after z h c (dispatch k (Machine al i h m)) (Instr.dispatch k (Cpu.Machine c d)).
Proof.
  intros i offset Hs Hf Hd Hz.
  destruct (branch_closed k f al i h m (same_ok _ _ _ _ Hs) Hf) as [al' E].
  destruct (CpuSpec.branch_refines k f (Cpu.Machine c d) Hf) as [a' E'].
  unfold CpuSpec.branch_taken, CpuSpec.branch_target in E'. cbn [Cpu.cs Cpu.bus] in E'. fold i offset in E, E'.
  cbv zeta in E. rewrite Hd in E.
  rewrite (Hz _ _ _ (CpuSpec.negative (Cpu.psw c)) (CpuSpec.overflow (Cpu.psw c)) (CpuSpec.carry (Cpu.psw c)) _
    (CpuSpec.zero (Cpu.psw c)) (same_zero _ _ _ _ Hs)) in E.
  pose proof (same_places _ _ _ _ Hs (PReg 7) ltac:(cbn; lia)) as Hpc. change (word R7 m = Cpu.pc c) in Hpc.
  rewrite Hpc in E. set (x := u16 (Cpu.pc c + 2 * offset)) in *.
  set (t := f _ _ _ _) in *. clearbody t.
  exists al', i, h, (if t then poke R7 x m else m), (Cpu.with_alu a' (Cpu.with_reg Cpu.PC (if t then x else Cpu.pc c) c)), d.
  split; [exact E|]. split; [exact E'|].
  assert (Ha : is_u16 a').
  { pose proof (CpuFacts.keeps_dispatch (I:=Mem.mem_wf) k (Cpu.Machine c d)
      (conj (same_cpu _ _ _ _ Hs) (same_mem _ _ _ _ Hs))) as H.
    rewrite E' in H. destruct H as (_ & (_ & Ha & _) & _). cbn [Cpu.cs] in Ha.
    by rewrite CpuFacts.alu_with_alu in Ha. }
  split.
  - assert (H1 : same z (if t then poke R7 x m else m) (Cpu.with_reg Cpu.PC (if t then x else Cpu.pc c) c) d).
    { destruct t; [|by destruct c]. apply (same_move z 7 (Some x)); [lia | | done].
      intros v [= <-]. apply u16_range. }
    eapply same_ext; [exact H1 | done | apply H1 | | | by destruct c].
    + apply CpuFacts.with_alu_wf; [done | apply H1].
    + intros p _. apply CpuPlaces.get_with_alu.
  - left. split; [done|]. by destruct t, c.
Qed.

Lemma halt_agrees z al i h m c d :
  same z m c d ->
  agree_after z h c (dispatch Instr.m_HALT (Machine al i h m)) (Instr.dispatch Instr.m_HALT (Cpu.Machine c d)).
Proof.
  intros Hs. exists al, i, true, m, (Cpu.with_halted 1 c), d. split_and!; [done | done | |].
  - eapply same_ext; [exact Hs | done | apply Hs | | | by destruct c].
    + apply CpuFacts.with_halted_wf; [lia | apply Hs].
    + intros [n|a] _; [|done]. cbn [get]. destruct (Cpu.register_ptr n); [apply CpuFacts.get_reg_with_halted | done].
  - right. by destruct c.
Qed.

Lemma bool_decide_some {A} (o : option A) : bool_decide (is_Some o) = true -> exists x, o = Some x.
Proof. intros H%bool_decide_eq_true. exact H. Qed.

(** A portable instruction keeps the relation. *)
Lemma instruction_agrees z z' al h m c d :
  same z m c d -> portable_instruction z (Cpu.ir c) c d = Some z' ->
  agree_after z' h c (exec_instruction (Machine al (Cpu.ir c) h m)) (Instr.exec_instruction (Cpu.Machine c d)).
Proof.
  intros Hs. set (i := Cpu.ir c).
  change (exec_instruction (Machine al i h m)) with (dispatch (Instr.decode i) (Machine al i h m)).
  change (Instr.exec_instruction (Cpu.Machine c d)) with (Instr.dispatch (Instr.decode i) (Cpu.Machine c d)).
  unfold portable_instruction.
  assert (Op : forall k, (if uses_carry k then None
      else match agreed k with Some z' => if portable_operands k i c d then Some z' else None | None => None end) = Some z' ->
    agree_after z' h c (dispatch k (Machine al i h m)) (Instr.dispatch k (Cpu.Machine c d))).
  { intros k. destruct (uses_carry k) eqn:Hk; [discriminate|]. destruct (agreed k) as [z0|] eqn:Hz; [|discriminate].
    unfold portable_operands. destruct (CpuSpec.double_table k) as [e|] eqn:He.
    - destruct (operand_of Src i c d) as [[ps us]|] eqn:Es; [|discriminate].
      destruct (bool_decide _) eqn:Ed; [|discriminate]. intros [= <-].
      apply bool_decide_some in Ed as [[pd ud] Ed]. by eapply double_agrees.
    - destruct (bool_decide _) eqn:Ed; [|discriminate]. intros [= <-]. apply bool_decide_some in Ed as [[p upd] Ed].
      assert (He' : exists e, CpuSpec.single_table k = Some e)
        by (clear -Hz He; destruct k; try discriminate; by eexists).
      destruct He' as [e He']. by eapply single_agrees. }
  specialize (Op (Instr.decode i)). revert Op.
  destruct (Instr.decode i) eqn:Ek; intros Op H; try (by apply Op).
  - injection H as <-. by apply (branch_agrees Instr.m_BR (fun _ _ _ _ => true)).
  - cbv zeta in H. destruct (_ && _) eqn:E1 in H; [|discriminate]. injection H as <-.
    apply andb_true_iff in E1 as [[-> E1]%andb_true_iff E2].
    eapply (branch_agrees Instr.m_BNE); [done | done | |].
    + cbn [displacement]. fold i. revert E1 E2. generalize (i8 (Z.land i 255)). intros o E1 E2. unfold i8, u8. mod_lia.
    + intros n v cy n' v' cy' b b' Hb. by rewrite Hb.
  - destruct z; [|discriminate]. injection H as <-.
    eapply (branch_agrees Instr.m_BEQ); [done | done | done |].
    intros n v cy n' v' cy' b b' Hb. by rewrite Hb.
  - injection H as <-. by apply halt_agrees.
Qed.
