(* ===== verification/AtticDrive.v ===== *)
(** * The retired emulator: the disk's protocol

    A driver writes a command to RXCS, and then moves bytes through RXDB, one
    for every time the transfer flag comes on.  [runs] states what a piece of
    the conversation does to the drive, to RXCS and to RXDB; the lemmas are one
    per round of the controller and one per access of the driver. *)
From S2P Require Import Prelude AtticMemory AtticFacts AtticDisk.
From S2P Require Disk.

(** The words of RXCS and RXDB (its low byte); nothing below them differs
    from the memory [m0]. *)
Record on_wire (m0 : memory) (v x : Z) (m : memory) : Prop := OnWire {
  wire_ok : mem_ok m;
  wire_rxcs : word RXCS m = v;
  wire_rxdb : peek RXDB m = x;
  wire_frame : forall a, a + 2 <= RXCS -> word a m = word a m0
}.

Record conversation := Conv { c_disk : disk; c_rxcs : Z; c_rxdb : Z }.

Definition runs {R} (f : D R) (a : conversation) (r : R) (b : conversation) : Prop :=
  forall m0 m, on_wire m0 (c_rxcs a) (c_rxdb a) m ->
    exists m', f (Controller (c_disk a) m) = Done r (Controller (c_disk b) m') /\
      on_wire m0 (c_rxcs b) (c_rxdb b) m'.

Lemma runs_ret {R} (r : R) a : runs (mret r) a r a.
Proof. intros m0 m H. by exists m. Qed.

Lemma runs_bind {R R'} (f : D R) (g : R -> D R') a r b r' c :
  runs f a r b -> runs (g r) b r' c -> runs (f ≫= g) a r' c.
Proof.
  intros Hf Hg m0 m H. destruct (Hf m0 m H) as (m1 & E1 & H1).
  destruct (Hg m0 m1 H1) as (m2 & E2 & H2). exists m2.
  by rewrite (bind_done _ _ _ _ _ E1).
Qed.

Lemma runs_meq {R} (f g : D R) a r b : f ≈ g -> runs f a r b -> runs g a r b.
Proof. intros E H m0 m Hm. destruct (H m0 m Hm) as (m' & ? & ?). exists m'. by rewrite <- E. Qed.

Lemma runs_to {R} (f : D R) a r b b' : runs f a r b -> b = b' -> runs f a r b'.
Proof. by intros H <-. Qed.

Ltac wire := unfold RXCS, RXDB, MEMBYTES in *; lia.

(** ** Accesses to the two registers *)
Lemma on_bus_done {R} (f : M memory R) d m r x :
  f m = Done r x -> on_bus f (Controller d m) = Done r (Controller d x).
Proof. intros E. unfold on_bus. cbn [memory_of]. by rewrite E. Qed.

Lemma poke_rxcs m0 v x w m :
  on_wire m0 v x m -> is_u16 w -> on_wire m0 w x (poke RXCS w m).
Proof.
  intros [Hok Hv Hx Hf] Hw. split.
  - apply poke_ok; [wire | done].
  - by apply word_poke.
  - unfold poke. rewrite !peek_poke_byte, !decide_False by wire. done.
  - intros a Ha. rewrite word_poke_ne by wire. auto.
Qed.

Lemma poke_rxdb m0 v x b m :
  on_wire m0 v x m -> is_u8 b ->
  on_wire m0 v b (poke RXDB b m) /\ on_wire m0 v b (poke_byte RXDB b m).
Proof.
  intros [Hok Hv Hx Hf] Hb. split; split.
  - apply poke_ok; [wire | done].
  - by rewrite word_poke_ne by wire.
  - unfold poke. rewrite peek_poke_byte, decide_False, peek_poke_byte, decide_True by wire.
    by apply u8_id.
  - intros a Ha. rewrite word_poke_ne by wire. auto.
  - apply poke_byte_ok; [wire | done].
  - unfold word. rewrite !peek_poke_byte, !decide_False by wire. exact Hv.
  - rewrite peek_poke_byte, decide_True by done. by apply u8_id.
  - intros a Ha. unfold word. rewrite !peek_poke_byte, !decide_False by wire. by apply Hf.
Qed.

Ltac start_run := intros m0 m H; cbn [c_disk c_rxcs c_rxdb] in *.

Section Accesses.
Context (d : disk) (v x : Z).

Lemma runs_read_rxcs : runs (on_bus (direct_read_word RXCS)) (Conv d v x) v (Conv d v x).
Proof.
  start_run. exists m. split; [|done]. apply on_bus_done. destruct H as [Hok Hrx _ _]. rewrite <- Hrx.
  rewrite direct_read_word_eq by (done || wire). unfold read_effect. by rewrite !decide_False.
Qed.

Lemma runs_or w :
  is_u16 v -> is_u16 w ->
  runs (on_bus (direct_write_word_OR RXCS w)) (Conv d v x) tt (Conv d (Z.lor v w) x).
Proof.
  intros Hv Hw. start_run. exists (poke RXCS (Z.lor v w) m). split.
  - apply on_bus_done. destruct H as [Hok Hrx _ _]. rewrite <- Hrx. apply word_or_eq; [done | wire | done].
  - eapply poke_rxcs; [exact H | by apply lor_u16].
Qed.

Lemma runs_write_rxcs w :
  is_u16 w -> runs (on_bus (direct_write_word RXCS w)) (Conv d v x) tt (Conv d w x).
Proof.
  intros Hw. start_run. exists (poke RXCS w m). split.
  - apply on_bus_done. destruct H as [Hok _ _ _]. by rewrite direct_write_word_eq by (done || wire).
  - by eapply poke_rxcs.
Qed.

Lemma runs_read_rxdb_n : runs (on_bus (direct_read_byte_n RXDB)) (Conv d v x) x (Conv d v x).
Proof.
  start_run. exists m. split; [|done]. apply on_bus_done. destruct H as [Hok _ Hx _]. rewrite <- Hx.
  apply byte_read_eq; [done | wire].
Qed.

Lemma runs_write_rxdb_n b :
  is_u8 b -> runs (on_bus (direct_write_byte_n RXDB b)) (Conv d v x) tt (Conv d v b).
Proof.
  intros Hb. start_run. exists (poke_byte RXDB b m). split.
  - apply on_bus_done. destruct H as [Hok _ _ _]. apply byte_write_eq; [done | wire].
  - by apply (poke_rxdb _ _ x).
Qed.

(** The driver's accesses, with the handlers behind them. *)
Lemma runs_data b :
  is_u16 v -> is_u8 b ->
  runs (on_bus (direct_write_word RXDB b)) (Conv d v x) tt (Conv d (clear_transfer v) b).
Proof.
  intros Hv Hb. start_run. destruct (poke_rxdb _ _ _ b _ H Hb) as [H1 _].
  exists (poke RXCS (clear_transfer v) (poke RXDB b m)). split.
  - apply on_bus_done. rewrite direct_write_word_eq by first [exact (wire_ok _ _ _ _ H) | lia | wire].
    unfold write_effect. rewrite decide_True by done. by rewrite (wire_rxcs _ _ _ _ H1).
  - eapply poke_rxcs; [exact H1 | by apply clear_transfer_u16].
Qed.

Lemma runs_take :
  is_u16 v ->
  runs (on_bus (direct_read_byte RXDB)) (Conv d v x) x (Conv d (clear_transfer v) 0).
Proof.
  intros Hv. start_run. destruct (poke_rxdb _ _ _ 0 _ H ltac:(lia)) as [H1 _].
  exists (poke RXCS (clear_transfer v) (poke RXDB 0 m)). split.
  - apply on_bus_done. rewrite direct_read_byte_eq by first [exact (wire_ok _ _ _ _ H) | wire].
    unfold read_effect. rewrite (decide_False (P := RXDB = TKB_LOC)), (decide_False (P := RXDB = TPB_LOC)),
      decide_True by done. by rewrite (wire_rxcs _ _ _ _ H), (wire_rxdb _ _ _ _ H).
  - eapply poke_rxcs; [exact H1 | by apply clear_transfer_u16].
Qed.

Lemma runs_upd f : runs (upd_drive f) (Conv d v x) tt (Conv (f d) v x).
Proof. start_run. by exists m. Qed.

Lemma runs_gets {R} (f : controller -> R) (g : disk -> R) :
  (forall c, f c = g (drive c)) -> runs (gets f) (Conv d v x) (g d) (Conv d v x).
Proof. intros E. start_run. exists m. split; [|done]. unfold gets. by rewrite E. Qed.

Lemma runs_buffer_write i b :
  i < SECTOR_SIZE ->
  runs (buffer_write i b) (Conv d v x) tt (Conv (set_buffer (<[Z.to_nat i := b]> (buffer d)) d) v x).
Proof.
  intros Hi. start_run. exists m. split; [|done]. unfold buffer_write.
  by destruct (Z.ltb_spec i SECTOR_SIZE); [|lia].
Qed.
End Accesses.

(** ** The rounds of the controller *)
Ltac u16_side := first [solve [auto with words] | solve [vm_compute; split; congruence]].

Ltac run_one :=
  lazymatch goal with
  | |- runs (mret _) _ _ _ => apply runs_ret
  | |- runs (on_bus (direct_read_word RXCS)) _ _ _ => apply runs_read_rxcs
  | |- runs (on_bus (direct_write_word_OR RXCS _)) _ _ _ => apply runs_or; u16_side
  | |- runs (on_bus (direct_write_word RXCS _)) _ _ _ => apply runs_write_rxcs; u16_side
  | |- runs (on_bus (direct_read_byte_n RXDB)) _ _ _ => apply runs_read_rxdb_n
  | |- runs (on_bus (direct_write_byte_n RXDB _)) _ _ _ => apply runs_write_rxdb_n; unfold SECTOR_SIZE in *; lia
  | |- runs (upd_drive _) _ _ _ => apply runs_upd
  | |- runs (buffer_write _ _) _ _ _ => apply runs_buffer_write; lia
  | |- runs (gets drive) _ _ _ => apply (runs_gets _ _ _ drive (fun d => d)); reflexivity
  | |- runs (gets (fun c => index (drive c))) _ _ _ => apply (runs_gets _ _ _ _ index); reflexivity
  end.

Ltac runs_walk :=
  cbv beta zeta; unfold when; decide_closed;
  lazymatch goal with
  | |- runs (_ ≫= _) _ _ _ => eapply runs_bind; [run_one | runs_walk]
  | |- runs (mret _) _ _ _ => run_one
  | |- runs (on_bus _) _ _ _ => run_one
  | |- runs (upd_drive _) _ _ _ => run_one
  | |- _ => idtac
  end.

Section Rounds.
Context (buf : list Z) (tr sec x : Z) (drv : option (list Z)).

(** Nothing to do: no command, or the driver's turn. *)
Lemma round_idle i v :
  is_u16 v -> Z.land RXCS_GO v = 0 ->
  let a := Conv (Disk buf i tr sec F_IDLE S_BEGIN drv) v x in runs disk_round a tt a.
Proof.
  intros Hv Hg a. unfold a, disk_round. runs_walk. rewrite Hg. runs_walk.
Qed.

Lemma round_fill_waits i :
  i <> SECTOR_SIZE ->
  let a := Conv (Disk buf i tr sec F_FILL_BUFFER S_FILL drv) RXCS_XFER x in runs disk_round a tt a.
Proof.
  intros Hi a. unfold a, disk_round. runs_walk. unfold fill_buffer. runs_walk.
  cbn [index]. rewrite (proj2 (Z.eqb_neq _ _) Hi). runs_walk.
Qed.

Lemma round_empty_waits i :
  i <> SECTOR_SIZE ->
  let a := Conv (Disk buf i tr sec F_EMPTY_BUFFER S_EMPTY drv) RXCS_XFER x in runs disk_round a tt a.
Proof.
  intros Hi a. unfold a, disk_round. runs_walk. unfold empty_buffer. runs_walk.
  cbn [index]. rewrite (proj2 (Z.eqb_neq _ _) Hi). runs_walk.
Qed.
(** The flag behind byte [i]: the transfer flag, or done behind the last one. *)
Definition next_flag (i : Z) : Z := if negb (i + 1 =? SECTOR_SIZE) then RXCS_XFER else RXCS_DONE.

Lemma next_flag_u16 i : is_u16 (next_flag i).
Proof. unfold next_flag, RXCS_XFER, RXCS_DONE. case_match; lia. Qed.

Lemma next_index_runs b i f st y :
  0 <= i < SECTOR_SIZE ->
  runs (next_index 0) (Conv (Disk b i tr sec f st drv) 0 y) tt
    (Conv (Disk b (i + 1) tr sec f st drv) (next_flag i) y).
Proof.
  intros Hi. pose proof (next_flag_u16 i) as Hf. unfold next_index.
  eapply runs_bind; [run_one|]. unfold set_index. cbn [buffer index track sector current_func state disk_drive].
  rewrite u8_id by (unfold SECTOR_SIZE in Hi; lia).
  eapply runs_bind; [run_one|]. cbn [index]. fold (next_flag i).
  rewrite Z.lxor_0_l. apply (runs_or _ 0); [lia | done].
Qed.

Lemma round_fill_byte i :
  0 <= i < SECTOR_SIZE ->
  runs disk_round (Conv (Disk buf i tr sec F_FILL_BUFFER S_FILL drv) 0 x) tt
    (Conv (Disk (<[Z.to_nat i := x]> buf) (i + 1) tr sec F_FILL_BUFFER S_FILL drv) (next_flag i) x).
Proof.
  intros Hi. unfold disk_round. runs_walk. unfold fill_buffer. runs_walk.
  cbn [index]. rewrite (proj2 (Z.eqb_neq i SECTOR_SIZE)) by lia. runs_walk.
  by apply next_index_runs.
Qed.

Lemma round_empty_byte i :
  0 <= i < SECTOR_SIZE ->
  runs disk_round (Conv (Disk buf i tr sec F_EMPTY_BUFFER S_EMPTY drv) 0 x) tt
    (Conv (Disk buf (i + 1) tr sec F_EMPTY_BUFFER S_EMPTY drv) (next_flag i) i).
Proof.
  intros Hi. unfold disk_round. runs_walk. unfold empty_buffer. runs_walk.
  cbn [index]. rewrite (proj2 (Z.eqb_neq i SECTOR_SIZE)) by lia. runs_walk.
  by apply next_index_runs.
Qed.

(** The end of a transfer, and of any function. *)
Lemma round_fill_ends v :
  runs disk_round (Conv (Disk buf SECTOR_SIZE tr sec F_FILL_BUFFER S_FILL drv) v x) tt
    (Conv (Disk buf 0 tr sec F_IDLE S_DONE drv) v x).
Proof.
  unfold disk_round. runs_walk. rewrite andb_false_r. unfold fill_buffer. runs_walk.
Qed.

Lemma round_empty_ends v :
  runs disk_round (Conv (Disk buf SECTOR_SIZE tr sec F_EMPTY_BUFFER S_EMPTY drv) v x) tt
    (Conv (Disk buf 0 tr sec F_IDLE S_DONE drv) v x).
Proof.
  unfold disk_round. runs_walk. rewrite andb_false_r. unfold empty_buffer. runs_walk.
Qed.

Lemma round_done i v :
  v = 0 \/ v = RXCS_DONE ->
  runs disk_round (Conv (Disk buf i tr sec F_IDLE S_DONE drv) v x) tt
    (Conv (Disk buf i tr sec F_IDLE S_BEGIN drv) RXCS_DONE x).
Proof.
  intros [-> | ->]; unfold disk_round; runs_walk.
Qed.

(** *** Reading and writing sectors *)
Section Sectors.
Context (f : disk_func) (transfer : disk_state) (effect : list Z -> disk -> disk).
Context (Hf : f = F_WRITE_SECTOR /\ transfer = S_WRITE \/ f = F_READ_SECTOR /\ transfer = S_READ).
Context (Hround : forall b i t s st o v, st <> S_BEGIN -> st <> S_DONE -> is_u16 v ->
  forall y e, runs (sector_function transfer effect) (Conv (Disk b i t s f st o) v y) tt e ->
    runs disk_round (Conv (Disk b i t s f st o) v y) tt e).

Ltac sector_walk := apply Hround; [discriminate | discriminate | lia |];
  unfold sector_function; runs_walk.

Lemma round_sector_waits i st :
  st = S_SECTOR \/ st = S_TRACK ->
  let a := Conv (Disk buf i tr sec f st drv) RXCS_XFER x in runs disk_round a tt a.
Proof.
  intros [-> | ->] a; unfold a, RXCS_XFER; sector_walk;
    destruct Hf as [[-> ->] | [-> ->]]; runs_walk.
Qed.

Lemma round_sector i :
  runs disk_round (Conv (Disk buf i tr sec f S_SECTOR drv) 0 x) tt
    (Conv (Disk buf i tr x f S_TRACK drv) RXCS_XFER x).
Proof. sector_walk. Qed.

Lemma round_track i :
  runs disk_round (Conv (Disk buf i tr sec f S_TRACK drv) 0 x) tt
    (Conv (Disk buf i x sec f transfer drv) 0 x).
Proof. sector_walk. Qed.

Lemma round_transfer i img :
  let d := Disk buf i tr sec f transfer (Some img) in
  runs disk_round (Conv d 0 x) tt (Conv (set_track 0 (set_sector 0 (is_done (effect img d)))) 0 x).
Proof.
  intros d. unfold d. apply Hround; [destruct Hf as [[-> ->] | [-> ->]]; discriminate.. | lia |].
  unfold sector_function.
  destruct Hf as [[-> ->] | [-> ->]]; (eapply runs_to; [runs_walk | reflexivity]).
Qed.
End Sectors.
End Rounds.

Lemma round_writes b i t s st o v :
  st <> S_BEGIN -> st <> S_DONE -> is_u16 v ->
  forall y e, runs write_sector (Conv (Disk b i t s F_WRITE_SECTOR st o) v y) tt e ->
    runs disk_round (Conv (Disk b i t s F_WRITE_SECTOR st o) v y) tt e.
Proof.
  intros H1 H2 Hv y e H. unfold disk_round.
  destruct st; try done; runs_walk; rewrite andb_false_r; decide_closed; exact H.
Qed.

Lemma round_reads b i t s st o v :
  st <> S_BEGIN -> st <> S_DONE -> is_u16 v ->
  forall y e, runs read_sector (Conv (Disk b i t s F_READ_SECTOR st o) v y) tt e ->
    runs disk_round (Conv (Disk b i t s F_READ_SECTOR st o) v y) tt e.
Proof.
  intros H1 H2 Hv y e H. unfold disk_round.
  destruct st; try done; runs_walk; rewrite andb_false_r; decide_closed; exact H.
Qed.

(** *** Commands *)
Lemma round_command fn f st v buf i tr sec x drv :
  (fn, f, st, v) ∈ [(0, F_FILL_BUFFER, S_FILL, RXCS_XFER); (1, F_EMPTY_BUFFER, S_EMPTY, 0);
                    (2, F_WRITE_SECTOR, S_SECTOR, RXCS_XFER); (3, F_READ_SECTOR, S_SECTOR, RXCS_XFER)] ->
  runs disk_round (Conv (Disk buf i tr sec F_IDLE S_BEGIN drv) (RXCS_GO + 2 * fn) x) tt
    (Conv (Disk buf i tr sec f st drv) v x).
Proof.
  rewrite !elem_of_cons, elem_of_nil.
  intros [[= -> -> -> ->] | [[= -> -> -> ->] | [[= -> -> -> ->] | [[= -> -> -> ->] | []]]]];
    unfold disk_round, start_function; cbn [switch]; (eapply runs_to; [runs_walk | reflexivity]).
Qed.

(** ** The driver *)

(** [k] rounds of the controller between two accesses. *)
Fixpoint rounds (k : nat) : D unit :=
  match k with O => mret tt | S k' => disk_round;; rounds k' end.

Definition command (k : nat) (fn : Z) : D unit :=
  on_bus (direct_write_word RXCS (RXCS_GO + 2 * fn));; rounds k.

Definition put (k : nat) (b : Z) : D unit := on_bus (direct_write_word RXDB b);; rounds k.

Fixpoint put_all (k : nat) (bs : list Z) : D unit :=
  match bs with [] => mret tt | b :: bs' => put k b;; put_all k bs' end.

Definition take_byte (k : nat) : D Z := b ← on_bus (direct_read_byte RXDB); rounds k;; mret b.

Fixpoint take_all (k n : nat) : D (list Z) :=
  match n with O => mret [] | S n' => b ← take_byte k; bs ← take_all k n'; mret (b :: bs) end.

(** The four functions, as a driver uses them. *)
Definition fill (k : nat) (bs : list Z) : D unit := command k 0;; put_all k bs.
Definition empty (k : nat) : D (list Z) := command k 1;; take_all k (Z.to_nat SECTOR_SIZE).
Definition write_at (k : nat) (s t : Z) : D unit := command k 2;; put k s;; put k t.
Definition read_at (k : nat) (s t : Z) : D unit := command k 3;; put k s;; put k t.

Lemma rounds_fix k a : runs disk_round a tt a -> runs (rounds k) a tt a.
Proof. intros H. induction k; [apply runs_ret | by eapply runs_bind]. Qed.

Lemma rounds_3 k a b c d :
  (3 <= k)%nat -> runs disk_round a tt b -> runs disk_round b tt c -> runs disk_round c tt d ->
  runs disk_round d tt d -> runs (rounds k) a tt d.
Proof.
  intros Hk Ha Hb Hc Hd. destruct k as [|[|[|k]]]; [lia..|]. cbn [rounds].
  do 3 (eapply runs_bind; [eassumption|]). by apply rounds_fix.
Qed.

Lemma rounds_1 k a b :
  (3 <= k)%nat -> runs disk_round a tt b -> runs disk_round b tt b -> runs (rounds k) a tt b.
Proof. intros. by apply (rounds_3 k a b b b). Qed.

Lemma rounds_2 k a b c :
  (3 <= k)%nat -> runs disk_round a tt b -> runs disk_round b tt c -> runs disk_round c tt c ->
  runs (rounds k) a tt c.
Proof. intros. by apply (rounds_3 k a b c c). Qed.

Lemma transfer_clears : clear_transfer RXCS_XFER = 0 /\ clear_transfer RXCS_DONE = RXCS_DONE.
Proof. done. Qed.

Section Driver.
Context (k : nat) (Hk : (3 <= k)%nat).

(** The drive between two functions. *)
Definition idle (buf : list Z) (t s v x : Z) (drv : option (list Z)) : conversation :=
  Conv (Disk buf 0 t s F_IDLE S_BEGIN drv) v x.

Lemma idle_rounds buf t s v x drv :
  v = 0 \/ v = RXCS_DONE ->
  runs disk_round (idle buf t s v x drv) tt (idle buf t s v x drv).
Proof. intros [-> | ->]; by apply round_idle. Qed.

Lemma command_runs fn buf t s v x drv c :
  0 <= fn <= 3 ->
  runs (rounds k) (idle buf t s (RXCS_GO + 2 * fn) x drv) tt c ->
  runs (command k fn) (idle buf t s v x drv) tt c.
Proof.
  intros Hf H. eapply runs_bind; [|exact H].
  apply runs_write_rxcs. unfold RXCS_GO. lia.
Qed.

Lemma put_runs d v x b c :
  is_u16 v -> is_u8 b -> runs (rounds k) (Conv d (clear_transfer v) b) tt c ->
  runs (put k b) (Conv d v x) tt c.
Proof. intros Hv Hb H. eapply runs_bind; [by apply runs_data | exact H]. Qed.

(** *** Filling the buffer *)
Lemma put_all_runs t s drv bs : forall buf i x,
  bs <> [] -> Forall (fun b => is_u8 b) bs -> 0 <= i -> i + Z.of_nat (length bs) = SECTOR_SIZE ->
  length buf = Z.to_nat SECTOR_SIZE ->
  runs (put_all k bs) (Conv (Disk buf i t s F_FILL_BUFFER S_FILL drv) RXCS_XFER x) tt
    (idle (take (Z.to_nat i) buf ++ bs) t s RXCS_DONE (foldl (fun _ b => b) x bs) drv).
Proof using Hk.
  induction bs as [|b bs IH]; intros buf i x Hne Hb Hi Hlen Hbuf; [done|].
  apply Forall_cons_1 in Hb as [Hb Hbs]. cbn [length] in Hlen.
  assert (Ht : take (S (Z.to_nat i)) (<[Z.to_nat i := b]> buf) = take (Z.to_nat i) buf ++ [b]).
  { rewrite (take_S_r _ _ b) by (apply list_lookup_insert_eq; unfold SECTOR_SIZE in *; lia).
    by rewrite take_insert_ge by lia. }
  assert (Hi' : 0 <= i < SECTOR_SIZE) by lia.
  pose proof (round_fill_byte buf t s b drv i Hi') as Hr. unfold next_flag in Hr.
  cbn [put_all foldl].
  destruct bs as [|b' bs].
  - eapply runs_bind; [apply put_runs; [unfold RXCS_XFER; lia | done |] | apply runs_ret].
    assert (Hend : i + 1 = SECTOR_SIZE) by (cbn in Hlen; lia).
    rewrite Hend in Hr. change (if negb _ then _ else _) with RXCS_DONE in Hr.
    eapply rounds_3; [exact Hk | exact Hr | apply round_fill_ends | | ].
    + eapply runs_to; [apply round_done; by right|]. unfold idle. repeat f_equal.
      rewrite <- Ht, firstn_all2; [done|]. rewrite length_insert, Hbuf. unfold SECTOR_SIZE in *. lia.
    + apply idle_rounds. by right.
  - assert (Hend : i + 1 <> SECTOR_SIZE) by (cbn in Hlen; lia).
    rewrite (proj2 (Z.eqb_neq _ _) Hend) in Hr. cbn [negb] in Hr.
    eapply runs_bind.
    + apply put_runs; [unfold RXCS_XFER; lia | done |].
      eapply rounds_1; [exact Hk | exact Hr | by apply round_fill_waits].
    + eapply runs_to; [apply IH; [done | done | lia | cbn in *; lia | by rewrite length_insert]|].
      replace (Z.to_nat (i + 1)) with (S (Z.to_nat i)) by lia. by rewrite Ht, <- app_assoc.
Qed.

Lemma fill_runs buf t s v x drv bs :
  length buf = Z.to_nat SECTOR_SIZE -> length bs = Z.to_nat SECTOR_SIZE ->
  Forall (fun b => is_u8 b) bs ->
  runs (fill k bs) (idle buf t s v x drv) tt
    (idle bs t s RXCS_DONE (foldl (fun _ b => b) x bs) drv).
Proof using Hk.
  intros Hbuf Hlen Hb. eapply runs_bind.
  - apply command_runs; [lia|].
    eapply rounds_1; [exact Hk | apply (round_command 0 F_FILL_BUFFER S_FILL RXCS_XFER); rewrite !elem_of_cons; tauto
      | by apply round_fill_waits].
  - eapply runs_to; [apply put_all_runs; [by intros -> | done | lia | rewrite Hlen; done | done]|]. done.
Qed.

(** *** Emptying it *)

(** The controller with byte [i - 1] on the wire, of a buffer of 128. *)
Definition giving (buf : list Z) (t s i : Z) (drv : option (list Z)) : conversation :=
  if decide (i = SECTOR_SIZE) then idle buf t s RXCS_DONE (i - 1) drv
  else Conv (Disk buf i t s F_EMPTY_BUFFER S_EMPTY drv) RXCS_XFER (i - 1).

Lemma rounds_give buf t s i x drv :
  0 <= i < SECTOR_SIZE ->
  runs (rounds k) (Conv (Disk buf i t s F_EMPTY_BUFFER S_EMPTY drv) 0 x) tt
    (giving buf t s (i + 1) drv) /\
  (forall a, runs disk_round a tt (Conv (Disk buf i t s F_EMPTY_BUFFER S_EMPTY drv) 0 x) ->
     i + 1 <> SECTOR_SIZE -> runs (rounds k) a tt (giving buf t s (i + 1) drv)).
Proof using Hk.
  intros Hi. pose proof (round_empty_byte buf t s x drv i Hi) as Hr. unfold next_flag in Hr.
  unfold giving. replace (i + 1 - 1) with i by lia. case_decide as Hend.
  - split; [|done]. rewrite Hend in Hr. change (if negb _ then _ else _) with RXCS_DONE in Hr.
    eapply rounds_3; [exact Hk | exact Hr | apply round_empty_ends | apply round_done; by right
      | apply idle_rounds; by right].
  - rewrite (proj2 (Z.eqb_neq _ _) Hend) in Hr. cbn [negb] in Hr. split.
    + eapply rounds_1; [exact Hk | exact Hr | by apply round_empty_waits].
    + intros a Ha _. eapply rounds_2; [exact Hk | exact Ha | exact Hr | by apply round_empty_waits].
Qed.

Lemma take_all_runs buf t s drv n : forall i,
  1 <= i -> i + Z.of_nat n = SECTOR_SIZE + 1 -> (0 < n)%nat ->
  runs (take_all k n) (giving buf t s i drv) (seqZ (i - 1) (Z.of_nat n)) (idle buf t s RXCS_DONE 0 drv).
Proof using Hk.
  induction n as [|n IH]; intros i Hi Hn Hpos; [lia|].
  rewrite seqZ_cons by lia. replace (Z.pred (Z.of_nat (S n))) with (Z.of_nat n) by lia.
  replace (Z.succ (i - 1)) with (i + 1 - 1) by lia. cbn [take_all].
  assert (T : runs (take_byte k) (giving buf t s i drv) (i - 1)
    (if decide (i = SECTOR_SIZE) then idle buf t s RXCS_DONE 0 drv else giving buf t s (i + 1) drv)).
  { unfold take_byte. unfold giving at 1. case_decide as E.
    - eapply runs_bind; [apply runs_take; unfold RXCS_DONE; lia|]. rewrite (proj2 transfer_clears).
      eapply runs_bind; [apply rounds_fix, idle_rounds; by right | apply runs_ret].
    - eapply runs_bind; [apply runs_take; unfold RXCS_XFER; lia|]. rewrite (proj1 transfer_clears).
      eapply runs_bind; [apply rounds_give; lia | apply runs_ret]. }
  eapply runs_bind; [exact T|]. case_decide as E.
  - assert (n = O) as -> by lia. eapply runs_bind; apply runs_ret.
  - eapply runs_bind; [apply IH; lia | apply runs_ret].
Qed.

Lemma empty_runs buf t s v x drv :
  runs (empty k) (idle buf t s v x drv) (seqZ 0 128) (idle buf t s RXCS_DONE 0 drv).
Proof using Hk.
  eapply runs_bind.
  - apply command_runs; [lia|]. apply (proj2 (rounds_give buf t s 0 x drv ltac:(unfold SECTOR_SIZE; lia)));
      [| done]. apply (round_command 1 F_EMPTY_BUFFER S_EMPTY 0). rewrite !elem_of_cons; tauto.
  - apply (take_all_runs buf t s drv (Z.to_nat SECTOR_SIZE) 1); unfold SECTOR_SIZE; lia.
Qed.

(** *** Sectors *)
Section SectorDriver.
Context (fn : Z) (f : disk_func) (transfer : disk_state) (effect : list Z -> disk -> disk).
Context (Hf : f = F_WRITE_SECTOR /\ transfer = S_WRITE \/ f = F_READ_SECTOR /\ transfer = S_READ).
Context (Hfn : (fn, f, S_SECTOR, RXCS_XFER) ∈
  [(0, F_FILL_BUFFER, S_FILL, RXCS_XFER); (1, F_EMPTY_BUFFER, S_EMPTY, 0);
   (2, F_WRITE_SECTOR, S_SECTOR, RXCS_XFER); (3, F_READ_SECTOR, S_SECTOR, RXCS_XFER)]).
Context (Hround : forall b i t s st o v, st <> S_BEGIN -> st <> S_DONE -> is_u16 v ->
  forall y e, runs (sector_function transfer effect) (Conv (Disk b i t s f st o) v y) tt e ->
    runs disk_round (Conv (Disk b i t s f st o) v y) tt e).

Lemma sector_runs buf t0 s0 s t v x img buf' img' :
  0 <= fn <= 3 -> is_u8 s -> is_u8 t ->
  let d := Disk buf 0 t s f transfer (Some img) in
  is_done (effect img d) = Disk buf' 0 t s F_IDLE S_DONE img' ->
  runs (command k fn;; put k s;; put k t) (idle buf t0 s0 v x (Some img)) tt
    (idle buf' 0 0 RXCS_DONE t img').
Proof using Hk Hf Hfn Hround.
  intros Hr Hs Ht d Hd. eapply runs_bind.
  { apply command_runs; [done|]. eapply rounds_1; [exact Hk | by apply (round_command fn f S_SECTOR RXCS_XFER)|].
    by apply (round_sector_waits buf t0 s0 x (Some img) f transfer effect); [| |left]. }
  eapply runs_bind.
  { apply put_runs; [unfold RXCS_XFER; lia | done|].
    eapply rounds_1; [exact Hk | eapply round_sector; exact Hround|].
    by apply (round_sector_waits buf t0 s s (Some img) f transfer effect); [| |right]. }
  apply put_runs; [unfold RXCS_XFER; lia | done|].
  eapply rounds_3; [exact Hk | eapply round_track; exact Hround
    | apply (round_transfer buf t s t f transfer effect Hf Hround) | |].
  - fold d. rewrite Hd. apply round_done. by left.
  - apply idle_rounds. by right.
Qed.
End SectorDriver.

Definition sector_offset (s t : Z) : Z := 3328 * t + 128 * s.

Lemma disk_offset_eq b i t s f st o :
  is_u8 s -> is_u8 t -> disk_offset (Disk b i t s f st o) = sector_offset s t.
Proof. intros Hs Ht. unfold disk_offset, sector_offset. cbn [track sector]. by rewrite !u32_id by (rewrite ?u32_id; lia). Qed.

Lemma write_at_runs buf t0 s0 s t v x img :
  is_u8 s -> is_u8 t ->
  runs (write_at k s t) (idle buf t0 s0 v x (Some img)) tt
    (idle buf 0 0 RXCS_DONE t (Some (Disk.file_write (sector_offset s t) buf img))).
Proof using Hk.
  intros Hs Ht. eapply (sector_runs 2 F_WRITE_SECTOR S_WRITE); [by left | rewrite !elem_of_cons; tauto
    | exact round_writes | lia | done | done |].
  cbv beta zeta. by rewrite disk_offset_eq.
Qed.

Lemma read_at_runs buf t0 s0 s t v x img :
  is_u8 s -> is_u8 t ->
  let bs := Disk.file_read (sector_offset s t) 128 img in
  runs (read_at k s t) (idle buf t0 s0 v x (Some img)) tt
    (idle (bs ++ drop (length bs) buf) 0 0 RXCS_DONE t (Some img)).
Proof using Hk.
  intros Hs Ht bs. eapply (sector_runs 3 F_READ_SECTOR S_READ); [by right | rewrite !elem_of_cons; tauto
    | exact round_reads | lia | done | done |].
  cbv beta zeta. by rewrite disk_offset_eq.
Qed.
End Driver.
