(* ===== verification/AtticDump.v ===== *)
(** * The retired emulator: the dump and single steps

    [dump_state] of [attic/src/machine.c], whose text goes to the same output as
    the printer's, and the loop of [run_machine] with the [STEP] flag set: a dump
    and a character of the input before every instruction. *)
From S2P Require Import Prelude Digits AtticMemory AtticAddressing AtticInstr AtticMachine AtticFacts.
From Stdlib Require Import String.
#[local] Open Scope Z_scope.

Definition print (t : list Z) : C unit :=
  modify (fun c => Console (cpu c) (stdin c) (stdout c ++ t)%list).

(** [printf("... 0o%07o\n", v)] *)
Definition print_octal (name : string) (v : Z) : C unit :=
  print (chars name ++ chars "0o" ++ show_padded 7 8 v ++ [newline])%list.

(** Row [a] of the memory: every word is read twice, the first time for
    [all_zero], the second time for the row. *)
Fixpoint dump_row (n : nat) (a : Z) : M memory (bool * list Z) :=
  match n with
  | O => mret (true, [])
  | S n' =>
      first ← direct_read_word a;
      second ← direct_read_word a;
      '(all_zero, row) ← dump_row n' (a + 2);
      mret ((first =? 0) && all_zero, second :: row)
  end.

Definition print_row (r : Z) (row : list Z) : C unit :=
  print (chars "0o" ++ show_padded 5 8 r ++ chars ": " ++
         (row ≫= fun w => chars "0o" ++ show_padded 7 8 w ++ [space])%list ++ [newline])%list.

(** The rows from [r] on, [fuel] at most; 1024 are enough for [MEMWORDS]. *)
Fixpoint dump_rows (fuel : nat) (r : Z) : C unit :=
  match fuel with
  | O => mret tt
  | S fuel' =>
      if r <? MEMWORDS then
        '(all_zero, row) ← on_memory (dump_row 16 r);
        (if all_zero && (r + 16 <? MEMWORDS) && negb (r =? 0) then mret tt else print_row r row);;
        dump_rows fuel' (r + 32)
      else mret tt
  end.

Definition print_register (name : string) (r : Z) : C unit :=
  v ← on_memory (get_r r); print_octal name v.

Definition dump_state (dump_memory : bool) : C unit :=
  print_register "PSW: " R_PS;;
  print_register "PC : " R_PC;;
  print_register "SP : " R_SP;;
  ir ← gets (fun c => IR (cpu c)); print_octal "IR : " ir;;
  alu ← gets (fun c => ALU (cpu c)); print_octal "ALU: " alu;;
  print_register "R0 : " 0;; print_register "R1 : " 1;; print_register "R2 : " 2;;
  print_register "R3 : " 3;; print_register "R4 : " 4;; print_register "R5 : " 5;;
  (if dump_memory then dump_rows 1024 0 else mret tt);;
  print [newline].

(** A round of [run_machine] with [STEP]. *)
Definition step_round : C unit :=
  on_cpu (
    PC ← reg_get R_PC;
    on_mem (modify (set_src PC));;
    ir ← on_mem read_word; set_ir ir;;
    reg_word_advance R_PC);;
  dump_state true;;
  fgetc;;
  on_cpu exec_instruction;;
  exec_tty_kb;;
  exec_tty_print.

(** ** The rows *)

(** What reading the words of a row twice does to the memory. *)
Definition reads (l : list Z) (m : memory) : memory := foldl (fun m a => read_effect a (read_effect a m)) m l.

Definition row_words (r : Z) : list Z := map (fun i => r + 2 * i) (seqZ 0 16).

(** The terminal behind a dump: both buffers read and thereby emptied. *)
Definition cleared (m : memory) : memory :=
  read_effect TPB_LOC (read_effect TPB_LOC (read_effect TKB_LOC (read_effect TKB_LOC m))).

Lemma cleared_ok m : mem_ok m -> mem_ok (cleared m).
Proof. intros H. by repeat apply read_effect_ok. Qed.

Lemma read_effect_none a m : a <> TKB_LOC -> a <> TPB_LOC -> a <> RXDB -> read_effect a m = m.
Proof. intros. unfold read_effect. by rewrite !decide_False. Qed.

Lemma dump_row_reads n : forall a m,
  mem_ok m -> 0 <= a -> a + 2 * Z.of_nat n <= MEMBYTES - 1 ->
  exists z row, dump_row n a m = Done (z, row) (reads (map (fun i => a + 2 * i) (seqZ 0 (Z.of_nat n))) m) /\
    mem_ok (reads (map (fun i => a + 2 * i) (seqZ 0 (Z.of_nat n))) m).
Proof.
  induction n as [|n IH]; intros a m Hm Ha Hn; [by exists true, []|].
  cbn [dump_row]. rewrite (bind_done _ _ _ _ _ (direct_read_word_eq m Hm a ltac:(lia))).
  assert (H1 : mem_ok (read_effect a m)) by by apply read_effect_ok.
  rewrite (bind_done _ _ _ _ _ (direct_read_word_eq _ H1 a ltac:(lia))).
  assert (H2 : mem_ok (read_effect a (read_effect a m))) by by apply read_effect_ok.
  destruct (IH (a + 2) _ H2 ltac:(lia) ltac:(lia)) as (z & row & E & Hok).
  rewrite (bind_done _ _ _ _ _ E).
  assert (Es : map (fun i => a + 2 * i) (seqZ 0 (Z.of_nat (S n)))
    = a :: map (fun i => a + 2 + 2 * i) (seqZ 0 (Z.of_nat n))).
  { rewrite seqZ_cons by lia. cbn [map]. f_equal; [lia|].
    replace (Z.pred (Z.of_nat (S n))) with (Z.of_nat n) by lia.
    change (Z.succ 0) with (1 + 0). rewrite <- fmap_add_seqZ. change (fmap (M:=list)) with (@map Z Z).
    rewrite map_map. apply map_ext. lia. }
  rewrite Es. cbn [reads foldl]. eexists _, _. split; [reflexivity | exact Hok].
Qed.

(** Only the row of the terminal has words with handlers. *)
Lemma reads_row r m : r mod 32 = 0 -> 0 <= r < MEMWORDS ->
  reads (row_words r) m = if decide (r = TKS_LOC) then cleared m else m.
Proof.
  intros Hr H. unfold MEMWORDS in H. case_decide as E.
  - subst. assert (N : forall a m, a <> TKB_LOC /\ a <> TPB_LOC /\ a <> RXDB -> read_effect a (read_effect a m) = m)
      by (intros a m' (?&?&?); by rewrite !read_effect_none).
    unfold reads. change (row_words TKS_LOC) with [8000; 8002; 8004; 8006; 8008; 8010; 8012; 8014; 8016; 8018; 8020; 8022; 8024; 8026; 8028; 8030].
    cbn [foldl]. rewrite (N 8030), (N 8028), (N 8026), (N 8024), (N 8022), (N 8020), (N 8018), (N 8016), (N 8014), (N 8012), (N 8010), (N 8008), (N 8004), (N 8000)
      by (unfold TKB_LOC, TPB_LOC, RXDB; lia). reflexivity.
  - assert (Hl : forall a, a ∈ row_words r -> a <> TKB_LOC /\ a <> TPB_LOC /\ a <> RXDB).
    { intros a (i & -> & Hi%elem_of_seqZ)%list_elem_of_fmap. unfold TKS_LOC, TKB_LOC, TPB_LOC, RXDB in *.
      assert (r <> 8000) by done. mod_lia. }
    unfold reads. revert Hl. generalize (row_words r). intros l. revert m.
    induction l as [|a l IH]; intros m Hl; [done|]. cbn [foldl].
    destruct (Hl a) as (?&?&?); [by left|]. rewrite !read_effect_none by done.
    apply IH. intros b Hb. apply Hl. by right.
Qed.

(** ** The whole dump *)

(** A computation that adds to the output and turns the memory [m] into [m']. *)
Definition prints (m m' : memory) (f : C unit) : Prop :=
  forall al i h inp out, exists t, f (Console (Machine al i h m) inp out)
    = Done tt (Console (Machine al i h m') inp (out ++ t)).

Lemma prints_print m t : prints m m (print t).
Proof. intros al i h inp out. by exists t. Qed.

Lemma prints_ret m : prints m m (mret tt).
Proof. intros al i h inp out. exists []. by rewrite app_nil_r. Qed.

Lemma prints_seq m1 m2 m3 f g : prints m1 m2 f -> prints m2 m3 g -> prints m1 m3 (f;; g).
Proof.
  intros Hf Hg al i h inp out. destruct (Hf al i h inp out) as [t Et]. rewrite (bind_done _ _ _ _ _ Et).
  destruct (Hg al i h inp (out ++ t)) as [t' Et']. exists (t ++ t'). by rewrite Et', app_assoc.
Qed.

Lemma prints_gets {R} m m' (g : console -> R) k : (forall v, prints m m' (k v)) -> prints m m' (gets g ≫= k).
Proof. intros H al i h inp out. apply H. Qed.

Lemma prints_memory {R} m m1 m' (g : M memory R) r k :
  g m = Done r m1 -> prints m1 m' (k r) -> prints m m' (on_memory g ≫= k).
Proof.
  intros Hg Hk al i h inp out.
  rewrite (bind_done _ _ _ r (Console (Machine al i h m1) inp out)); [apply Hk|].
  unfold on_memory, on_cpu, on_mem. cbn [cpu mem]. by rewrite Hg.
Qed.

Lemma prints_rows fuel : forall r m,
  mem_ok m -> r mod 32 = 0 -> 0 <= r -> MEMWORDS <= r + 32 * Z.of_nat fuel ->
  prints m (if decide (r <= TKS_LOC) then cleared m else m) (dump_rows fuel r).
Proof.
  induction fuel as [|fuel IH]; intros r m Hm Hr H0 Hf; cbn [dump_rows].
  - unfold MEMWORDS, TKS_LOC in *. rewrite decide_False by lia. apply prints_ret.
  - destruct (Z.ltb_spec r MEMWORDS).
    + destruct (dump_row_reads 16 r m Hm H0) as (z & row & E & Hok); [unfold MEMWORDS, MEMBYTES in *; lia|].
      change (map _ _) with (row_words r) in E, Hok. rewrite reads_row in E, Hok by done.
      set (m1 := if decide (r = TKS_LOC) then cleared m else m) in *.
      eapply prints_memory; [exact E|]. cbv beta iota. eapply prints_seq.
      { destruct (_ && _); [apply prints_ret | apply prints_print]. }
      replace (if decide (r <= TKS_LOC) then cleared m else m)
        with (if decide (r + 32 <= TKS_LOC) then cleared m1 else m1); [apply IH; [done | mod_lia | lia | lia]|].
      unfold m1, TKS_LOC. repeat case_decide; try done; mod_lia.
    + unfold MEMWORDS, TKS_LOC in *. rewrite decide_False by lia. apply prints_ret.
Qed.

Lemma prints_register m name r : mem_ok m -> prints m m (print_register name r).
Proof.
  intros Hm. unfold print_register. eapply prints_memory; [|apply prints_print].
  apply word_read_eq; [done|].
  unfold translate_register, switch, MEMBYTES, R0, R1, R2, R3, R4, R5, R6, R7, R8. repeat case_match; lia.
Qed.

Lemma prints_dump d m : mem_ok m -> prints m (if d : bool then cleared m else m) (dump_state d).
Proof.
  intros Hm. pose proof (prints_rows 1024 0 m Hm eq_refl ltac:(done) ltac:(done)) as Hrows.
  unfold dump_state, print_octal. destruct d;
  repeat first [apply prints_gets; intros ?
    | eapply prints_seq; [first [by apply prints_register | apply prints_print | exact Hrows | apply prints_ret] |]
    | apply prints_print].
Qed.

(** What the dump of the memory leaves of the terminal's registers. *)
Ltac tty_words := repeat first [rewrite word_poke_ne by (unfold TKS_LOC, TKB_LOC, TPS_LOC, TPB_LOC in *; lia)
  | rewrite word_poke by (lia || assumption)]; try done.

Lemma read_TKB_words m :
  word TKS_LOC (read_effect TKB_LOC m) = 0 /\ word TKB_LOC (read_effect TKB_LOC m) = 0 /\
  forall a, a + 2 <= TKS_LOC \/ TKB_LOC + 2 <= a -> word a (read_effect TKB_LOC m) = word a m.
Proof.
  unfold read_effect. rewrite decide_True by done.
  split_and!; [tty_words | tty_words | intros a Ha; tty_words].
Qed.

Lemma read_TPB_words m : mem_ok m ->
  word TPB_LOC (read_effect TPB_LOC m) = 0 /\
  word TPS_LOC (read_effect TPB_LOC m) = Z.lor (word TPS_LOC m) TPS_READY /\
  forall a, a + 2 <= TPS_LOC \/ TPB_LOC + 2 <= a -> word a (read_effect TPB_LOC m) = word a m.
Proof.
  intros Hm. assert (Hl : is_u16 (Z.lor (word TPS_LOC m) TPS_READY))
    by (apply lor_u16; [by apply word_u16 | unfold TPS_READY; lia]).
  unfold read_effect. rewrite decide_False, decide_True by done.
  split_and!; [tty_words | tty_words | intros a Ha; tty_words].
Qed.

Lemma cleared_words m : mem_ok m ->
  word TKS_LOC (cleared m) = 0 /\ word TKB_LOC (cleared m) = 0 /\ word TPB_LOC (cleared m) = 0 /\
  word TPS_LOC (cleared m) = Z.lor (word TPS_LOC m) TPS_READY /\
  forall a, a + 2 <= TKS_LOC \/ TPB_LOC + 2 <= a -> word a (cleared m) = word a m.
Proof.
  intros Hm. unfold cleared. set (m1 := read_effect TKB_LOC m). set (m2 := read_effect TKB_LOC m1).
  set (m3 := read_effect TPB_LOC m2).
  assert (H2 : mem_ok m2) by by repeat apply read_effect_ok.
  assert (H3 : mem_ok m3) by by apply read_effect_ok.
  destruct (read_TKB_words m) as (_ & _ & A1), (read_TKB_words m1) as (B1 & B2 & B3).
  destruct (read_TPB_words m2 H2) as (_ & C2 & C3), (read_TPB_words m3 H3) as (D1 & D2 & D3).
  fold m1 in A1. fold m2 in B1, B2, B3. fold m3 in C2, C3. unfold TKS_LOC, TKB_LOC, TPS_LOC, TPB_LOC in *.
  split_and!; [by rewrite D3, C3 by lia | by rewrite D3, C3 by lia | done | |].
  - rewrite D2, C2, B3, A1 by lia. by rewrite <- Z.lor_assoc, Z.lor_diag.
  - intros a Ha. by rewrite D3, C3, B3, A1 by lia.
Qed.
