(* ===== verification/DumpProps.v ===== *)
(** * Properties of the retired emulator's dump *)
From S2P Require Import Prelude Digits AtticMemory AtticAddressing AtticInstr AtticMachine AtticFacts.
From S2P Require Import AtticSafe AtticTty AtticDump.

(** The front of a single step, up to the instruction. *)
Lemma step_round_dumped al i h m inp out :
  console_ok (Console (Machine al i h m) inp out) ->
  step_round (Console (Machine al i h m) inp out) = Fault \/
  exists c, step_round (Console (Machine al i h m) inp out)
    = (on_cpu exec_instruction;; exec_tty_kb;; exec_tty_print) c /\
    word TKS_LOC (mem (cpu c)) = 0 /\ word TKB_LOC (mem (cpu c)) = 0 /\ stdin c = tail inp.
Proof.
  intros Hc. unfold step_round. set (fetch := reg_get R_PC ≫= _).
  assert (Hf : partial machine_ok fetch (fun _ => True)) by (unfold fetch; machine_walk).
  specialize (Hf _ (ok_cpu _ Hc)). cbn [cpu] in Hf.
  destruct (fetch _) as [[] [al1 i1 h1 m1]| |] eqn:E; [right|done|left].
  2:{ apply bind_fault. unfold on_cpu. cbn [cpu]. by rewrite E. }
  rewrite (bind_done _ _ _ tt (Console (Machine al1 i1 h1 m1) inp out))
    by (unfold on_cpu; cbn [cpu]; by rewrite E).
  destruct Hf as [_ Hm1]. assert (H1 : mem_ok m1) by apply Hm1.
  destruct (prints_dump true m1 H1 al1 i1 h1 inp out) as [t Et]. destruct (cleared_words m1 H1) as (Hw1 & Hw2 & _).
  exists (Console (Machine al1 i1 h1 (cleared m1)) (tail inp) (out ++ t)). split; [|done].
  rewrite (bind_done _ _ _ _ _ Et). by destruct inp.
Qed.

Lemma next_input_u16 inp : Forall (fun b => is_u8 b) inp -> is_u16 (next_input inp).
Proof. intros Hi. destruct inp as [|b l]; cbn; [apply u16_range | apply Forall_cons_1 in Hi as [??]; lia]. Qed.

(** C39: The dump of the memory is not an observation.  [dump_state] prints and, if
    it prints the memory too, reads the registers of the terminal as a program
    would: keyboard status, keyboard buffer and printer buffer are 0 afterwards and
    READY is set, all other words below and above are untouched.  In the single-step
    mode that dump runs before every instruction: every instruction finds an empty
    keyboard, and a program that asks for a character and reads it on a later
    instruction reads 0, whatever was typed, with two characters of the input gone. *)
Theorem dump_empties_terminal al i h m inp out :
  mem_ok m ->
  (exists t, dump_state false (Console (Machine al i h m) inp out)
    = Done tt (Console (Machine al i h m) inp (out ++ t))) /\
  (exists t m', dump_state true (Console (Machine al i h m) inp out)
    = Done tt (Console (Machine al i h m') inp (out ++ t)) /\
    word TKS_LOC m' = 0 /\ word TKB_LOC m' = 0 /\ word TPB_LOC m' = 0 /\
    word TPS_LOC m' = Z.lor (word TPS_LOC m) TPS_READY /\
    forall a, a + 2 <= TKS_LOC \/ TPB_LOC + 2 <= a -> word a m' = word a m) /\
  (console_ok (Console (Machine al i h m) inp out) ->
    step_round (Console (Machine al i h m) inp out) = Fault \/
    exists c, step_round (Console (Machine al i h m) inp out)
      = (on_cpu exec_instruction;; exec_tty_kb;; exec_tty_print) c /\
      word TKS_LOC (mem (cpu c)) = 0 /\ word TKB_LOC (mem (cpu c)) = 0 /\ stdin c = tail inp) /\
  (Forall (fun b => is_u8 b) inp ->
    exists t m', (on_memory (direct_write_word TKS_LOC TKS_RDRENB);; exec_tty_kb;; dump_state true;; fgetc;;
      on_memory (direct_read_word TKB_LOC)) (Console (Machine al i h m) inp out)
    = Done 0 (Console (Machine al i h m') (tail (tail inp)) (out ++ t))).
Proof.
  intros Hm. split_and!.
  - by apply (prints_dump false).
  - destruct (prints_dump true m Hm al i h inp out) as [t Et].
    exists t, (cleared m). split; [exact Et | by apply cleared_words].
  - intros Hc. by apply step_round_dumped.
  - intros Hi. set (ch := next_input inp). pose proof (next_input_u16 inp Hi) as Hn. fold ch in Hn.
    rewrite (bind_done _ _ _ _ _ (on_memory_done _ _ _ _ _ _ _ _ _
      (write_tty m TKS_LOC TKS_RDRENB Hm ltac:(unfold TKS_RDRENB; lia) ltac:(tty_plain)))).
    set (m1 := poke TKS_LOC TKS_RDRENB m). assert (H1 : mem_ok m1) by (unfold m1; tty_ok).
    rewrite (bind_done _ _ _ _ _ (keyboard_closed al i h m1 inp out H1 Hi ltac:(by apply word_poke))).
    fold ch. set (m2 := after_keyboard ch m1).
    assert (H2 : mem_ok m2) by (unfold m2, after_keyboard; tty_ok).
    destruct (prints_dump true m2 H2 al i h (tail inp) out) as [t Et]. rewrite (bind_done _ _ _ _ _ Et).
    pose proof (cleared_ok m2 H2) as H3. destruct (cleared_words m2 H2) as (_ & Hw & _).
    exists t, (read_effect TKB_LOC (cleared m2)).
    rewrite (bind_done fgetc _ _ (match tail inp with [] => EOF | b :: _ => b end)
      (Console (Machine al i h (cleared m2)) (tail (tail inp)) (out ++ t))) by by destruct (tail inp).
    apply on_memory_done. rewrite direct_read_word_eq by (done || tty_plain). by rewrite Hw.
Qed.

(** ** A witness: the key A typed, nothing read *)
Lemma dump_empties_terminal_witness : exists t m',
  (on_memory (direct_write_word TKS_LOC TKS_RDRENB);; exec_tty_kb;; dump_state true;; fgetc;;
   on_memory (direct_read_word TKB_LOC)) (Console (Machine 0 0 false started) [65; 10; 66] [])
  = Done 0 (Console (Machine 0 0 false m') [66] t).
Proof.
  destruct (dump_empties_terminal 0 0 false started [65; 10; 66] [] started_ok) as (_ & _ & _ & H).
  destruct H as (t & m' & E); [repeat constructor; lia|]. exists t, m'. exact E.
Defined.
