(* ===== verification/AtticObj.v ===== *)
(** * The retired emulator: reading object files

    The blocks of an object file as the reader expects them, and what it does on
    a file that is a list of such blocks. *)
From S2P Require Import Prelude Digits Files AtticMemory AtticFacts AtticSafe AtticRegs AtticLoad.

Lemma skip_ahead n : forall old f, (n <= length (ahead f))%nat -> skip n old f = adv n f.
Proof.
  induction n as [|n IH]; intros old f H; cbn [skip].
  - unfold adv. rewrite Nat.add_0_r. by destruct f.
  - destruct (ahead f) as [|b l] eqn:E; [cbn in H; lia|]. rewrite (fread1_ahead _ _ _ _ E).
    rewrite IH; [by rewrite adv_adv|]. rewrite ahead_adv, E. cbn in *. by rewrite drop_0; lia.
Qed.

Lemma skip_end n : forall old f, ahead f = [] -> feof f = true -> skip n old f = f.
Proof.
  induction n as [|n IH]; intros old f H He; [done|]. cbn [skip]. rewrite fread1_end by done.
  destruct f as [dt p e]. cbn in *. subst e. by apply IH.
Qed.

(** ** Finding the text block *)
Lemma is_text_block_other j f b l :
  block_ok b -> ahead f = block_bytes b ++ l ->
  exists n, is_text_block j f = (false, adv n f) /\ ahead (adv n f) = l.
Proof.
  intros [Ht Hl] H. unfold block_bytes, le16 in H. cbn [app] in H. unfold is_text_block.
  rewrite (fread1_ahead _ _ _ _ H).
  rewrite (fread1_ahead _ (adv 1 f) _ (drop 2 (ahead f))) by (by rewrite ahead_adv, H).
  rewrite adv_adv. cbn [Nat.add].
  rewrite (fread2_ahead _ (adv 2 f) _ _ (drop 4 (ahead f))) by (by rewrite ahead_adv, H).
  rewrite adv_adv, le16_value by lia. cbn [Nat.add].
  rewrite (fread1_ahead _ (adv 4 f) _ (drop 5 (ahead f))) by (by rewrite ahead_adv, H).
  rewrite adv_adv. cbn [Nat.add]. rewrite (proj2 (Z.eqb_neq _ _) Ht). cbn [negb].
  replace (Z.to_nat (5 + Z.of_nat (length (payload b)) - 5)) with (length (payload b)) by lia.
  rewrite skip_ahead.
  2:{ rewrite ahead_adv, H. cbn [drop]. rewrite drop_0, <- app_assoc, length_app. lia. }
  rewrite adv_adv.
  assert (E : ahead (adv (5 + length (payload b)) f) = checksum b :: l).
  { rewrite ahead_adv, H. cbn [drop Nat.add]. rewrite <- app_assoc. by rewrite drop_app_length. }
  rewrite (fread1_ahead _ _ _ _ E), adv_adv. eexists. split; [reflexivity|].
  by rewrite <- adv_adv, ahead_adv, E.
Qed.

Lemma is_text_block_text j f len addr ws l :
  is_u16 len -> feof f = false ->
  ahead f = text_bytes len addr ws ++ l -> is_text_block j f = (true, f).
Proof.
  intros Hl He H. unfold text_bytes, le16 in H. cbn [app] in H. unfold is_text_block.
  rewrite (fread1_ahead _ _ _ _ H).
  rewrite (fread1_ahead _ (adv 1 f) _ (drop 2 (ahead f))) by (by rewrite ahead_adv, H).
  rewrite adv_adv. cbn [Nat.add].
  rewrite (fread2_ahead _ (adv 2 f) _ _ (drop 4 (ahead f))) by (by rewrite ahead_adv, H).
  rewrite adv_adv. cbn [Nat.add].
  rewrite (fread1_ahead _ (adv 4 f) _ (drop 5 (ahead f))) by (by rewrite ahead_adv, H).
  rewrite adv_adv. cbn [Nat.add]. change (3 =? 3) with true. cbn [negb]. f_equal.
  unfold fseek_back. cbn [adv pos data]. destruct (Nat.leb_spec 5 (pos f + 5)); [|lia].
  replace (pos f + 5 - 5)%nat with (pos f) by lia. destruct f. cbn in *. by subst.
Qed.

Lemma is_text_block_end j f :
  j_byte j <> 3 -> ahead f = [] -> exists f', is_text_block j f = (false, f') /\ feof f' = true.
Proof.
  intros Hj H. unfold is_text_block.
  set (f1 := File (data f) (pos f) true).
  assert (R1 : forall old, fread1 old f1 = (old, f1)) by (intros; by apply (fread1_end _ f1)).
  assert (R2 : forall old, fread2 old f1 = (old, f1)) by (intros; by apply (fread2_end _ f1)).
  rewrite (fread1_end _ f H). fold f1. rewrite R1, R2, R1.
  rewrite (proj2 (Z.eqb_neq _ _) Hj). cbn [negb].
  rewrite (skip_end _ _ f1 H eq_refl), R1. by exists f1.
Qed.

(** [n] blocks are passed in [n] rounds. *)
Lemma find_passes j bs : forall fuel f l,
  Forall block_ok bs -> feof f = false -> ahead f = (bs ≫= block_bytes) ++ l ->
  exists n, find_text_block (length bs + fuel) j f = find_text_block fuel j (adv n f) /\
    ahead (adv n f) = l.
Proof.
  induction bs as [|b bs IH]; intros fuel f l Hb He H.
  - exists 0%nat. rewrite ahead_adv, drop_0. split; [|done]. f_equal.
    unfold adv. rewrite Nat.add_0_r. by destruct f.
  - apply Forall_cons_1 in Hb as [Hb Hbs]. cbn [mbind list_bind] in H. rewrite <- app_assoc in H.
    destruct (is_text_block_other j f b _ Hb H) as (n & E & Ha).
    destruct (IH fuel (adv n f) l Hbs He Ha) as (k & E' & Ha').
    exists (n + k)%nat. rewrite <- adv_adv. split; [|done].
    cbn [length Nat.add find_text_block]. rewrite E. cbn [orb].
    change (feof (adv n f)) with (feof f). by rewrite He.
Qed.

Lemma blocks_length bs : (length bs <= length (bs ≫= block_bytes))%nat.
Proof.
  induction bs as [|b bs IH]; [done|]. cbn [mbind list_bind length]. rewrite length_app.
  assert (1 <= length (block_bytes b))%nat by (cbn; lia). change (mbind block_bytes bs) with (bs ≫= block_bytes). lia.
Qed.

(** ** Loading it *)
Lemma word_of_bytes w : is_u16 w -> u16 (Z.lor (Z.shiftl (w / 256) 8) (w mod 256)) = w.
Proof. intros Hw. rewrite (lor_shiftl_add _ _ 8) by (lia || mod_lia). mod_lia. Qed.

Lemma load_words_ahead ws : forall f l a b1 b2 m,
  ahead f = (ws ≫= le16) ++ l -> Forall (fun w => is_u16 w) ws -> mem_ok m ->
  0 <= a -> a + 2 * Z.of_nat (length ws) <= R0 ->
  exists f' m', load_words (length ws) b1 b2 a f m = Done f' m' /\ mem_ok m' /\
    (forall i w, ws !! i = Some w -> word (a + 2 * Z.of_nat i) m' = w) /\
    (forall b, b + 2 <= a \/ a + 2 * Z.of_nat (length ws) <= b -> word b m' = word b m).
Proof.
  induction ws as [|w ws IH]; intros f l a b1 b2 m H Hw Hm Ha Hr.
  - exists f, m. split_and!; done.
  - apply Forall_cons_1 in Hw as [Hw Hws]. cbn [length mbind list_bind] in *.
    unfold le16 in H at 1. cbn [app] in H. unfold load_words. fold load_words.
    rewrite (fread1_ahead _ _ _ _ H).
    rewrite (fread1_ahead _ (adv 1 f) _ (drop 2 (ahead f))) by (by rewrite ahead_adv, H).
    rewrite adv_adv, word_of_bytes by done. cbn [Nat.add].
    unfold R0 in Hr.
    rewrite (bind_done _ _ m tt (poke a w m)).
    2:{ rewrite direct_write_word_eq by (done || unfold MEMBYTES; lia).
        unfold write_effect. by rewrite decide_False by (unfold RXDB; lia). }
    assert (Hm' : mem_ok (poke a w m)) by (apply poke_ok; [unfold MEMBYTES; lia | done]).
    rewrite u16_id by lia.
    destruct (IH (adv 2 f) l (a + 2) (w mod 256) (w / 256) (poke a w m)) as (f' & m' & E & Hok & Hin & Hout);
      [by rewrite ahead_adv, H | done | done | lia | unfold R0; lia |].
    exists f', m'. split_and!; [exact E | done | |].
    + intros [|i] x Hx.
      * injection Hx as <-. rewrite Hout by lia. replace (a + 2 * Z.of_nat 0) with a by lia. by apply word_poke.
      * replace (a + 2 * Z.of_nat (S i)) with (a + 2 + 2 * Z.of_nat i) by lia. by apply Hin.
    + intros b Hb. rewrite Hout by lia. apply word_poke_ne. lia.
Qed.

(** The length may be odd: the loop rounds up. *)
Lemma load_text_ahead j f len addr ws l m :
  8 <= len < 65536 -> (len - 8 + 1) / 2 = Z.of_nat (length ws) ->
  Forall (fun w => is_u16 w) ws -> 0 <= addr ->
  addr + 2 * Z.of_nat (length ws) <= R0 -> mem_ok m -> ahead f = text_bytes len addr ws ++ l ->
  exists f' m', load_text_block j f m = Done f' m' /\ mem_ok m' /\ word R7 m' = addr /\
    (forall i w, ws !! i = Some w -> word (addr + 2 * Z.of_nat i) m' = w) /\
    (forall b, b + 2 <= addr \/ addr + 2 * Z.of_nat (length ws) <= b -> apart R7 b ->
       word b m' = word b m).
Proof.
  intros Hl Hn Hw Ha Hr Hm H. unfold text_bytes, le16 in H. cbn [app] in H. unfold load_text_block.
  rewrite (fread1_ahead _ _ _ _ H).
  rewrite (fread1_ahead _ (adv 1 f) _ (drop 2 (ahead f))) by (by rewrite ahead_adv, H).
  rewrite adv_adv. cbn [Nat.add].
  rewrite (fread2_ahead _ (adv 2 f) _ _ (drop 4 (ahead f))) by (by rewrite ahead_adv, H).
  rewrite adv_adv. cbn [Nat.add].
  rewrite (fread1_ahead _ (adv 4 f) _ (drop 5 (ahead f))) by (by rewrite ahead_adv, H).
  rewrite adv_adv. cbn [Nat.add].
  rewrite (fread2_ahead _ (adv 5 f) _ _ (drop 7 (ahead f))) by (by rewrite ahead_adv, H).
  rewrite adv_adv. cbn [Nat.add].
  rewrite (fread1_ahead _ (adv 7 f) _ (drop 8 (ahead f))) by (by rewrite ahead_adv, H).
  rewrite adv_adv. cbn [Nat.add]. unfold R0 in Hr. rewrite !le16_value by lia.
  rewrite (bind_done _ _ m tt (poke R7 addr m))
    by (apply word_write_eq; [done | unfold R7, MEMBYTES; lia | lia]).
  assert (Hm' : mem_ok (poke R7 addr m)) by (apply poke_ok; [unfold R7, MEMBYTES; lia | done]).
  rewrite u16_id by lia.
  replace (Z.to_nat ((len - 8 + 1) / 2)) with (length ws) by lia.
  destruct (load_words_ahead ws (adv 8 f) l addr 1 0 (poke R7 addr m)) as (f' & m' & E & Hok & Hin & Hout);
    [by rewrite ahead_adv, H | done | done | lia | unfold R0; lia |].
  exists f', m'. split_and!; [exact E | done | | done |].
  - rewrite Hout by (unfold R7; lia). apply word_poke. lia.
  - intros b Hb H7. rewrite Hout by done. by apply word_poke_ne.
Qed.

(** The whole file: other blocks, a text block, anything. *)
Lemma load_obj_places j bs len addr ws rest m :
  Forall block_ok bs -> 8 <= len < 65536 -> (len - 8 + 1) / 2 = Z.of_nat (length ws) ->
  Forall (fun w => is_u16 w) ws ->
  0 <= addr -> addr + 2 * Z.of_nat (length ws) <= R0 -> mem_ok m ->
  exists m', load_program_from_obj j ((bs ≫= block_bytes) ++ text_bytes len addr ws ++ rest) m = Done tt m' /\
    mem_ok m' /\ word R7 m' = addr /\
    (forall i w, ws !! i = Some w -> word (addr + 2 * Z.of_nat i) m' = w) /\
    (forall b, b + 2 <= addr \/ addr + 2 * Z.of_nat (length ws) <= b -> apart R7 b ->
       word b m' = word b m).
Proof.
  intros Hb Hl Hln Hw Ha Hr Hm. set (all := (bs ≫= block_bytes) ++ text_bytes len addr ws ++ rest).
  unfold load_program_from_obj.
  destruct (find_passes j bs (S (length all) - length bs) (File all 0 false) (text_bytes len addr ws ++ rest)
    Hb eq_refl eq_refl) as (n & E & Hn).
  pose proof (blocks_length bs) as Hlen.
  assert (length bs <= length all)%nat by (unfold all; rewrite length_app; lia).
  replace (length bs + (S (length all) - length bs))%nat with (S (length all)) in E by lia.
  rewrite E. replace (S (length all) - length bs)%nat with (S (length all - length bs)) by lia.
  cbn [find_text_block]. rewrite (is_text_block_text j (adv n (File all 0 false)) len addr ws rest) by (done || lia).
  cbn [orb feof adv].
  destruct (load_text_ahead j (adv n (File all 0 false)) len addr ws rest m) as (f' & m' & E' & H');
    [done.. |]. exists m'. split; [|exact H'].
  by rewrite (bind_done _ _ _ _ _ E').
Qed.

(** No text block: the reader stops at the end of the file and loads nothing. *)
Lemma load_obj_nothing j bs m :
  Forall block_ok bs -> j_byte j <> 3 ->
  load_program_from_obj j (bs ≫= block_bytes) m = Done tt m.
Proof.
  intros Hb Hj. set (all := bs ≫= block_bytes). unfold load_program_from_obj.
  destruct (find_passes j bs (S (length all) - length bs) (File all 0 false) [] Hb eq_refl)
    as (n & E & Hn); [by rewrite app_nil_r|].
  pose proof (blocks_length bs) as Hlen. fold all in Hlen.
  replace (length bs + (S (length all) - length bs))%nat with (S (length all)) in E by lia.
  rewrite E. replace (S (length all) - length bs)%nat with (S (length all - length bs)) by lia.
  cbn [find_text_block].
  destruct (is_text_block_end j _ Hj Hn) as (f' & -> & Hf). rewrite Hf. cbn [orb]. by rewrite Hf.
Qed.
