(* ===== verification/AtticMain.v ===== *)
(** * The retired emulator: the whole program

    [main] of [attic/src/machine.c]: the options, the start, and then two threads
    on one memory - the loop of [run_machine] with the dump and the join behind it,
    and the disk's [exec_disk].  A step of the main thread is a round of its loop,
    a step of the disk's thread a round or the look at [bus_shutdown] between two;
    the SIGINT handler halts the machine between two rounds.

    The files are a function from names to bytes.  The disk registers its handlers
    before the first round, as in [AtticMachine]; [AtticHeap] has the blocks.  The
    disk's thread, which [machine.c] starts before the program is loaded, takes its
    first turn behind the loading: only a file that writes RXCS could tell. *)
From S2P Require Import Prelude Files AtticMemory AtticAddressing AtticInstr AtticMachine AtticLoad AtticDisk AtticDump.
From Stdlib Require Import String.
#[local] Open Scope Z_scope.

(** ** Options *)
Record options := Options { o_disk : option string; o_step : bool; o_list : bool }.

(** The loop over [argv] from index 1; [first] is [argv[1]], whose length the first
    test looks at in every round. *)
Fixpoint machine_options (first : string) (args : list string) (o : options) : options :=
  match args with
  | [] => o
  | arg :: args =>
      if (String.length first <? 2)%nat && negb (prefix "-" arg) then machine_options first args o
      else if prefix "-l" arg then Options (o_disk o) (o_step o) true
      else if prefix "-s" arg then machine_options first args (Options (o_disk o) true (o_list o))
      else if prefix "-d" arg then
        machine_options first args (Options (Some (substring 2 (String.length arg) arg)) (o_step o) (o_list o))
      else machine_options first args o
  end.

(** ** The two threads *)

(** [MLoop]: before a test of [run_machine]'s loop; [MDump]: behind it; [MJoin]: in
    [thrd_join]; [MExited]: [main] has returned 0. *)
Inductive main_at := MLoop | MDump | MJoin | MExited.

(** [DTest]: before the loop's test; [DRound]: in its body; [DEnded]. *)
Inductive disk_at := DTest | DRound | DEnded.

Record system := System {
  at_main : main_at; at_disk : disk_at; STEP : bool; machine_of : console; disk_of : disk
}.

Definition memory_of (s : system) : memory := mem (cpu (machine_of s)).

Definition put_memory (m : memory) (c : console) : console :=
  Console (Machine (ALU (cpu c)) (IR (cpu c)) (HALTED (cpu c)) m) (stdin c) (stdout c).

(** A piece of the main thread's code, after which it is at [pc]. *)
Definition main_runs (f : C unit) (pc : main_at) (s : system) : outcome system unit :=
  match f (machine_of s) with
  | Done _ c => Done tt (System pc (at_disk s) (STEP s) c (disk_of s))
  | Blocked => Blocked
  | Fault => Fault
  end.

Definition main_step : M system unit := fun s =>
  match at_main s with
  | MLoop =>
      if HALTED (cpu (machine_of s)) then main_runs (on_memory (modify (set_bus_shutdown true))) MDump s
      else main_runs (if STEP s then step_round else machine_round) MLoop s
  | MDump => main_runs (dump_state true) MJoin s
  | MJoin =>
      match at_disk s with
      | DEnded => Done tt (System MExited DEnded (STEP s) (machine_of s) (disk_of s))
      | _ => Blocked
      end
  | MExited => Blocked
  end.

Definition disk_step : M system unit := fun s =>
  match at_disk s with
  | DTest =>
      let pc := if bus_shutdown (memory_of s) then DEnded else DRound in
      Done tt (System (at_main s) pc (STEP s) (machine_of s) (disk_of s))
  | DRound =>
      match disk_round (Controller (disk_of s) (memory_of s)) with
      | Done _ c =>
          Done tt (System (at_main s) DTest (STEP s) (put_memory (AtticDisk.memory_of c) (machine_of s)) (drive c))
      | Blocked => Blocked
      | Fault => Fault
      end
  | DEnded => Blocked
  end.

(** [handle_user_interrupt], while the process is there. *)
Definition handle_user_interrupt : M system unit := fun s =>
  match at_main s with MExited => Blocked | pc => main_runs (on_cpu HALT) pc s end.

Inductive turn := Main | DiskThread | Interrupt.

Definition system_step (t : turn) : M system unit :=
  match t with Main => main_step | DiskThread => disk_step | Interrupt => handle_user_interrupt end.

(** Steps in the given order. *)
Fixpoint schedule (ts : list turn) : M system unit :=
  match ts with [] => mret tt | t :: ts => system_step t;; schedule ts end.

(** ** [main] *)
Inductive launched :=
| Returned (status : Z)       (* before anything is started *)
| Running (s : system)
| Crashed | Hangs.            (* while the program is loaded *)

(** [init_machine] has left [start]: load the program and begin. *)
Definition begin (start : outcome memory unit) (j : junk) (object : list Z) (o : options)
    (image : option (list Z)) (inp : list Z) : launched :=
  match start with
  | Done _ m =>
      match load_program_from_obj j object m with
      | Done _ m =>
          Running (System (if o_list o then MDump else MLoop) DTest (o_step o)
                     (Console (Machine 0 0 false m) inp []) (new_disk image))
      | Blocked => Hangs
      | Fault => Crashed
      end
  | _ => Crashed
  end.

Definition main (files : string -> option (list Z)) (j : junk) (args : list string) (inp : list Z) : launched :=
  match args with
  | [] => Returned 1
  | first :: _ =>
      let o := machine_options first args (Options None false false) in
      match files (List.last args first) with
      | None => Crashed
      | Some object => begin init_machine j object o (o_disk o ≫= files) inp
      end
  end.
