(* ===== verification/AtticMainFacts.v ===== *)
(** * The retired emulator: what the two threads keep

    The disk's rounds never fail: it only touches its two registers and the cells
    of its buffer.  The dump keeps the machine's types.  The system of both threads
    keeps [system_ok] in every schedule. *)
From S2P Require Import Prelude Digits Files AtticMemory AtticAddressing AtticInstr AtticMachine AtticLoad AtticDisk.
From S2P Require Import AtticFacts AtticSafe AtticDump AtticMain.
From S2P Require Disk DiskProps.
From Stdlib Require Ascii String.

(** ** Computations that always return

    [sure P m Q]: from a state of [P], [m] returns, and value and state satisfy
    [Q]. *)
Definition sure {S R} (P : S -> Prop) (m : M S R) (Q : R -> S -> Prop) : Prop :=
  forall s, P s -> exists a s', m s = Done a s' /\ Q a s'.

Section Sure.
Context {S : Type}.
Implicit Type P : S -> Prop.

Lemma sure_bind {R R'} P (m : M S R) (f : R -> M S R') phi P' Q :
  sure P m (fun a s => phi a /\ P' s) -> (forall a, phi a -> sure P' (f a) Q) -> sure P (m ≫= f) Q.
Proof.
  intros Hm Hf s Hs. destruct (Hm s Hs) as (a & s1 & E & Ha & H1).
  rewrite (bind_done _ _ _ _ _ E). by apply (Hf a).
Qed.

Lemma sure_ret {R} P (a : R) Q : (forall s, P s -> Q a s) -> sure P (mret a) Q.
Proof. intros Ha s Hs. exists a, s. auto. Qed.

Lemma sure_modify P (f : S -> S) (P' : S -> Prop) :
  (forall s, P s -> P' (f s)) -> sure P (modify f) (fun _ s => True /\ P' s).
Proof. intros H s Hs. exists tt, (f s). auto. Qed.

Lemma sure_if {R} P (b : bool) (m1 m2 : M S R) Q :
  (b = true -> sure P m1 Q) -> (b = false -> sure P m2 Q) -> sure P (if b then m1 else m2) Q.
Proof. destruct b; auto. Qed.

Lemma sure_switch {R} P x cases (d : M S R) Q :
  Forall (fun c => sure P c.2 Q) cases -> sure P d Q -> sure P (switch x cases d) Q.
Proof. intros Hc Hd. induction Hc as [|[k m] cases H Hc IH]; [done|]. simpl. by apply sure_if. Qed.
End Sure.

(** ** The disk *)
Record drive_ok (d : disk) : Prop := DriveOk {
  ok_buffer : length (buffer d) = 128%nat;
  ok_buffered : Forall (fun b => is_u8 b) (buffer d);
  ok_index : 0 <= index d <= SECTOR_SIZE;
  ok_track : is_u8 (track d); ok_sector : is_u8 (sector d);
  ok_image : forall img, disk_drive d = Some img -> Forall (fun b => is_u8 b) img
}.

(** The controller with the shutdown flag [b] and a drive of [X]. *)
Record controller_ok (b : bool) (X : disk -> Prop) (c : controller) : Prop := ControllerOk {
  ok_drive : drive_ok (drive c);
  ok_shared : mem_ok (AtticDisk.memory_of c);
  ok_shutdown : bus_shutdown (AtticDisk.memory_of c) = b;
  ok_extra : X (drive c)
}.

Definition any_drive (d : disk) : Prop := True.

Section Disk.
Context (b : bool) (X : disk -> Prop).

Lemma sure_on_bus {R} (f : M memory R) (phi : R -> Prop) :
  (forall m, mem_ok m -> exists a m', f m = Done a m' /\ phi a /\ mem_ok m' /\ bus_shutdown m' = bus_shutdown m) ->
  sure (controller_ok b X) (on_bus f) (fun a c => phi a /\ controller_ok b X c).
Proof.
  intros H c [Hd Hm Hb HX]. destruct (H _ Hm) as (a & m' & E & Ha & Hm' & Hb').
  exists a, (Controller (drive c) m'). unfold on_bus. rewrite E. split_and!; [done..|]. split; [done..| |done].
  cbn. congruence.
Qed.

Ltac rx := unfold RXCS, RXDB, MEMBYTES; lia.

Lemma sure_read_rxcs : sure (controller_ok b X) (on_bus (direct_read_word RXCS)) (fun w c => is_u16 w /\ controller_ok b X c).
Proof.
  apply sure_on_bus. intros m Hm. exists (word RXCS m), (read_effect RXCS m).
  rewrite direct_read_word_eq by (done || rx).
  split; [done|]. split; [by apply word_u16|]. split; [by apply read_effect_ok|].
  unfold read_effect. by repeat case_decide.
Qed.

Lemma sure_write_rxcs w : is_u16 w ->
  sure (controller_ok b X) (on_bus (direct_write_word RXCS w)) (fun _ c => True /\ controller_ok b X c).
Proof.
  intros Hw. apply sure_on_bus. intros m Hm. eexists tt, _. rewrite direct_write_word_eq by (done || rx).
  split_and!; [reflexivity | done | apply write_effect_ok, poke_ok; [rx | done] |].
  unfold write_effect. by case_decide.
Qed.

Lemma sure_or_rxcs v : is_u16 v ->
  sure (controller_ok b X) (on_bus (direct_write_word_OR RXCS v)) (fun _ c => True /\ controller_ok b X c).
Proof.
  intros Hv. apply sure_on_bus. intros m Hm. exists tt, (poke RXCS (Z.lor (word RXCS m) v) m).
  rewrite word_or_eq by (done || rx). split_and!; [reflexivity | done | apply poke_ok; [rx | done] | done].
Qed.

Lemma sure_read_rxdb :
  sure (controller_ok b X) (on_bus (direct_read_byte_n RXDB)) (fun w c => is_u8 w /\ controller_ok b X c).
Proof.
  apply sure_on_bus. intros m Hm. exists (peek RXDB m), m.
  rewrite (byte_read_eq m Hm) by rx. split; [done|]. split; [by apply peek_u8 | done].
Qed.

Lemma sure_write_rxdb v :
  sure (controller_ok b X) (on_bus (direct_write_byte_n RXDB v)) (fun _ c => True /\ controller_ok b X c).
Proof.
  apply sure_on_bus. intros m Hm. exists tt, (poke_byte RXDB v m).
  rewrite (byte_write_eq m Hm) by rx.
  split_and!; [reflexivity | done | apply poke_byte_ok; [rx | done] | done].
Qed.

Lemma sure_upd_drive f X' : (forall d, drive_ok d -> X d -> drive_ok (f d) /\ X' (f d)) ->
  sure (controller_ok b X) (upd_drive f) (fun _ c => True /\ controller_ok b X' c).
Proof. intros H. apply sure_modify. intros c [Hd Hm Hb HX]. by destruct (H _ Hd HX). Qed.

(** A look at the drive; what follows may use that it is the drive. *)
Lemma sure_look {R R'} (f : disk -> R) (k : R -> D R') Q :
  (forall d, drive_ok d -> X d -> sure (controller_ok b (fun d' => d' = d)) (k (f d)) Q) ->
  sure (controller_ok b X) (gets (fun c => f (drive c)) ≫= k) Q.
Proof. intros H c [Hd Hm Hb HX]. apply (H (drive c) Hd HX). by split. Qed.

Lemma sure_done {R} (m : D R) (Q : disk -> Prop) :
  sure (controller_ok b X) m (fun _ c => True /\ controller_ok b Q c) ->
  sure (controller_ok b X) m (fun _ c => controller_ok b any_drive c).
Proof.
  intros H c Hc. destruct (H c Hc) as (a & c' & E & _ & []). by exists a, c'.
Qed.
End Disk.


Section Rounds.
Context (b : bool).

Lemma sure_buffer_write i v X X' : 0 <= i <= SECTOR_SIZE -> i <> SECTOR_SIZE -> is_u8 v ->
  (forall d l, X d -> X' (set_buffer l d)) ->
  sure (controller_ok b X) (buffer_write i v) (fun _ c => True /\ controller_ok b X' c).
Proof.
  intros H0 H1 Hv HX c [[] Hm Hb Hx]. unfold buffer_write. rewrite (proj2 (Z.ltb_lt _ _)) by lia.
  do 2 eexists. split; [reflexivity|]. split; [done|]. split; [split|..]; cbn; try done.
  - by rewrite length_insert.
  - by apply Forall_insert.
  - by apply HX.
Qed.

Lemma flag_u16 flags (x : bool) : is_u16 flags -> is_u16 (Z.lxor flags (if x then RXCS_XFER else RXCS_DONE)).
Proof. intros H. apply lxor_u16; [done|]. destruct x; unfold RXCS_XFER, RXCS_DONE; lia. Qed.

(** The drive's records after a step of a round. *)
Ltac drive_ranges := intros ? [] ?; split; [split|]; cbn; unfold SECTOR_SIZE in *; auto with words; try lia.

Lemma sure_next_index flags i X : is_u16 flags -> 0 <= i <= SECTOR_SIZE -> i <> SECTOR_SIZE ->
  (forall d, X d -> index d = i) ->
  sure (controller_ok b X) (next_index flags) (fun _ c => controller_ok b any_drive c).
Proof.
  intros Hf H0 H1 HX. unfold next_index. eapply sure_bind.
  { apply (sure_upd_drive b _ _ any_drive). intros d' Hd' H%HX. revert d' Hd' H. drive_ranges; [rewrite u8_id; lia | done]. }
  intros _ _. apply sure_look. intros d _ _. eapply sure_done, sure_or_rxcs. by apply flag_u16.
Qed.

(** One access of a round. *)
Ltac drive_step := first
  [ apply sure_read_rxcs | apply sure_read_rxdb | apply sure_write_rxdb
  | apply sure_write_rxcs; solve [unfold RXCS_XFER; lia]
  | apply sure_or_rxcs; solve [auto with words | apply lxor_u16; [done | unfold RXCS_XFER; lia]] | idtac ].

(** Pieces of a round that follow each other. *)
Ltac drive_walk :=
  lazymatch goal with
  | |- sure _ (gets drive ≫= _) _ => apply (sure_look _ _ (fun d => d)); intros ? [] ?; drive_walk
  | |- sure _ (gets _ ≫= _) _ => apply sure_look; intros ? [] ?; drive_walk
  | |- sure _ (_ ≫= _) _ => eapply sure_bind; [drive_step | cbv beta; intros ? ?; drive_walk]
  | |- sure _ (switch _ _ _) _ => apply sure_switch; drive_walk
  | |- Forall _ (_ :: _) => apply Forall_cons_2; [cbn [snd]; drive_walk | drive_walk]
  | |- Forall _ [] => apply Forall_nil_2
  | |- sure _ (if _ then _ else _) _ => apply sure_if; intros ?; drive_walk
  | |- sure _ (when _ _) _ => apply sure_if; intros ?; drive_walk
  | |- sure _ (mret _) _ => apply sure_ret; by intros ? []
  | |- sure _ _ _ => idtac
  end.

(** The last change of a round to the drive. *)
Ltac drive_end := eapply sure_done, (sure_upd_drive _ _ _ any_drive); drive_ranges; try done.

Lemma sure_fill_buffer X : sure (controller_ok b X) fill_buffer (fun _ c => controller_ok b any_drive c).
Proof.
  unfold fill_buffer. drive_walk; [drive_end | |].
  - apply (sure_buffer_write _ _ _ (fun d' => index d' = index d)); [done | by apply Z.eqb_neq | done | by intros ? ? ->].
  - apply (sure_next_index _ (index d)); [done..| by apply Z.eqb_neq | done].
Qed.

Lemma sure_empty_buffer X : sure (controller_ok b X) empty_buffer (fun _ c => controller_ok b any_drive c).
Proof.
  unfold empty_buffer. drive_walk; [drive_end |].
  apply (sure_next_index _ (index d)); [done..| by apply Z.eqb_neq | by intros ? ->].
Qed.

Lemma sure_sector_function transfer f X : (forall img d, drive_ok d -> disk_drive d = Some img -> drive_ok (f img d)) ->
  sure (controller_ok b X) (sector_function transfer f) (fun _ c => controller_ok b any_drive c).
Proof.
  intros Hf. unfold sector_function. drive_walk.
  - apply (sure_upd_drive _ _ _ any_drive). drive_ranges; done.
  - eapply sure_done, sure_or_rxcs, lxor_u16; [done | unfold RXCS_XFER; lia].
  - drive_end.
  - apply (sure_upd_drive _ _ _ any_drive). intros d' Hd' _. split; [|done].
    destruct (disk_drive d') eqn:E; [by apply Hf | done].
  - drive_end.
Qed.

Lemma sure_write_sector X : sure (controller_ok b X) write_sector (fun _ c => controller_ok b any_drive c).
Proof.
  apply sure_sector_function. intros img d [] E. split; cbn; try done.
  intros img' [= <-]. apply DiskProps.file_write_u8; [done | by apply ok_image0].
Qed.

Lemma sure_read_sector X : sure (controller_ok b X) read_sector (fun _ c => controller_ok b any_drive c).
Proof.
  apply sure_sector_function. intros img d [] E. split; cbn; try done; unfold Disk.file_read.
  - rewrite length_app, length_drop, ok_buffer0, length_take. lia.
  - apply Forall_app. split; [|by apply Forall_drop]. apply Forall_take, Forall_drop. by apply ok_image0.
Qed.

(** A round of the disk returns and keeps the types of both sides. *)
Lemma sure_disk_round : sure (controller_ok b any_drive) disk_round (fun _ c => controller_ok b any_drive c).
Proof.
  unfold disk_round, start_function. drive_walk.
  all: try first [apply sure_fill_buffer | apply sure_empty_buffer | apply sure_read_sector | apply sure_write_sector].
  all: try (apply (sure_upd_drive _ _ _ any_drive); drive_ranges; done).
  all: try drive_end.
  all: eapply sure_done; first [apply sure_write_rxcs | apply sure_or_rxcs].
  all: repeat apply lor_u16; first [done | unfold RXCS_XFER, RXCS_DONE; lia].
Qed.
End Rounds.

Lemma new_disk_ok image : (forall img, image = Some img -> Forall (fun b => is_u8 b) img) -> drive_ok (new_disk image).
Proof. intros H. split; cbn; try done. by apply Forall_replicate. Qed.

(** ** The dump *)
Lemma chars_u8 s : Forall (fun b => is_u8 b) (chars s).
Proof.
  apply Forall_forall. intros c (a & -> & _)%list_elem_of_fmap. pose proof (Ascii.N_ascii_bounded a). lia.
Qed.

Lemma show_padded_u8 w v : 0 <= v -> Forall (fun b => is_u8 b) (show_padded w 8 v).
Proof.
  intros Hv. eapply Forall_impl; [by apply show_padded_digits|].
  intros c [H1 H2]. unfold zero_char in *. lia.
Qed.

Lemma partial_print t : Forall (fun b => is_u8 b) t -> partial console_ok (print t) (fun _ => True).
Proof. intros Ht. apply partial_modify. intros c [Hc Hi Ho]. split; [done..|]. by apply Forall_app_2. Qed.

Ltac text :=
  lazymatch goal with
  | |- Forall _ (_ ++ _) => apply Forall_app_2; text
  | |- Forall _ (chars _) => apply chars_u8
  | |- Forall _ (show_padded _ _ _) => apply show_padded_u8; lia
  | |- Forall _ (_ :: _) => apply Forall_cons_2; [unfold newline, space; lia | text]
  | |- Forall _ [] => apply Forall_nil_2
  | |- _ => idtac
  end.

Lemma partial_print_octal name v : is_u16 v -> partial console_ok (print_octal name v) (fun _ => True).
Proof. intros Hv. apply partial_print. text. Qed.

Lemma partial_dump_row n : forall a,
  partial mem_ok (dump_row n a) (fun p => Forall (fun w => is_u16 w) p.2).
Proof.
  induction n as [|n IH]; intros a; cbn [dump_row]; [by apply partial_ret|].
  eapply partial_bind; [apply partial_direct_read_word|]. intros w1 H1.
  eapply partial_bind; [apply partial_direct_read_word|]. intros w2 H2.
  eapply partial_bind; [apply IH|]. intros [z row] H3. apply partial_ret. by apply Forall_cons_2.
Qed.

Lemma partial_dump_rows fuel : forall r, 0 <= r -> partial console_ok (dump_rows fuel r) (fun _ => True).
Proof.
  induction fuel as [|fuel IH]; intros r Hr; cbn [dump_rows]; [by apply partial_ret|].
  apply partial_if; intros _; [|by apply partial_ret].
  eapply partial_bind; [apply partial_on_memory, partial_dump_row|]. intros [z row] Hrow.
  apply (partial_bind _ _ _ (fun _ => True)); [|intros; apply IH; lia].
  apply partial_if; intros _; [by apply partial_ret | apply partial_print].
  text. cbn [snd] in Hrow. induction Hrow as [|w row Hw _ IHrow]; cbn [mbind list_bind]; [text|].
  cbv beta. text. exact IHrow.
Qed.

Lemma partial_print_register name r : partial console_ok (print_register name r) (fun _ => True).
Proof.
  eapply partial_bind; [apply partial_on_memory, partial_get_r|].
  intros v Hv. by apply partial_print_octal.
Qed.

Lemma partial_dump_state d : partial console_ok (dump_state d) (fun _ => True).
Proof.
  unfold dump_state.
  repeat first
    [ eapply partial_bind; [first [apply partial_print_register | by apply partial_print_octal]|]; intros _ _
    | eapply partial_bind; [apply (partial_gets _ _ (fun w => is_u16 w)); intros c [[] _ _]; assumption|];
      cbv beta; intros ? ? ].
  apply (partial_bind _ _ _ (fun _ => True)); [apply partial_if; intros _; [by apply partial_dump_rows | by apply partial_ret]|].
  intros _ _. apply partial_print. text.
Qed.

Lemma partial_step_round : partial console_ok step_round (fun _ => True).
Proof.
  unfold step_round. eapply partial_bind; [apply partial_on_cpu; machine_walk|]. intros _ _.
  eapply partial_bind; [apply partial_dump_state|]. intros _ _. machine_walk.
Qed.

(** ** Loading *)

(** The memory with the shutdown flag [b]. *)
Definition mem_at (b : bool) (m : memory) : Prop := mem_ok m /\ bus_shutdown m = b.

Lemma partial_at_word_write b a w : partial (mem_at b) (word_write a w) (fun _ => True).
Proof.
  assert (H : forall a v, partial (mem_at b) (byte_write a v) (fun _ => True)).
  { intros a' v m [Hm Hb]. pose proof (partial_byte_write a' v m Hm) as Hp. unfold byte_write in *.
    destruct (bytes m !! a'); [|done]. split; [done|]. by split; [apply Hp|]. }
  unfold word_write. eapply partial_bind; [apply H | intros; apply H].
Qed.

Lemma partial_at_direct_write_word b a w : is_u16 w -> partial (mem_at b) (direct_write_word a w) (fun _ => True).
Proof.
  intros Hw m [Hm Hb]. destruct (decide (0 <= a)) as [Ha|Ha].
  - destruct (decide (a < MEMBYTES - 1)).
    + rewrite direct_write_word_eq by (done || lia). split; [done|]. split.
      * apply write_effect_ok, poke_ok; [lia | done].
      * rewrite <- Hb. unfold write_effect. by case_decide.
    + by rewrite direct_write_word_fault by (done || lia).
  - assert (E : bytes m !! a = None).
    { apply eq_None_not_Some. rewrite (ok_dom m Hm). lia. }
    assert (Ef : direct_write_word a w m = Fault); [|by rewrite Ef].
    apply bind_fault, bind_fault. unfold byte_write. by rewrite E.
Qed.

Lemma partial_load_words b n : forall b1 b2 a f, partial (mem_at b) (load_words n b1 b2 a f) (fun _ => True).
Proof.
  induction n as [|n IH]; intros b1 b2 a f; cbn [load_words]; [by apply partial_ret|].
  destruct (fread1 b1 f) as [b1' f1]. destruct (fread1 b2 f1) as [b2' f2].
  eapply partial_bind; [by apply partial_at_direct_write_word, u16_range|]. intros _ _. apply IH.
Qed.

Lemma load_keeps b j bs m m' : mem_at b m -> load_program_from_obj j bs m = Done tt m' -> mem_at b m'.
Proof.
  intros Hm. unfold load_program_from_obj. destruct (find_text_block _ j _) as [f|]; [|done].
  destruct (feof f); [by intros [= <-]|]. intros E.
  enough (H : partial (mem_at b) (load_text_block j f;; mret tt) (fun _ => True)).
  { specialize (H m Hm). rewrite E in H. apply H. }
  apply (partial_bind _ _ _ (fun _ => True)); [|intros; by apply partial_ret].
  unfold load_text_block. repeat case_match. eapply partial_bind; [apply partial_at_word_write|].
  intros _ _. apply partial_load_words.
Qed.

(** ** The system *)
Record system_ok (s : system) : Prop := SystemOk {
  ok_machine : console_ok (machine_of s);
  ok_disk : drive_ok (disk_of s)
}.

Definition files_ok (files : String.string -> option (list Z)) : Prop :=
  forall name bs, files name = Some bs -> Forall (fun b => is_u8 b) bs.

(** The machine as [main] starts it, [m] the memory with the program. *)
Definition started_system (o : options) (image : option (list Z)) (inp : list Z) (m : memory) : system :=
  System (if o_list o then MDump else MLoop) DTest (o_step o) (Console (Machine 0 0 false m) inp []) (new_disk image).

Lemma main_unfold files j first args inp :
  main files j (first :: args) inp =
    let o := machine_options first (first :: args) (Options None false false) in
    match files (List.last (first :: args) first) with
    | None => Crashed
    | Some object =>
        match load_program_from_obj j object started with
        | Done _ m => Running (started_system o (o_disk o ≫= files) inp m)
        | Blocked => Hangs
        | Fault => Crashed
        end
    end.
Proof. unfold main, begin. by rewrite init_machine_eq. Qed.

(** What [main] starts. *)
Lemma main_starts files j args inp s :
  files_ok files -> Forall (fun b => is_u8 b) inp -> main files j args inp = Running s ->
  system_ok s /\ at_disk s = DTest /\ bus_shutdown (memory_of s) = false /\ HALTED (cpu (machine_of s)) = false /\
  at_main s = if o_list (machine_options (List.hd String.EmptyString args) args (Options None false false))
              then MDump else MLoop.
Proof.
  intros Hf Hi. destruct args as [|first args]; [done|]. rewrite main_unfold. cbn [List.hd].
  set (o := machine_options _ _ _). clearbody o. cbv zeta. destruct (files (List.last _ _)) as [object|]; [|done].
  destruct (load_program_from_obj j object started) as [[] m| |] eqn:E; [|done..].
  intros [= <-]. apply (load_keeps false) in E as [Hm Hb]; [|split; [exact started_ok | done]].
  split_and!; [|done..]. split; cbn; [split; cbn; [split; cbn; [lia..|done] | done | apply Forall_nil_2]|].
  apply new_disk_ok. intros img Himg. destruct (o_disk o) as [name|]; [by apply (Hf name) | discriminate Himg].
Qed.

Lemma main_runs_ok f pc s s' :
  system_ok s -> partial console_ok f (fun _ => True) -> main_runs f pc s = Done tt s' ->
  system_ok s' /\ at_main s' = pc /\ at_disk s' = at_disk s.
Proof.
  intros [Hc Hd] Hf. unfold main_runs. specialize (Hf _ Hc). destruct (f (machine_of s)) as [[] c| |]; [|done..].
  intros [= <-]. by destruct Hf.
Qed.

Lemma partial_HALT : partial console_ok (on_cpu HALT) (fun _ => True).
Proof. apply partial_on_cpu. exact (partial_dispatch Instr.m_HALT). Qed.

Lemma partial_set_shutdown v : partial console_ok (on_memory (modify (set_bus_shutdown v))) (fun _ => True).
Proof. apply partial_on_memory, partial_modify. by intros m []. Qed.

Lemma partial_round b : partial console_ok (if b : bool then step_round else machine_round) (fun _ => True).
Proof. destruct b; [apply partial_step_round | apply partial_machine_round]. Qed.

(** A turn of the disk's thread, if the thread is there. *)
Lemma disk_turn s : system_ok s -> at_disk s <> DEnded ->
  exists s', disk_step s = Done tt s' /\ system_ok s' /\ bus_shutdown (memory_of s') = bus_shutdown (memory_of s) /\
    at_main s' = at_main s /\ HALTED (cpu (machine_of s')) = HALTED (cpu (machine_of s)) /\
    at_disk s' = match at_disk s with DRound => DTest | _ => if bus_shutdown (memory_of s) then DEnded else DRound end.
Proof.
  intros [Hc Hd] He. unfold disk_step. destruct (at_disk s); [|clear He|done].
  - eexists. by split_and!.
  - destruct (sure_disk_round (bus_shutdown (memory_of s)) (Controller (disk_of s) (memory_of s)))
      as (a & [d m] & E & [Hd' Hm' Hb' _]).
    { split; [done | apply Hc | done | done]. }
    rewrite E. eexists. split_and!; [done| |exact Hb'|done..].
    split; [|done]. destruct Hc as [[] ??]. by split.
Qed.

Lemma system_step_ok t s s' : system_ok s -> system_step t s = Done tt s' -> system_ok s'.
Proof.
  intros Hs E. destruct t; cbn [system_step] in E.
  - unfold main_step in E. destruct (at_main s); [destruct (HALTED _)| |destruct (at_disk s)|]; try done.
    + by eapply main_runs_ok; [| apply (partial_set_shutdown true) |].
    + by eapply main_runs_ok; [| apply partial_round |].
    + by eapply main_runs_ok; [| apply partial_dump_state |].
    + injection E as <-. by destruct Hs.
  - assert (Hd : at_disk s <> DEnded) by (intros Hd; unfold disk_step in E; by rewrite Hd in E).
    destruct (disk_turn s Hs Hd) as (s1 & E1 & H1 & _). congruence.
  - unfold handle_user_interrupt in E. destruct (at_main s); try done;
      by eapply main_runs_ok; [| apply partial_HALT |].
Qed.

(** ** The end *)
Lemma read_effect_shutdown a m : bus_shutdown (read_effect a m) = bus_shutdown m.
Proof. unfold read_effect. by repeat case_decide. Qed.

Lemma cleared_shutdown m : bus_shutdown (cleared m) = bus_shutdown m.
Proof. unfold cleared. by rewrite !read_effect_shutdown. Qed.

(** The dump as a step. *)
Lemma dump_turn s : system_ok s -> at_main s = MDump ->
  exists s', main_step s = Done tt s' /\ system_ok s' /\ at_main s' = MJoin /\ at_disk s' = at_disk s /\
    bus_shutdown (memory_of s') = bus_shutdown (memory_of s) /\
    HALTED (cpu (machine_of s')) = HALTED (cpu (machine_of s)).
Proof.
  intros Hs Hm. assert (E : exists s', main_step s = Done tt s' /\ at_main s' = MJoin /\ at_disk s' = at_disk s /\
    bus_shutdown (memory_of s') = bus_shutdown (memory_of s) /\
    HALTED (cpu (machine_of s')) = HALTED (cpu (machine_of s))).
  { unfold main_step. rewrite Hm. destruct s as [pm pd st [[al i h m] inp out] d].
    destruct (prints_dump true m (ok_mem _ (ok_cpu _ (ok_machine _ Hs))) al i h inp out) as [t Et].
    unfold main_runs. cbn [machine_of]. rewrite Et. eexists. split_and!; [reflexivity..| |reflexivity].
    apply cleared_shutdown. }
  destruct E as (s' & E & H). exists s'. split; [done|]. split; [|tauto].
  exact (system_step_ok Main s s' Hs E).
Qed.

(** The end of the loop as a step. *)
Lemma halted_turn s : system_ok s -> at_main s = MLoop -> HALTED (cpu (machine_of s)) = true ->
  exists s', main_step s = Done tt s' /\ system_ok s' /\ at_main s' = MDump /\
    bus_shutdown (memory_of s') = true /\ HALTED (cpu (machine_of s')) = true.
Proof.
  intros Hs Hm Hh. assert (E : exists s', main_step s = Done tt s' /\ at_main s' = MDump /\
    bus_shutdown (memory_of s') = true /\ HALTED (cpu (machine_of s')) = true).
  { unfold main_step. rewrite Hm, Hh. eexists. by split_and!. }
  destruct E as (s' & E & H). exists s'. split; [done|]. split; [|tauto].
  exact (system_step_ok Main s s' Hs E).
Qed.

Lemma schedule_app ts ts' s s1 s2 :
  schedule ts s = Done tt s1 -> schedule ts' s1 = Done tt s2 -> schedule (ts ++ ts') s = Done tt s2.
Proof.
  revert s. induction ts as [|t ts IH]; intros s; cbn [schedule app]; [by intros [= ->]|].
  intros ([] & s0 & E1 & E2)%bind_inv E'. rewrite (bind_done _ _ _ _ _ E1). by apply IH.
Qed.

Lemma schedule_one t s s' : system_step t s = Done tt s' -> schedule [t] s = Done tt s'.
Proof. intros E. cbn [schedule]. by rewrite (bind_done _ _ _ _ _ E). Qed.

(** Turns of the disk's thread that end it once the bus is shut down. *)
Lemma disk_ends s : system_ok s -> bus_shutdown (memory_of s) = true ->
  exists ts s', Forall (eq DiskThread) ts /\ schedule ts s = Done tt s' /\ system_ok s' /\
    at_main s' = at_main s /\ at_disk s' = DEnded /\ HALTED (cpu (machine_of s')) = HALTED (cpu (machine_of s)).
Proof.
  assert (Htest : forall s, system_ok s -> bus_shutdown (memory_of s) = true -> at_disk s = DTest ->
    exists s', schedule [DiskThread] s = Done tt s' /\ system_ok s' /\
    at_main s' = at_main s /\ at_disk s' = DEnded /\ HALTED (cpu (machine_of s')) = HALTED (cpu (machine_of s))).
  { intros s1 Hs Hb Ht. destruct (disk_turn s1 Hs) as (s' & E & Hs' & _ & Hm & Hh & Hd); [by rewrite Ht|].
    exists s'. rewrite Ht, Hb in Hd. split_and!; try done. by apply schedule_one. }
  intros Hs Hb. destruct (at_disk s) eqn:Ed.
  - destruct (Htest s Hs Hb Ed) as (s' & E & H). exists [DiskThread], s'. split; [by repeat constructor | tauto].
  - destruct (disk_turn s Hs) as (s1 & E1 & H1 & Hb1 & Hm1 & Hh1 & Hd1); [by rewrite Ed|].
    rewrite Ed in Hd1. destruct (Htest s1 H1 ltac:(congruence) Hd1) as (s' & E & Hs' & Hm & Hd & Hh).
    exists ([DiskThread] ++ [DiskThread]), s'. split; [by repeat constructor|].
    split_and!; try done; try congruence. eapply schedule_app; [by apply schedule_one | exact E].
  - exists [], s. by split_and!.
Qed.
