(* ===== verification/MainProps.v ===== *)
(** * Properties of the retired emulator as a whole program *)
From S2P Require Import Prelude Files AtticMemory AtticAddressing AtticMachine AtticLoad AtticDisk AtticDump.
From S2P Require Import AtticFacts AtticSafe AtticObj AtticMain AtticMainFacts.
From Stdlib Require Import String.
#[local] Open Scope Z_scope.

(** The systems a program started with these files comes to, whatever the
    schedule. *)
Definition comes_to (files : string -> option (list Z)) (j : junk) (args : list string) (inp : list Z) (s : system) : Prop :=
  exists s0 ts, main files j args inp = Running s0 /\ schedule ts s0 = Done tt s.

Lemma comes_along files j args inp s0 ts s :
  main files j args inp = Running s0 -> schedule ts s0 = Done tt s -> comes_to files j args inp s.
Proof. intros E Es. exists s0, ts. split; [exact E | exact Es]. Qed.

Lemma comes_start files j args inp s : main files j args inp = Running s -> comes_to files j args inp s.
Proof. intros E. exact (comes_along files j args inp s [] s E eq_refl). Qed.

(** A property of the start that every step keeps. *)
Lemma schedule_keeps (P : system -> Prop) :
  (forall t s s', P s -> system_step t s = Done tt s' -> P s') ->
  forall ts s s', P s -> schedule ts s = Done tt s' -> P s'.
Proof.
  intros H ts. induction ts as [|t ts IH]; intros s s' Hs; [by intros [= <-]|].
  cbn [schedule]. intros ([] & s1 & E1 & E2)%bind_inv. eapply IH; [|exact E2]. by eapply H.
Qed.

Lemma comes_to_ok files j args inp s :
  files_ok files -> Forall (fun b => is_u8 b) inp -> comes_to files j args inp s -> system_ok s.
Proof.
  intros Hf Hi (s0 & ts & E & Es). apply main_starts in E as [H0 _]; [|done..].
  eapply (schedule_keeps system_ok); [intros; by eapply system_step_ok | exact H0 | exact Es].
Qed.

(** C32: The processor and the disk on one memory.  Whatever the order in which the
    main thread, the disk's thread and interrupts take their turns, all registers,
    bytes, texts and the drive with its image stay in the ranges of their types; a
    turn of the disk's thread always succeeds, none of its accesses is outside the
    memory or the sector buffer; the main thread waits only in the join, and only
    for a disk's thread that has not ended. *)
Theorem emulator_typed files j args inp s :
  files_ok files -> Forall (fun b => is_u8 b) inp -> comes_to files j args inp s ->
  system_ok s /\
  (at_disk s <> DEnded -> exists s', system_step DiskThread s = Done tt s') /\
  (system_step Main s = Blocked <-> at_main s = MExited \/ at_main s = MJoin /\ at_disk s <> DEnded) /\
  (at_main s <> MExited -> exists s', system_step Interrupt s = Done tt s' /\ HALTED (cpu (machine_of s')) = true).
Proof.
  intros Hf Hi Hs. pose proof (comes_to_ok files j args inp s Hf Hi Hs) as Hok. split_and!; [done|..].
  - intros Hd. destruct (disk_turn s Hok Hd) as (s' & E & _). by exists s'.
  - cbn [system_step]. unfold main_step.
    assert (Hp : forall f pc, partial console_ok f (fun _ => True) -> main_runs f pc s <> Blocked).
    { intros f pc Hp. unfold main_runs. specialize (Hp _ (ok_machine s Hok)). by destruct (f (machine_of s)). }
    destruct (at_main s).
    + split; [|by intros [|[]]]. destruct (HALTED _); intros E; exfalso; revert E; apply Hp.
      * apply (partial_set_shutdown true).
      * apply partial_round.
    + split; [|by intros [|[]]]. intros E. exfalso. revert E. apply Hp, partial_dump_state.
    + destruct (at_disk s); split; try done; auto. by intros [|[]].
    + split; auto.
  - intros Hm. cbn [system_step]. unfold handle_user_interrupt. destruct (at_main s); try done; by eexists.
Qed.

(** ** The end of the program *)

(** In the list mode: the disk's thread goes on, the main thread never leaves the
    join. *)
Definition listing (s : system) : Prop :=
  system_ok s /\ bus_shutdown (memory_of s) = false /\ at_disk s <> DEnded /\
  (at_main s = MDump \/ at_main s = MJoin).

Lemma listing_step t s s' : listing s -> system_step t s = Done tt s' -> listing s'.
Proof.
  intros (Hs & Hb & Hd & Hm) E. pose proof (system_step_ok t s s' Hs E) as Hs'. split; [done|].
  destruct t; cbn [system_step] in E.
  - destruct Hm as [Hm|Hm].
    + destruct (dump_turn s Hs Hm) as (s1 & E1 & _ & ? & ? & ? & _). assert (s1 = s') as -> by congruence.
      split_and!; [congruence..|by right].
    + unfold main_step in E. rewrite Hm in E. by destruct (at_disk s).
  - destruct (disk_turn s Hs Hd) as (s1 & E1 & _ & ? & Hm1 & _ & Hd1). assert (s1 = s') as -> by congruence.
    rewrite Hb in Hd1. split; [congruence|]. split; [|by rewrite Hm1].
    revert Hd1 Hd. by destruct (at_disk s); intros ->.
  - unfold handle_user_interrupt, main_runs, on_cpu in E. cbn in E.
    destruct Hm as [Hm|Hm]; rewrite Hm in E; injection E as <-; split_and!; try done; [by left | by right].
Qed.

(** In the other modes: behind the loop the machine has halted and the bus is shut
    down, and [main] only returns when the disk's thread has ended. *)
Definition running (s : system) : Prop :=
  system_ok s /\ (at_main s = MLoop \/ HALTED (cpu (machine_of s)) = true /\ bus_shutdown (memory_of s) = true) /\
  (at_main s = MExited -> at_disk s = DEnded).

Lemma running_step t s s' : running s -> system_step t s = Done tt s' -> running s'.
Proof.
  intros (Hs & Hm & Hx) E. pose proof (system_step_ok t s s' Hs E) as Hs'. split; [done|].
  destruct t; cbn [system_step] in E.
  - destruct (at_main s) eqn:Em.
    + destruct (HALTED (cpu (machine_of s))) eqn:Hh.
      * destruct (halted_turn s Hs Em Hh) as (s1 & E1 & _ & Hm1 & Hb1 & Hh1). assert (s1 = s') as -> by congruence.
        rewrite Hm1. split; [auto | done].
      * unfold main_step in E. rewrite Em, Hh in E.
        apply main_runs_ok in E as (_ & Hm1 & _); [| done | apply partial_round]. rewrite Hm1. split; [auto | done].
    + destruct (dump_turn s Hs Em) as (s1 & E1 & _ & Hm1 & _ & Hb1 & Hh1).
      assert (s1 = s') as -> by congruence. destruct Hm as [|[]]; [done|].
      rewrite Hm1, Hb1, Hh1. split; [auto | done].
    + unfold main_step in E. rewrite Em in E. destruct (at_disk s); try done.
      injection E as <-. destruct Hm as [|[]]; [done|]. cbn. split; [auto | done].
    + unfold main_step in E. by rewrite Em in E.
  - assert (Hd : at_disk s <> DEnded) by (intros Hd; unfold disk_step in E; by rewrite Hd in E).
    destruct (disk_turn s Hs Hd) as (s1 & E1 & _ & Hb1 & Hm1 & Hh1 & _). assert (s1 = s') as -> by congruence.
    rewrite Hm1, Hb1, Hh1. split; [done|]. intros Em. by destruct (Hd (Hx Em)).
  - unfold handle_user_interrupt, main_runs, on_cpu in E.
    destruct (at_main s) eqn:Em; [| | |done]; cbn in E; injection E as <-; cbn;
      (destruct Hm as [Hm|[]]; [done || auto | auto]).
Qed.

(** Turns that end the program, none of them an interrupt. *)
Definition ends (s : system) : Prop :=
  exists ts s', Forall (fun t => t <> Interrupt) ts /\ schedule ts s = Done tt s' /\ at_main s' = MExited.

Lemma ends_before ts s s1 :
  Forall (fun t => t <> Interrupt) ts -> schedule ts s = Done tt s1 -> ends s1 -> ends s.
Proof.
  intros Hts E (ts' & s' & Hts' & E' & Hx). exists (ts ++ ts')%list, s'.
  split; [by apply Forall_app_2|]. split; [by eapply schedule_app | done].
Qed.

Lemma ends_main s s1 : main_step s = Done tt s1 -> ends s1 -> ends s.
Proof. intros E. apply (ends_before [Main]); [by repeat constructor | by apply schedule_one]. Qed.

Lemma exited_ends s : at_main s = MExited -> ends s.
Proof. intros. exists [], s. split; [apply Forall_nil_2 | done]. Qed.

Lemma join_ends s : system_ok s -> at_main s = MJoin -> bus_shutdown (memory_of s) = true -> ends s.
Proof.
  intros Hs Em Hb. destruct (disk_ends s Hs Hb) as (ts & s1 & Hts & E & _ & Hm1 & Hd1 & _).
  eapply ends_before; [eapply Forall_impl; [exact Hts | by intros ? <-] | exact E|].
  eapply ends_main; [unfold main_step; by rewrite Hm1, Em, Hd1 | by apply exited_ends].
Qed.

Lemma dump_ends s : system_ok s -> at_main s = MDump -> bus_shutdown (memory_of s) = true -> ends s.
Proof.
  intros Hs Em Hb. destruct (dump_turn s Hs Em) as (s1 & E & H1 & Em1 & _ & Hb1 & _).
  eapply ends_main, join_ends; [exact E | done | done | congruence].
Qed.

Lemma halted_ends s : running s -> HALTED (cpu (machine_of s)) = true -> ends s.
Proof.
  intros (Hs & Hm & _) Hh. destruct (at_main s) eqn:Em.
  - destruct (halted_turn s Hs Em Hh) as (s1 & E1 & H1 & Em1 & Hb1 & _).
    by eapply ends_main, dump_ends.
  - destruct Hm as [|[_ Hb]]; [done|]. by apply dump_ends.
  - destruct Hm as [|[_ Hb]]; [done|]. by apply join_ends.
  - by apply exited_ends.
Qed.

(** C33: How the program ends.  Without [-l], [main] returns only when the machine
    has halted and the disk's thread has ended; from wherever the program is it
    can be brought to that by an interrupt, and once the machine has halted without
    one.  With [-l] it prints the dump and never returns: nothing shuts the bus
    down, so the disk's thread goes on and the join waits for it, interrupts or
    not. *)
Theorem emulator_ends files j args inp s :
  files_ok files -> Forall (fun b => is_u8 b) inp -> comes_to files j args inp s ->
  let o := machine_options (List.hd EmptyString args) args (Options None false false) in
  (o_list o = false ->
    (at_main s = MExited -> HALTED (cpu (machine_of s)) = true /\ at_disk s = DEnded) /\
    (HALTED (cpu (machine_of s)) = true -> ends s) /\
    (at_main s <> MExited -> exists s', system_step Interrupt s = Done tt s' /\ ends s')) /\
  (o_list o = true ->
    at_main s <> MExited /\ (exists s', system_step DiskThread s = Done tt s') /\
    (at_main s = MJoin -> forall ts s', schedule ts s = Done tt s' -> system_step Main s' = Blocked)).
Proof.
  intros Hf Hi (s0 & ts & E & Es) o.
  destruct (main_starts files j args inp s0 Hf Hi E) as (H0 & Hd0 & Hb0 & _ & Hm0). fold o in Hm0.
  split; intros Ho; rewrite Ho in Hm0.
  - assert (Hr : running s).
    { eapply (schedule_keeps running); [exact running_step | | exact Es]. split; [done|].
      rewrite Hm0. split; [auto | done]. }
    split_and!.
    + intros Em. destruct Hr as (_ & [?|[? _]] & Hx); [congruence | auto].
    + by apply halted_ends.
    + intros Em. assert (Hi' : exists s', system_step Interrupt s = Done tt s' /\ HALTED (cpu (machine_of s')) = true).
      { cbn [system_step]. unfold handle_user_interrupt. destruct (at_main s); try done; by eexists. }
      destruct Hi' as (s' & E' & Hh). exists s'. split; [done|].
      apply halted_ends; [by eapply running_step | done].
  - assert (Hl : listing s).
    { eapply (schedule_keeps listing); [exact listing_step | | exact Es].
      split; [exact H0|]. split; [done|]. rewrite Hd0, Hm0. split; [done | auto]. }
    split_and!.
    + destruct Hl as (_ & _ & _ & [-> | ->]); done.
    + destruct Hl as (Hs & _ & Hd & _). destruct (disk_turn s Hs Hd) as (s' & E' & _). by exists s'.
    + intros Em ts' s' E'.
      assert (Hl' : listing s' /\ at_main s' = MJoin).
      { eapply (schedule_keeps (fun s => listing s /\ at_main s = MJoin)); [| split; [exact Hl | exact Em] | exact E'].
        intros t s1 s2 [H1 Hm1] E1. split; [by eapply listing_step|].
        destruct H1 as (Hs1 & _ & Hd1 & _). destruct t; cbn [system_step] in E1.
        - unfold main_step in E1. rewrite Hm1 in E1. by destruct (at_disk s1).
        - destruct (disk_turn s1 Hs1 Hd1) as (s3 & E3 & _ & _ & Hm3 & _). congruence.
        - unfold handle_user_interrupt in E1. rewrite Hm1 in E1. unfold main_runs, on_cpu in E1. cbn in E1. by injection E1 as <-. }
      destruct Hl' as [(_ & _ & Hd & _) Hm']. cbn [system_step]. unfold main_step. rewrite Hm'.
      by destruct (at_disk s').
Qed.

(** ** A witness: a file that holds one HALT *)
Definition halt_obj : list Z := text_block 512 [0] ++ [0].

Definition one_file (name : string) : option (list Z) :=
  if (name =? "halt.obj")%string then Some halt_obj else None.

Lemma one_file_ok : files_ok one_file.
Proof.
  intros name bs. unfold one_file. destruct (name =? "halt.obj")%string; [|done].
  intros [= <-]. change halt_obj with [1; 0; 10; 0; 3; 0; 2; 0; 0; 0; 0].
  repeat (apply Forall_cons_2; [lia|]). apply Forall_nil_2.
Qed.

Lemma halt_loads : exists m, load_program_from_obj (Junk 0 0 0) halt_obj started = Done tt m.
Proof.
  destruct (load_obj_places (Junk 0 0 0) [] 10 512 [0] [0] started) as (m & E & _);
    [apply Forall_nil_2 | done | done | by repeat constructor | lia | done | exact started_ok | by exists m].
Qed.

(** Started to run, and started to list. *)
Lemma halt_starts args pc :
  args = ["halt.obj"%string] /\ pc = MLoop \/ args = ["-l"; "halt.obj"]%string /\ pc = MDump ->
  exists s, main one_file (Junk 0 0 0) args [] = Running s /\ at_main s = pc.
Proof.
  destruct halt_loads as [m E].
  assert (H : forall first args, List.last (first :: args) first = "halt.obj"%string ->
    main one_file (Junk 0 0 0) (first :: args) [] = Running (started_system
      (machine_options first (first :: args) (Options None false false))
      (o_disk (machine_options first (first :: args) (Options None false false)) ≫= one_file) [] m)).
  { intros first rest Hl. rewrite main_unfold, Hl. change (one_file "halt.obj") with (Some halt_obj). cbv zeta iota.
    by rewrite E. }
  intros [[-> ->]|[-> ->]]; eexists; (split; [by apply H | reflexivity]).
Qed.

(** The disk's thread and the main thread can move, and an interrupt halts. *)
Lemma emulator_typed_witness : exists s s' s'',
  main one_file (Junk 0 0 0) ["halt.obj"%string] [] = Running s /\
  system_step DiskThread s = Done tt s' /\ system_step Interrupt s = Done tt s'' /\ HALTED (cpu (machine_of s'')) = true.
Proof.
  destruct (halt_starts ["halt.obj"%string] MLoop) as (s & E & Em); [by left|].
  destruct (emulator_typed one_file (Junk 0 0 0) ["halt.obj"%string] [] s) as (_ & H1 & _ & H2).
  - exact one_file_ok.
  - apply Forall_nil_2.
  - exact (comes_start _ _ _ _ _ E).
  - destruct (main_starts _ _ _ _ _ one_file_ok (Forall_nil_2 _) E) as (_ & Hd & _).
    destruct H1 as [s' E1]; [rewrite Hd; discriminate|]. destruct H2 as (s'' & E2 & Hh); [rewrite Em; discriminate|].
    exists s, s', s''. exact (conj E (conj E1 (conj E2 Hh))).
Defined.

(** Run, the program can be ended; listing, it cannot. *)
Lemma emulator_ends_witness :
  (exists s s', main one_file (Junk 0 0 0) ["halt.obj"%string] [] = Running s /\
     system_step Interrupt s = Done tt s' /\ ends s') /\
  (exists s, main one_file (Junk 0 0 0) ["-l"; "halt.obj"]%string [] = Running s /\
     forall ts s', schedule ts s = Done tt s' -> at_main s' <> MExited).
Proof.
  split.
  - destruct (halt_starts ["halt.obj"%string] MLoop) as (s & E & Em); [by left|].
    destruct (emulator_ends one_file (Junk 0 0 0) ["halt.obj"%string] [] s) as [(_ & _ & H) _];
      [exact one_file_ok | apply Forall_nil_2 | exact (comes_start _ _ _ _ _ E) | reflexivity |].
    destruct H as (s' & E' & H); [rewrite Em; discriminate|]. exists s, s'. exact (conj E (conj E' H)).
  - destruct (halt_starts ["-l"; "halt.obj"]%string MDump) as (s & E & Em); [by right|].
    exists s. split; [exact E|]. intros ts s' Es.
    destruct (emulator_ends one_file (Junk 0 0 0) ["-l"; "halt.obj"]%string [] s') as [_ H];
      [exact one_file_ok | apply Forall_nil_2 | exact (comes_along _ _ _ _ _ _ _ E Es) |].
    apply H. reflexivity.
Defined.
