(* ===== verification/AtticAsm.v ===== *)
(** * The retired assembler

    [attic/src/asm.c]: lines of octal digits become the words of the format that
    [load_program_from_mcode] reads ([AtticLoad]); [;] starts a comment, [.end]
    ends the program.  The source is a list of bytes; [char] is signed, as it is
    for this compiler and machine.  A loop that never ends is [Blocked]. *)
From S2P Require Import Prelude Digits.

(** The files, the two variables that live through the loop, and the text printed. *)
Record asm := Asm {
  source : list Z; source_eof : bool;
  binary : list Z;
  instruction : Z; program_size : Z;
  printed : list Z
}.

Abbreviation L := (M asm).

Definition EOF : Z := -1.
Definition semicolon : Z := 59.

(** Conversion of an [int] to [char]. *)
Definition char (c : Z) : Z := if 127 <? c then c - 256 else c.

Definition fgetc : L Z := fun s =>
  match source s with
  | [] => Done EOF (Asm [] true (binary s) (instruction s) (program_size s) (printed s))
  | b :: rest => Done b (Asm rest (source_eof s) (binary s) (instruction s) (program_size s) (printed s))
  end.

Definition fwrite (bs : list Z) : L unit :=
  modify (fun s => Asm (source s) (source_eof s) (binary s ++ bs) (instruction s) (program_size s) (printed s)).

(** [fseek(binary, 0, 0)] and a [fwrite] of two bytes. *)
Definition rewrite_size : L unit :=
  modify (fun s => Asm (source s) (source_eof s) (le16 (program_size s) ++ drop 2 (binary s))
                     (instruction s) (program_size s) (printed s)).

Definition print (text : list Z) : L unit :=
  modify (fun s => Asm (source s) (source_eof s) (binary s) (instruction s) (program_size s) (printed s ++ text)).

Definition set_instruction (v : Z) : L unit :=
  modify (fun s => Asm (source s) (source_eof s) (binary s) v (program_size s) (printed s)).

Definition inc_program_size : L unit :=
  modify (fun s => Asm (source s) (source_eof s) (binary s) (instruction s) (u16 (program_size s + 1)) (printed s)).

(** ** A line *)
Fixpoint after_newline (s : list Z) : option (list Z) :=
  match s with
  | [] => None
  | c :: s' => if c =? newline then Some s' else after_newline s'
  end.

(** [while (fgetc(source) != '\n');] never ends at the end of the file. *)
Definition skip_comment : L unit := fun s =>
  match after_newline (source s) with
  | Some rest => Done tt (Asm rest (source_eof s) (binary s) (instruction s) (program_size s) (printed s))
  | None => Blocked
  end.

(** The rest of [line], [n] characters at most, and whether a NUL was put behind
    them. *)
Fixpoint fill_line (n : nat) (line : list Z) : L (list Z * bool) :=
  match n with
  | O => mret (line, false)
  | S n' =>
      c ← fgetc;
      let c := char c in
      if (c =? newline) || (c =? EOF) then mret (line, true) else fill_line n' (line ++ [c])
  end.

(** [strncmp(line, ".end", 4) == 0] *)
Definition is_end (line : list Z) : bool := bool_decide (firstn 4 line = [46; 101; 110; 100]).

(** One round of the loop; [false] for [break].  [sscanf] on a line that is not
    terminated reads outside the array. *)
Definition asm_line : L bool :=
  peek ← fgetc;
  let peek := char peek in
  if peek =? semicolon then skip_comment;; mret true
  else if peek =? EOF then mret false
  else
    '(line, terminated) ← fill_line 7 [peek];
    if is_end line then rewrite_size;; mret false
    else if negb terminated then fault
    else
      match scan_u16 8 line with Some v => set_instruction v | None => mret tt end;;
      v ← gets instruction;
      n ← gets program_size;
      print (show_padded 7 8 v ++ [32; 45; 32] ++ show 10 n ++ [newline]);;
      fwrite (le16 v);;
      inc_program_size;;
      mret true.

(** The loop; [None] if it has not ended after [fuel] rounds. *)
Fixpoint asm_lines (fuel : nat) : L (option unit) :=
  eof ← gets source_eof;
  if eof : bool then mret (Some tt)
  else match fuel with
       | O => mret None
       | S fuel' => more ← asm_line; if more : bool then asm_lines fuel' else mret (Some tt)
       end.

(** [main] with the files open: the exit status, and the state at the end.  Every
    round takes a character of the source or ends the loop. *)
Definition main (load_offset : list Z) (src : list Z) : outcome asm (option Z) :=
  match scan_u16 10 load_offset with
  | None => Done (Some 1) (Asm src false [] 0 0 [])
  | Some load_offset =>
      (r ← asm_lines (S (length src)); mret ((fun _ => 0) <$> r))
        (Asm src false (le16 0 ++ le16 load_offset) 0 0 [])
  end.
