(* ===== verification/AtticAsmFacts.v ===== *)
(** * The retired assembler: facts

    The lines of a program as text, what a round makes of each of them, the loop
    over them, and the loading of the bytes. *)
From S2P Require Import Prelude Digits Files AtticMemory AtticFacts AtticSafe AtticRegs AtticLoad AtticObj AtticAsm.

(** ** Programs as text *)

(** A word, printed with [w] digits at least, or a comment. *)
Inductive item := Code (w : nat) (i : Z) | Comment (t : list Z).

Definition item_text (x : item) : list Z :=
  match x with
  | Code w i => show_padded w 8 i ++ [newline]
  | Comment t => semicolon :: t ++ [newline]
  end.

(** The lines an 8-byte buffer can hold. *)
Definition item_ok (x : item) : Prop :=
  match x with
  | Code w i => is_u16 i /\ (length (show_padded w 8 i) <= 7)%nat
  | Comment t => newline ∉ t
  end.

Definition item_words (x : item) : list Z :=
  match x with Code _ i => [i] | Comment _ => [] end.

Definition words (p : list item) : list Z := p ≫= item_words.

Definition dot_end : list Z := [46; 101; 110; 100].

(** The state after the lines of [p], in front of [rest]. *)
Definition assembled (p : list item) (rest : list Z) (s : asm) : asm -> Prop := fun s' =>
  source s' = rest /\ source_eof s' = source_eof s /\ binary s' = binary s ++ (words p ≫= le16) /\
  program_size s' = u16 (program_size s + Z.of_nat (length (words p))).

Lemma fgetc_char b rest e bin i n t :
  fgetc (Asm (b :: rest) e bin i n t) = Done b (Asm rest e bin i n t).
Proof. done. Qed.

Lemma octal_char c : digit_of 8 c -> char c = c /\ c <> newline /\ c <> EOF /\ c <> semicolon.
Proof.
  unfold digit_of, zero_char, char, newline, EOF, semicolon. intros H.
  destruct (Z.ltb_spec 127 c); lia.
Qed.

(** The characters of a line: not a newline, and not the byte that becomes [EOF]. *)
Definition line_char (c : Z) : Prop := is_u8 c /\ c <> newline /\ c <> 255.

Lemma line_char_char c : line_char c -> char c <> newline /\ char c <> EOF /\ (char c = semicolon <-> c = semicolon).
Proof.
  unfold line_char, char, newline, EOF, semicolon. intros (H1 & H2 & H3).
  destruct (Z.ltb_spec 127 c); lia.
Qed.

(** Characters up to a newline into the buffer. *)
Lemma fill_line_short ds : forall n line rest e bin i k t,
  Forall line_char ds -> (length ds < n)%nat ->
  fill_line n line (Asm (ds ++ newline :: rest) e bin i k t)
  = Done (line ++ map char ds, true) (Asm rest e bin i k t).
Proof.
  induction ds as [|c ds IH]; intros n line rest e bin i k t Hd Hn; (destruct n as [|n]; [cbn in Hn; lia|]).
  - cbn [app fill_line]. rewrite (bind_done _ _ _ _ _ (fgetc_char _ _ _ _ _ _ _)). cbn.
    by rewrite app_nil_r.
  - apply Forall_cons_1 in Hd as [Hc Hd]. destruct (line_char_char c Hc) as (H1 & H2 & _).
    cbn [app fill_line]. rewrite (bind_done _ _ _ _ _ (fgetc_char _ _ _ _ _ _ _)). cbv zeta.
    rewrite (proj2 (Z.eqb_neq _ _) H1), (proj2 (Z.eqb_neq _ _) H2). cbn [orb map].
    rewrite IH by (done || (cbn in Hn; lia)). by rewrite <- app_assoc.
Qed.

(** As many as it holds. *)
Lemma fill_line_long n : forall ds line rest e bin i k t,
  Forall line_char ds -> (n <= length ds)%nat ->
  fill_line n line (Asm (ds ++ rest) e bin i k t)
  = Done (line ++ map char (take n ds), false) (Asm (drop n ds ++ rest) e bin i k t).
Proof.
  induction n as [|n IH]; intros ds line rest e bin i k t Hd Hn; [by rewrite app_nil_r|].
  destruct ds as [|c ds]; [cbn in Hn; lia|].
  apply Forall_cons_1 in Hd as [Hc Hd]. destruct (line_char_char c Hc) as (H1 & H2 & _).
  cbn [app fill_line take drop map]. rewrite (bind_done _ _ _ _ _ (fgetc_char _ _ _ _ _ _ _)). cbv zeta.
  rewrite (proj2 (Z.eqb_neq _ _) H1), (proj2 (Z.eqb_neq _ _) H2). cbn [orb].
  rewrite IH by (done || (cbn in Hn; lia)). by rewrite <- app_assoc.
Qed.

Lemma digit_line_char ds : Forall (digit_of 8) ds -> Forall line_char ds /\ map char ds = ds.
Proof.
  induction 1 as [|c ds Hc Hd [IH1 IH2]]; [by split|]. destruct (octal_char c Hc) as (E & H1 & _).
  split; [|cbn; by rewrite E, IH2]. apply Forall_cons_2; [|done]. unfold digit_of, zero_char in Hc. unfold line_char. lia.
Qed.

Lemma fill_line_digits ds n line rest e bin i k t :
  Forall (digit_of 8) ds -> (length ds < n)%nat ->
  fill_line n line (Asm (ds ++ newline :: rest) e bin i k t)
  = Done (line ++ ds, true) (Asm rest e bin i k t).
Proof. intros [Hl E]%digit_line_char Hn. rewrite fill_line_short by done. by rewrite E. Qed.

Lemma after_newline_app t rest : newline ∉ t -> after_newline (t ++ newline :: rest) = Some rest.
Proof.
  induction t as [|c t IH]; intros H; [done|]. cbn [app after_newline].
  rewrite not_elem_of_cons in H. destruct H as [H1 H2].
  rewrite (proj2 (Z.eqb_neq _ _)) by congruence. by apply IH.
Qed.

(** Digits are no [.end]. *)
Lemma is_end_digits ds : Forall (digit_of 8) ds -> is_end ds = false.
Proof.
  intros H. unfold is_end. apply bool_decide_eq_false_2. destruct ds as [|c ds]; [done|].
  apply Forall_cons_1 in H as [Hc _]. cbn [firstn]. intros [= ->]. unfold digit_of, zero_char in Hc. lia.
Qed.

Lemma asm_line_item x s rest :
  item_ok x -> is_u16 (program_size s) -> source s = item_text x ++ rest ->
  exists s', asm_line s = Done true s' /\ assembled [x] rest s s'.
Proof.
  destruct s as [src e bin i n t]. cbn [source program_size]. intros Hx Hn ->. unfold assembled, words. cbn [mbind list_bind].
  unfold asm_line. destruct x as [w v|c]; cbn [item_text item_ok item_words app] in *.
  - destruct Hx as [Hv Hl]. pose proof (show_padded_digits 8 ltac:(lia) w v ltac:(lia)) as Hd.
    pose proof (scan_show 8 ltac:(lia) [] w v [] ltac:(lia) (Forall_nil_2 _) ltac:(unfold ULONG_MAX; lia) I) as Hs.
    rewrite app_nil_l, app_nil_r in Hs.
    pose proof (show_padded_nonempty 8 ltac:(lia) w v ltac:(lia)) as Hne.
    destruct (show_padded w 8 v) as [|c ds]; [done|]. pose proof (is_end_digits _ Hd) as He.
    apply Forall_cons_1 in Hd as [Hc Hd]. destruct (octal_char c Hc) as (E & _ & H2 & H3).
    rewrite <- app_assoc. cbn [app]. rewrite (bind_done _ _ _ _ _ (fgetc_char _ _ _ _ _ _ _)). cbv zeta.
    rewrite E, (proj2 (Z.eqb_neq _ _) H2), (proj2 (Z.eqb_neq _ _) H3).
    rewrite (bind_done _ _ _ _ _ (fill_line_digits ds 7 [c] rest e bin i n t Hd ltac:(cbn in Hl; lia))).
    cbn [app]. rewrite He. cbn [negb]. unfold scan_u16. rewrite Hs. cbn [fmap option_fmap option_map fst].
    rewrite u16_id by done. eexists. split; [reflexivity|]. cbn. 
    split_and!; [done..|]. by replace (Z.of_nat 1) with 1 by lia.
  - rewrite (bind_done _ _ _ _ _ (fgetc_char _ _ _ _ _ _ _)). cbn [Z.eqb char semicolon]. cbv zeta.
    change (char semicolon =? semicolon) with true. cbv iota.
    rewrite <- app_assoc. cbn [app]. unfold skip_comment at 1.
    rewrite (bind_done _ _ _ tt (Asm rest e bin i n t)) by (cbn [source]; by rewrite after_newline_app).
    eexists. split; [reflexivity|]. cbn. rewrite app_nil_r. rewrite Z.add_0_r, u16_id by done.
    by split_and!; rewrite ?app_nil_r.
Qed.

(** ** The loop *)
Definition program_text (p : list item) : list Z := p ≫= item_text.

Lemma asm_lines_items p : forall fuel s rest,
  Forall item_ok p -> is_u16 (program_size s) -> source_eof s = false ->
  source s = program_text p ++ rest ->
  exists s', asm_lines (length p + fuel) s = asm_lines fuel s' /\ assembled p rest s s'.
Proof.
  induction p as [|x p IH]; intros fuel s rest Hp Hn He Hs.
  - exists s. split; [done|]. unfold assembled, words. cbn [mbind list_bind length].
    change (Z.of_nat 0) with 0. rewrite Z.add_0_r, u16_id, app_nil_r by done. by split_and!.
  - apply Forall_cons_1 in Hp as [Hx Hp]. cbn [program_text mbind list_bind] in Hs. rewrite <- app_assoc in Hs.
    destruct (asm_line_item x s _ Hx Hn Hs) as (s1 & E1 & Hs1 & He1 & Hb1 & Hn1).
    destruct (IH fuel s1 rest Hp) as (s2 & E2 & Hs2 & He2 & Hb2 & Hn2);
      [rewrite Hn1; apply u16_range | by rewrite He1 | done |].
    exists s2. cbn [length Nat.add asm_lines]. unfold gets at 1.
    rewrite (bind_done _ _ s false s) by (by rewrite He). rewrite (bind_done _ _ _ _ _ E1). split; [done|].
    split_and!; [done | by rewrite He2 | |].
    + rewrite Hb2, Hb1, <- app_assoc, <- bind_app. f_equal. unfold words. cbn [mbind list_bind].
      by rewrite app_nil_r.
    + rewrite Hn2, Hn1. unfold words. cbn [mbind list_bind]. rewrite app_nil_r, length_app, Nat2Z.inj_add.
      unfold u16. rewrite Zplus_mod_idemp_l. f_equal. lia.
Qed.

Lemma items_length p : (length p <= length (program_text p))%nat.
Proof.
  induction p as [|x p IH]; [done|]. unfold program_text in *. cbn [mbind list_bind length]. rewrite length_app.
  assert (1 <= length (item_text x))%nat by (destruct x; cbn; rewrite length_app; cbn; lia). lia.
Qed.

(** The line [.end], whatever is behind it. *)
Lemma asm_line_end s rest : source s = dot_end ++ newline :: rest ->
  exists s', asm_line s = Done false s' /\ binary s' = le16 (program_size s) ++ drop 2 (binary s).
Proof. destruct s as [src e bin i n t]. cbn [source]. intros ->.
  exists (Asm rest e (le16 n ++ drop 2 bin) i n t). by split. Qed.

(** The end of the file. *)
Lemma asm_lines_eof fuel s : source s = [] -> source_eof s = false ->
  exists s', asm_lines (S fuel) s = Done (Some tt) s' /\ binary s' = binary s.
Proof. destruct s as [src e bin i n t]. cbn [source source_eof]. intros -> ->. eexists. by split; [by destruct fuel|]. Qed.

(** The whole of [main]. *)
Section Main.
Variables (arg : list Z) (off : Z) (Harg : scan_u16 10 arg = Some off).
Variables (p : list item) (Hp : Forall item_ok p).

Lemma main_end rest : Z.of_nat (length (words p)) < 65536 ->
  exists s, main arg (program_text p ++ dot_end ++ newline :: rest) = Done (Some 0) s /\
    binary s = le16 (Z.of_nat (length (words p))) ++ le16 off ++ (words p ≫= le16).
Proof using Harg Hp.
  intros Hw. unfold main. rewrite Harg. set (src := program_text p ++ dot_end ++ newline :: rest).
  set (s0 := Asm src false (le16 0 ++ le16 off) 0 0 []). pose proof (items_length p) as Hl.
  assert (length p + S (length src - length p) = S (length src))%nat as <-
    by (unfold src; rewrite length_app; lia).
  destruct (asm_lines_items p (S (length src - length p)) s0 (dot_end ++ newline :: rest) Hp
    ltac:(cbn; lia) eq_refl eq_refl) as (s1 & E1 & Hs1 & He1 & Hb1 & Hn1).
  destruct (asm_line_end s1 rest Hs1) as (s2 & E2 & Hb2). exists s2. split.
  - rewrite (bind_done _ _ s0 (Some tt) s2); [done|]. rewrite E1. cbn [asm_lines]. unfold gets at 1.
    rewrite (bind_done _ _ s1 false s1) by (by rewrite He1). by rewrite (bind_done _ _ _ _ _ E2).
  - rewrite Hb2, Hb1, Hn1. cbn [program_size binary s0]. rewrite Z.add_0_l, u16_id by lia. done.
Qed.

Lemma main_no_end :
  exists s, main arg (program_text p) = Done (Some 0) s /\
    binary s = le16 0 ++ le16 off ++ (words p ≫= le16).
Proof using Harg Hp.
  unfold main. rewrite Harg. set (src := program_text p).
  set (s0 := Asm src false (le16 0 ++ le16 off) 0 0 []). pose proof (items_length p) as Hl.
  assert (length p + S (length src - length p) = S (length src))%nat as <- by (unfold src; lia).
  destruct (asm_lines_items p (S (length src - length p)) s0 [] Hp ltac:(cbn; lia) eq_refl)
    as (s1 & E1 & Hs1 & He1 & Hb1 & _); [cbn; by rewrite app_nil_r|].
  destruct (asm_lines_eof (length src - length p) s1 Hs1) as (s2 & E2 & Hb2); [by rewrite He1|].
  exists s2. split; [by rewrite (bind_done _ _ s0 (Some tt) s2) by (by rewrite E1)|].
  rewrite Hb2, Hb1. cbn [binary s0]. by rewrite <- app_assoc.
Qed.
End Main.

(** ** Every source ends, unless its last comment does not *)
Definition ends_line (s : list Z) : Prop := s = [] \/ exists t, s = t ++ [newline].

Lemma ends_line_tail c s : ends_line (c :: s) -> ends_line s.
Proof.
  intros [?|[t E]]; [done|]. destruct t as [|d t]; [by injection E as _ ->; left|].
  injection E as _ ->. right. by exists t.
Qed.

Lemma after_newline_ends s : ends_line s -> s <> [] ->
  exists rest, after_newline s = Some rest /\ ends_line rest /\ (length rest < length s)%nat.
Proof.
  induction s as [|c s IH]; intros H Hne; [done|]. cbn [after_newline]. pose proof (ends_line_tail _ _ H) as Ht.
  destruct (Z.eqb_spec c newline); [exists s; split_and!; [done..|cbn; lia]|].
  destruct (IH Ht) as (rest & E & Hr & Hl).
  - destruct H as [?|[t E]]; [done|]. destruct t as [|d t]; [by injection E|].
    injection E as _ ->. by destruct t.
  - exists rest. split_and!; [done..|cbn; lia].
Qed.

(** What the loop keeps: the source gets shorter or [break] or [feof] ends it. *)
Definition progress (n : nat) (s : asm) : Prop :=
  ends_line (source s) /\ ((length (source s) <= n)%nat \/ source_eof s = true).

Lemma fgetc_progress n : partial (progress n) fgetc (fun _ => True).
Proof.
  intros [src e bin i k t] [H1 H2]. unfold fgetc. cbn [source source_eof] in *. destruct src as [|c src].
  - split; [done|]. split; [by left | by right].
  - split; [done|].
    split; cbn [source source_eof]; [by eapply ends_line_tail | cbn in H2; destruct H2; [left; lia | by right]].
Qed.

Lemma fill_line_progress m : forall n line, partial (progress n) (fill_line m line) (fun _ => True).
Proof.
  induction m as [|m IH]; intros n line; cbn [fill_line]; [by apply partial_ret|].
  eapply partial_bind; [apply fgetc_progress|]. intros c _. cbv zeta.
  apply partial_if; intros _; [by apply partial_ret | apply IH].
Qed.

(** A round that goes on has taken a character. *)
Lemma asm_line_progress s : ends_line (source s) ->
  match asm_line s with
  | Done more s' => more = true -> progress (pred (length (source s))) s'
  | Blocked => False
  | Fault => True
  end.
Proof.
  destruct s as [src e bin i n t]. cbn [source]. intros H. unfold asm_line. destruct src as [|c src]; [done|].
  rewrite (bind_done _ _ _ _ _ (fgetc_char _ _ _ _ _ _ _)). cbv zeta. cbn [length pred].
  pose proof (ends_line_tail _ _ H) as Ht. destruct (Z.eqb_spec (char c) semicolon) as [Ec|_].
  - assert (Hne : src <> []).
    { intros ->. destruct H as [?|[[|d t'] E]]; [done| |by destruct t']. injection E as ->. by vm_compute in Ec. }
    destruct (after_newline_ends src Ht Hne) as (rest & E & Hr & Hl).
    rewrite (bind_done _ _ _ tt (Asm rest e bin i n t)) by (unfold skip_comment; cbn [source]; by rewrite E).
    intros _. split; [done | left; cbn [source]; lia].
  - destruct (char c =? EOF); [done|].
    set (body := _ ≫= _). assert (Hb : partial (progress (length src)) body (fun _ => True)).
    { unfold body. eapply partial_bind; [apply fill_line_progress|]. intros [line terminated] _.
      assert (Hmod : forall f : asm -> asm, (forall s, source (f s) = source s /\ source_eof (f s) = source_eof s) ->
        partial (progress (length src)) (modify f) (fun _ => True)).
      { intros f Hf. apply partial_modify. intros s' [H1 H2]. destruct (Hf s') as [E1 E2].
        unfold progress. by rewrite E1, E2. }
      apply partial_if; intros _; [eapply partial_bind; [by apply Hmod | by intros; apply partial_ret]|].
      apply partial_if; intros _; [by intros ? ?|].
      eapply partial_bind; [destruct (scan_u16 8 line); [by apply Hmod | by apply partial_ret]|].
      repeat (intros; eapply partial_bind; [first [by apply Hmod | by apply partial_any]|]).
      intros. by apply partial_ret. }
    assert (Hs : progress (length src) (Asm src e bin i n t)) by (split; [done | by left]).
    specialize (Hb _ Hs). destruct (body (Asm src e bin i n t)); [|done..]. intros _. by apply Hb.
Qed.

Lemma asm_lines_end n : forall s, progress n s ->
  match asm_lines (S n) s with Done r s' => r = Some tt | Blocked => False | Fault => True end.
Proof.
  induction n as [|n IH]; intros s [H1 H2]; cbn [asm_lines]; unfold gets at 1;
    rewrite (bind_done _ _ s (source_eof s) s) by done; (destruct (source_eof s) eqn:E; [done|]);
    (destruct H2 as [H2|]; [|done]); pose proof (asm_line_progress s H1) as Hp; unfold mbind at 1, M_bind at 1;
    destruct (asm_line s) as [[] s1| |] eqn:El; try done; specialize (Hp eq_refl).
  - assert (source s = []) as Es by (destruct (source s); [done | cbn in H2; lia]).
    exfalso. destruct s as [src e bin i k t]. cbn in Es. subst. by vm_compute in El.
  - apply IH. destruct Hp as [Hp1 [Hp2|Hp2]]; [|by split; [|right]]. split; [done | left; lia].
Qed.

(** ** Which sources the assembler gets through *)

(** Lines with their newlines. *)
Definition lines_text (ls : list (list Z)) : list Z := ls ≫= fun l => l ++ [newline].

(** The lines that go into the buffer up to their newline: seven characters at most.
    Comments are not stored, [.end] is recognised before the buffer is read as a
    string, and an empty line puts its newline and the next line into the buffer. *)
Fixpoint fits (ls : list (list Z)) : bool :=
  match ls with
  | [] => true
  | [] :: ls => match ls with [] => true | l :: ls => (length l <=? 6)%nat && fits ls end
  | (c :: l) :: ls =>
      if c =? semicolon then fits ls
      else if is_end (map char (c :: l)) then true
      else (length l <=? 6)%nat && fits ls
  end.

(** What a round does behind the filling of the buffer. *)
Definition line_tail (x : list Z * bool) : L bool :=
  let '(line, terminated) := x in
  if is_end line then rewrite_size;; mret false
  else if negb terminated then fault
  else
    match scan_u16 8 line with Some v => set_instruction v | None => mret tt end;;
    v ← gets instruction;
    n ← gets program_size;
    print (show_padded 7 8 v ++ [32; 45; 32] ++ show 10 n ++ [newline]);;
    fwrite (le16 v);;
    inc_program_size;;
    mret true.

Lemma asm_line_fills c src e bin i n t : char c <> semicolon -> char c <> EOF ->
  asm_line (Asm (c :: src) e bin i n t) = (fill_line 7 [char c] ≫= line_tail) (Asm src e bin i n t).
Proof.
  intros H1 H2. unfold asm_line. rewrite (bind_done _ _ _ _ _ (fgetc_char _ _ _ _ _ _ _)). cbv zeta.
  by rewrite (proj2 (Z.eqb_neq _ _) H1), (proj2 (Z.eqb_neq _ _) H2).
Qed.

Lemma line_tail_stored line src e bin i n t : is_end line = false ->
  exists bin' i' n' t', line_tail (line, true) (Asm src e bin i n t) = Done true (Asm src e bin' i' n' t').
Proof. intros H. unfold line_tail. rewrite H. cbn [negb]. destruct (scan_u16 8 line); by do 4 eexists. Qed.

Lemma line_tail_over line s : is_end line = false -> line_tail (line, false) s = Fault.
Proof. intros H. unfold line_tail. by rewrite H. Qed.

Lemma is_end_first (l l' : list Z) : take 4 l = take 4 l' -> is_end l = is_end l'.
Proof. unfold is_end. intros H. change (firstn 4 l) with (take 4 l). change (firstn 4 l') with (take 4 l'). by rewrite H. Qed.

Section Lines.
Variables (e : bool) (bin : list Z) (i n : Z) (t : list Z).

Lemma line_comment l src : Forall line_char l ->
  asm_line (Asm ((semicolon :: l) ++ newline :: src) e bin i n t) = Done true (Asm src e bin i n t).
Proof using Type.
  intros Hl. unfold asm_line. cbn [app]. rewrite (bind_done _ _ _ _ _ (fgetc_char _ _ _ _ _ _ _)). cbv zeta.
  change (char semicolon =? semicolon) with true. cbv iota.
  rewrite (bind_done _ _ _ tt (Asm src e bin i n t)); [done|]. unfold skip_comment. cbn [source].
  rewrite after_newline_app; [done|]. intros [_ [H _]]%(proj1 (Forall_forall _ _) Hl). done.
Qed.

Lemma line_stored c l src : Forall line_char (c :: l) -> c <> semicolon -> is_end (map char (c :: l)) = false ->
  (length l <= 6)%nat ->
  exists bin' i' n' t', asm_line (Asm ((c :: l) ++ newline :: src) e bin i n t) = Done true (Asm src e bin' i' n' t').
Proof using Type.
  intros [Hc Hl]%Forall_cons_1 Hs He Hn. destruct (line_char_char c Hc) as (_ & H2 & H3). cbn [app].
  rewrite asm_line_fills by tauto. rewrite (bind_done _ _ _ _ _ (fill_line_short l 7 _ _ _ _ _ _ _ Hl ltac:(lia))).
  by apply line_tail_stored.
Qed.

Lemma line_over c l src : Forall line_char (c :: l) -> c <> semicolon -> is_end (map char (c :: l)) = false ->
  (6 < length l)%nat -> asm_line (Asm ((c :: l) ++ newline :: src) e bin i n t) = Fault.
Proof using Type.
  intros [Hc Hl]%Forall_cons_1 Hs He Hn. destruct (line_char_char c Hc) as (_ & H2 & H3). cbn [app].
  rewrite asm_line_fills by tauto. rewrite (bind_done _ _ _ _ _ (fill_line_long 7 l _ _ _ _ _ _ _ Hl ltac:(lia))).
  apply line_tail_over. rewrite <- He. apply is_end_first. cbn [app map take].
  rewrite <- !firstn_map, take_take. done.
Qed.

Lemma line_ends c l src : Forall line_char (c :: l) -> c <> semicolon -> is_end (map char (c :: l)) = true ->
  exists s, asm_line (Asm ((c :: l) ++ newline :: src) e bin i n t) = Done false s.
Proof using Type.
  intros [Hc Hl]%Forall_cons_1 Hs He. destruct (line_char_char c Hc) as (_ & H2 & H3). cbn [app].
  rewrite asm_line_fills by tauto. destruct (Nat.le_gt_cases 7 (length l)).
  - rewrite (bind_done _ _ _ _ _ (fill_line_long 7 l _ _ _ _ _ _ _ Hl ltac:(lia))). unfold line_tail.
    rewrite (is_end_first _ (map char (c :: l))), He by (cbn [app map take]; by rewrite <- !firstn_map, take_take).
    by eexists.
  - rewrite (bind_done _ _ _ _ _ (fill_line_short l 7 _ _ _ _ _ _ _ Hl ltac:(lia))). unfold line_tail.
    cbn [app]. change (char c :: map char l) with (map char (c :: l)). rewrite He. by eexists.
Qed.

(** An empty line, whose newline is the first character of the buffer. *)
Lemma line_absorbs l src : Forall line_char l -> (length l <= 6)%nat ->
  exists bin' i' n' t', asm_line (Asm (newline :: l ++ newline :: src) e bin i n t) = Done true (Asm src e bin' i' n' t').
Proof using Type.
  intros Hl Hn. rewrite asm_line_fills by done.
  rewrite (bind_done _ _ _ _ _ (fill_line_short l 7 _ _ _ _ _ _ _ Hl ltac:(lia))). by apply line_tail_stored.
Qed.

Lemma line_absorbs_over l src : Forall line_char l -> (6 < length l)%nat ->
  asm_line (Asm (newline :: l ++ newline :: src) e bin i n t) = Fault.
Proof using Type.
  intros Hl Hn. rewrite asm_line_fills by done.
  rewrite (bind_done _ _ _ _ _ (fill_line_long 7 l _ _ _ _ _ _ _ Hl ltac:(lia))). by apply line_tail_over.
Qed.

Lemma line_absorbs_end :
  exists bin' i' n' t', asm_line (Asm [newline] e bin i n t) = Done true (Asm [] true bin' i' n' t').
Proof using Type. rewrite asm_line_fills by done. cbn. by do 4 eexists. Qed.
End Lines.

Lemma asm_lines_more fuel src bin i n t o : asm_line (Asm src false bin i n t) = Done true o ->
  asm_lines (S fuel) (Asm src false bin i n t) = asm_lines fuel o.
Proof. intros E. cbn [asm_lines]. unfold gets at 1. rewrite (bind_done _ _ _ false (Asm src false bin i n t)) by done. by rewrite (bind_done _ _ _ _ _ E). Qed.

Lemma asm_lines_over fuel src bin i n t s : asm_line (Asm src false bin i n t) = Done false s ->
  asm_lines (S fuel) (Asm src false bin i n t) = Done (Some tt) s.
Proof. intros E. cbn [asm_lines]. unfold gets at 1. rewrite (bind_done _ _ _ false (Asm src false bin i n t)) by done. by rewrite (bind_done _ _ _ _ _ E). Qed.

Lemma asm_lines_fault fuel src bin i n t : asm_line (Asm src false bin i n t) = Fault ->
  asm_lines (S fuel) (Asm src false bin i n t) = Fault.
Proof. intros E. cbn [asm_lines]. unfold gets at 1. rewrite (bind_done _ _ _ false (Asm src false bin i n t)) by done. by apply bind_fault. Qed.

Lemma lines_text_cons l ls : lines_text (l :: ls) = l ++ newline :: lines_text ls.
Proof. unfold lines_text. cbn [mbind list_bind]. by rewrite <- app_assoc. Qed.

(** The loop over whole lines. *)
Lemma asm_lines_fits k : forall ls fuel bin i n t,
  (length ls <= k)%nat -> Forall (Forall line_char) ls -> (length (lines_text ls) < fuel)%nat ->
  let o := asm_lines fuel (Asm (lines_text ls) false bin i n t) in
  if fits ls then exists s, o = Done (Some tt) s else o = Fault.
Proof.
  induction k as [|k IH]; intros ls fuel bin i n t Hk Hl Hf o; subst o;
    (destruct fuel as [|fuel]; [lia|]); (destruct ls as [|l ls]; [by eexists|]); [cbn in Hk; lia|].
  rewrite lines_text_cons in *. apply Forall_cons_1 in Hl as [Hl Hls]. cbn [length] in Hk. rewrite length_app in Hf. cbn [length] in Hf.
  destruct l as [|c l]; cbn [fits].
  - cbn [app length] in *. destruct ls as [|l ls].
    + destruct (line_absorbs_end false bin i n t) as (b' & i' & n' & t' & E).
      cbn [lines_text mbind list_bind]. rewrite (asm_lines_more _ _ _ _ _ _ _ E). by destruct fuel; eexists.
    + apply Forall_cons_1 in Hls as [Hl' Hls]. rewrite lines_text_cons in *. rewrite length_app in Hf. cbn [length] in Hf, Hk.
      destruct (Nat.leb_spec (length l) 6); cbn [andb].
      * destruct (line_absorbs false bin i n t l (lines_text ls)) as (b' & i' & n' & t' & E); [done..|].
        rewrite (asm_lines_more _ _ _ _ _ _ _ E). apply IH; [lia | done | lia].
      * by apply asm_lines_fault, line_absorbs_over.
  - destruct (Z.eqb_spec c semicolon) as [->|Hs].
    + rewrite (asm_lines_more _ _ _ _ _ _ _ (line_comment _ _ _ _ _ l _ (proj2 (proj1 (Forall_cons _ _ _) Hl)))).
      apply IH; [lia | done | lia].
    + destruct (is_end (map char (c :: l))) eqn:He.
      * destruct (line_ends false bin i n t c l (lines_text ls)) as (s & E); [done..|].
        exists s. by apply asm_lines_over.
      * destruct (Nat.leb_spec (length l) 6); cbn [andb].
        -- destruct (line_stored false bin i n t c l (lines_text ls)) as (b' & i' & n' & t' & E); [done..|].
           rewrite (asm_lines_more _ _ _ _ _ _ _ E). apply IH; [lia | done | lia].
        -- by apply asm_lines_fault, line_over.
Qed.

(** ** Loading the bytes *)
Lemma load_bytes_ahead bs : forall f l a b m,
  ahead f = bs ++ l -> Forall (fun b => is_u8 b) bs -> mem_ok m ->
  0 <= a -> a + Z.of_nat (length bs) <= R0 ->
  exists f' m', load_bytes (length bs) b a f m = Done f' m' /\ mem_ok m' /\
    (forall i c, bs !! i = Some c -> peek (a + Z.of_nat i) m' = c) /\
    (forall x, x < a \/ a + Z.of_nat (length bs) <= x -> peek x m' = peek x m).
Proof.
  induction bs as [|c bs IH]; intros f l a b m H Hb Hm Ha Hr.
  - exists f, m. by split_and!.
  - apply Forall_cons_1 in Hb as [Hc Hb]. cbn [length load_bytes app] in *. unfold R0 in Hr.
    rewrite (fread1_ahead _ _ _ _ H).
    rewrite (bind_done _ _ m tt (poke_byte a c m)).
    2:{ rewrite direct_write_byte_eq by (done || unfold MEMBYTES; lia).
        unfold write_effect. by rewrite decide_False by (unfold RXDB; lia). }
    destruct (IH (adv 1 f) l (a + 1) c (poke_byte a c m)) as (f' & m' & E & Hok & Hin & Hout);
      [by rewrite ahead_adv, H | done | apply poke_byte_ok; [unfold MEMBYTES; lia | done] | lia
      | unfold R0; lia |].
    exists f', m'. split_and!; [exact E | done | |].
    + intros [|i] x Hx.
      * injection Hx as <-. rewrite Hout by lia. replace (a + Z.of_nat 0) with a by lia.
        by rewrite peek_poke_byte, decide_True, u8_id.
      * replace (a + Z.of_nat (S i)) with (a + 1 + Z.of_nat i) by lia. by apply Hin.
    + intros x Hx. rewrite Hout by lia. by rewrite peek_poke_byte, decide_False by lia.
Qed.

Lemma words_lookup ws i w : ws !! i = Some w ->
  (ws ≫= le16) !! (2 * i)%nat = Some (w mod 256) /\ (ws ≫= le16) !! S (2 * i) = Some (w / 256).
Proof.
  revert i. induction ws as [|x ws IH]; intros [|i] H; [done..| |].
  - by injection H as ->.
  - replace (2 * S i)%nat with (S (S (2 * i))) by lia. apply (IH i H).
Qed.

(** Bytes that are the bytes of words. *)
Lemma words_from_bytes off ws m :
  Forall (fun w => is_u16 w) ws ->
  (forall i c, (ws ≫= le16) !! i = Some c -> peek (off + Z.of_nat i) m = c) ->
  forall i w, ws !! i = Some w -> word (off + 2 * Z.of_nat i) m = w.
Proof.
  intros Hw Hin i w Hi. destruct (words_lookup _ _ _ Hi) as [H1 H2].
  assert (is_u16 w) by (by apply (proj1 (Forall_lookup _ _) Hw i)).
  unfold word. replace (off + 2 * Z.of_nat i + 1) with (off + Z.of_nat (S (2 * i))) by lia.
  replace (off + 2 * Z.of_nat i) with (off + Z.of_nat (2 * i)) by lia.
  rewrite (Hin _ _ H1), (Hin _ _ H2). by apply le16_value.
Qed.

Lemma items_words_u16 p : Forall item_ok p -> Forall (fun w => is_u16 w) (words p).
Proof.
  unfold words. induction 1 as [|x p Hx Hp IH]; cbn [mbind list_bind]; [apply Forall_nil_2|].
  apply Forall_app. split; [|exact IH]. destruct x; [|apply Forall_nil_2].
  apply Forall_cons_2; [by destruct Hx | apply Forall_nil_2].
Qed.

(** A file of the assembler's format. *)
Lemma load_mcode n off bs m :
  is_u16 n -> is_u16 off -> Forall (fun b => is_u8 b) bs -> (length bs = 2 * Z.to_nat n)%nat ->
  off + 2 * n <= R0 -> mem_ok m ->
  forall rest, exists m', load_program_from_mcode (le16 n ++ le16 off ++ bs ++ rest) m = Done tt m' /\ mem_ok m' /\
    word R7 m' = off /\ (forall i c, bs !! i = Some c -> peek (off + Z.of_nat i) m' = c) /\
    (forall x, x < off \/ off + 2 * n <= x -> x <> R7 -> x <> R7 + 1 -> peek x m' = peek x m).
Proof.
  intros Hn Ho Hb Hl Hr Hm rest. unfold load_program_from_mcode, R0 in *.
  set (f := File (le16 n ++ le16 off ++ bs ++ rest) 0 false).
  assert (Hf : ahead f = n mod 256 :: n / 256 :: off mod 256 :: off / 256 :: bs ++ rest) by done.
  rewrite (fread2_ahead _ _ _ _ _ Hf). rewrite le16_value by done.
  rewrite (fread2_ahead _ (adv 2 f) _ _ (bs ++ rest)) by (by rewrite ahead_adv, Hf).
  rewrite le16_value, adv_adv by done. cbn [Nat.add]. rewrite u16_id by lia.
  replace (Z.to_nat (off + n * 2 - off)) with (length bs) by lia.
  destruct (load_bytes_ahead bs (adv 4 f) rest off 0 m) as (f' & m' & E & Hok & Hin & Hout);
    [by rewrite ahead_adv, Hf | done | done | lia | unfold R0; lia |].
  rewrite (bind_done _ _ _ _ _ E). exists (poke R7 off m').
  split; [apply word_write_eq; [done | unfold R7, MEMBYTES; lia | done]|].
  split; [apply poke_ok; [unfold R7, MEMBYTES; lia | done]|]. split; [by apply word_poke|].
  split.
  - intros i c Hi. assert (Z.of_nat i < Z.of_nat (length bs)) by (apply lookup_lt_Some in Hi; lia).
    unfold poke. rewrite !peek_poke_byte, !decide_False by (unfold R7; lia). by apply Hin.
  - intros x Hx H7 H8. unfold poke. rewrite !peek_poke_byte, !decide_False by done. apply Hout. lia.
Qed.
