(* ===== verification/AsmProps.v ===== *)
(** * Properties of the retired assembler

    What is assembled is what the emulator loads; every source comes to an end. *)
From S2P Require Import Prelude Digits Files AtticMemory AtticFacts AtticSafe AtticRegs AtticLoad.
From S2P Require Import AtticObj AtticAsm AtticAsmFacts.

(** C37: From the text to the memory.  A source of octal words, of at most seven
    digits each, and comments, closed by [.end], whose words end at or below 017400,
    where the registers are, assembles with status 0, and
    [load_program_from_mcode] puts its words at the load offset, in order, sets the
    PC to it and leaves every other byte below and above alone but the PC's.  Without
    the [.end] the same words are in the file, but its size field is 0: the loader
    loads nothing and starts the machine at the offset. *)
Theorem assembled_program_loads arg off p rest m :
  scan_u16 10 arg = Some off -> Forall item_ok p -> mem_ok m ->
  off + 2 * Z.of_nat (length (words p)) <= R0 ->
  (exists s m', main arg (program_text p ++ dot_end ++ newline :: rest) = Done (Some 0) s /\
    load_program_from_mcode (binary s) m = Done tt m' /\ mem_ok m' /\ word R7 m' = off /\
    (forall i w, words p !! i = Some w -> word (off + 2 * Z.of_nat i) m' = w) /\
    (forall x, x < off \/ off + 2 * Z.of_nat (length (words p)) <= x -> x <> R7 -> x <> R7 + 1 ->
       peek x m' = peek x m)) /\
  (exists s m', main arg (program_text p) = Done (Some 0) s /\
    binary s = le16 0 ++ le16 off ++ (words p ≫= le16) /\
    load_program_from_mcode (binary s) m = Done tt m' /\ word R7 m' = off /\
    forall x, x <> R7 -> x <> R7 + 1 -> peek x m' = peek x m).
Proof.
  intros Ha Hp Hm Hr. pose proof (items_words_u16 p Hp) as Hw. pose proof (le16s_bytes _ Hw) as Hb. pose proof (le16s_length (words p)) as Hlen.
  assert (Hoff : is_u16 off).
  { unfold scan_u16 in Ha. destruct (scan_unsigned 10 arg); [|done]. injection Ha as <-. apply u16_range. }
  unfold R0 in Hr. split.
  - destruct (main_end arg off Ha p Hp rest ltac:(lia)) as (s & E & Eb).
    destruct (load_mcode (Z.of_nat (length (words p))) off (words p ≫= le16) m ltac:(lia) Hoff Hb
      ltac:(lia) ltac:(unfold R0; lia) Hm []) as (m' & El & Hok & H7 & Hin & Hout).
    rewrite app_nil_r, <- Eb in El. exists s, m'. split_and!; try done.
    by apply words_from_bytes.
  - destruct (main_no_end arg off Ha p Hp) as (s & E & Eb).
    destruct (load_mcode 0 off [] m ltac:(lia) Hoff (Forall_nil_2 _) eq_refl ltac:(unfold R0; lia) Hm
      (words p ≫= le16)) as (m' & El & _ & H7 & _ & Hout).
    cbn [app] in El. change ([] ++ (words p ≫= le16)) with (words p ≫= le16) in El.
    rewrite <- Eb in El. exists s, m'. split_and!; try done. intros x H1 H2. apply Hout; [lia | done..].
Qed.


(** ** Witnesses: [012701], [;ab] and [000177] at 512 *)
Definition three_lines : list item := [Code 6 (oct! 012701); Comment [97; 98]; Code 6 (oct! 000177)].

Definition offset_512 : list Z := [53; 49; 50].

Lemma three_lines_ok : Forall item_ok three_lines.
Proof.
  repeat apply Forall_cons_2; [split; [lia | vm_compute; lia] | | split; [lia | vm_compute; lia] | apply Forall_nil_2].
  cbn. rewrite !not_elem_of_cons. split_and!; [done..|]. apply not_elem_of_nil.
Qed.

Lemma assembled_program_loads_witness : exists m0 s m',
  mem_ok m0 /\ main offset_512 (program_text three_lines ++ dot_end ++ newline :: []) = Done (Some 0) s /\
  load_program_from_mcode (binary s) m0 = Done tt m' /\ word 512 m' = oct! 012701 /\ word 514 m' = 127.
Proof.
  destruct (assembled_program_loads offset_512 512 three_lines [] started) as [(s & m' & E & El & _ & _ & Hw & _) _];
    [reflexivity | exact three_lines_ok | exact started_ok | unfold R0; cbn; lia |].
  exists started, s, m'. split_and!; [exact started_ok | exact E | exact El | |].
  - exact (Hw 0%nat _ eq_refl).
  - exact (Hw 1%nat _ eq_refl).
Defined.



