(* ===== verification/AgreeProps.v ===== *)
(** * The two emulators run a portable program alike

    The round of [run_machine] and the step of [execute] keep the relation [same]
    of [Agree]; so do the loops, for a program whose run is portable. *)
From S2P Require Import Prelude AtticMemory AtticAddressing AtticInstr AtticMachine.
From S2P Require Import AtticFacts AtticSafe AtticRegs AtticTty AtticPlaces Agree.
From S2P Require Import Digits AtticAsm AtticAsmFacts AtticLoad.
From S2P Require Load CpuProps Bus Cpu Instr CpuFacts CpuSpec CpuRegs Mem CpuMem CpuPlaces.
Import CpuPlaces(place, PReg, PMem, valid, low_even, get, move).
#[local] Existing Instances Mem.mem_bus Mem.mem_bus_ok CpuPlaces.place_eq_dec.

(** ** The fetch *)
Lemma fetched_same z m c d :
  same z m c d -> low_even (Cpu.pc c) = true ->
  same z (poke R7 (u16 (Cpu.pc c + 2)) (set_src (Cpu.pc c) m)) (fetched c d) d.
Proof.
  intros Hs He. assert (Hw : is_u16 (get (PMem (Cpu.pc c)) c d))
    by (apply CpuPlaces.get_valid; [apply Hs | apply Hs | done]).
  set (w := get _ _ _) in *.
  assert (H1 : same z (set_src (Cpu.pc c) m) (Cpu.with_ir w c) d).
  { eapply same_ext; [exact Hs | done | apply set_src_ok, Hs | | | by destruct c].
    - apply CpuFacts.with_ir_wf; [done | apply Hs].
    - intros [n|a] _; [|done]. cbn [get]. destruct (Cpu.register_ptr n); [apply CpuFacts.get_reg_with_ir | done]. }
  apply (same_move z 7 (Some (u16 (Cpu.pc c + 2)))); [lia | | done]. intros v [= <-]. apply u16_range.
Qed.

Lemma cpu_fetch c d :
  Mem.mem_wf d -> CpuFacts.cpu_wf c -> low_even (Cpu.pc c) = true ->
  Instr.execute_once (Cpu.Machine c d) = Instr.exec_instruction (Cpu.Machine (fetched c d) d).
Proof.
  intros Hd Hc He. unfold Instr.execute_once.
  pose proof (CpuPlaces.get_valid (PMem (Cpu.pc c)) c d Hc Hd He) as Hw.
  pose proof (CpuPlaces.fetch_place (PMem (Cpu.pc c)) c d Hd He) as Hf.
  rewrite (bind_done (Cpu.rd Cpu.pc) _ (Cpu.Machine c d) (Cpu.pc c) (Cpu.Machine c d) eq_refl), (bind_done _ _ _ _ _ Hf).
  rewrite (bind_done _ _ _ tt (Cpu.Machine (Cpu.with_ir (get (PMem (Cpu.pc c)) c d) c) d)) by done.
  by rewrite (bind_done _ _ _ tt (Cpu.Machine (fetched c d) d)) by by destruct c.
Qed.

Lemma attic_fetch al i h m :
  mem_ok m -> plain_word (word R7 m) ->
  (PC ← reg_get R_PC; on_mem (modify (set_src PC));; ir ← on_mem read_word; set_ir ir;;
   reg_word_advance R_PC;; exec_instruction) (Machine al i h m)
  = exec_instruction (Machine al (word (word R7 m) m) h (poke R7 (u16 (word R7 m + 2)) (set_src (word R7 m) m))).
Proof.
  intros Hm Hp. set (a := word R7 m) in *.
  rewrite (bind_done _ _ _ _ _ (reg_get_eq al i h m Hm R_PC)). change (translate_register R_PC) with R7. fold a.
  rewrite (bind_done _ _ _ _ _ (on_mem_done (modify (set_src a)) al i h m tt _ eq_refl)).
  assert (Hm' : mem_ok (set_src a m)) by by apply set_src_ok.
  assert (Hs : src (set_src a m) = a) by (apply u16_id, word_u16; done).
  rewrite (bind_done _ _ _ (word a m) (Machine al i h (set_src a m)))
    by (etransitivity; [apply src_word_eq; [done | by rewrite Hs] | by rewrite Hs]).
  rewrite (bind_done _ _ _ tt (Machine al (word a m) h (set_src a m)))
    by (unfold set_ir; cbn; by rewrite ?u16_id by (apply word_u16; done)).
  rewrite (bind_done _ _ _ _ _ (advance_eq al (word a m) h (set_src a m) Hm' 7 2)). done.
Qed.

(** ** The idle terminal *)
Lemma keyboard_quiet al i h m inp out :
  mem_ok m -> quiet m ->
  exec_tty_kb (Console (Machine al i h m) inp out)
  = Done tt (Console (Machine al i h (set_dest TKS_LOC (set_src TKS_LOC m))) inp out).
Proof.
  intros Hm (Q & _). unfold exec_tty_kb.
  rewrite (bind_done _ _ _ _ _ (on_memory_done (modify (set_src TKS_LOC)) _ _ _ _ _ _ _ _ eq_refl)).
  rewrite (bind_done _ _ _ _ _ (on_memory_done (modify (set_dest TKS_LOC)) _ _ _ _ _ _ _ _ eq_refl)).
  set (m1 := set_dest TKS_LOC (set_src TKS_LOC m)).
  assert (H1 : mem_ok m1) by (unfold m1; tty_ok).
  rewrite (bind_done _ _ _ 0 (Console (Machine al i h m1) inp out))
    by (apply on_memory_done; unfold read_word;
        rewrite (bind_done (gets src) _ m1 TKS_LOC m1 eq_refl), read_status by auto; by rewrite <- Q).
  done.
Qed.

Lemma same_terminal z m c d :
  same z m c d -> same z (after_printer (set_dest TKS_LOC (set_src TKS_LOC m))) c d.
Proof.
  intros Hs. assert (H0 : same z (set_dest TKS_LOC (set_src TKS_LOC m)) c d).
  { eapply same_ext; [exact Hs | done | apply set_dest_ok, set_src_ok, Hs | apply Hs | done | done]. }
  destruct H0 as [Hok Hc Hd Hp Hz Hq]. split; try done.
  - unfold after_printer. tty_ok.
  - intros p Hv. rewrite <- Hp by done. unfold after_printer. pose proof (attic_at_range p Hv) as Hr.
    unfold R8 in Hr. rewrite !word_poke_ne by tty_plain. done.
  - intros E. rewrite <- Hz by done. unfold after_printer. rewrite !word_poke_ne by (unfold R8; tty_plain). done.
  - destruct Hq as (Q1 & _). unfold quiet, after_printer.
    split_and!; repeat first [rewrite word_poke by (unfold TPS_READY; lia) | rewrite word_poke_ne by tty_plain]; done.
Qed.

(** ** One round *)
Lemma round_agrees z z' al i h m inp out c d :
  same z m c d -> portable z c d = Some z' ->
  exists al' i' h' m' c' d',
    machine_round (Console (Machine al i h m) inp out) = Done tt (Console (Machine al' i' h' m') inp out) /\
    Instr.execute_once (Cpu.Machine c d) = Done tt (Cpu.Machine c' d') /\
    same z' m' c' d' /\ (h' = h /\ Cpu.halted c' = Cpu.halted c \/ h' = true /\ Cpu.halted c' = 1).
Proof.
  intros Hs. unfold portable. destruct (low_even _) eqn:He; [|discriminate]. intros Hport.
  pose proof (same_places _ _ _ _ Hs (PReg 7) ltac:(cbn; lia)) as Hpc. change (word R7 m = Cpu.pc c) in Hpc.
  pose proof (same_places _ _ _ _ Hs (PMem (Cpu.pc c)) He) as Hi. cbn [attic_at] in Hi.
  pose proof (fetched_same z m c d Hs He) as Hf. set (c1 := fetched c d) in *.
  assert (Hir : Cpu.ir c1 = get (PMem (Cpu.pc c)) c d) by by destruct c.
  assert (Hh : Cpu.halted c1 = Cpu.halted c) by by destruct c.
  rewrite <- Hir in Hport.
  destruct (instruction_agrees z z' al h _ c1 d Hf Hport) as (al' & i' & h' & m' & c' & d' & Ea & Ec & Hs' & Hhalt).
  exists al', i', h', (after_printer (set_dest TKS_LOC (set_src TKS_LOC m'))), c', d'. split_and!.
  - unfold machine_round. erewrite bind_done.
    2:{ unfold on_cpu. cbn [cpu]. rewrite attic_fetch; [|apply Hs|].
        - rewrite Hpc, Hi, <- Hir. by rewrite Ea.
        - rewrite Hpc. exact (attic_at_plain (PMem _) He). }
    cbn [stdin stdout]. rewrite (bind_done _ _ _ _ _ (keyboard_quiet _ _ _ _ _ _ (same_ok _ _ _ _ Hs') (same_quiet _ _ _ _ Hs'))).
    destruct (same_quiet _ _ _ _ Hs') as (_ & Q2 & Q3).
    rewrite printer_closed; [|apply set_dest_ok, set_src_ok, Hs' | exact Q2].
    change (peek TPB_LOC (set_dest _ (set_src _ m'))) with (peek TPB_LOC m').
    rewrite (peek_word _ _ (same_ok _ _ _ _ Hs')), Q3. by rewrite app_nil_r.
  - by rewrite cpu_fetch by (apply Hs || done).
  - by apply same_terminal.
  - by rewrite <- Hh.
Qed.

(** ** Runs *)
Lemma run_agrees n : forall z al i h m inp out c d,
  same z m c d -> h = truth (Cpu.halted c) -> portable_run n z (Cpu.Machine c d) = true ->
  exists stopped z' k' c' d',
    run_machine n (Console (Machine al i h m) inp out) = Done stopped k' /\
    Instr.execute n (Cpu.Machine c d) = Done (if stopped : bool then Some tt else None) (Cpu.Machine c' d') /\
    same z' (mem (cpu k')) c' d' /\ HALTED (cpu k') = truth (Cpu.halted c') /\ stdin k' = inp /\ stdout k' = out.
Proof.
  induction n as [|n IH]; intros z al i h m inp out c d Hs -> Hp;
    cbn [run_machine Instr.execute portable_run Cpu.cs Cpu.bus] in *;
    rewrite (bind_done (gets _) _ _ (truth (Cpu.halted c)) (Console (Machine al i (truth (Cpu.halted c)) m) inp out) eq_refl);
    rewrite (bind_done (Cpu.rd Cpu.halted) _ (Cpu.Machine c d) (Cpu.halted c) (Cpu.Machine c d) eq_refl);
    destruct (truth (Cpu.halted c)) eqn:Eh.
  1, 3: exists true, z, (Console (Machine al i true (set_bus_shutdown true m)) inp out), c, d; split_and!; try done;
    eapply same_ext; [exact Hs | done | by destruct Hs as [[] ?] | apply Hs | done | done].
  - by exists false, z, (Console (Machine al i false m) inp out), c, d.
  - destruct (portable z c d) as [z1|] eqn:Ez; [|discriminate].
    destruct (round_agrees z z1 al i false m inp out c d Hs Ez)
      as (al1 & i1 & h1 & m1 & c1 & d1 & Ea & Ec & Hs1 & Hh).
    rewrite Ec in Hp. rewrite (bind_done _ _ _ _ _ Ea), (bind_done _ _ _ _ _ Ec).
    apply (IH z1); [done | | done]. by destruct Hh as [[-> ->]|[-> ->]].
Qed.

(** ** The same program in both *)
Lemma started_peek a : a <> TPS_LOC -> a <> TPS_LOC + 1 -> peek a started = 0.
Proof.
  intros H1 H2. unfold started, poke. rewrite !peek_poke_byte, !decide_False by done.
  unfold peek. rewrite set_effects_bytes, initial_bytes. by case_decide.
Qed.

(** A file of words at [off] for the retired emulator, and the words at [off] for
    the memory device: one layout of the places. *)
Lemma loaded_same off ws m d :
  Forall (fun w => is_u16 w) ws -> 0 <= off -> Z.even off = true -> off + 2 * Z.of_nat (length ws) <= 512 ->
  mem_ok m -> word R7 m = off ->
  (forall i w, ws !! i = Some w -> word (off + 2 * Z.of_nat i) m = w) ->
  (forall x, x < off \/ off + 2 * Z.of_nat (length ws) <= x -> x <> R7 -> x <> R7 + 1 -> peek x m = peek x started) ->
  d = Mem.Mem 0 0 (Load.put_words ws off (Mem.store CpuProps.mem0)) -> Mem.mem_wf d ->
  same true m (Cpu.with_reg Cpu.PC off Cpu.init_cpu) d.
Proof.
  intros Hw Hoff Hev Hl Hm Hpc Hin Hout Hd Hwf.
  assert (Z0 : forall b, 512 <= b -> b < TPS_LOC \/ TPS_LOC + 2 <= b -> b + 2 <= R7 \/ R7 + 2 <= b ->
    b <> TPS_LOC - 1 -> word b m = 0).
  { intros b H1 H2 H3 H4. unfold word. rewrite !Hout, !started_peek by (unfold R7, TPS_LOC in *; lia). done. }
  split; [done | apply CpuFacts.with_reg_wf; [lia | apply CpuFacts.init_cpu_wf] | done | | |].
  - intros [n|a] Hv.
    + cbn [attic_at get valid] in *. destruct (CpuRegs.register_ptr_some n) as [r Hr]; [lia|]. rewrite Hr.
      rewrite CpuFacts.get_with_reg. case_decide as E; [subst r|].
      * assert (n = 7) as -> by (apply (CpuPlaces.register_ptr_injective n 7 Cpu.PC); done). exact Hpc.
      * assert (n <> 7) by (intros ->; injection Hr as <-; done).
        rewrite translate_register_eq by lia. rewrite Z0 by (unfold R0, R7, TPS_LOC; lia). by destruct r.
    + cbn [attic_at get valid] in *. pose proof (CpuPlaces.low_even_range a Hv) as [Ha He].
      destruct (decide (off <= a < off + 2 * Z.of_nat (length ws))) as [Hi|Hi].
      * apply Z.even_spec in Hev as [k Hk].
        set (i := Z.to_nat ((a - off) / 2)).
        assert (Ei : a = off + 2 * Z.of_nat i) by (unfold i; mod_lia).
        destruct (lookup_lt_is_Some_2 ws i) as [w Ew]; [lia|].
        rewrite Ei, (Hin i w Ew), Hd. by rewrite (Load.put_words_at 0 0 ws off _ i w).
      * assert (E : a + 2 <= off \/ off + 2 * Z.of_nat (length ws) <= a) by (apply Z.even_spec in Hev as [k Hk]; mod_lia).
        transitivity 0; [unfold word; rewrite !Hout, !started_peek by (unfold R7, TPS_LOC; lia); done|].
        rewrite Hd. unfold Mem.word_at. cbn [Mem.store].
        assert (A : forall x, x = a \/ x = a + 1 ->
          Load.put_words ws off (Mem.store CpuProps.mem0) !! x = Some 0).
        { intros x Hx. destruct E; [rewrite Load.put_words_below by lia | rewrite Load.put_words_above by lia];
            unfold CpuProps.mem0; cbn [Mem.store Mem.init_mem]; rewrite array_lookup, decide_True by (unfold Mem.MEMBYTES; lia); done. }
        by rewrite !A by auto.
  - intros _. rewrite Z0 by (unfold R8, TPS_LOC, R7; lia). done.
  - unfold quiet. rewrite (Z0 TKS_LOC), (Z0 TPB_LOC) by (unfold TKS_LOC, TPB_LOC, TPS_LOC, R7; lia). split; [done|]. split; [|done].
    assert (word TPS_LOC m = word TPS_LOC started) as ->
      by (unfold word; rewrite !Hout by (unfold TPS_LOC, R7; lia); reflexivity).
    unfold started. rewrite word_poke by (unfold TPS_READY; lia). reflexivity.
Qed.

(** C29: Both emulators, from the source of a program.  A source of octal words and
    comments whose words lie below 512, from an even load offset, is assembled and
    loaded into the retired emulator, and its words are loaded into the memory device
    of the processor.  If the run of the processor from the load offset is portable,
    then neither emulator faults or waits, either both or none has halted after [n]
    rounds, the registers, the PC and SP and all even words below 512 are the same,
    and the terminal has neither taken nor printed a byte.  Portable: each of the
    first [n] instructions, up to a HALT, is fetched from an even address below 512
    and is HALT, BR, BEQ or BNE - the latter two while the Z flags are the same in
    both, which seven of the word instructions below end, and BNE with -64 to 63
    words only - or one of the seventeen word instructions CLR, COM, INC, DEC, NEG,
    SWAB, TST, ROR, ROL, ASR, ASL, MOV, CMP, BIT, BIC, BIS and ADD, with operands
    that are a register in mode 0, or a word at an even address below 512 in the
    modes 1, 2 and 4.  Not portable are therefore ADC and SBC, the other branches,
    subroutines and all byte instructions; a source operand in mode 0 that is the
    PC, which the retired emulator takes from another register; the modes 1 and 4
    on the PC; the modes 3, 5, 6 and 7; odd addresses; and everything from 512 on. *)
Theorem programs_agree arg off p rest n inp out :
  scan_u16 10 arg = Some off -> Z.even off = true -> Forall item_ok p -> off + 2 * Z.of_nat (length (words p)) <= 512 ->
  let c := Cpu.with_reg Cpu.PC off Cpu.init_cpu in
  let d := Mem.Mem 0 0 (Load.put_words (words p) off (Mem.store CpuProps.mem0)) in
  portable_run n true (Cpu.Machine c d) = true ->
  exists s m0 m stopped k' c' d',
    AtticAsm.main arg (program_text p ++ dot_end ++ newline :: rest) = Done (Some 0) s /\
    init_machine = Done tt m0 /\ load_program_from_mcode (binary s) m0 = Done tt m /\
    Load.load_words (words p) off CpuProps.mem0 = Done tt d /\
    run_machine n (Console (Machine 0 0 false m) inp out) = Done stopped k' /\
    Instr.execute n (Cpu.Machine c d) = Done (if stopped : bool then Some tt else None) (Cpu.Machine c' d') /\
    (forall r reg, 0 <= r <= 7 -> Cpu.register_ptr r = Some reg ->
       word (translate_register r) (mem (cpu k')) = Cpu.get_reg reg c') /\
    (forall a, 0 <= a <= 510 -> a mod 2 = 0 -> Mem.word_at d' a = Some (word a (mem (cpu k')))) /\
    HALTED (cpu k') = truth (Cpu.halted c') /\ stdin k' = inp /\ stdout k' = out.
Proof.
  intros Ha He Hp Hr c d Hport. pose proof (items_words_u16 p Hp) as Hw. pose proof (le16s_bytes _ Hw) as Hb.
  pose proof (le16s_length (words p)) as Hlen.
  assert (Hoff : is_u16 off).
  { unfold scan_u16 in Ha. destruct (scan_unsigned 10 arg); [|done]. injection Ha as <-. apply u16_range. }
  destruct (main_end arg off Ha p Hp rest ltac:(lia)) as (s & E & Eb).
  destruct (load_mcode (Z.of_nat (length (words p))) off (words p ≫= le16) started ltac:(lia) Hoff Hb
    ltac:(lia) ltac:(unfold R0; lia) started_ok []) as (m & El & Hok & H7 & Hin & Hout).
  rewrite app_nil_r, <- Eb in El.
  destruct (Load.load_words_in (words p) off CpuProps.mem0 CpuProps.mem0_wf Hw) as [Ed Hwf]; [lia | unfold Mem.MEMBYTES; lia|].
  assert (Hs : same true m c d).
  { apply (loaded_same off (words p)); try done; [lia|]. by apply (words_from_bytes _ _ _ Hw). }
  destruct (run_agrees n true 0 0 false m inp out c d Hs eq_refl Hport)
    as (b & z' & k' & c' & d' & Er & Ee & Hs' & Hh & Hi & Ho).
  exists s, started, m, b, k', c', d'. split_and!; try eassumption.
  - apply init_machine_eq.
  - intros r reg Hrr Hreg. pose proof (same_places _ _ _ _ Hs' (PReg r) Hrr) as H. cbn [get attic_at] in H.
    by rewrite Hreg in H.
  - intros a Ha1 Ha2. assert (Hv : valid (PMem a)).
    { cbn [valid]. unfold low_even. rewrite Zeven_mod, Ha2. apply andb_true_iff. split; [lia|done]. }
    rewrite (CpuPlaces.word_at_get a c' d' (same_mem _ _ _ _ Hs') Hv). f_equal. symmetry.
    exact (same_places _ _ _ _ Hs' (PMem a) Hv).
Qed.

(** ** Witness: the sum of 5, 4, ..., 1, stored at 32 *)
Definition sum_words : list Z :=
  [oct! 012700; 5; oct! 060001; oct! 005300; oct! 001375; oct! 012702; 32; oct! 010112; 0].

Definition sum_program : list item := Comment [115; 117; 109] :: map (Code 6) sum_words.

Lemma sum_program_ok : Forall item_ok sum_program.
Proof.
  apply Forall_cons_2; [cbn; rewrite !not_elem_of_cons; split_and!; [done..|]; apply not_elem_of_nil|].
  repeat apply Forall_cons_2; try apply Forall_nil_2; (split; [lia | vm_compute; lia]).
Qed.

Definition sum_start : Cpu.machine Mem.mem_dev :=
  Cpu.Machine (Cpu.with_reg Cpu.PC 256 Cpu.init_cpu) (Mem.Mem 0 0 (Load.put_words (words sum_program) 256 (Mem.store CpuProps.mem0))).

Lemma programs_agree_witness : exists k' c' d',
  Instr.execute 30 sum_start = Done (Some tt) (Cpu.Machine c' d') /\ Mem.word_at d' 32 = Some 15 /\
  word 32 (mem (cpu k')) = 15 /\ HALTED (cpu k') = true /\ stdin k' = [7] /\ stdout k' = [].
Proof.
  destruct (programs_agree [50; 53; 54] 256 sum_program [] 30 [7] [])
    as (s & m0 & m & stopped & k' & c' & d' & _ & _ & _ & _ & _ & Ee & _ & Hm & Hh & Hi & Ho);
    [reflexivity | reflexivity | exact sum_program_ok | cbn; lia | vm_compute; reflexivity |].
  assert (H : match Instr.execute 30 sum_start with
    | Done (Some _) s' => Mem.word_at (Cpu.bus s') 32 = Some 15 /\ Cpu.halted (Cpu.cs s') = 1 | _ => False end)
    by (vm_compute; split; reflexivity).
  fold sum_start in Ee. rewrite Ee in H. exists k', c', d'. destruct stopped; [|destruct H].
  destruct H as [H1 H2]. cbn [Cpu.bus Cpu.cs] in *. rewrite H2 in Hh.
  pose proof (Hm 32 ltac:(lia) eq_refl) as H3. rewrite H1 in H3. injection H3 as <-.
  split_and!; [exact Ee | exact H1 | reflexivity | exact Hh | exact Hi | exact Ho].
Defined.
