(* ===== verification/AtticProps.v ===== *)
(** * The retired emulator: properties

    What its rounds keep, how its instructions compare with those of
    [cpu/cpu.c], its terminal, its disk and its loaders. *)
From S2P Require Import Prelude Files Mem.
From S2P Require Import AtticMemory AtticAddressing AtticInstr AtticMachine.
From S2P Require Import AtticFacts AtticSafe AtticRegs AtticTty AtticDisk AtticDrive AtticLoad AtticObj.
From S2P Require Bus Cpu Instr CpuFacts CpuSpec CpuRegs CpuProps Disk DiskProps.

Definition start_machine (i : Z) : machine := Machine 0 i false started.

Lemma start_machine_ok i : is_u16 i -> machine_ok (start_machine i).
Proof. intros Hi. split; [cbn; lia | done | exact started_ok]. Qed.

(** ** Types and bounds *)
Definition kept_or_left (o : outcome console unit) : Prop :=
  match o with Done _ c => console_ok c | Blocked => False | Fault => True end.

(** A round of the machine - fetch, instruction, keyboard, printer - keeps
    every field in the range of its C type, the array with its bytes and the
    handler tables, for all instruction words and operands, or runs into an
    access outside the array; it never waits.  Such an access is exactly one at
    the last address and a half: the word accesses at 65534 and 65535 and the
    byte access at 65535, behind an array one byte short of 64K. *)
Theorem round_typed c m a :
  console_ok c -> mem_ok m -> is_u16 a ->
  kept_or_left (machine_round c) /\
  (direct_read_word a m = Fault <-> 65534 <= a) /\
  (direct_read_byte a m = Fault <-> 65535 <= a) /\
  (forall w, is_u16 w -> direct_write_word a w m = Fault <-> 65534 <= a) /\
  (forall b, direct_write_byte a b m = Fault <-> 65535 <= a).
Proof.
  intros Hc Hm Ha. split.
  { pose proof (partial_machine_round c Hc) as H. unfold kept_or_left. destruct (machine_round c); [apply H | done..]. }
  split_and!.
  - split; [|apply direct_read_word_fault, Hm]. intros H.
    destruct (decide (a < MEMBYTES - 1)); [|unfold MEMBYTES in *; lia].
    rewrite direct_read_word_eq in H by (done || lia). done.
  - split; [|apply direct_read_byte_fault, Hm]. intros H.
    destruct (decide (a < MEMBYTES)); [|unfold MEMBYTES in *; lia].
    rewrite direct_read_byte_eq in H by (done || lia). done.
  - intros w Hw. split; [|intros; apply direct_write_word_fault; unfold MEMBYTES; done || lia]. intros H.
    destruct (decide (a < MEMBYTES - 1)); [|unfold MEMBYTES in *; lia].
    rewrite direct_write_word_eq in H by (done || lia). done.
  - intros b. split; [|intros; by apply direct_write_byte_fault]. intros H.
    destruct (decide (a < MEMBYTES)); [|unfold MEMBYTES in *; lia].
    rewrite direct_write_byte_eq in H by (done || lia). done.
Qed.

(** Witness: the first round, which fetches 0 and halts. *)
Definition start_console (i : Z) (input : list Z) : console := Console (start_machine i) input [].

Lemma start_console_ok i input :
  is_u16 i -> Forall (fun b => is_u8 b) input -> console_ok (start_console i input).
Proof. intros. split; [by apply start_machine_ok | done | done]. Qed.

Lemma round_typed_witness :
  kept_or_left (machine_round (start_console 0 [65])) /\
  direct_read_word 65534 started = Fault.
Proof.
  destruct (round_typed (start_console 0 [65]) started 65534) as (H1 & H2 & _).
  - apply start_console_ok; [lia | repeat constructor; lia].
  - exact started_ok.
  - lia.
  - split; [exact H1 | apply H2; lia].
Defined.

(** ** The two emulators *)
Section Emulators.
Context {B : Type} {MB : Bus.MasterBus B}.

(** The registers of the two emulators, the status word included. *)
Definition same_registers (m : machine) (c : Cpu.cpu) : Prop :=
  forall n r, Cpu.register_ptr n = Some r -> reg_word n (mem m) = Cpu.get_reg r c.

(** C28: Both emulators take the same branches to the same places, for every
    status word, displacement and PC - except BNE, whose displacement the
    retired one cuts to eight bits: there the targets are equal as long as the
    displacement is within -64 to 63 words.  Nothing else changes but the ALU
    latch: in the retired one all bytes but the two of the PC, the addresses and
    tables of the memory, IR and the halt flag; in the other every other field and
    the bus. *)
Theorem branches_agree m c (b : B) f :
  machine_ok m -> IR m = Cpu.ir c -> same_registers m c ->
  CpuSpec.branch_condition (decode (IR m)) = Some f ->
  let offset := i8 (Z.land (IR m) 255) in
  exists m' c', exec_instruction m = Done tt m' /\
    Instr.exec_instruction (Cpu.Machine c b) = Done tt (Cpu.Machine c' b) /\
    (decode (IR m) <> Instr.m_BNE \/ -64 <= offset < 64 -> same_registers m' c') /\
    (IR m' = IR m /\ HALTED m' = HALTED m /\ mem m' = set_bytes (bytes (mem m')) (mem m) /\
     (forall x, x <> R7 -> x <> R7 + 1 -> bytes (mem m') !! x = bytes (mem m) !! x)) /\
    c' = Cpu.with_alu (Cpu.alu c') (Cpu.with_reg Cpu.PC (Cpu.pc c') c).
Proof.
  destruct m as [al i h m]. intros [_ _ Hm] Hi Hs Hf offset. cbn [IR AtticAddressing.mem] in *. subst i.
  destruct (branch_closed _ _ al (Cpu.ir c) h m Hm Hf) as [al' E].
  rewrite decode_same in Hf.
  destruct (CpuSpec.branch_refines _ _ (Cpu.Machine c b) Hf) as [a' E'].
  pose proof (Hs 8 Cpu.PSW eq_refl) as Hps. pose proof (Hs 7 Cpu.PC eq_refl) as Hpc.
  change (word R8 m = Cpu.psw c) in Hps. change (word R7 m = Cpu.pc c) in Hpc.
  unfold CpuSpec.branch_taken, CpuSpec.branch_target in E'. cbn [Cpu.cs Cpu.bus] in E'.
  cbv zeta in E. rewrite Hps, Hpc in E. change R7 with (translate_register 7) in E.
  do 2 eexists. split; [exact E|]. split; [exact E'|]. split; [|split]; cbn [AtticAddressing.mem].
  - intros Hd n r Hr. pose proof (CpuRegs.register_ptr_field _ _ Hr) as (Hn & _).
    pose proof (register_ptr_inj n r 7 Cpu.PC Hr eq_refl) as Hinj.
    rewrite CpuFacts.get_reg_with_alu, CpuFacts.get_with_reg.
    assert (Hdisp : displacement (decode (Cpu.ir c)) offset = 2 * offset).
    { pose proof (i8_range (Z.land (Cpu.ir c) 255)). fold offset in H.
      destruct (decode (Cpu.ir c)); try reflexivity.
      destruct Hd as [|Hd]; [done|]. cbn [displacement]. mod_lia. }
    fold offset. rewrite Hdisp.
    destruct (f _ _ _ _); cbn [AtticAddressing.mem].
    + rewrite reg_word_poke by (lia || apply u16_range).
      repeat case_decide; try tauto. by apply Hs.
    + case_decide as Hr'; [|by apply Hs]. subst r. by rewrite <- Hpc, (proj1 Hinj eq_refl).
  - cbv zeta. destruct (f _ _ _ _); [|split_and!; try done; by destruct m].
    split_and!; [done | done | by destruct m |]. intros x H1 H2. by apply bytes_poke_other.
  - by destruct c.
Qed.

(** The agreement of one result: register [d] and the zero flag. *)
Lemma same_after_effect m c c' m' d r x st z w :
  0 <= d <= 7 -> Cpu.register_ptr d = Some r -> same_registers m c ->
  operand_effect (translate_register d) x st z (mem m) (mem m') ->
  Cpu.get_reg r c' = (if st then x else Cpu.get_reg r c) ->
  Cpu.psw c' = CpuRegs.nz_psw w x (Cpu.psw c) ->
  (forall q, q <> r -> q <> Cpu.PSW -> Cpu.get_reg q c' = Cpu.get_reg q c) ->
  (forall n q, 0 <= n <= 7 -> Cpu.register_ptr n = Some q -> reg_word n (mem m') = Cpu.get_reg q c') /\
  (z = true -> Z.testbit (reg_word 8 (mem m')) 2 = CpuSpec.zero (Cpu.psw c')).
Proof.
  intros Hd Hr Hs F Hg Hp Ho. split.
  - intros n q Hn Hq. rewrite (effect_registers _ _ _ _ _ _ Hd F n Hn).
    pose proof (register_ptr_inj n q d r Hq Hr) as Hinj. case_decide as E.
    + apply Hinj in E as ->. rewrite Hg. destruct st; [done | by apply Hs].
    + rewrite Ho; [by apply Hs | tauto |]. apply (CpuRegs.field_ptr_not_psw n q Hq). lia.
  - intros Hz. rewrite Hp. unfold CpuRegs.nz_psw, CpuSpec.zero.
    rewrite CpuSpec.set_zero_flag_psw_eq. change (reg_word 8 (mem m')) with (word R8 (mem m')).
    rewrite (oe_zero _ _ _ _ _ _ F Hz).
    destruct (x =? 0); [by rewrite Z.setbit_eqb | by rewrite Z.clearbit_eqb, andb_false_r].
Qed.

(** The rows of the instructions the emulators agree on. *)
Lemma agreed_rows k z :
  agreed k = Some z ->
  (exists e, CpuSpec.single_table k = Some e /\ CpuSpec.double_table k = None /\
     CpuSpec.so_width e = CpuSpec.W16 /\ CpuSpec.so_result e <> CpuSpec.StoreByte) \/
  (exists e, CpuSpec.double_table k = Some e /\ CpuSpec.do_width e = CpuSpec.W16).
Proof.
  destruct k; try discriminate; intros _;
    first [left; eexists; split; [reflexivity | done] | right; eexists; split; [reflexivity | done]].
Qed.

(** On register operands nineteen word instructions compute the same in
    both emulators: started with equal registers they end with equal general
    registers, SP and PC, and where the retired emulator sets Z at all, with the
    same Z.  A source operand in the PC is excluded: the retired emulator takes
    it from the register of the destination field. *)
Theorem registers_agree m c (b : B) z :
  machine_ok m -> CpuFacts.cpu_wf c -> IR m = Cpu.ir c -> same_registers m c ->
  agreed (decode (IR m)) = Some z -> mode_of Dest (IR m) = 0 ->
  (is_Some (CpuSpec.double_table (decode (IR m))) -> mode_of Src (IR m) = 0 /\ reg_of Src (IR m) <> 7) ->
  exists m' c', exec_instruction m = Done tt m' /\
    Instr.exec_instruction (Cpu.Machine c b) = Done tt (Cpu.Machine c' b) /\
    (forall n r, 0 <= n <= 7 -> Cpu.register_ptr n = Some r -> reg_word n (mem m') = Cpu.get_reg r c') /\
    (z = true -> Z.testbit (reg_word 8 (mem m')) 2 = CpuSpec.zero (Cpu.psw c')).
Proof.
  destruct m as [al i h m]. intros [_ _ Hm] Hc Hi Hs Hz Hd Hsrc.
  cbn [IR AtticAddressing.mem] in *. subst i. set (i := Cpu.ir c) in *.
  pose proof (reg_of_dest_range i) as Hdr.
  destruct (CpuRegs.register_ptr_some (reg_of Dest i) ltac:(lia)) as [rd Hrd].
  pose proof (Hs _ _ Hrd) as Hv. pose proof (Hs 8 Cpu.PSW eq_refl) as Hps.
  pose proof (proj1 Hc rd) as Hrd16. cbn [AtticAddressing.mem] in Hv, Hps.
  change (Cpu.get_reg Cpu.PSW c) with (Cpu.psw c) in Hps.
  destruct (agreed_rows _ _ Hz) as [(e & He & Hne & Hw & Hst)|(e & He & Hw)].
  - destruct (single_register _ e z al i h m He Hz Hm Hd) as (al' & m' & E & F).
    destruct (CpuRegs.single_register_result e c b rd Hc He Hd Hrd) as (c' & E' & Hg & Hp & Ho).
    rewrite Hw in Hg, Hp. cbn [CpuSpec.operand] in Hg, Hp.
    rewrite (u16_id (if CpuSpec.so_fetches e then Cpu.get_reg rd c else 0)) in Hg, Hp by (destruct (CpuSpec.so_fetches e); done || lia).
    rewrite Hps, Hv in F. change Cpu.CARRYFLAG with 1 in Hg, Hp.
    exists (Machine al' i h m'), c'. split_and!; [exact E | exact E' | ..];
      destruct (same_after_effect (Machine al i h m) c c' (Machine al' i h m') _ _ _ _ _ _
        Hdr Hrd Hs F ltac:(rewrite Hg; by destruct (CpuSpec.so_result e)) Hp Ho); assumption.
  - destruct (Hsrc (ex_intro _ e He)) as [Hsm H7].
    assert (Hsr : 0 <= reg_of Src i <= 7) by apply CpuRegs.src_reg_field_range.
    destruct (CpuRegs.register_ptr_some (reg_of Src i) ltac:(lia)) as [rs Hrs].
    pose proof (Hs _ _ Hrs) as Hvs. cbn [AtticAddressing.mem] in Hvs. pose proof (proj1 Hc rs).
    destruct (double_register _ e z al i h m He Hz Hm Hd Hsm H7) as (al' & m' & E & F).
    destruct (CpuRegs.double_register_result e c b rs rd Hc He Hsm Hd Hrs Hrd) as (c' & E' & Hg & Hp & Ho).
    rewrite Hw in Hg, Hp. cbn [CpuSpec.operand] in Hg, Hp.
    rewrite Hvs, Hv in F. clear Hvs Hv.
    set (y := match CpuSpec.do_order e with CpuSpec.SrcOnly => 0 | _ => Cpu.get_reg rd c end) in *.
    assert (is_u16 y) by (unfold y; destruct (CpuSpec.do_order e); lia).
    rewrite !(u16_id (Cpu.get_reg rs c)), !(u16_id y) in Hg, Hp by done. rewrite u16_u16 in Hg.
    exists (Machine al' i h m'), c'. split_and!; [exact E | exact E' | ..];
      destruct (same_after_effect (Machine al i h m) c c' (Machine al' i h m') _ _ _ _ _ _
        Hdr Hrd Hs F Hg Hp Ho); assumption.
Qed.
End Emulators.

(** Both emulators at the start, with the instruction [i]. *)
Lemma started_register n : 0 <= n <= 8 -> reg_word n started = 0.
Proof.
  intros Hn. unfold reg_word, started. rewrite translate_register_eq by done.
  rewrite word_poke_ne by (unfold R0, TPS_LOC; lia). unfold word, peek.
  rewrite set_effects_bytes, !initial_bytes.
  rewrite !decide_True by (unfold R0, MEMBYTES; lia). done.
Qed.

Lemma started_same i : same_registers (start_machine i) (CpuProps.cpu_at 0 i).
Proof.
  intros n r Hr. pose proof (CpuRegs.register_ptr_field _ _ Hr) as (Hn & _).
  change (reg_word n started = Cpu.get_reg r (CpuProps.cpu_at 0 i)).
  rewrite started_register by done. by destruct r.
Qed.

(** BNE .-2 at PC 0, with Z clear: both go to 177774. *)
Lemma branches_agree_witness :
  exists m' c', exec_instruction (start_machine (oct! 001376)) = Done tt m' /\
    Instr.exec_instruction (Cpu.Machine (CpuProps.cpu_at 0 (oct! 001376)) CpuProps.mem0)
    = Done tt (Cpu.Machine c' CpuProps.mem0) /\ same_registers m' c'.
Proof.
  destruct (branches_agree (start_machine (oct! 001376)) (CpuProps.cpu_at 0 (oct! 001376))
    CpuProps.mem0 (fun n z v c => negb z)) as (m' & c' & H1 & H2 & H3 & _).
  - apply start_machine_ok. lia.
  - reflexivity.
  - apply started_same.
  - reflexivity.
  - exists m', c'. split_and!; [exact H1 | exact H2 | apply H3; right; vm_compute; split; congruence].
Defined.

(** COM R1 *)
Lemma registers_agree_witness :
  exists m' c', exec_instruction (start_machine (oct! 005101)) = Done tt m' /\
    Instr.exec_instruction (Cpu.Machine (CpuProps.cpu_at 0 (oct! 005101)) CpuProps.mem0)
    = Done tt (Cpu.Machine c' CpuProps.mem0) /\
    reg_word 1 (mem m') = Cpu.get_reg Cpu.R1 c'.
Proof.
  destruct (registers_agree (start_machine (oct! 005101)) (CpuProps.cpu_at 0 (oct! 005101))
    CpuProps.mem0 false) as (m' & c' & H1 & H2 & H3 & _).
  - apply start_machine_ok. lia.
  - apply CpuProps.cpu_at_wf; lia.
  - reflexivity.
  - apply started_same.
  - reflexivity.
  - reflexivity.
  - intros [e He]. discriminate.
  - exists m', c'. split_and!; [exact H1 | exact H2 | apply (H3 1 Cpu.R1); [lia | reflexivity]].
Defined.

(** ** The terminal *)

(** C30: A program that asks for a byte (RDRENB in TKS), reads it from TKB and
    writes it to TPB, once per byte of the input, prints exactly the input
    without its NUL bytes, in order, and leaves the printer ready.  At the end of
    the input it goes on, and every further turn prints the byte 377 and leaves no
    byte pending and no flag set in TKS. *)
Theorem tty_echo al i h m inp :
  tty_idle m -> Forall (fun b => is_u8 b) inp ->
  exists m', tty_idle m' /\
    echo (length inp) (Console (Machine al i h m) inp [])
    = Done tt (Console (Machine al i h m') [] (List.filter (fun b => negb (b =? 0)) inp)) /\
    forall out, exists m'', tty_idle m'' /\ word TKS_LOC m'' = 0 /\ word TKB_LOC m'' = 0 /\
      echo_once (Console (Machine al i h m') [] out)
      = Done tt (Console (Machine al i h m'') [] (out ++ [oct! 377])).
Proof.
  intros Hm Hi. destruct (echo_closed al i h inp m [] Hm Hi) as (m' & H' & E).
  exists m'. split_and!; [done | exact E |].
  intros out. exact (echo_once_closed al i h m' [] out H' ltac:(constructor)).
Qed.

Lemma started_idle : tty_idle started.
Proof. split; [exact started_ok|]. unfold started. by rewrite word_poke by (unfold TPS_READY; lia). Qed.

(** The input H, NUL, I. *)
Lemma tty_echo_witness :
  exists m', echo 3 (Console (start_machine 0) [72; 0; 73] [])
    = Done tt (Console (Machine 0 0 false m') [] [72; 73]).
Proof.
  destruct (tty_echo 0 0 false started [72; 0; 73]) as (m' & _ & E & _).
  - exact started_idle.
  - repeat constructor; lia.
  - exists m'. exact E.
Defined.

(** ** The disk *)

(** C31: A driver that keeps the protocol - fill the buffer through RXDB, write
    the sector; later fill the buffer with something else and read the sector -
    finds its 128 bytes in the buffer again, and the image differs from what it
    was only in that sector, for every sector and track number, however many
    rounds (three at least) the controller runs between two accesses.  The drive
    is idle with DONE set afterwards, and no word below its registers has
    changed.  But the driver that then empties the buffer receives the numbers
    0 to 127, whatever the buffer holds. *)
Theorem disk_conversation k m t0 s0 buf img bs other s t :
  (3 <= k)%nat -> mem_ok m -> length buf = 128%nat ->
  length bs = 128%nat -> Forall (fun b => is_u8 b) bs ->
  length other = 128%nat -> Forall (fun b => is_u8 b) other -> is_u8 s -> is_u8 t ->
  let off := 3328 * t + 128 * s in
  let d := Disk buf 0 t0 s0 F_IDLE S_BEGIN (Some img) in
  let d' := Disk bs 0 0 0 F_IDLE S_BEGIN (Some (Disk.file_write off bs img)) in
  exists m1 m2,
    (fill k bs;; write_at k s t;; fill k other;; read_at k s t) (Controller d m)
      = Done tt (Controller d' m1) /\
    empty k (Controller d' m1) = Done (seqZ 0 128) (Controller d' m2) /\
    word RXCS m1 = RXCS_DONE /\ (forall a, a + 2 <= RXCS -> word a m1 = word a m).
Proof.
  intros Hk Hm Hbuf Hbs Hb Ho Hob Hs Ht off d d'. set (img' := Disk.file_write off bs img) in *.
  assert (Hr : Disk.file_read off 128 img' = bs).
  { change 128 with (Z.of_nat 128). rewrite <- Hbs. apply DiskProps.file_read_write. unfold off; lia. }
  assert (H : runs (fill k bs;; write_at k s t;; fill k other;; read_at k s t)
    (idle buf t0 s0 (word RXCS m) (peek RXDB m) (Some img)) tt
    (idle bs 0 0 RXCS_DONE t (Some img'))).
  { eapply runs_bind; [by apply fill_runs|]. eapply runs_bind; [by apply write_at_runs|].
    eapply runs_bind; [by apply fill_runs|].
    eapply runs_to; [by apply read_at_runs|]. change (sector_offset s t) with off.
    fold img'. rewrite Hr. f_equal. rewrite skipn_all2, app_nil_r; [done | lia]. }
  destruct (H m m) as (m1 & E1 & H1); [by split|].
  destruct (empty_runs k Hk bs 0 0 RXCS_DONE t (Some img') m m1 H1) as (m2 & E2 & _).
  exists m1, m2. split_and!; [exact E1 | exact E2 | apply H1 | apply H1].
Qed.

(** A sector of sevens, read back over a sector of zeros. *)
Lemma disk_conversation_witness :
  exists m1, (fill 3 (replicate 128 7);; write_at 3 2 1;; fill 3 (replicate 128 0);; read_at 3 2 1)
    (Controller (new_disk (Some [])) started)
  = Done tt (Controller (Disk (replicate 128 7) 0 0 0 F_IDLE S_BEGIN
      (Some (replicate 3584 0 ++ replicate 128 7))) m1).
Proof.
  destruct (disk_conversation 3 started 0 0 (replicate 128 0) [] (replicate 128 7)
    (replicate 128 0) 2 1) as (m1 & m2 & E & _).
  - lia.
  - exact started_ok.
  - reflexivity.
  - reflexivity.
  - apply Forall_replicate. lia.
  - reflexivity.
  - apply Forall_replicate. lia.
  - lia.
  - lia.
  - exists m1. exact E.
Defined.

(** ** Object files *)

(** C36: Loading an object file.  The lengths of its blocks count everything but the
    checksum ([text_block], [block_bytes]), as the code has it.  Any blocks of other
    kinds, then a text block whose words end at or below 017400, where the registers
    are, then anything: the words of the text block are put at its address, the
    address into the PC, and no other word changes, whatever the reader's variables
    held before; a file of other blocks loads nothing (if the reader's
    uninitialised byte was not 3, the tag of a text block).  In the format
    [notes/obj.md] describes the length counts the checksum too.  Of such a text
    block at the head of a file, with a byte behind it, a word too many is loaded,
    made of the checksum and that byte (below the registers, as the others), and of
    such a block of another kind a byte too many is skipped. *)
Theorem obj_loaded j addr ws m :
  8 + 2 * Z.of_nat (length ws) < 65535 -> Forall (fun w => is_u16 w) ws ->
  0 <= addr -> mem_ok m ->
  (forall bs rest, Forall block_ok bs -> addr + 2 * Z.of_nat (length ws) <= R0 ->
    exists m', load_program_from_obj j ((bs ≫= block_bytes) ++ text_block addr ws ++ rest) m = Done tt m' /\
    mem_ok m' /\ reg_word 7 m' = addr /\
    (forall i w, ws !! i = Some w -> word (addr + 2 * Z.of_nat i) m' = w) /\
    (forall b, b + 2 <= addr \/ addr + 2 * Z.of_nat (length ws) <= b -> apart R7 b ->
       word b m' = word b m)) /\
  (forall bs, Forall block_ok bs -> j_byte j <> 3 -> load_program_from_obj j (bs ≫= block_bytes) m = Done tt m) /\
  (forall ck b rest, is_u8 ck -> is_u8 b -> addr + 2 * Z.of_nat (length ws) + 2 <= R0 ->
    exists m', load_program_from_obj j (documented_text addr ws ck ++ b :: rest) m = Done tt m' /\
    (forall i w, ws !! i = Some w -> word (addr + 2 * Z.of_nat i) m' = w) /\
    word (addr + 2 * Z.of_nat (length ws)) m' = ck + 256 * b) /\
  (forall blk b l f, tag blk <> 3 -> 6 + Z.of_nat (length (payload blk)) < 65536 ->
    ahead f = documented_block blk ++ b :: l -> exists n, is_text_block j f = (false, adv n f) /\ ahead (adv n f) = l).
Proof.
  intros Hl Hw Ha Hm. split_and!.
  - intros bs rest Hb Hr. unfold text_block. apply load_obj_places; done || lia || mod_lia.
  - intros bs Hb Hj. by apply load_obj_nothing.
  - intros ck b rest Hc Hb Hr. rewrite documented_text_read by done.
    destruct (load_obj_places j [] (9 + 2 * Z.of_nat (length ws)) addr (ws ++ [ck + 256 * b]) rest m)
      as (m' & E & _ & _ & Hin & _);
      [done | lia | rewrite length_app; cbn; mod_lia | apply Forall_app_2, Forall_singleton; [done | lia]
      | done | rewrite length_app; cbn; lia | done |].
    exists m'. split; [exact E|]. split.
    + intros i w Hi. by apply Hin, lookup_app_l_Some.
    + apply Hin. by rewrite lookup_app_r, Nat.sub_diag by lia.
  - intros blk b l f Ht Hp H. rewrite documented_block_read in H. eapply is_text_block_other; [|exact H].
    split; [done|]. cbn [payload]. rewrite length_app. cbn. lia.
Qed.

(** A block of two other bytes, then MOV R0, R1 and HALT for address 1000. *)
Lemma obj_loaded_witness :
  (exists m', load_program_from_obj (Junk 0 0 0)
      (([Block 1 [5; 6] 0] ≫= block_bytes) ++ text_block 512 [oct! 010001; 0] ++ [99]) started = Done tt m' /\
    word 512 m' = oct! 010001) /\
  exists m', load_program_from_obj (Junk 0 0 0) (documented_text 512 [oct! 010001; 0] 7 ++ [1; 0]) started = Done tt m' /\
    word 516 m' = 7 + 256 * 1.
Proof.
  destruct (obj_loaded (Junk 0 0 0) 512 [oct! 010001; 0] started) as (H1 & _ & H3 & _);
    [reflexivity | repeat constructor; lia | lia | exact started_ok |].
  split.
  - destruct (H1 [Block 1 [5; 6] 0] [99]) as (m' & E & _ & _ & H & _);
      [repeat constructor; vm_compute; congruence | vm_compute; discriminate |].
    exists m'. split; [exact E | apply (H 0%nat); reflexivity].
  - destruct (H3 7 1 [0]) as (m' & E & _ & H); [lia | lia | vm_compute; discriminate |].
    exists m'. split; [exact E | exact H].
Defined.
