(* ===== verification/SampleProps.v ===== *)
(** * A sample program from its text to its output

    [asm/mcode/echo.mcode] goes through the retired assembler ([AtticAsm]), the
    loader ([AtticLoad]) and the machine loop with its terminal ([AtticMachine]).
    The program is concrete, so all three run by evaluation, once for every byte
    that can be typed. *)
From S2P Require Import Prelude Digits.
From S2P Require AtticAddressing AtticMachine AtticLoad AtticSafe AtticAsm.
From Stdlib Require Import String.
#[local] Open Scope Z_scope.

(** ** echo.mcode *)
Definition lines (l : list String.string) : list Z := l ≫= fun s => (chars s ++ [newline])%list.

Definition echo_mcode : list Z :=
  lines [";INC TKS"; ";MOVB TKB, TPB"; ";"; "; Echo a single character."; ";";
         "0005237"; "0017500"; "0013737"; "0017502"; "0017506"; ".end"]%string.

(** The emulator after the start, the memory loaded with [binary]. *)
Definition booted (binary : list Z) (inp : list Z) : option AtticMachine.console :=
  match AtticLoad.load_program_from_mcode binary AtticSafe.started with
  | Done _ m => Some (AtticMachine.Console (AtticAddressing.Machine 0 0 false m) inp [])
  | _ => None
  end.

(** The text printed and HALTED after at most [n] rounds. *)
Definition printed_by (n : nat) (binary inp : list Z) : option (list Z * bool) :=
  match booted binary inp with
  | Some c =>
      match AtticMachine.run_machine n c with
      | Done true c => Some (AtticMachine.stdout c, AtticAddressing.HALTED (AtticMachine.cpu c))
      | _ => None
      end
  | None => None
  end.

Definition echo_binary : list Z := (le16 5 ++ le16 512 ++ ([2719; 8000; 6111; 8002; 8006] ≫= le16))%list.

Definition echoes (rest : list Z) (b : Z) : bool :=
  bool_decide (printed_by 3 echo_binary (b :: rest) = Some ((if b =? 0 then [] else [b])%list, true)).

Definition assembled (load_offset src : list Z) : option (list Z) :=
  match AtticAsm.main load_offset src with Done (Some 0) s => Some (AtticAsm.binary s) | _ => None end.

Lemma echo_all_bytes rest : forallb (echoes rest) (seqZ 0 256) = true.
Proof. vm_compute. reflexivity. Qed.

Lemma echoes_byte rest b : echoes rest b = true ->
  printed_by 3 echo_binary (b :: rest) = Some ((if b =? 0 then [] else [b])%list, true).
Proof. unfold echoes. apply bool_decide_eq_true_1. Qed.

(** A sample program from its text to its output.  [asm/mcode/echo.mcode],
    assembled for the load offset 512 and loaded, halts in its third round and has
    printed the first byte of the input, whatever it is and whatever follows - but
    nothing if it is NUL; at the end of the input it prints the byte 0377. *)
Theorem echo_mcode_echoes :
  assembled (chars "512") echo_mcode = Some echo_binary /\
  (forall b rest, 0 <= b < 256 ->
    printed_by 3 echo_binary (b :: rest) = Some ((if b =? 0 then [] else [b])%list, true)) /\
  printed_by 3 echo_binary [] = Some ([oct! 377], true).
Proof.
  split; [vm_compute; reflexivity | split; [| vm_compute; reflexivity]].
  intros b rest Hb. apply echoes_byte.
  pose proof (echo_all_bytes rest) as H. rewrite forallb_forall in H.
  apply H, list_elem_of_In, elem_of_seqZ. lia.
Qed.

Lemma echo_mcode_echoes_witness :
  exists binary, assembled (chars "512") echo_mcode = Some binary /\ printed_by 3 binary [65; 66] = Some ([65], true).
Proof.
  exists echo_binary. split; [apply echo_mcode_echoes |]. apply echo_mcode_echoes. lia.
Defined.
